(* ===== verification/_CoqProject ===== *)
-Q . S2P
Prelude.v
Posix.v
Process.v
LogStream.v
Timestamp.v
Logging.v
SocketsOps.v
Socket.v
Buffer.v
Callbacks.v
Channel.v
LoopThread.v
Wakeup.v
EventLoopThread.v
EventLoopThreadPool.v
Poller.v
EpollPoller.v
PollPoller.v
Pollers.v
Timer.v
Reactor.v
Acceptor.v
TimerQueue.v
EventLoop.v
Connector.v
TcpConnection.v
Lifetime.v
Ownership.v
LoopOwnership.v
Loops.v
TcpServer.v
ServerLife.v
TcpClient.v
ClientLife.v
Dispatch.v
TaskQueue.v
Echo.v
