(* ===== verification/Prelude.v ===== *)
(** * twnl: a verification development of the reactor network library

    ** The program

    twnl is a reactor library for TCP on Linux, written after muduo.  An
    [EventLoop] owns a poller (epoll or poll), a timer queue and a queue of tasks,
    and runs in one thread.  A [Channel] is a descriptor with the events it waits
    for and its callbacks; the loop asks its poller which channels are ready and
    lets them handle their events.  On top of that, an [Acceptor] takes
    connections for a [TcpServer], which deals them to the loops of an
    [EventLoopThreadPool]; a [Connector] opens the connection of a [TcpClient];
    a [TcpConnection] moves bytes between a socket and two [Buffer]s.  Other
    threads reach a loop only through [runInLoop] and [queueInLoop], which store a
    task and write a wake-up descriptor.  [Log/] formats log lines.

    ** How the model is laid out

    Every file below names the sources it models.  Code becomes a computation of
    the monad [M] of this file, over an explicit state, which ends in [Ok] with a
    result and a state or in [Err] with a [fault]: a failed [assert], [abort()], an
    undefined behaviour the model tracks (a dead object, an index outside an
    array, a signed overflow, an uninitialised pointer) or an exception of the
    standard library.  [wp m Q s] says that [m] runs from [s] without a fault and
    ends in [Q].  A component works on its part of a larger state through a [lens].
    [Build] says whether [NDEBUG] is defined; theorems hold for both builds unless
    they say otherwise.  An object reached by pointer lives in a heap ([gmap] by
    address), so that aliasing and use after free are visible; a [std::function]
    is one of the constructors of [Callbacks.v], and the component that owns it
    says what running it means.

    - [Prelude]: faults, the monad, its weakest preconditions and their rewrite
      base [wp], lenses, transition systems, vectors, machine integers.
    - [Posix], [Process]: the system calls.  They are parameters, grouped in
      classes, with their documented behaviour in the [...Laws] classes; two
      concrete kernels that satisfy the laws run the witnesses.
    - [LogStream], [Timestamp], [Logging]: Log/LogStream, Timestamp.h (the clock, its
      text and the interval types) and Log/Logging, from a macro to the calls on
      [stdout]; the functions lines go to are the class [Sinks].
    - [SocketsOps], [Socket]: SocketsOps, InetAddress, Socket; [Socket] has the
      arrays addresses are printed into, the class [Socket] and the build without
      [accept4].
    - [Buffer]: Buffer.h, Buffer.cc.
    - [Callbacks]: Callbacks.h and every [std::bind] of the sources.
    - [Channel]: Channel.h, Channel.cc, over the interface [ChannelHost] of its
      loop.
    - [LoopThread]: the thread check of EventLoop.h.
    - [Wakeup]: the task queue of EventLoop.cc under any number of threads, as a
      step function; the sequential effects of the same functions are in
      [Reactor], and [TaskQueue] shows that they are the same.
    - [EventLoopThread]: both threads of EventLoopThread.cc, step by step.
    - [EventLoopThreadPool]: EventLoopThreadPool.cc.
    - [Poller]: Poller.h; the interface [PollerOps] and the contract
      [PollerContract], an abstract poller that is a table and a watched set, with
      [PollReports] for what a poll may report.
    - [EpollPoller], [PollPoller]: the two implementations, each an instance of
      the contract; [Pollers]: the factory of Poller.cc and their equivalence.
    - [Timer], [TimerQueue]: Timer.h, TimerQueue.cc.
    - [Reactor]: the state of an [EventLoop], its tasks and its channels;
      [EventLoop]: its timers, constructor, destructor and [loop()].
    - [Acceptor], [Connector], [TcpConnection]: the sources of the same names,
      against [PollerContract] only, so for both pollers.
    - [Lifetime]: the shared pointers to a connection of a server or of a client,
      under every interleaving of its loop, the loop of the server and the threads
      of the user, with the code of TcpConnection.cc, TcpServer.cc, TcpClient.cc
      and EpollPoller.cc that takes and drops them; [Ownership], [LoopOwnership], [ServerLife] and
      [ClientLife]: the functions of [TcpConnection], [TcpServer] and [TcpClient]
      refine it.
    - [Loops]: several loops of one process; [visit] is a call on another loop,
      [switch] the turn of another thread.
    - [TcpServer]: TcpServer.cc over several loops; [TcpClient]: TcpClient.cc on
      one.
    - [Dispatch]: one turn of the loop through poller, channel and connection.
    - [Echo]: example/echo.cc, the whole program.

    ** What the theorems show

    - Data: the buffer is a queue of bytes under any sequence of operations within
      their preconditions ([Buffer.buffer_refines_queue]); a read appends what the
      kernel delivered when it has room, and a segment of the wrong size writes out
      of bounds ([readFd_outcome]; [grow] says which sizes have room); the
      edge-triggered loop ends ([readFdET_drains]).  A log
      stream holds whole items or nothing, integers print and parse back, and a
      macro calls the output function once with one line ([LogStream], [Logging]).
      Addresses are printed inside the array of the caller ([Socket]).
    - Events: [Channel] keeps its mask ([LT_flags]) and runs the callbacks the
      reported bits call for ([handleEvent_dispatch]).  Each poller refines the
      abstract one ([..._refines], [..._poll_reports]) and the two cannot be told
      apart ([Pollers.pollers_interchangeable]).
    - Time: expired timers run in order and are re-armed or freed, the descriptor
      is armed for the earliest ([TimerQueue]); a timer that cancels itself is used
      after it is freed.
    - Tasks and threads: no task is lost, doubled or reordered and no wake-up is
      missed under any interleaving ([tasks_run_once_in_order]), and every task is
      inevitably run ([queued_tasks_run]); a turn of the code is a run of those steps
      ([TaskQueue.loop_turn_refines]), for handlers and tasks that touch the queue
      only through [queueInLoop] and [handleRead]; [doPendingFunctors] leaves what
      tasks queue for the next round; [loop()] returns after the iteration that
      quits; [startLoop()] returns, and returns a living loop, as long as no task
      quits the loop before ([EventLoopThread]); the pool is a round robin.
    - Connections: what [sendInLoop] hands over, buffers and drops, for every result of
      the write ([sendInLoop_outcome]); flushing and the half close; reading, closing
      and the end of a stream, in both modes ([handleRead_outcome]); the states only
      move forward under any sequence of calls and events, unless a user callback or,
      without assertions, [connectEstablished] takes them back
      ([conn_states_forward]).  An attempt that fails is retried after a growing,
      bounded delay, and a connected socket is handed over once ([Connector]); an
      accepted one is handed over once too, and out of descriptors the pending
      connection is taken and closed ([Acceptor]).
    - Lifetimes: as long as calls of other threads do not race with a close, nobody
      calls [startRead] or [stopRead] and the server stays, no step touches a
      deleted connection ([connection_outlives_its_uses]), and a closed connection
      nobody keeps is inevitably deleted ([closed_connection_deleted]).  On the loop
      of its owner, a client or a server without threads, the owner may be destroyed
      too, when the user keeps an open connection of the client or the connection of
      the server is idle ([local_connection_outlives_its_uses]).  The races left out
      are lemmas that end in a use after free or a second close ([send_race],
      [shutdown_race], [startRead_race], [stopRead_rearms], [dtor_then_send],
      [here_dtor_then_send], [client_dtor_dangles], [client_dtor_race]).  The steps
      are what the code does: calls of other threads ([calls_refine]), calls in the
      thread of the loop, tasks and write events ([loop_calls_refine]), the close up
      to the callbacks ([close_refines], [establish_refines]), the part of the
      server on one loop and on two ([server_owner_refines]), that of the client
      ([client_owner_refines]), and where a connection starts
      ([newConnection_starts], [client_newConnection_starts]).
    - The composition, in level-triggered mode: when a poll reports a connection
      readable, one turn of the loop appends the bytes and runs the message callback,
      or closes, or faults when they have no room ([Dispatch.iteration_delivers]);
      writable, it hands over the output buffer ([iteration_flushes]); the echo server
      writes exactly what it reads, and what the kernel does not take waits; a message
      that comes while something waits is lost ([Echo.echo_turn]).  An accepted socket
      becomes a connected connection watched by the loop chosen for it, up to the
      connection callback of the user, which may do anything
      ([TcpServer.newConnection_opens]); with a callback that keeps to the data of the
      user ([discreet], as the one of the example does, [onConnection_discreet]) a
      closing connection leaves the map, the poller and the queues of both loops
      ([handleClose_leaves]); the map of the server is well formed whatever happens
      ([connections_well_named]); the attempt of a client ends as its connection, up to
      the callback, and a closing one is let go before the next attempt, whatever the
      callback does while it leaves the connection with the client ([TcpClient]).

    Each property with hypotheses is followed by a witness that applies it on a
    concrete kernel.

    ** Bounds and fuel

    Integers are in [Z] with the wrap-around of their C++ type written out: [u64]
    for [size_t], [i16] and [u32] for event masks, [i32_checked] and [i64_checked]
    where signed overflow is undefined.  The largest vector is [vector_max].
    Descriptors are below 2^31, so a table has fewer than 2^31 entries.  The [while]
    loops that read or write until the kernel says stop, and [loop()], take fuel;
    [readFdET_drains] and [loop_returns] say how much is enough (one more than the
    reads that deliver, as many as the iterations), and [OutOfFuel] is not a
    behaviour of the program.  The digit loops of [LogStream] get 20 and 16 rounds, which
    [formatInteger_roundtrip] shows to be enough for every 64-bit value.

    ** Not modelled

    - Lifetimes other than those of [Lifetime]: in the sequential files connections
      stay in the heap, the pool of a server outlives it, and the threads of a pool
      are not destroyed ([~EventLoopThread] is a step of [EventLoopThread]).
      [Lifetime] has one connection, on an epoll poller in level-triggered mode, and
      an owner that is not destroyed inside a callback of the connection.
    - A thread runs a task or an event to its end before another one moves
      ([Loops], [Lifetime]); the finer interleavings are those of [Wakeup] and
      [EventLoopThread].
    - The context of a connection, the names of threads, the lines the library logs
      by itself and what writing them does to [errno], the handler of SIGPIPE.
    - The kernel, [snprintf] of a [double], [inet_pton], [inet_ntop], [strerror],
      [localtime] and the clock are parameters.

    ** Limits

    Every component of the sources is modelled except [noncopyable], which has no
    behaviour.  What the last list leaves out is the kernel, texts the C library
    makes, and slots no code of the library reads.  [startRead], [stopRead] and
    calls split by a close are outside the invariant of [Lifetime] because the code
    does not keep it there, as the lemmas on races show. *)

From stdpp Require Export prelude gmap list strings.
From Stdlib Require Export ZArith Lia.
From Stdlib Require Export Strings.Byte.

#[global] Open Scope Z_scope.

(** ** Faults

    What ends a run of the program other than a normal return: a failed
    [assert] (debug builds), [abort()] reached through [LOG_FATAL], the
    undefined behaviours the model tracks, and a C++ exception of the standard
    library.  [OutOfFuel] is never a behaviour of the program: it marks a loop
    of the model that was given too little fuel. *)
Inductive fault : Type :=
| AssertFailed
| Aborted
| OutOfBounds
| UseAfterFree
| NullDeref
| LengthError
| BadFunctionCall
| SignedOverflow
| Uninitialised
| OutOfFuel.

#[global] Instance fault_eq_dec : EqDecision fault.
Proof. solve_decision. Defined.

Inductive res (A : Type) : Type :=
| Ok (a : A)
| Err (f : fault).
Arguments Ok {A} a.
Arguments Err {A} f.

(** ** The state and error monad of the model *)

Definition M (S A : Type) : Type := S -> res (A * S).

Definition ret {S A} (a : A) : M S A := fun s => Ok (a, s).

Definition bind {S A B} (m : M S A) (k : A -> M S B) : M S B :=
  fun s => match m s with
           | Ok (a, s') => k a s'
           | Err f => Err f
           end.

Definition throw {S A} (f : fault) : M S A := fun _ => Err f.

Definition get {S} : M S S := fun s => Ok (s, s).

Definition gets {S A} (f : S -> A) : M S A := fun s => Ok (f s, s).

Definition modify {S} (f : S -> S) : M S unit := fun s => Ok (tt, f s).

(** A computation that only reads or may fail. *)
Definition lift {S A} (r : res A) : M S A :=
  fun s => match r with Ok a => Ok (a, s) | Err f => Err f end.

Definition of_option {S A} (f : fault) (o : option A) : M S A :=
  fun s => match o with Some a => Ok (a, s) | None => Err f end.

(** Running a component on its part of a larger state. *)
Record lens (S T : Type) : Type := Lens {
  lget : S -> T;
  lset : T -> S -> S;
}.
Arguments Lens {S T} _ _.
Arguments lget {S T} _ _.
Arguments lset {S T} _ _ _.

(** A lens reads back what it stored, and the last store counts. *)
Class LensLaws {S T : Type} (l : lens S T) : Prop := {
  lget_lset t s : lget l (lset l t s) = t;
  lset_lset t1 t2 s : lset l t1 (lset l t2 s) = lset l t1 s;
  lset_lget s : lset l (lget l s) s = s;
}.

Definition zoom {S T A} (l : lens S T) (m : M T A) : M S A :=
  fun s => match m (lget l s) with
           | Ok (a, t) => Ok (a, lset l t s)
           | Err f => Err f
           end.

(** A state change that cannot fail: a system call, whose outcome is data. *)
Definition total {S A} (f : S -> A * S) : M S A := fun s => Ok (f s).

Definition fst_lens {S T} : lens (S * T) S := Lens fst (fun a s => (a, s.2)).
Definition snd_lens {S T} : lens (S * T) T := Lens snd (fun b s => (s.1, b)).

Definition id_lens {S} : lens S S := Lens id (fun s _ => s).

Definition whenb {S} (b : bool) (m : M S unit) : M S unit :=
  if b then m else ret tt.

Fixpoint for_each {S A} (l : list A) (f : A -> M S unit) : M S unit :=
  match l with
  | [] => ret tt
  | x :: l' => bind (f x) (fun _ => for_each l' f)
  end.

Declare Scope twnl_scope.
Delimit Scope twnl_scope with twnl.
Notation "'let!' x := m 'in' k" := (bind m (fun x => k))
  (at level 10, x pattern, m at level 100, k at level 200) : twnl_scope.
Notation "m ;; k" := (bind m (fun _ => k))
  (at level 100, k at level 200, right associativity) : twnl_scope.
#[global] Open Scope twnl_scope.

(** ** The build and the log level

    [CMakeLists.txt] selects a Release build unless told otherwise, which
    defines [NDEBUG]; [g_logLevel] gates [LOG_FATAL], hence [abort()].  Both
    are parameters of every definition that uses them. *)
Inductive LogLevel : Type := TRACE | DEBUG | INFO | WARN | ERROR | FATAL | NONE.

#[global] Instance LogLevel_eq_dec : EqDecision LogLevel.
Proof. solve_decision. Defined.

(** The value of the enumerator. *)
Definition level_num (l : LogLevel) : Z :=
  match l with
  | TRACE => 0 | DEBUG => 1 | INFO => 2 | WARN => 3
  | ERROR => 4 | FATAL => 5 | NONE => 6
  end.

Class Build : Type := {
  NDEBUG : bool;
  g_logLevel : LogLevel;
}.

Definition debug_build : Build := {| NDEBUG := false; g_logLevel := INFO |}.
Definition release_build : Build := {| NDEBUG := true; g_logLevel := INFO |}.

Definition assert_ {B : Build} {S} (b : bool) : M S unit :=
  if NDEBUG then ret tt else if b then ret tt else throw AssertFailed.

(** An assertion whose condition reads memory: nothing is read when it is off. *)
Definition assert_of {B : Build} {S} (m : M S bool) : M S unit :=
  if NDEBUG then ret tt else let! b := m in assert_ b.

(** [LOG_FATAL]: the macro builds a [Logger] only when the level is at most
    [WARN]; the destructor of a [FATAL] logger calls [abort()]. *)
Definition LOG_FATAL {B : Build} {S} : M S unit :=
  if level_num g_logLevel <=? level_num WARN then throw Aborted else ret tt.

(** ** Machine integers *)

Definition size_max : Z := 2 ^ 64.

(** [std::vector<char>::max_size()] on a 64-bit target. *)
Definition vector_max : Z := 2 ^ 63 - 1.

(** [size_t] arithmetic wraps. *)
Definition u64 (z : Z) : Z := z mod 2 ^ 64.
Definition u32 (z : Z) : Z := z mod 2 ^ 32.
Definition u16 (z : Z) : Z := z mod 2 ^ 16.

(** Conversion to a 32-bit [int] (two's complement). *)
Definition i32 (z : Z) : Z := (z + 2 ^ 31) mod 2 ^ 32 - 2 ^ 31.
Definition i16 (z : Z) : Z := (z + 2 ^ 15) mod 2 ^ 16 - 2 ^ 15.

Definition in_i64 (z : Z) : bool := (- 2 ^ 63 <=? z) && (z <? 2 ^ 63).

(** Signed 64-bit arithmetic, undefined on overflow: a result of [std::chrono]. *)
Definition i64_checked (z : Z) : res Z := if in_i64 z then Ok z else Err SignedOverflow.

(** Arithmetic of [int], undefined on overflow. *)
Definition in_i32 (z : Z) : bool := (- 2 ^ 31 <=? z) && (z <? 2 ^ 31).
Definition i32_checked (z : Z) : res Z := if in_i32 z then Ok z else Err SignedOverflow.

(** ** Contiguous storage: [std::vector] and C arrays *)

Definition zlen {A} (l : list A) : Z := Z.of_nat (length l).

#[global] Instance byte_eq_decision : EqDecision byte := Byte.byte_eq_dec.

#[global] Instance byte_countable : Countable byte :=
  inj_countable Byte.to_N Byte.of_N Byte.of_to_N.

(** [n] elements from index [i]; reading past the end is undefined. *)
Definition vec_read {A} (l : list A) (i n : Z) : res (list A) :=
  if (0 <=? i) && (0 <=? n) && (i + n <=? zlen l)
  then Ok (take (Z.to_nat n) (drop (Z.to_nat i) l))
  else Err OutOfBounds.

Definition splice {A} (l : list A) (i : Z) (d : list A) : list A :=
  take (Z.to_nat i) l ++ d ++ drop (Z.to_nat i + length d) l.

(** [d] stored from index [i]; writing past the end is undefined. *)
Definition vec_write {A} (l : list A) (i : Z) (d : list A) : res (list A) :=
  if (0 <=? i) && (i + zlen d <=? zlen l) then Ok (splice l i d) else Err OutOfBounds.

Definition vec_resize {A} (x : A) (l : list A) (n : Z) : res (list A) :=
  if vector_max <? n then Err LengthError
  else Ok (take (Z.to_nat n) l ++ replicate (Z.to_nat n - length l) x).

(** The elements with index in [i, j). *)
Definition slice {A} (i j : Z) (l : list A) : list A :=
  take (Z.to_nat (j - i)) (drop (Z.to_nat i) l).

(** ** Total correctness: [m] ends normally in a state where [Q] holds *)
Definition wp {S A} (m : M S A) (Q : A -> S -> Prop) (s : S) : Prop :=
  match m s with
  | Ok (a, s') => Q a s'
  | Err _ => False
  end.

(** ** Reachability *)
Section reachability.
Context {St : Type} (step : St -> St -> Prop).

Inductive steps : St -> St -> Prop :=
| steps_refl s : steps s s
| steps_cons s1 s2 s3 : step s1 s2 -> steps s2 s3 -> steps s1 s3.

(** [P] is reached by every run that goes on as long as it can: a step is
    possible until then, and no run avoids [P] for ever. *)
Inductive inevitable (P : St -> Prop) (s : St) : Prop :=
| inevitable_now : P s -> inevitable P s
| inevitable_later :
    (exists s', step s s') -> (forall s', step s s' -> inevitable P s') -> inevitable P s.

End reachability.

(** ** Lemmas *)

Create HintDb twnl.
Create Rewrite HintDb wp.
Create Rewrite HintDb zlen.

Section monad_lemmas.
Context {S : Type}.

Lemma bind_ok {A B} (m : M S A) (k : A -> M S B) s b s' :
  bind m k s = Ok (b, s') <-> exists a s1, m s = Ok (a, s1) /\ k a s1 = Ok (b, s').
Proof.
  unfold bind. split.
  - destruct (m s) as [[a s1]|f] eqn:E; [eauto | discriminate].
  - intros (a & s1 & -> & H). exact H.
Qed.

Lemma bind_ret_l {A B} (a : A) (k : A -> M S B) s : bind (ret a) k s = k a s.
Proof. reflexivity. Qed.

Lemma bind_gets {A B} (f : S -> A) (k : A -> M S B) s : bind (gets f) k s = k (f s) s.
Proof. reflexivity. Qed.

(** A system call on a part of the state. *)
Lemma bind_zoom_total {T A B} (l : lens S T) (f : T -> A * T) (k : A -> M S B) s :
  bind (zoom l (total f)) k s = k (f (lget l s)).1 (lset l (f (lget l s)).2 s).
Proof. unfold bind, zoom, total. by destruct (f (lget l s)). Qed.

Lemma bind_assoc {A B C} (m : M S A) (k : A -> M S B) (h : B -> M S C) s :
  bind (bind m k) h s = bind m (fun a => bind (k a) h) s.
Proof. unfold bind. destruct (m s) as [[a s1]|f]; reflexivity. Qed.

Lemma wp_ok {A} (m : M S A) (Q : A -> S -> Prop) s a s' :
  m s = Ok (a, s') -> Q a s' -> wp m Q s.
Proof. unfold wp. intros ->. auto. Qed.

Lemma wp_inv {A} (m : M S A) (Q : A -> S -> Prop) s :
  wp m Q s -> exists a s', m s = Ok (a, s') /\ Q a s'.
Proof. unfold wp. destruct (m s) as [[a s']|f]; [eauto | done]. Qed.

Lemma wp_mono {A} (m : M S A) (Q Q' : A -> S -> Prop) s :
  wp m Q s -> (forall a s', Q a s' -> Q' a s') -> wp m Q' s.
Proof. unfold wp. destruct (m s) as [[a s']|f]; auto. Qed.

Lemma wp_ret {A} (a : A) (Q : A -> S -> Prop) s : wp (ret a) Q s <-> Q a s.
Proof. reflexivity. Qed.

Lemma wp_bind {A B} (m : M S A) (k : A -> M S B) Q s :
  wp (bind m k) Q s <-> wp m (fun a => wp (k a) Q) s.
Proof. unfold wp, bind. destruct (m s) as [[a s']|f]; reflexivity. Qed.

Lemma wp_gets {A} (f : S -> A) (Q : A -> S -> Prop) s : wp (gets f) Q s <-> Q (f s) s.
Proof. reflexivity. Qed.

Lemma wp_get (Q : S -> S -> Prop) s : wp get Q s <-> Q s s.
Proof. reflexivity. Qed.

Lemma wp_modify (f : S -> S) (Q : unit -> S -> Prop) s : wp (modify f) Q s <-> Q tt (f s).
Proof. reflexivity. Qed.

Lemma wp_throw {A} f (Q : A -> S -> Prop) s : wp (throw f) Q s <-> False.
Proof. reflexivity. Qed.

Lemma wp_lift {A} (r : res A) (Q : A -> S -> Prop) s :
  wp (lift r) Q s <-> exists a, r = Ok a /\ Q a s.
Proof. unfold wp, lift. split; [destruct r; [eauto | done] | by intros (a & -> & ?)]. Qed.

Lemma wp_of_option {A} f (o : option A) (Q : A -> S -> Prop) s :
  wp (of_option f o) Q s <-> exists a, o = Some a /\ Q a s.
Proof. unfold wp, of_option. split; [destruct o; [eauto | done] | by intros (a & -> & ?)]. Qed.

Lemma wp_zoom {T A} (l : lens S T) (m : M T A) (Q : A -> S -> Prop) s :
  wp (zoom l m) Q s <-> wp m (fun a t => Q a (lset l t s)) (lget l s).
Proof. unfold wp, zoom. destruct (m (lget l s)) as [[a t]|f]; reflexivity. Qed.

Lemma wp_total {A} (f : S -> A * S) (Q : A -> S -> Prop) s :
  wp (total f) Q s <-> Q (f s).1 (f s).2.
Proof. unfold wp, total. by destruct (f s). Qed.

Lemma wp_when (b : bool) m (Q : unit -> S -> Prop) s :
  wp (whenb b m) Q s <-> if b then wp m Q s else Q tt s.
Proof. destruct b; reflexivity. Qed.

Lemma wp_assert_of {B : Build} (m : M S bool) (Q : unit -> S -> Prop) s :
  m s = Ok (true, s) -> Q tt s -> wp (assert_of m) Q s.
Proof. intros Hm HQ. unfold assert_of, wp, bind. destruct NDEBUG; [done|]. rewrite Hm.
  unfold assert_. by destruct NDEBUG. Qed.

(** An assertion that holds is invisible in both builds. *)
Lemma wp_assert {B : Build} (b : bool) (Q : unit -> S -> Prop) s :
  b = true -> Q tt s -> wp (assert_ b) Q s.
Proof. intros -> H. unfold assert_. by destruct NDEBUG. Qed.

(** The same as equations. *)
Lemma bind_run {A B} (m : M S A) (k : A -> M S B) s a s' :
  m s = Ok (a, s') -> bind m k s = k a s'.
Proof. unfold bind. by intros ->. Qed.

Lemma assert_ok {B : Build} (b : bool) (s : S) : b = true -> assert_ b s = Ok (tt, s).
Proof. intros ->. unfold assert_. by destruct NDEBUG. Qed.

Lemma assert_of_ok {B : Build} (m : M S bool) s : m s = Ok (true, s) -> assert_of m s = Ok (tt, s).
Proof.
  intros Hm. unfold assert_of. destruct NDEBUG; [done|]. rewrite (bind_run _ _ _ _ _ Hm).
  by apply assert_ok.
Qed.

Lemma wp_conj {A} (m : M S A) (P Q : A -> S -> Prop) s :
  wp m P s -> wp m Q s -> wp m (fun a s' => P a s' /\ Q a s') s.
Proof. unfold wp. destruct (m s) as [[a s']|f]; auto. Qed.

(** The loop rule of [for_each]: an invariant indexed by the elements left. *)
Lemma wp_for_each {A} (I : list A -> S -> Prop) (f : A -> M S unit) l s :
  I l s ->
  (forall x l' s0, I (x :: l') s0 -> wp (f x) (fun _ => I l') s0) ->
  wp (for_each l f) (fun _ => I []) s.
Proof.
  intros HI Hstep. revert s HI. induction l as [|x l IH]; intros s HI; [exact HI|].
  cbn [for_each]. apply wp_bind. eapply wp_mono; [by apply Hstep|].
  intros [] s'. apply IH.
Qed.

Lemma for_each_app {A} (f : A -> M S unit) l1 l2 s :
  for_each (l1 ++ l2) f s = bind (for_each l1 f) (fun _ => for_each l2 f) s.
Proof.
  revert s. induction l1 as [|x l1 IH]; intros s; [reflexivity|].
  cbn [for_each app]. rewrite bind_assoc.
  change (bind (f x) (fun _ => for_each (l1 ++ l2) f) s =
          bind (f x) (fun _ => bind (for_each l1 f) (fun _ => for_each l2 f)) s).
  unfold bind at 1 2. destruct (f x s) as [[[] s1]|e]; [apply IH | reflexivity].
Qed.

Lemma for_each_app_bind {A B} (f : A -> M S unit) l1 l2 (k : unit -> M S B) s :
  bind (for_each (l1 ++ l2) f) k s =
  bind (for_each l1 f) (fun _ => bind (for_each l2 f) k) s.
Proof.
  unfold bind at 1. rewrite for_each_app. fold (bind (bind (for_each l1 f)
    (fun _ => for_each l2 f)) k s). apply bind_assoc.
Qed.
End monad_lemmas.

Section steps_lemmas.
Context {St : Type} (step : St -> St -> Prop).

Lemma steps_one s1 s2 : step s1 s2 -> steps step s1 s2.
Proof. intros H. econstructor; [exact H | constructor]. Qed.

Lemma steps_trans s1 s2 s3 : steps step s1 s2 -> steps step s2 s3 -> steps step s1 s3.
Proof. induction 1; [done|]. intros H3. econstructor; eauto. Qed.

Lemma steps_invariant (I : St -> Prop) s1 s2 :
  (forall a b, I a -> step a b -> I b) -> steps step s1 s2 -> I s1 -> I s2.
Proof. intros HI. induction 1; eauto. Qed.

(** The rule for [inevitable]: an invariant [I] under which a state satisfies [P]
    or can move, every move keeping [I] and lowering a measure [m]. *)
Lemma inevitable_wf {A} (R : A -> A -> Prop) (P I : St -> Prop) (m : St -> A) s :
  well_founded R ->
  (forall a, I a -> P a \/ ((exists b, step a b) /\ forall b, step a b -> I b /\ R (m b) (m a))) ->
  I s -> inevitable step P s.
Proof.
  intros HR Hgo. remember (m s) as n eqn:Hn. revert s Hn.
  induction (HR n) as [n _ IH]. intros s -> Hs.
  destruct (Hgo s Hs) as [HP|[Hstep Hdec]]; [by apply inevitable_now|].
  apply inevitable_later; [done|]. intros s' Hs'. destruct (Hdec s' Hs') as [HI Hlt].
  by eapply IH.
Qed.

Lemma inevitable_measure (P I : St -> Prop) (m : St -> Z) s :
  (forall a, I a -> P a \/
     ((exists b, step a b) /\ forall b, step a b -> I b /\ 0 <= m b < m a)) ->
  I s -> inevitable step P s.
Proof.
  intros Hgo. apply (inevitable_wf (fun a b => 0 <= a < b) P I m); [|exact Hgo].
  apply (well_founded_lt_compat Z Z.to_nat). lia.
Qed.
End steps_lemmas.

#[export] Instance fst_lens_laws {S T} : LensLaws (@fst_lens S T).
Proof. by split; repeat intros [??] || intros ?. Qed.

#[export] Instance id_lens_laws {S} : LensLaws (@id_lens S).
Proof. by split. Qed.

#[export] Instance snd_lens_laws {S T} : LensLaws (@snd_lens S T).
Proof. by split; repeat intros [??] || intros ?. Qed.

#[export] Hint Rewrite @wp_ret @wp_bind @wp_gets @wp_get @wp_modify @wp_throw @wp_when @wp_total
  @wp_zoom : wp.
#[export] Hint Resolve steps_one steps_refl steps_cons : twnl.

(** Evaluates the monadic structure of a goal [wp m Q s]. *)
Ltac wp_simp := repeat (autorewrite with wp; cbn beta iota).

(** Inverts a successful run [bind m k s = Ok (b, s')], repeatedly. *)
Ltac inv_bind :=
  repeat match goal with
  | H : bind _ _ _ = Ok _ |- _ =>
      let a := fresh "a" in let s1 := fresh "s" in let H1 := fresh "Hm" in
      let H2 := fresh "Hk" in
      apply bind_ok in H; destruct H as (a & s1 & H1 & H2)
  | H : ret _ _ = Ok _ |- _ => unfold ret in H; injection H as ? ?; subst
  | H : Ok _ = Ok _ |- _ => injection H as ? ?; subst
  | H : Err _ = Ok _ |- _ => discriminate H
  end.

(** Case analysis on the comparisons of [Z] in a goal, then arithmetic. *)
Ltac zcase :=
  repeat match goal with
  | |- context [?a <? ?b] => destruct (Z.ltb_spec a b)
  | |- context [?a <=? ?b] => destruct (Z.leb_spec a b)
  | |- context [?a =? ?b] => destruct (Z.eqb_spec a b)
  | H : context [?a <? ?b] |- _ => destruct (Z.ltb_spec a b)
  | H : context [?a <=? ?b] |- _ => destruct (Z.leb_spec a b)
  | H : context [?a =? ?b] |- _ => destruct (Z.eqb_spec a b)
  end; cbn [andb orb negb] in *.

Section vec_lemmas.
Context {A : Type}.
Implicit Types l d : list A.

Lemma zlen_nonneg l : 0 <= zlen l.
Proof. unfold zlen. lia. Qed.

Lemma zlen_app l1 l2 : zlen (l1 ++ l2) = zlen l1 + zlen l2.
Proof. unfold zlen. rewrite length_app. lia. Qed.

Lemma zlen_nil : zlen (@nil A) = 0.
Proof. reflexivity. Qed.

Lemma vec_read_ok l i n :
  0 <= i -> 0 <= n -> i + n <= zlen l -> vec_read l i n = Ok (slice i (i + n) l).
Proof.
  intros. unfold vec_read, slice. zcase; try lia.
  by replace (i + n - i) with n by lia.
Qed.

Lemma vec_write_ok l i d :
  0 <= i -> i + zlen d <= zlen l -> vec_write l i d = Ok (splice l i d).
Proof. intros. unfold vec_write. zcase; try lia. done. Qed.

Lemma vec_write_oob l i d : zlen l < i + zlen d -> vec_write l i d = Err OutOfBounds.
Proof. intros. unfold vec_write. zcase; try lia; done. Qed.

Lemma zlen_splice l i d :
  0 <= i -> i + zlen d <= zlen l -> zlen (splice l i d) = zlen l.
Proof.
  unfold zlen, splice. intros. rewrite !length_app, length_take, length_drop. lia.
Qed.

Lemma zlen_slice l i j :
  0 <= i <= j -> j <= zlen l -> zlen (slice i j l) = j - i.
Proof. unfold zlen, slice. intros. rewrite length_take, length_drop. lia. Qed.

Lemma slice_nil l i : slice i i l = [].
Proof. unfold slice. by rewrite Z.sub_diag. Qed.

Lemma slice_app l i j k :
  0 <= i <= j -> j <= k -> slice i k l = slice i j l ++ slice j k l.
Proof.
  intros. unfold slice.
  replace (Z.to_nat j) with (Z.to_nat i + Z.to_nat (j - i))%nat by lia.
  rewrite <- drop_drop.
  replace (Z.to_nat (k - i)) with (Z.to_nat (j - i) + Z.to_nat (k - j))%nat by lia.
  by rewrite take_take_drop.
Qed.

Lemma drop_slice l i j n :
  0 <= i -> 0 <= n -> drop (Z.to_nat n) (slice i j l) = slice (i + n) j l.
Proof.
  intros. unfold slice. apply list_eq. intros k.
  rewrite lookup_drop, !lookup_take, !lookup_drop.
  repeat case_decide; try lia; [|done]. f_equal. lia.
Qed.

Lemma take_slice l i j n :
  0 <= i -> 0 <= n -> i + n <= j -> take (Z.to_nat n) (slice i j l) = slice i (i + n) l.
Proof. intros. unfold slice. rewrite take_take. f_equal. lia. Qed.

(** The part below the write is untouched. *)
Lemma slice_splice_before l i d j k :
  0 <= j -> k <= i -> i <= zlen l -> slice j k (splice l i d) = slice j k l.
Proof.
  intros. unfold slice, splice, zlen in *. apply list_eq. intros n.
  rewrite !lookup_take, !lookup_drop. case_decide; [|done].
  rewrite lookup_app_l by (rewrite length_take; lia).
  rewrite lookup_take. case_decide; [done | lia].
Qed.

Lemma slice_splice l i d :
  0 <= i -> i + zlen d <= zlen l -> slice i (i + zlen d) (splice l i d) = d.
Proof.
  intros. unfold slice, splice, zlen in *.
  rewrite drop_app_ge by (rewrite length_take; lia).
  rewrite length_take.
  replace (Z.to_nat i - Z.to_nat i `min` length l)%nat with 0%nat by lia.
  rewrite drop_0. rewrite take_app_le by lia.
  apply take_ge. lia.
Qed.

Lemma vec_resize_grow x l n :
  zlen l <= n <= vector_max ->
  vec_resize x l n = Ok (l ++ replicate (Z.to_nat (n - zlen l)) x).
Proof.
  unfold vec_resize, zlen. intros. zcase; [lia|].
  rewrite take_ge by lia. repeat f_equal. lia.
Qed.

Lemma slice_app_l l d i j : 0 <= i -> j <= zlen l -> slice i j (l ++ d) = slice i j l.
Proof.
  unfold slice, zlen. intros.
  destruct (decide (j <= i)).
  { by replace (Z.to_nat (j - i)) with 0%nat by lia. }
  rewrite drop_app. rewrite take_app_le; [done|]. rewrite length_drop. lia.
Qed.
End vec_lemmas.

Lemma u64_small z : 0 <= z < 2 ^ 64 -> u64 z = z.
Proof. intros. unfold u64. by rewrite Z.mod_small. Qed.

Lemma i64_checked_ok z : in_i64 z = true -> i64_checked z = Ok z.
Proof. unfold i64_checked. by intros ->. Qed.

Lemma i32_checked_ok z : in_i32 z = true -> i32_checked z = Ok z.
Proof. unfold i32_checked. by intros ->. Qed.

Lemma i32_small z : - 2 ^ 31 <= z < 2 ^ 31 -> i32 z = z.
Proof. intros. unfold i32. rewrite Z.mod_small; lia. Qed.

#[export] Hint Rewrite @zlen_app @zlen_nil : zlen.
#[export] Hint Resolve zlen_nonneg : twnl.
