(* ===== verification/Posix.v ===== *)
(** * The system calls the library rests on

    Nothing of this file is under src/: the kernel is a parameter of the
    development.  Each class groups the calls one component makes; its state
    [K] is whatever the kernel remembers.  A [...Laws] class states the
    documented behaviour the proofs rely on (Linux manual pages).  The record
    [script] at the end is one concrete kernel that satisfies the laws; it runs
    the components on concrete inputs. *)

From S2P Require Import Prelude.

(** ** Constants of the Linux headers (x86-64) *)

Definition EPERM : Z := 1.
Definition SO_KEEPALIVE : Z := 9.
Definition TCP_NODELAY : Z := 1.
Definition EINTR : Z := 4.
Definition EBADF : Z := 9.
Definition EAGAIN : Z := 11.
Definition EWOULDBLOCK : Z := EAGAIN.
Definition EMFILE : Z := 24.
Definition EPIPE : Z := 32.
Definition ENOMEM : Z := 12.
Definition EACCES : Z := 13.
Definition EFAULT : Z := 14.
Definition EINVAL : Z := 22.
Definition ENFILE : Z := 23.
Definition EPROTO : Z := 71.
Definition ENOTSOCK : Z := 88.
Definition EOPNOTSUPP : Z := 95.
Definition EAFNOSUPPORT : Z := 97.
Definition EADDRINUSE : Z := 98.
Definition EADDRNOTAVAIL : Z := 99.
Definition ENETUNREACH : Z := 101.
Definition ECONNABORTED : Z := 103.
Definition ENOBUFS : Z := 105.
Definition EISCONN : Z := 106.
Definition ECONNREFUSED : Z := 111.
Definition EALREADY : Z := 114.
Definition EINPROGRESS : Z := 115.
Definition SO_REUSEADDR : Z := 2.
Definition SO_REUSEPORT : Z := 15.
Definition ECONNRESET : Z := 104.

Definition EPOLLIN : Z := 1.
Definition EPOLLPRI : Z := 2.
Definition EPOLLOUT : Z := 4.
Definition EPOLLERR : Z := 8.
Definition EPOLLHUP : Z := 16.
Definition EPOLLRDHUP : Z := 0x2000.
Definition EPOLLET : Z := 2 ^ 31.

(** ** Stream sockets: read(2), readv(2), write(2) *)

(** The result of a call: a value, or the value of [errno]. *)
Definition sysres (A : Type) : Type := (A + Z)%type.

Class SocketIO (K : Type) : Type := {
  (** [readv] into two areas of [cap] bytes in all: the bytes transferred. *)
  sys_readv : forall (fd cap : Z), K -> sysres (list byte) * K;
  (** [write]: the number of bytes taken. *)
  sys_write : forall (fd : Z) (data : list byte), K -> sysres Z * K;
}.

(** [sent k fd] are the bytes the kernel has taken from [fd] so far. *)
Class SocketIOLaws (K : Type) `{SocketIO K} : Type := {
  sent : K -> Z -> list byte;
  readv_le fd cap k d k' : 0 <= cap -> sys_readv fd cap k = (inl d, k') -> zlen d <= cap;
  write_le fd d k n k' : sys_write fd d k = (inl n, k') -> 0 <= n <= zlen d;
  write_sent fd d k n k' :
    sys_write fd d k = (inl n, k') -> sent k' fd = sent k fd ++ take (Z.to_nat n) d;
  write_other fd fd' d k r k' :
    fd' <> fd -> sys_write fd d k = (r, k') -> sent k' fd' = sent k fd';
  write_failed fd d k e k' : sys_write fd d k = (inr e, k') -> sent k' fd = sent k fd;
  (** Linux: sending no bytes on a stream socket returns 0. *)
  write_nothing fd k : exists k', sys_write fd [] k = (inl 0, k');
  readv_sent fd fd' cap k r k' : sys_readv fd cap k = (r, k') -> sent k' fd' = sent k fd';
}.

(** The calls on sockets that transfer no data. *)
Class SockSys (K : Type) : Type := {
  (** [shutdown(fd, SHUT_WR)] *)
  sys_shutdown_write : forall (fd : Z), K -> sysres unit * K;
  (** [getsockopt(fd, SOL_SOCKET, SO_ERROR)], and [errno] when it fails *)
  sys_getSocketError : forall (fd : Z), K -> Z * K;
  (** [setsockopt] of a flag *)
  sys_setsockopt : forall (fd opt : Z) (on : bool), K -> sysres unit * K;
  sys_close : forall (fd : Z), K -> sysres unit * K;
}.

(** ** Addresses and connections *)

Definition AF_INET : Z := 2.
Definition AF_INET6 : Z := 10.
Definition INADDR_ANY : Z := 0.
Definition INADDR_LOOPBACK : Z := 0x7f000001.

(** The bytes [sockaddr_in] and [sockaddr_in6] share: [sin_port] is in network
    order, [sin_addr] is the word at offset 4 ([s_addr], or [sin6_flowinfo]),
    [sin6_addr] are the sixteen bytes from offset 8. *)
Record sockaddr : Type := mkSockaddr {
  sa_family : Z;
  sin_port : Z;
  sin_addr : Z;
  sin6_addr : list byte;
  sin6_scope_id : Z;
}.

(** [memset(&addr, 0, sizeof addr)] *)
Definition zero_sockaddr : sockaddr := mkSockaddr 0 0 0 (replicate 16 x00) 0.

Class NetSys (K : Type) : Type := {
  sys_socket : forall (family : Z), K -> sysres Z * K;
  sys_bind : forall (fd : Z) (addr : sockaddr), K -> sysres unit * K;
  sys_listen : forall (fd : Z), K -> sysres unit * K;
  sys_accept : forall (fd : Z), K -> sysres (Z * sockaddr) * K;
  sys_connect : forall (fd : Z) (addr : sockaddr), K -> sysres unit * K;
  sys_getsockname : forall (fd : Z), K -> sysres sockaddr * K;
  sys_getpeername : forall (fd : Z), K -> sysres sockaddr * K;
  (** [open("/dev/null", ...)]; [-1] when it fails *)
  sys_open_null : K -> Z * K;
}.

(** [timerfd_settime], relative: the time in seconds and nanoseconds. *)
Class TimerfdSys (K : Type) : Type := {
  sys_timerfd_settime : forall (fd : Z) (value : Z * Z), K -> sysres unit * K;
}.

(** ** epoll(7) *)

(** [data.ptr] is the address of a channel, or null. *)
Record epoll_event : Type := mkEpollEvent {
  ev_events : Z;
  ev_ptr : option positive;
}.

#[global] Instance epoll_event_eq_dec : EqDecision epoll_event.
Proof. solve_decision. Defined.

Inductive epoll_op : Type := EPOLL_CTL_ADD | EPOLL_CTL_DEL | EPOLL_CTL_MOD.

#[global] Instance epoll_op_eq_dec : EqDecision epoll_op.
Proof. solve_decision. Defined.

(** The calls on one epoll instance, and the clock. *)
Class EpollSys (K : Type) : Type := {
  sys_epoll_ctl : forall (epfd : Z) (op : epoll_op) (fd : Z) (ev : epoll_event), K -> sysres unit * K;
  sys_epoll_wait : forall (epfd maxevents timeout : Z), K -> sysres (list epoll_event) * K;
}.

Class ClockSys (K : Type) : Type := {
  sys_now : K -> Z * K;
}.

(** The interest list of the instance: a descriptor is added once, and can be
    changed or deleted while it is there. *)
Definition ctl_legal (op : epoll_op) (fd : Z) (l : gmap Z epoll_event) : bool :=
  match op, l !! fd with
  | EPOLL_CTL_ADD, None => true
  | EPOLL_CTL_ADD, Some _ => false
  | _, Some _ => true
  | _, None => false
  end.

Definition ctl_effect (op : epoll_op) (fd : Z) (ev : epoll_event)
    (l : gmap Z epoll_event) : gmap Z epoll_event :=
  match op with
  | EPOLL_CTL_DEL => delete fd l
  | _ => <[fd := ev]> l
  end.

(** A reported mask holds requested bits, or the two that are always reported. *)
Definition reportable (asked got : Z) : Prop :=
  Z.land got (Z.lnot (Z.lor asked (Z.lor EPOLLERR EPOLLHUP))) = 0.

(** [interest k epfd] is the interest list of the instance [epfd]. *)
Class EpollLaws (K : Type) `{EpollSys K} : Type := {
  interest : K -> Z -> gmap Z epoll_event;
  ctl_law epfd op fd ev k :
    ctl_legal op fd (interest k epfd) = true ->
    exists k', sys_epoll_ctl epfd op fd ev k = (inl tt, k') /\
      interest k' epfd = ctl_effect op fd ev (interest k epfd);
  ctl_fails epfd op fd ev k :
    ctl_legal op fd (interest k epfd) = false ->
    exists e k', sys_epoll_ctl epfd op fd ev k = (inr e, k') /\ interest k' epfd = interest k epfd;
  ctl_others epfd op fd ev k x :
    x <> epfd -> interest (sys_epoll_ctl epfd op fd ev k).2 x = interest k x;
  wait_law epfd maxevents timeout k evs k' :
    0 < maxevents -> sys_epoll_wait epfd maxevents timeout k = (inl evs, k') ->
    zlen evs <= maxevents /\
    Forall (fun e => exists fd e0, interest k epfd !! fd = Some e0 /\ ev_ptr e = ev_ptr e0 /\
                       reportable (ev_events e0) (ev_events e)) evs;
  wait_interest epfd maxevents timeout k x :
    interest (sys_epoll_wait epfd maxevents timeout k).2 x = interest k x;
}.

Class ClockLaws (K : Type) `{EpollLaws K} `{ClockSys K} : Prop := {
  now_interest k x : interest (sys_now k).2 x = interest k x;
}.

(** ** Calls that leave the pollers alone

    [SysCalls] are the calls the loop makes outside its poller.
    [quiet k k'] relates two kernels that watch the same descriptors; a call on
    a socket, a timer or the clock is quiet. *)
Class SysCalls (K : Type) : Type := {
  sc_io :: SocketIO K;
  sc_sock :: SockSys K;
  sc_timerfd :: TimerfdSys K;
  sc_clock :: ClockSys K;
}.

Class Quiet (K : Type) `{SysCalls K} : Type := {
  quiet : K -> K -> Prop;
  quiet_refl k : quiet k k;
  quiet_trans k1 k2 k3 : quiet k1 k2 -> quiet k2 k3 -> quiet k1 k3;
  quiet_readv fd cap k : quiet k (sys_readv fd cap k).2;
  quiet_write fd d k : quiet k (sys_write fd d k).2;
  quiet_shutdown fd k : quiet k (sys_shutdown_write fd k).2;
  quiet_sockerr fd k : quiet k (sys_getSocketError fd k).2;
  quiet_setsockopt fd o b k : quiet k (sys_setsockopt fd o b k).2;
  quiet_settime fd v k : quiet k (sys_timerfd_settime fd v k).2;
  quiet_now k : quiet k (sys_now k).2;
}.

(** For epoll(7), watching the same descriptors is having the same interest list. *)
Class QuietEpoll (K : Type) `{SysCalls K, !Quiet K, !EpollSys K, !EpollLaws K} : Prop := {
  quiet_interest k k' x : quiet k k' -> interest k' x = interest k x;
}.

(** The clock has passed 1970 and not 2116; a timer accepts any legal time. *)
Class TimerLaws (K : Type) `{SysCalls K} : Prop := {
  now_range k : 0 <= (sys_now k).1 < 2 ^ 62;
  settime_law fd sec nsec k :
    0 <= sec -> 0 <= nsec < 10 ^ 9 -> (sys_timerfd_settime fd (sec, nsec) k).1 = inl tt;
}.

(** ** poll(2) *)

Record pollfd : Type := mkPollfd {
  pfd_fd : Z;
  pfd_events : Z;
  pfd_revents : Z;
}.

#[global] Instance pollfd_eq_dec : EqDecision pollfd.
Proof. solve_decision. Defined.

Definition POLLNVAL : Z := 32.

Class PollSys (K : Type) : Type := {
  (** the result, and the array with [revents] filled in *)
  sys_poll : forall (fds : list pollfd) (timeout : Z), K -> sysres Z * list pollfd * K;
}.

(** [poll] fills [revents] only; a negative descriptor reports nothing. *)
Definition polled (a b : pollfd) : Prop :=
  pfd_fd b = pfd_fd a /\ pfd_events b = pfd_events a /\
  0 <= pfd_revents b < 2 ^ 15 /\ (pfd_fd a < 0 -> pfd_revents b = 0).

(** The number of entries with a report. *)
Definition reports (fds : list pollfd) : Z :=
  zlen (filter (fun p => pfd_revents p <> 0) fds).

Class PollLaws (K : Type) `{PollSys K} : Prop := {
  poll_law fds timeout k n fds' k' :
    sys_poll fds timeout k = (inl n, fds', k') ->
    Forall2 polled fds fds' /\ n = reports fds';
  poll_fails fds timeout k e fds' k' :
    sys_poll fds timeout k = (inr e, fds', k') -> Forall2 polled fds fds';
}.

(** ** A concrete kernel for runs on concrete inputs

    [s_reads] are the outcomes of the coming reads: a segment of the stream (the
    empty one is end of file) or an error; when they are used up a read would
    block.  [s_writes] are the capacities of the coming writes, or errors; when
    they are used up every write is taken in full; all descriptors share both.  [s_sent] holds
    what each descriptor has taken. *)
Record script : Type := Script {
  s_reads : list (sysres (list byte));
  s_writes : list (sysres Z);
  s_sent : gmap Z (list byte);
}.

Definition script_readv (fd cap : Z) (k : script) : sysres (list byte) * script :=
  match s_reads k with
  | [] => (inr EAGAIN, k)
  | inr e :: rs => (inr e, Script rs (s_writes k) (s_sent k))
  | inl d :: rs =>
      let now := take (Z.to_nat cap) d in
      let later := drop (Z.to_nat cap) d in
      (inl now, Script (match later with [] => rs | _ => inl later :: rs end)
                       (s_writes k) (s_sent k))
  end.

Definition script_write (fd : Z) (data : list byte) (k : script) : sysres Z * script :=
  let took d := <[fd := default [] (s_sent k !! fd) ++ d]> (s_sent k) in
  if decide (data = []) then (inl 0, k)
  else match s_writes k with
  | [] => (inl (zlen data), Script (s_reads k) [] (took data))
  | inr e :: ws => (inr e, Script (s_reads k) ws (s_sent k))
  | inl c :: ws =>
      let n := Z.max 0 (Z.min c (zlen data)) in
      (inl n, Script (s_reads k) ws (took (take (Z.to_nat n) data)))
  end.

#[export] Instance script_io : SocketIO script := {|
  sys_readv := script_readv;
  sys_write := script_write;
|}.

(** Proves the laws of a scripted call by cases on the script. *)
Ltac script_cases q :=
  cbn; unfold script_readv, script_write;
  try case_decide; destruct q as [|[?d|?e] ?rs]; intros; simplify_eq; cbn.

#[export] Instance script_io_laws : SocketIOLaws script.
Proof.
  refine {| sent k fd := default [] (s_sent k !! fd) |}.
  - intros fd cap k d k' Hc. script_cases (s_reads k). unfold zlen. rewrite length_take. lia.
  - intros fd d k n k'. script_cases (s_writes k); unfold zlen; lia.
  - intros fd d k n k'. script_cases (s_writes k); rewrite ?app_nil_r, ?lookup_insert_eq; try done.
    cbn. f_equal. symmetry. apply take_ge. unfold zlen. lia.
  - intros fd fd' d k r k' Hne. by script_cases (s_writes k); rewrite ?lookup_insert_ne.
  - intros fd d k n k'. by script_cases (s_writes k).
  - intros fd k. by exists k.
  - intros fd fd' cap k r k'. by script_cases (s_reads k).
Defined.

(** Epoll instances, by descriptor, whose [epoll_wait] returns prepared answers;
    an answer is restricted to what the interest list allows. *)
Record epoll_script : Type := EpollScript {
  es_interest : gmap Z (gmap Z epoll_event);
  es_ready : list (list (Z * Z));
  es_clock : Z;
}.

Definition es_list (k : epoll_script) (epfd : Z) : gmap Z epoll_event :=
  default ∅ (es_interest k !! epfd).

Lemma es_list_singleton epfd l r t : es_list (EpollScript {[epfd := l]} r t) epfd = l.
Proof. unfold es_list. cbn. by rewrite lookup_singleton_eq. Qed.

Definition es_ctl (epfd : Z) (op : epoll_op) (fd : Z) (ev : epoll_event) (k : epoll_script) :
    sysres unit * epoll_script :=
  if ctl_legal op fd (es_list k epfd)
  then (inl tt, EpollScript (<[epfd := ctl_effect op fd ev (es_list k epfd)]> (es_interest k))
                  (es_ready k) (es_clock k))
  else (inr EBADF, k).

(** The answer for descriptor [fd] with the bits [got]. *)
Definition es_report (l : gmap Z epoll_event) (r : Z * Z) : list epoll_event :=
  match l !! r.1 with
  | Some e0 => [mkEpollEvent
      (Z.land r.2 (Z.lor (ev_events e0) (Z.lor EPOLLERR EPOLLHUP))) (ev_ptr e0)]
  | None => []
  end.

Definition es_wait (epfd maxevents timeout : Z) (k : epoll_script) :
    sysres (list epoll_event) * epoll_script :=
  match es_ready k with
  | [] => (inl [], k)
  | r :: rs => (inl (take (Z.to_nat maxevents) (r ≫= es_report (es_list k epfd))),
                EpollScript (es_interest k) rs (es_clock k))
  end.

#[export] Instance epoll_script_sys : EpollSys epoll_script := {|
  sys_epoll_ctl := es_ctl;
  sys_epoll_wait := es_wait;
|}.

#[export] Instance epoll_script_clock : ClockSys epoll_script := {|
  sys_now k := (es_clock k mod 2 ^ 62, EpollScript (es_interest k) (es_ready k) (es_clock k + 1));
|}.

Lemma reportable_land asked r :
  reportable asked (Z.land r (Z.lor asked (Z.lor EPOLLERR EPOLLHUP))).
Proof.
  unfold reportable. rewrite <- Z.land_assoc, Z.land_lnot_diag. apply Z.land_0_r.
Qed.

#[export] Instance epoll_script_laws : EpollLaws epoll_script.
Proof.
  refine {| interest := es_list |}.
  - intros epfd op fd ev k Hl. cbn. unfold es_ctl. rewrite Hl. eexists. split; [done|].
    unfold es_list at 1. cbn. by rewrite lookup_insert_eq.
  - intros epfd op fd ev k Hl. cbn. unfold es_ctl. rewrite Hl. eauto.
  - intros epfd op fd ev k x Hx. cbn. unfold es_ctl. case_match; [|done].
    unfold es_list at 1. cbn. by rewrite lookup_insert_ne.
  - intros epfd m t k evs k' Hm. cbn. unfold es_wait.
    destruct (es_ready k) as [|r rs]; intros [= <- <-]; cbn.
    { split_and!; [unfold zlen; cbn; lia | constructor]. }
    split; [unfold zlen; rewrite length_take; lia|].
    apply Forall_take, Forall_bind, Forall_true. intros x. unfold es_report, compose.
    destruct (es_list k epfd !! x.1) as [e0|] eqn:He; constructor; [|constructor].
    exists x.1, e0. split_and!; [done|done|]. apply reportable_land.
  - intros epfd m t k x. cbn. unfold es_wait. by destruct (es_ready k).
Defined.

#[export] Instance epoll_script_clock_laws : ClockLaws epoll_script.
Proof. by split. Qed.

(** [poll] answered from prepared lists of ready descriptors and bits. *)
Record poll_script : Type := PollScript {
  ps_ready : list (list (Z * Z));
  ps_clock : Z;
}.

Definition ps_fill (r : list (Z * Z)) (p : pollfd) : pollfd :=
  mkPollfd (pfd_fd p) (pfd_events p)
    (if pfd_fd p <? 0 then 0
     else match list_find (fun x => x.1 = pfd_fd p) r with
          | Some (_, (_, bits)) =>
              Z.land (Z.land bits (Z.lor (pfd_events p) (Z.lor EPOLLERR EPOLLHUP))) (2 ^ 15 - 1)
          | None => 0
          end).

Definition ps_poll (fds : list pollfd) (timeout : Z) (k : poll_script) :
    sysres Z * list pollfd * poll_script :=
  let r := hd [] (ps_ready k) in
  let fds' := ps_fill r <$> fds in
  (inl (reports fds'), fds', PollScript (tl (ps_ready k)) (ps_clock k)).

#[export] Instance poll_script_sys : PollSys poll_script := {| sys_poll := ps_poll |}.

#[export] Instance poll_script_clock : ClockSys poll_script := {|
  sys_now k := (ps_clock k, PollScript (ps_ready k) (ps_clock k + 1));
|}.

Lemma ps_fill_polled r p : polled p (ps_fill r p).
Proof.
  unfold polled, ps_fill; cbn [pfd_fd pfd_events pfd_revents].
  split_and!; try done; destruct (Z.ltb_spec (pfd_fd p) 0); try lia; try done;
    destruct (list_find _ r) as [[? [? bits]]|]; try lia;
    change (2 ^ 15 - 1) with (Z.ones 15); rewrite Z.land_ones by lia;
    apply Z.mod_pos_bound; lia.
Qed.

#[export] Instance poll_script_laws : PollLaws poll_script.
Proof.
  split; intros fds t k x fds' k' [= <- <- <-].
  split; [|done]. apply Forall2_fmap_r, Forall_Forall2_diag, Forall_true, ps_fill_polled.
Qed.

(** A whole kernel: sockets, an epoll instance with its clock, and a record of
    the timers armed and the sockets shut down. *)
Record sim : Type := Sim {
  sim_io : script;
  sim_epoll : epoll_script;
  sim_armed : list (Z * (Z * Z));
  sim_shut : list Z;
}.

Definition on_io {A} (f : script -> A * script) (k : sim) : A * sim :=
  let r := f (sim_io k) in (r.1, Sim r.2 (sim_epoll k) (sim_armed k) (sim_shut k)).

Definition on_epoll {A} (f : epoll_script -> A * epoll_script) (k : sim) : A * sim :=
  let r := f (sim_epoll k) in (r.1, Sim (sim_io k) r.2 (sim_armed k) (sim_shut k)).

#[export] Instance sim_socket_io : SocketIO sim := {|
  sys_readv fd cap := on_io (sys_readv fd cap);
  sys_write fd d := on_io (sys_write fd d);
|}.

#[export] Instance sim_sock : SockSys sim := {|
  sys_shutdown_write fd k :=
    (inl tt, Sim (sim_io k) (sim_epoll k) (sim_armed k) (sim_shut k ++ [fd]));
  sys_getSocketError fd k := (0, k);
  sys_setsockopt fd o b k := (inl tt, k);
  sys_close fd k := (inl tt, k);
|}.

#[export] Instance sim_timerfd : TimerfdSys sim := {|
  sys_timerfd_settime fd v k :=
    (inl tt, Sim (sim_io k) (sim_epoll k) (sim_armed k ++ [(fd, v)]) (sim_shut k));
|}.

#[export] Instance sim_epoll_sys : EpollSys sim := {|
  sys_epoll_ctl e op fd ev := on_epoll (sys_epoll_ctl e op fd ev);
  sys_epoll_wait e m t := on_epoll (sys_epoll_wait e m t);
|}.

#[export] Instance sim_clock : ClockSys sim := {| sys_now := on_epoll sys_now |}.

(** Splits a call of [sim] into the call of the part it runs on. *)
Ltac sim_call := cbn [sys_readv sys_write sys_epoll_ctl sys_epoll_wait sys_now sim_socket_io
  sim_epoll_sys sim_clock]; unfold on_io, on_epoll; intros; simplify_eq; cbn [sim_io sim_epoll].

#[export] Instance sim_io_laws : SocketIOLaws sim.
Proof.
  refine {| sent k := sent (sim_io k) |}.
  - intros fd cap k d k' ?. sim_call. eapply readv_le; [done|]. apply injective_projections; by cbn.
  - intros fd d k n k'. sim_call. eapply write_le. apply injective_projections; by cbn.
  - intros fd d k n k'. sim_call. eapply write_sent. apply injective_projections; by cbn.
  - intros fd fd' d k r k' ?. sim_call. eapply write_other; [done|].
    by apply injective_projections; cbn.
  - intros fd d k n k'. sim_call. eapply write_failed. apply injective_projections; by cbn.
  - intros fd k. sim_call. destruct (write_nothing fd (sim_io k)) as [k' Hk]. rewrite Hk. by eexists.
  - intros fd fd' cap k r k'. sim_call. eapply readv_sent. apply injective_projections; by cbn.
Defined.

#[export] Instance sim_epoll_laws : EpollLaws sim.
Proof.
  refine {| interest k := interest (sim_epoll k) |}.
  - intros epfd op fd ev k Hl. sim_call. destruct (ctl_law epfd op fd ev _ Hl) as (k' & -> & ?).
    by eexists.
  - intros epfd op fd ev k Hl. sim_call. destruct (ctl_fails epfd op fd ev _ Hl) as (e & k' & -> & ?).
    by eexists _, _.
  - intros epfd op fd ev k x ?. sim_call. by apply ctl_others.
  - intros epfd m t k evs k' ?. sim_call. eapply (wait_law epfd m t); [done|].
    by apply injective_projections; cbn.
  - intros epfd m t k x. sim_call. apply wait_interest.
Defined.

#[export] Instance sim_clock_laws : ClockLaws sim.
Proof. split. intros k. exact (now_interest (sim_epoll k)). Qed.

#[export] Instance sim_calls : SysCalls sim := {| sc_io := _ |}.

#[export] Instance sim_quiet : Quiet sim.
Proof.
  refine {| quiet k k' := forall x, interest k' x = interest k x |}; try done.
  intros k1 k2 k3 H1 H2 x. by rewrite H2.
Defined.

#[export] Instance sim_quiet_epoll : QuietEpoll sim.
Proof. split. by intros k k' x Hq. Qed.

#[export] Instance sim_timer_laws : TimerLaws sim.
Proof. split; [|done]. intros k. cbn. apply Z.mod_pos_bound. lia. Qed.

(** poll(2) on a whole kernel finds nothing ready. *)
#[export] Instance sim_poll_sys : PollSys sim := {|
  sys_poll fds t k := (inl (reports (ps_fill [] <$> fds)), ps_fill [] <$> fds, k);
|}.

#[export] Instance sim_poll_laws : PollLaws sim.
Proof.
  split; intros fds t k x fds' k' [= <- <- <-].
  split; [|done]. apply Forall2_fmap_r, Forall_Forall2_diag, Forall_true, ps_fill_polled.
Qed.
