(* ===== verification/Process.v ===== *)
(** * The descriptors of the process

    What the components that open and close descriptors rely on, and a concrete
    kernel with scripted outcomes of [accept], [connect] and [SO_ERROR]. *)

From S2P Require Import Prelude Posix.

(** [open_fds k] are the descriptors of the process: a call that makes one makes
    a new one, [close] frees it. *)
Class FdLaws (K : Type) `{SysCalls K, !NetSys K} : Type := {
  open_fds : K -> gset Z;
  open_nonneg k fd : fd ∈ open_fds k -> 0 <= fd;
  socket_open f k fd k' :
    sys_socket f k = (inl fd, k') ->
    0 <= fd /\ (fd ∉ open_fds k) /\ open_fds k' = {[fd]} ∪ open_fds k;
  accept_open fd k c a k' :
    sys_accept fd k = (inl (c, a), k') ->
    0 <= c /\ (c ∉ open_fds k) /\ open_fds k' = {[c]} ∪ open_fds k;
  accept_fails fd k e k' : sys_accept fd k = (inr e, k') -> open_fds k' = open_fds k;
  close_open fd k : open_fds (sys_close fd k).2 = open_fds k ∖ {[fd]};
  null_open k fd k' :
    sys_open_null k = (fd, k') ->
    (fd = -1 /\ open_fds k' = open_fds k) \/
    (0 <= fd /\ (fd ∉ open_fds k) /\ open_fds k' = {[fd]} ∪ open_fds k);
}.

(** [taken k] are the connections, with their peers, that [accept] has handed to the
    process since it started. *)
Class AcceptLaws (K : Type) `{SysCalls K, !NetSys K} : Type := {
  taken : K -> list (Z * sockaddr);
  accept_taken fd k r k' :
    sys_accept fd k = (r, k') ->
    taken k' = taken k ++ match r with inl conn => [conn] | inr _ => [] end;
  close_taken fd k : taken (sys_close fd k).2 = taken k;
  null_taken k fd k' : sys_open_null k = (fd, k') -> taken k' = taken k;
}.

(** The calls on sockets that are not watched leave the pollers alone. *)
Class QuietNet (K : Type) `{SysCalls K, !Quiet K, !NetSys K} : Prop := {
  quiet_socket f k : quiet k (sys_socket f k).2;
  quiet_connect fd a k : quiet k (sys_connect fd a k).2;
  quiet_getsockname fd k : quiet k (sys_getsockname fd k).2;
  quiet_getpeername fd k : quiet k (sys_getpeername fd k).2;
}.

(** Closing a descriptor takes it out of the interest lists. *)
Class CloseEpoll (K : Type) `{SysCalls K, !EpollSys K, !EpollLaws K} : Prop := {
  close_interest fd k x : interest (sys_close fd k).2 x = delete fd (interest k x);
}.

(** Opening and closing one descriptor cancel out. *)
Lemma open_close (x : Z) (o : gset Z) : (x ∉ o) -> ({[x]} ∪ o) ∖ {[x]} = o.
Proof.
  intros Hx. apply leibniz_equiv. intros y.
  rewrite elem_of_difference, elem_of_union, elem_of_singleton.
  split; [tauto|]. intros Hy. split; [by right | by intros ->].
Qed.

Lemma close_other (x : Z) (o : gset Z) : (x ∉ o) -> o ∖ {[x]} = o.
Proof.
  intros Hx. apply leibniz_equiv. intros y.
  rewrite elem_of_difference, elem_of_singleton.
  split; [tauto|]. intros Hy. split; [done | by intros ->].
Qed.

(** ** A concrete kernel *)

(** [p_accepts], [p_connects] and [p_errors] are the outcomes to come; when they
    are used up [accept] would block, [connect] is in progress and there is no
    pending error; [p_taken] are the connections taken.  A new descriptor is above all
    others. *)
Record proc : Type := mkProc {
  p_sim : sim;
  p_fds : gset Z;
  p_accepts : list (sysres sockaddr);
  p_connects : list (sysres unit);
  p_errors : list Z;
  p_taken : list (Z * sockaddr);
}.

(** A process that has taken no connection. *)
Definition Proc (s : sim) (fds : gset Z) (accepts : list (sysres sockaddr))
    (connects : list (sysres unit)) (errors : list Z) : proc :=
  mkProc s fds accepts connects errors [].

Definition new_fd (fds : gset Z) : Z := foldr Z.max 0 (elements fds) + 1.

Lemma new_fd_above fds fd : fd ∈ fds -> fd < new_fd fds.
Proof.
  rewrite <- elem_of_elements. unfold new_fd.
  induction (elements fds) as [|x l IH]; [by intros ?%elem_of_nil|].
  intros [->|Hl]%elem_of_cons; cbn; [lia | specialize (IH Hl); lia].
Qed.

Lemma new_fd_fresh fds : new_fd fds ∉ fds.
Proof. intros H%new_fd_above. lia. Qed.

Lemma new_fd_pos fds : 0 <= new_fd fds.
Proof. unfold new_fd. induction (elements fds) as [|x l IH]; cbn; lia. Qed.

Definition with_fds (f : gset Z -> gset Z) (k : proc) : proc :=
  mkProc (p_sim k) (f (p_fds k)) (p_accepts k) (p_connects k) (p_errors k) (p_taken k).

Definition on_sim {A} (f : sim -> A * sim) (k : proc) : A * proc :=
  let r := f (p_sim k) in
  (r.1, mkProc r.2 (p_fds k) (p_accepts k) (p_connects k) (p_errors k) (p_taken k)).

(** [close] also forgets the descriptor's registration. *)
Definition forget (fd : Z) (k : sim) : sim :=
  Sim (sim_io k)
    (EpollScript (delete fd <$> es_interest (sim_epoll k)) (es_ready (sim_epoll k))
       (es_clock (sim_epoll k)))
    (sim_armed k) (sim_shut k).

(** Descriptors of the process are the non-negative ones. *)
Definition fds_of (k : proc) : gset Z := filter (fun fd => 0 <= fd) (p_fds k).

Definition proc_accept (k : proc) : sysres (Z * sockaddr) * proc :=
  let k0 l := mkProc (p_sim k) (p_fds k) (tl (p_accepts k)) (p_connects k) (p_errors k)
                (p_taken k ++ l) in
  match p_accepts k with
  | inl a :: _ =>
      let fd := new_fd (p_fds k) in (inl (fd, a), with_fds (union {[fd]}) (k0 [(fd, a)]))
  | inr e :: _ => (inr e, k0 [])
  | [] => (inr EAGAIN, k0 [])
  end.

#[export] Instance proc_io : SocketIO proc := {|
  sys_readv fd cap := on_sim (sys_readv fd cap);
  sys_write fd d := on_sim (sys_write fd d);
|}.

#[export] Instance proc_sock : SockSys proc := {|
  sys_shutdown_write fd := on_sim (sys_shutdown_write fd);
  sys_getSocketError fd k :=
    (hd 0 (p_errors k),
     mkProc (p_sim k) (p_fds k) (p_accepts k) (p_connects k) (tl (p_errors k)) (p_taken k));
  sys_setsockopt fd o b := on_sim (sys_setsockopt fd o b);
  sys_close fd k :=
    (inl tt, with_fds (fun fds => fds ∖ {[fd]})
      (mkProc (forget fd (p_sim k)) (p_fds k) (p_accepts k) (p_connects k) (p_errors k) (p_taken k)));
|}.

#[export] Instance proc_timerfd : TimerfdSys proc := {|
  sys_timerfd_settime fd v := on_sim (sys_timerfd_settime fd v);
|}.

#[export] Instance proc_epoll : EpollSys proc := {|
  sys_epoll_ctl e op fd ev := on_sim (sys_epoll_ctl e op fd ev);
  sys_epoll_wait e m t := on_sim (sys_epoll_wait e m t);
|}.

#[export] Instance proc_clock : ClockSys proc := {| sys_now := on_sim sys_now |}.

#[export] Instance proc_calls : SysCalls proc := {| sc_io := _ |}.

#[export] Instance proc_net : NetSys proc := {|
  sys_socket f k := let fd := new_fd (p_fds k) in (inl fd, with_fds (union {[fd]}) k);
  sys_bind fd a k := (inl tt, k);
  sys_listen fd k := (inl tt, k);
  sys_accept fd := proc_accept;
  sys_connect fd a k :=
    (hd (inr EINPROGRESS) (p_connects k),
     mkProc (p_sim k) (p_fds k) (p_accepts k) (tl (p_connects k)) (p_errors k) (p_taken k));
  sys_getsockname fd k := (inl (mkSockaddr AF_INET 1 1 (replicate 16 x00) 0), k);
  sys_getpeername fd k := (inl (mkSockaddr AF_INET 2 1 (replicate 16 x00) 0), k);
  sys_open_null k := let fd := new_fd (p_fds k) in (fd, with_fds (union {[fd]}) k);
|}.

Lemma elem_of_fds fd k : fd ∈ fds_of k <-> 0 <= fd /\ fd ∈ p_fds k.
Proof. unfold fds_of. by rewrite elem_of_filter. Qed.

Lemma new_not_open k : new_fd (p_fds k) ∉ fds_of k.
Proof. intros [_ H]%elem_of_fds. by apply new_fd_fresh in H. Qed.

Lemma fds_of_add fd k :
  0 <= fd -> fds_of (with_fds (union {[fd]}) k) = {[fd]} ∪ fds_of k.
Proof.
  intros Hfd. unfold fds_of. cbn. apply leibniz_equiv. intros x.
  rewrite elem_of_union, !elem_of_filter, elem_of_union, elem_of_singleton.
  split; [tauto|]. intros [->|]; tauto.
Qed.

#[export] Instance proc_fds : FdLaws proc.
Proof.
  refine {| open_fds := fds_of |}.
  - intros k fd [H _]%elem_of_fds. exact H.
  - intros f k fd k' [= <- <-]. pose proof (new_fd_pos (p_fds k)).
    split_and!; [done | apply new_not_open | by apply fds_of_add].
  - intros fd k c a k'. cbn. unfold proc_accept.
    destruct (p_accepts k) as [|[a'|e] l]; intros [= <- <- <-].
    pose proof (new_fd_pos (p_fds k)).
    split_and!; [done | apply new_not_open | by rewrite fds_of_add].
  - intros fd k e k'. cbn. unfold proc_accept. by destruct (p_accepts k) as [|[a'|e'] l]; intros [= <- <-].
  - intros fd k. unfold fds_of. cbn. apply leibniz_equiv. intros x.
    rewrite elem_of_difference, !elem_of_filter, elem_of_difference. tauto.
  - intros k fd k' [= <- <-]. right. pose proof (new_fd_pos (p_fds k)).
    split_and!; [done | apply new_not_open | by apply fds_of_add].
Defined.

#[export] Instance proc_accept_laws : AcceptLaws proc.
Proof.
  refine {| taken := p_taken |}.
  - intros fd k r k'. cbn. unfold proc_accept.
    by destruct (p_accepts k) as [|[a|e] l]; intros [= <- <-].
  - done.
  - by intros k fd k' [= <- <-].
Defined.

(** *** The laws of [sim], lifted *)
Ltac proc_call := cbn [sys_readv sys_write sys_epoll_ctl sys_epoll_wait sys_now proc_io proc_epoll
  proc_clock]; unfold on_sim; intros; simplify_eq; cbn [p_sim].

#[export] Instance proc_io_laws : SocketIOLaws proc.
Proof.
  refine {| sent k := sent (p_sim k) |}.
  - intros fd cap k d k' ?. proc_call. eapply readv_le; [done|]. apply injective_projections; by cbn.
  - intros fd d k n k'. proc_call. eapply write_le. apply injective_projections; by cbn.
  - intros fd d k n k'. proc_call. eapply write_sent. apply injective_projections; by cbn.
  - intros fd fd' d k r k' ?. proc_call. eapply write_other; [done|].
    by apply injective_projections; cbn.
  - intros fd d k n k'. proc_call. eapply write_failed. apply injective_projections; by cbn.
  - intros fd k. proc_call. destruct (write_nothing fd (p_sim k)) as [k' Hk]. rewrite Hk. by eexists.
  - intros fd fd' cap k r k'. proc_call. eapply readv_sent. apply injective_projections; by cbn.
Defined.

#[export] Instance proc_epoll_laws : EpollLaws proc.
Proof.
  refine {| interest k := interest (p_sim k) |}.
  - intros epfd op fd ev k Hl. proc_call. destruct (ctl_law epfd op fd ev _ Hl) as (k' & -> & ?).
    by eexists.
  - intros epfd op fd ev k Hl. proc_call. destruct (ctl_fails epfd op fd ev _ Hl) as (e & k' & -> & ?).
    by eexists _, _.
  - intros epfd op fd ev k x ?. proc_call. by apply ctl_others.
  - intros epfd m t k evs k' ?. proc_call. eapply (wait_law epfd m t); [done|].
    by apply injective_projections; cbn.
  - intros epfd m t k x. proc_call. apply wait_interest.
Defined.

#[export] Instance proc_clock_laws : ClockLaws proc.
Proof. split. intros k. exact (now_interest (p_sim k)). Qed.

(** poll(2) finds nothing ready. *)
#[export] Instance proc_poll_sys : PollSys proc := {|
  sys_poll fds t k := (inl (reports (ps_fill [] <$> fds)), ps_fill [] <$> fds, k);
|}.

#[export] Instance proc_quiet : Quiet proc.
Proof.
  refine {| quiet k k' := forall x, interest k' x = interest k x |}; try done.
  intros k1 k2 k3 H1 H2 x. by rewrite H2.
Defined.

#[export] Instance proc_quiet_epoll : QuietEpoll proc.
Proof. split. by intros k k' x Hq. Qed.

#[export] Instance proc_quiet_net : QuietNet proc.
Proof. by split. Qed.

#[export] Instance proc_close_epoll : CloseEpoll proc.
Proof.
  split. intros fd k x. cbn. unfold es_list. cbn. rewrite lookup_fmap.
  destruct (es_interest (sim_epoll (p_sim k)) !! x); cbn; [done | by rewrite delete_empty].
Qed.

#[export] Instance proc_timer_laws : TimerLaws proc.
Proof. split; [|done]. intros k. cbn. apply Z.mod_pos_bound. lia. Qed.
