(* ===== verification/LogStream.v ===== *)
(** * Log/LogStream.h, Log/LogStream.cc: the fixed buffer of a log line

    [FixedBuffer<SIZE>] is its array (whose length is [SIZE]) and the offset of
    [cur_] from [data_].  A C string is the list of its bytes before the
    terminating zero, [NULL] is [None].  The [snprintf] of the overload for
    [double] and the printing of a [std::thread::id] are parameters of the
    operators that use them; no value is outside the types: an integer argument
    is a [Z] in the range of its C++ type. *)

From S2P Require Import Prelude.
From Stdlib Require Strings.String.

Definition bytes (s : string) : list byte := String.list_byte_of_string s.

Definition kSmallBuffer : Z := 4000.
Definition kLargeBuffer : Z := 4000 * 1000.
Definition kMaxNumericSize : Z := 32.

Record FixedBuffer : Type := mkFixedBuffer {
  data_ : list byte;
  cur_ : Z;
}.

Definition set_data_ (v : list byte) (b : FixedBuffer) : FixedBuffer :=
  mkFixedBuffer v (cur_ b).
Definition set_cur_ (i : Z) (b : FixedBuffer) : FixedBuffer :=
  mkFixedBuffer (data_ b) i.

(** The constructor: the array keeps whatever bytes [mem] its memory had. *)
Definition FixedBuffer_ctor (mem : list byte) : FixedBuffer := mkFixedBuffer mem 0.

Definition length_ (b : FixedBuffer) : Z := i32 (cur_ b).
Definition avail (b : FixedBuffer) : Z := i32 (zlen (data_ b) - cur_ b).
Definition add (len : Z) : M FixedBuffer unit :=
  modify (fun b => set_cur_ (cur_ b + len) b).
Definition reset : M FixedBuffer unit := modify (set_cur_ 0).
Definition bzero : M FixedBuffer unit :=
  modify (fun b => set_data_ (replicate (length (data_ b)) x00) b).

(** [*p = c], [p] an offset from [data_]. *)
Definition store (p : Z) (c : byte) : M FixedBuffer unit :=
  let! b := get in
  let! v := lift (vec_write (data_ b) p [c]) in
  modify (set_data_ v).

Definition debugString : M FixedBuffer (list byte) :=
  let! b := get in
  store (cur_ b) x00 ;;
  let! b := get in
  ret (data_ b).

(** [append(buf, len)]; [static_cast<size_t>(avail())] is unsigned. *)
Definition append (buf : list byte) : M FixedBuffer unit :=
  let! b := get in
  whenb (zlen buf <? u64 (avail b))
    (let! v := lift (vec_write (data_ b) (cur_ b) buf) in
     modify (set_data_ v) ;;
     modify (fun b => set_cur_ (cur_ b + zlen buf) b)).

Definition toString (b : FixedBuffer) : res (list byte) := vec_read (data_ b) 0 (length_ b).

(** ** [convert] and [convertHex] *)
Definition digits : list byte := bytes "9876543210123456789".
Definition digitsHex : list byte := bytes "0123456789ABCDEF".

(** [zero[lsd]] with [zero = digits + 9]. *)
Definition zero_at (lsd : Z) : res byte :=
  match vec_read digits (9 + lsd) 1 with Ok [c] => Ok c | _ => Err OutOfBounds end.

Definition hex_at (lsd : Z) : res byte :=
  match vec_read digitsHex lsd 1 with Ok [c] => Ok c | _ => Err OutOfBounds end.

(** The [do ... while (i != 0)] loops; the result is [p].  C++ division
    truncates. *)
Fixpoint convert_loop (fuel : nat) (p i : Z) : M FixedBuffer Z :=
  match fuel with
  | O => throw OutOfFuel
  | S k =>
      let lsd := Z.rem i 10 in
      let i := Z.quot i 10 in
      let! c := lift (zero_at lsd) in
      store p c ;;
      let p := p + 1 in
      if i =? 0 then ret p else convert_loop k p i
  end.

Fixpoint convertHex_loop (fuel : nat) (p i : Z) : M FixedBuffer Z :=
  match fuel with
  | O => throw OutOfFuel
  | S k =>
      let lsd := Z.rem i 16 in
      let i := Z.quot i 16 in
      let! c := lift (hex_at lsd) in
      store p c ;;
      let p := p + 1 in
      if i =? 0 then ret p else convertHex_loop k p i
  end.

(** [std::reverse(buf, p)] *)
Definition std_reverse (buf p : Z) : M FixedBuffer unit :=
  let! b := get in
  let! d := lift (vec_read (data_ b) buf (p - buf)) in
  let! v := lift (vec_write (data_ b) buf (reverse d)) in
  modify (set_data_ v).

(** No integer type of the code has more than twenty decimal or sixteen
    hexadecimal digits. *)
Definition convert (buf value : Z) : M FixedBuffer Z :=
  let! p := convert_loop 20 buf value in
  let! p := if value <? 0 then store p "-"%byte ;; ret (p + 1) else ret p in
  store p x00 ;;
  std_reverse buf p ;;
  ret (p - buf).

Definition convertHex (buf value : Z) : M FixedBuffer Z :=
  let! p := convertHex_loop 16 buf value in
  store p x00 ;;
  std_reverse buf p ;;
  ret (p - buf).

(** ** The operators [<<] *)
Definition formatInteger (v : Z) : M FixedBuffer unit :=
  let! b := get in
  whenb (kMaxNumericSize <=? avail b)
    (let! len := convert (cur_ b) v in add len).

Definition put_bool (v : bool) : M FixedBuffer unit :=
  append (if v then bytes "1" else bytes "0").

(** [int], [unsigned], [long], [unsigned long], [long long] and
    [unsigned long long]. *)
Definition put_int (v : Z) : M FixedBuffer unit := formatInteger v.
Definition put_short (v : Z) : M FixedBuffer unit := put_int (i32 v).
Definition put_ushort (v : Z) : M FixedBuffer unit := put_int (u32 v).

Definition put_pointer (p : Z) : M FixedBuffer unit :=
  let v := u64 p in
  let! b := get in
  whenb (kMaxNumericSize <=? avail b)
    (let buf := cur_ b in
     store buf "0"%byte ;;
     store (buf + 1) "x"%byte ;;
     let! len := convertHex (buf + 2) v in
     add (len + 2)).

Definition put_char (v : byte) : M FixedBuffer unit := append [v].

Definition put_cstr (str : option (list byte)) : M FixedBuffer unit :=
  match str with
  | Some str => append str
  | None => append (bytes "(null)")
  end.

Definition put_string (v : list byte) : M FixedBuffer unit := append v.

Definition put_Buffer (v : FixedBuffer) : M FixedBuffer unit :=
  let! s := lift (toString v) in put_string s.

(** [operator<<(double)]: [snprintf(current(), kMaxNumericSize, "%.12g", v)]
    writes at most [kMaxNumericSize - 1] bytes of the text and a zero, and
    returns the length of the whole text. *)
Definition put_double (text : list byte) : M FixedBuffer unit :=
  let! b := get in
  whenb (kMaxNumericSize <=? avail b)
    (let out := take (Z.to_nat (kMaxNumericSize - 1)) text ++ [x00] in
     let! v := lift (vec_write (data_ b) (cur_ b) out) in
     modify (set_data_ v) ;;
     add (i32 (zlen text))).

(** [operator<<(std::thread::id id)]; [self] is what [std::ostream] prints for
    [std::this_thread::get_id()]. *)
Definition put_thread_id (self id : list byte) : M FixedBuffer unit :=
  put_string (bytes " " ++ self ++ bytes " ").

Definition resetBuffer : M FixedBuffer unit := reset.

(** One insertion into a stream. *)
Inductive item : Type :=
| IBool (v : bool)
| IShort (v : Z)
| IUShort (v : Z)
| IInt (v : Z)
| IPointer (v : Z)
| IDouble (text : list byte)
| IChar (v : byte)
| ICStr (v : option (list byte))
| IString (v : list byte)
| IThreadId (self id : list byte).

Definition put (i : item) : M FixedBuffer unit :=
  match i with
  | IBool v => put_bool v
  | IShort v => put_short v
  | IUShort v => put_ushort v
  | IInt v => put_int v
  | IPointer v => put_pointer v
  | IDouble text => put_double text
  | IChar v => put_char v
  | ICStr v => put_cstr v
  | IString v => put_string v
  | IThreadId self id => put_thread_id self id
  end.

(** ** What an insertion means *)

(** The digits of [n] in base [base], the lowest first. *)
Fixpoint digits_le (fuel : nat) (base n : Z) : list Z :=
  match fuel with
  | O => []
  | S k => n mod base :: if n / base =? 0 then [] else digits_le k base (n / base)
  end.

Definition byte_of (n : Z) : byte :=
  match Byte.of_N (Z.to_N n) with Some c => c | None => x00 end.
Definition dec_char (d : Z) : byte := byte_of (48 + d).
Definition hex_char (d : Z) : byte := byte_of (if d <? 10 then 48 + d else 55 + d).

Definition dec_text (n : Z) : list byte := reverse (dec_char <$> digits_le 20 10 n).
Definition hex_text (n : Z) : list byte := reverse (hex_char <$> digits_le 16 16 n).
Definition int_text (v : Z) : list byte :=
  if v <? 0 then "-"%byte :: dec_text (Z.abs v) else dec_text v.

Definition render (i : item) : list byte :=
  match i with
  | IBool v => bytes (if v then "1" else "0")
  | IShort v | IUShort v | IInt v => int_text v
  | IPointer v => bytes "0x" ++ hex_text v
  | IDouble text => text
  | IChar v => [v]
  | ICStr (Some s) => s
  | ICStr None => bytes "(null)"
  | IString s => s
  | IThreadId self _ => bytes " " ++ self ++ bytes " "
  end.

Definition numeric (i : item) : bool :=
  match i with
  | IShort _ | IUShort _ | IInt _ | IPointer _ | IDouble _ => true
  | _ => false
  end.

(** Whether [i] is written when [room] bytes are left. *)
Definition fits (room : Z) (i : item) : bool :=
  if numeric i then kMaxNumericSize <=? room else zlen (render i) <? room.

(** An insertion is whole or nothing. *)
Definition insert_item (size : Z) (txt : list byte) (i : item) : list byte :=
  if fits (size - zlen txt) i then txt ++ render i else txt.

(** The arguments the C++ types allow; ["%.12g"] prints at most 31 bytes, a
    string has a length. *)
Definition valid (i : item) : Prop :=
  match i with
  | IShort v => - 2 ^ 15 <= v < 2 ^ 15
  | IUShort v => 0 <= v < 2 ^ 16
  | IInt v => - 2 ^ 63 <= v < 2 ^ 64
  | IPointer v => 0 <= v < 2 ^ 64
  | IDouble text => zlen text < kMaxNumericSize
  | ICStr (Some s) | IString s => zlen s < 2 ^ 64
  | IThreadId self _ => zlen self + 2 < 2 ^ 64
  | IBool _ | IChar _ | ICStr None => True
  end.

Definition content (b : FixedBuffer) : list byte := take (Z.to_nat (cur_ b)) (data_ b).

Definition buffer_wf (size : Z) (b : FixedBuffer) : Prop :=
  zlen (data_ b) = size /\ 0 <= cur_ b < size.

(** [atoi], without its tolerance. *)
Definition digit_value (c : byte) : option Z :=
  let n := Z.of_N (Byte.to_N c) in
  if (48 <=? n) && (n <=? 57) then Some (n - 48) else None.

Fixpoint parse_digits (acc : Z) (l : list byte) : option Z :=
  match l with
  | [] => Some acc
  | c :: l' => d ← digit_value c; parse_digits (10 * acc + d) l'
  end.

Definition parse_int (l : list byte) : option Z :=
  match l with
  | [] => None
  | c :: l' =>
      if decide (c = "-"%byte) then Z.opp <$> parse_digits 0 l' else parse_digits 0 l
  end.

(** ** Storage lemmas *)
Section splice.
Context {A : Type}.
Implicit Types l d : list A.

(** A written list splits at the write. *)
Lemma splice_split l i d :
  0 <= i -> i + zlen d <= zlen l ->
  exists l1 l2 l0, l = l1 ++ l0 ++ l2 /\ length l0 = length d /\ Z.to_nat i = length l1 /\
    forall d', length d' = length d -> splice l i d' = l1 ++ d' ++ l2.
Proof.
  unfold splice, zlen. intros.
  exists (take (Z.to_nat i) l), (drop (Z.to_nat i + length d) l),
    (take (length d) (drop (Z.to_nat i) l)).
  rewrite length_take, length_drop, length_take.
  repeat split; [|lia|lia|by intros d' ->].
  rewrite <- (drop_drop l), take_drop, take_drop. done.
Qed.

Lemma splice_mid l1 l0 l2 d :
  length d = length l0 -> splice (l1 ++ l0 ++ l2) (zlen l1) d = l1 ++ d ++ l2.
Proof.
  intros Hd. unfold splice, zlen. rewrite Nat2Z.id, take_app_length.
  rewrite drop_app, drop_ge by lia. cbn.
  rewrite drop_app, drop_ge by lia. cbn. do 3 f_equal.
  replace (length l1 + length d - length l1 - length l0)%nat with 0%nat by lia. done.
Qed.

Lemma splice_splice l i d1 d2 :
  0 <= i -> i + zlen (d1 ++ d2) <= zlen l ->
  splice (splice l i d1) (i + zlen d1) d2 = splice l i (d1 ++ d2).
Proof.
  intros Hi Hl.
  destruct (splice_split l i (d1 ++ d2) Hi Hl) as (l1 & l2 & l0 & -> & H0 & H1 & _).
  rewrite length_app in H0. assert (i = zlen l1) as -> by (unfold zlen; lia).
  rewrite <- (take_drop (length d1) l0) at 1.
  rewrite <- (assoc app (take (length d1) l0)), (splice_mid l1 (take _ _))
    by (rewrite length_take; lia).
  rewrite (assoc app l1 d1), <- zlen_app, splice_mid by (rewrite length_drop; lia).
  rewrite splice_mid by (rewrite length_app; lia). by rewrite <- !(assoc app).
Qed.

Lemma splice_over l i d1 d2 d :
  0 <= i -> i + zlen (d1 ++ d2) <= zlen l -> length d = length d1 ->
  splice (splice l i (d1 ++ d2)) i d = splice l i (d ++ d2).
Proof.
  intros Hi Hl Hd.
  destruct (splice_split l i (d1 ++ d2) Hi Hl) as (l1 & l2 & l0 & -> & H0 & H1 & Hs).
  rewrite length_app in H0. assert (i = zlen l1) as -> by (unfold zlen; lia).
  rewrite !Hs by (rewrite ?length_app; lia).
  rewrite <- !(assoc app). by rewrite splice_mid.
Qed.

Lemma take_splice l i d1 d2 :
  0 <= i -> i + zlen (d1 ++ d2) <= zlen l ->
  take (Z.to_nat (i + zlen d1)) (splice l i (d1 ++ d2)) = take (Z.to_nat i) l ++ d1.
Proof.
  intros Hi Hl.
  destruct (splice_split l i (d1 ++ d2) Hi Hl) as (l1 & l2 & l0 & -> & H0 & H1 & Hs).
  rewrite Hs by done. rewrite H1, take_app_length, <- !(assoc app), (assoc app l1 d1).
  apply take_app_length'. rewrite length_app. unfold zlen. lia.
Qed.
End splice.

(** ** Digits *)
Lemma digits_le_length fuel base n : (length (digits_le fuel base n) <= fuel)%nat.
Proof.
  revert n. induction fuel as [|k IH]; intros n; cbn; [lia|].
  destruct (n / base =? 0); cbn; [lia|]. specialize (IH (n / base)). lia.
Qed.

Lemma digits_le_range fuel base n : 0 < base -> Forall (fun d => 0 <= d < base) (digits_le fuel base n).
Proof.
  intros Hb. revert n. induction fuel as [|k IH]; intros n; cbn; constructor.
  - apply Z.mod_pos_bound. lia.
  - destruct (n / base =? 0); [constructor | apply IH].
Qed.

(** The number the digits stand for. *)
Fixpoint value_le (base : Z) (ds : list Z) : Z :=
  match ds with [] => 0 | d :: ds' => d + base * value_le base ds' end.

Lemma digits_le_value fuel base n :
  1 < base -> 0 <= n < base ^ Z.of_nat fuel -> value_le base (digits_le fuel base n) = n.
Proof.
  intros Hb. revert n. induction fuel as [|k IH]; intros n Hn.
  { cbn in *. lia. }
  rewrite Nat2Z.inj_succ, Z.pow_succ_r in Hn by lia. cbn [digits_le value_le].
  pose proof (Z.div_mod n base ltac:(lia)) as Hdm.
  destruct (Z.eqb_spec (n / base) 0) as [H0|H0]; cbn [value_le].
  - lia.
  - rewrite IH; [lia|]. split; [apply Z.div_pos; lia | apply Z.div_lt_upper_bound; lia].
Qed.

Lemma digit_cases (P : Z -> Prop) (n : nat) d :
  0 <= d < Z.of_nat n -> Forall P (Z.of_nat <$> seq 0 n) -> P d.
Proof.
  intros Hd HP. rewrite Forall_forall in HP. apply HP.
  apply list_elem_of_fmap. exists (Z.to_nat d). split; [lia|].
  apply elem_of_seq. lia.
Qed.

Lemma zero_at_ok lsd : - 10 < lsd < 10 -> zero_at lsd = Ok (dec_char (Z.abs lsd)).
Proof.
  intros H. replace lsd with (lsd + 9 - 9) by lia.
  apply (digit_cases (fun d => zero_at (d - 9) = Ok (dec_char (Z.abs (d - 9)))) 19); [lia|].
  repeat constructor.
Qed.

Lemma hex_at_ok lsd : 0 <= lsd < 16 -> hex_at lsd = Ok (hex_char lsd).
Proof.
  intros H. apply (digit_cases (fun d => hex_at d = Ok (hex_char d)) 16); [lia|].
  repeat constructor.
Qed.

Lemma digit_value_dec d : 0 <= d < 10 -> digit_value (dec_char d) = Some d.
Proof.
  intros H. apply (digit_cases (fun d => digit_value (dec_char d) = Some d) 10); [lia|].
  repeat constructor.
Qed.

Lemma parse_digits_app acc l1 l2 :
  parse_digits acc (l1 ++ l2) = acc' ← parse_digits acc l1; parse_digits acc' l2.
Proof.
  revert acc. induction l1 as [|c l1 IH]; intros acc; cbn; [done|].
  destruct (digit_value c); cbn; [apply IH | done].
Qed.

Lemma parse_reverse ds :
  Forall (fun d => 0 <= d < 10) ds ->
  parse_digits 0 (reverse (dec_char <$> ds)) = Some (value_le 10 ds).
Proof.
  induction 1 as [|d ds Hd Hds IH]; [done|].
  rewrite fmap_cons, reverse_cons, parse_digits_app, IH. cbn.
  rewrite digit_value_dec by done. cbn. f_equal. lia.
Qed.

Lemma dec_text_parse n : 0 <= n < 10 ^ 20 -> parse_digits 0 (dec_text n) = Some n.
Proof.
  intros Hn. unfold dec_text. rewrite parse_reverse by (apply digits_le_range; lia).
  by rewrite digits_le_value.
Qed.

Lemma dec_text_head n : exists c l, dec_text n = c :: l /\ c <> "-"%byte.
Proof.
  pose proof (digits_le_range 20 10 n ltac:(lia)) as Hr. unfold dec_text.
  destruct (reverse (dec_char <$> digits_le 20 10 n)) as [|c l] eqn:E.
  { apply (f_equal length) in E. rewrite length_reverse, length_fmap in E. discriminate E. }
  exists c, l. split; [done|]. intros ->.
  assert (Hin : "-"%byte ∈ dec_char <$> digits_le 20 10 n).
  { apply elem_of_reverse. rewrite E. left. }
  apply list_elem_of_fmap in Hin as (d & Hd & Hin). rewrite Forall_forall in Hr.
  apply Hr, digit_value_dec in Hin. rewrite <- Hd in Hin. discriminate Hin.
Qed.

(** The text of an integer reads back. *)
Lemma int_text_parse v : - 10 ^ 20 < v < 10 ^ 20 -> parse_int (int_text v) = Some v.
Proof.
  intros Hv. unfold int_text, parse_int. destruct (Z.ltb_spec v 0).
  - rewrite decide_True by done. rewrite dec_text_parse by lia. cbn. f_equal. lia.
  - destruct (dec_text_head v) as (c & l & Ht & Hc). pose proof (dec_text_parse v) as Hp.
    rewrite Ht in Hp |- *. rewrite decide_False by done. apply Hp. lia.
Qed.

(** ** The conversion loops *)
Lemma store_ok b p c :
  0 <= p < zlen (data_ b) -> store p c b = Ok (tt, set_data_ (splice (data_ b) p [c]) b).
Proof.
  intros Hp. unfold store, bind, get, lift, modify.
  rewrite vec_write_ok by (rewrite ?zlen_cons; unfold zlen in *; cbn; lia). done.
Qed.

Lemma bind_store {A} b p c (k : unit -> M FixedBuffer A) :
  0 <= p < zlen (data_ b) ->
  bind (store p c) k b = k tt (set_data_ (splice (data_ b) p [c]) b).
Proof. intros. unfold bind. by rewrite store_ok. Qed.

Lemma convert_loop_ok fuel p i b :
  (0 < fuel)%nat -> Z.abs i < 10 ^ Z.of_nat fuel -> 0 <= p -> p + Z.of_nat fuel <= zlen (data_ b) ->
  let ds := dec_char <$> digits_le fuel 10 (Z.abs i) in
  convert_loop fuel p i b = Ok (p + zlen ds, set_data_ (splice (data_ b) p ds) b).
Proof.
  revert p i b. induction fuel as [|k IH]; intros p i b H0 Hi Hp Hl; [lia|].
  rewrite Nat2Z.inj_succ, Z.pow_succ_r in Hi by lia.
  assert (Hb : - 10 < Z.rem i 10 < 10) by (Z.to_euclidean_division_equations; lia).
  assert (Hq : Z.abs (Z.quot i 10) = Z.abs i / 10)
    by (Z.to_euclidean_division_equations; lia).
  assert (Hr : Z.abs (Z.rem i 10) = Z.abs i mod 10)
    by (Z.to_euclidean_division_equations; lia).
  cbn [convert_loop digits_le]. unfold lift.
  rewrite zero_at_ok, Hr by exact Hb.
  match goal with |- bind ?m ?f b = _ => change (bind m f b) with (f (dec_char (Z.abs i mod 10)) b) end.
  cbv beta. rewrite bind_store by lia. cbv beta zeta.
  replace (Z.abs i / 10 =? 0) with (Z.quot i 10 =? 0) by (zcase; lia).
  destruct (Z.eqb_spec (Z.quot i 10) 0) as [|Hn]; [done|].
  assert (Z.abs (Z.quot i 10) < 10 ^ Z.of_nat k)
    by (rewrite Hq; apply Z.div_lt_upper_bound; lia).
  rewrite IH; cbn [set_data_ data_]; [|destruct k; [cbn in *; lia | lia]|done|lia|
    rewrite zlen_splice by (unfold zlen in *; cbn; lia); lia].
  rewrite Hq, fmap_cons. set (ds := dec_char <$> digits_le k 10 (Z.abs i / 10)).
  assert (zlen ds <= Z.of_nat k)
    by (unfold ds, zlen; rewrite length_fmap; pose proof (digits_le_length k 10 (Z.abs i / 10)); lia).
  rewrite (splice_splice _ _ [_] ds) by (rewrite ?zlen_app; unfold zlen in *; cbn; lia).
  do 2 f_equal. unfold zlen. cbn. lia.
Qed.

Lemma convertHex_loop_ok fuel p i b :
  (0 < fuel)%nat -> 0 <= i < 16 ^ Z.of_nat fuel -> 0 <= p -> p + Z.of_nat fuel <= zlen (data_ b) ->
  let ds := hex_char <$> digits_le fuel 16 i in
  convertHex_loop fuel p i b = Ok (p + zlen ds, set_data_ (splice (data_ b) p ds) b).
Proof.
  revert p i b. induction fuel as [|k IH]; intros p i b H0 Hi Hp Hl; [lia|].
  rewrite Nat2Z.inj_succ, Z.pow_succ_r in Hi by lia.
  cbn [convertHex_loop digits_le]. unfold lift.
  rewrite Z.rem_mod_nonneg, Z.quot_div_nonneg, hex_at_ok
    by (lia || apply Z.mod_pos_bound; lia).
  match goal with |- bind ?m ?f b = _ => change (bind m f b) with (f (hex_char (i mod 16)) b) end.
  cbv beta. rewrite bind_store by lia. cbv beta zeta.
  destruct (Z.eqb_spec (i / 16) 0) as [|Hn]; [done|].
  assert (0 <= i / 16 < 16 ^ Z.of_nat k)
    by (split; [apply Z.div_pos; lia | apply Z.div_lt_upper_bound; lia]).
  rewrite IH; cbn [set_data_ data_]; [|destruct k; [cbn in *; lia | lia]|lia|lia|
    rewrite zlen_splice by (unfold zlen in *; cbn; lia); lia].
  rewrite fmap_cons. set (ds := hex_char <$> digits_le k 16 (i / 16)).
  assert (zlen ds <= Z.of_nat k)
    by (unfold ds, zlen; rewrite length_fmap; pose proof (digits_le_length k 16 (i / 16)); lia).
  rewrite (splice_splice _ _ [_] ds) by (rewrite ?zlen_app; unfold zlen in *; cbn; lia).
  do 2 f_equal. unfold zlen. cbn. lia.
Qed.

(** The end of both conversions: terminate, reverse, measure. *)
Lemma convert_end_ok b buf t :
  0 <= buf -> buf + zlen t < zlen (data_ b) ->
  (let! _ := store (buf + zlen t) x00 in
   std_reverse buf (buf + zlen t) ;; ret (buf + zlen t - buf))
    (set_data_ (splice (data_ b) buf t) b) =
  Ok (zlen t, set_data_ (splice (data_ b) buf (reverse t ++ [x00])) b).
Proof.
  intros Hb Hl. pose proof (zlen_nonneg t).
  assert (Ht : zlen (t ++ [x00]) = zlen t + 1) by (rewrite zlen_app; unfold zlen; cbn; lia).
  rewrite bind_store by (cbn [set_data_ data_]; rewrite zlen_splice; lia).
  cbn [set_data_ data_ cur_]. rewrite splice_splice by lia.
  unfold std_reverse, bind, get, lift, modify. cbn [data_ set_data_ cur_].
  rewrite vec_read_ok by (rewrite ?zlen_splice by lia; lia).
  replace (buf + (buf + zlen t - buf)) with (buf + zlen t) by lia.
  assert (slice buf (buf + zlen t) (splice (data_ b) buf (t ++ [x00])) = t) as ->.
  { pose proof (slice_splice (data_ b) buf (t ++ [x00]) Hb ltac:(lia)) as Hs.
    rewrite <- (take_slice _ buf (buf + zlen (t ++ [x00])) (zlen t)), Hs by lia.
    unfold zlen. rewrite Nat2Z.id. apply take_app_length. }
  assert (zlen (reverse t) = zlen t) by (unfold zlen; rewrite length_reverse; lia).
  rewrite vec_write_ok by (rewrite ?zlen_splice by lia; lia).
  rewrite splice_over by (rewrite ?length_reverse; lia).
  unfold ret. do 2 f_equal. lia.
Qed.

Lemma digits_text_length f fuel base n : zlen (f <$> digits_le fuel base n : list byte) <= Z.of_nat fuel.
Proof. unfold zlen. rewrite length_fmap. pose proof (digits_le_length fuel base n). lia. Qed.

Lemma zlen_reverse {A} (l : list A) : zlen (reverse l) = zlen l.
Proof. unfold zlen. by rewrite length_reverse. Qed.

Lemma zlen_cons {A} (x : A) l : zlen (x :: l) = zlen l + 1.
Proof. unfold zlen. cbn. lia. Qed.

Lemma int_text_length v : zlen (int_text v) <= 21.
Proof.
  pose proof (digits_text_length dec_char 20 10 v).
  pose proof (digits_text_length dec_char 20 10 (Z.abs v)).
  unfold int_text, dec_text. case_match; rewrite ?zlen_cons, zlen_reverse; lia.
Qed.

Lemma convert_ok buf v b :
  Z.abs v < 10 ^ 20 -> 0 <= buf -> buf + 22 <= zlen (data_ b) ->
  convert buf v b =
  Ok (zlen (int_text v), set_data_ (splice (data_ b) buf (int_text v ++ [x00])) b).
Proof.
  intros Hv Hb Hl. unfold convert. unfold bind at 1.
  rewrite convert_loop_ok by lia. cbv zeta.
  pose proof (digits_text_length dec_char 20 10 (Z.abs v)) as Hd.
  set (ds := dec_char <$> digits_le 20 10 (Z.abs v)) in *.
  pose proof (zlen_nonneg ds). unfold int_text, dec_text. destruct (Z.ltb_spec v 0).
  - rewrite bind_assoc, bind_store by (cbn [set_data_ data_]; rewrite zlen_splice; lia).
    rewrite bind_ret_l. cbn [set_data_ data_ cur_].
    assert (Hds : zlen (ds ++ ["-"%byte]) = zlen ds + 1) by (rewrite zlen_app; done).
    rewrite splice_splice by lia.
    replace (buf + zlen ds + 1) with (buf + zlen (ds ++ ["-"%byte])) by lia.
    etransitivity; [apply (convert_end_ok b buf); lia|].
    fold ds. rewrite reverse_snoc. do 2 f_equal. rewrite zlen_cons, zlen_reverse. lia.
  - rewrite bind_ret_l. etransitivity; [apply (convert_end_ok b buf); lia|].
    unfold ds. rewrite (Z.abs_eq v), zlen_reverse by lia. done.
Qed.

Lemma convertHex_ok buf v b :
  0 <= v < 2 ^ 64 -> 0 <= buf -> buf + 17 <= zlen (data_ b) ->
  convertHex buf v b =
  Ok (zlen (hex_text v), set_data_ (splice (data_ b) buf (hex_text v ++ [x00])) b).
Proof.
  intros Hv Hb Hl. unfold convertHex. unfold bind at 1.
  rewrite convertHex_loop_ok by (change (16 ^ Z.of_nat 16) with (2 ^ 64); lia). cbv zeta.
  pose proof (digits_text_length hex_char 16 16 v) as Hd.
  etransitivity; [apply (convert_end_ok b buf); [done | change (Z.of_nat 16) with 16 in Hd; lia]|].
  unfold hex_text. by rewrite zlen_reverse.
Qed.

(** ** Every operator inserts its text or nothing *)
Section put.
Variable size : Z.
Hypothesis size_int : size < 2 ^ 31.
Implicit Types b : FixedBuffer.

(** What an insertion of [txt] that fits leaves. *)
Definition appended (txt : list byte) (b b' : FixedBuffer) : Prop :=
  buffer_wf size b' /\ content b' = content b ++ txt.

Lemma avail_wf b : buffer_wf size b -> avail b = size - cur_ b.
Proof. intros [Hs Hc]. unfold avail. rewrite Hs. apply i32_small. lia. Qed.

Lemma content_length b : buffer_wf size b -> zlen (content b) = cur_ b.
Proof. intros [Hs Hc]. unfold content, zlen in *. rewrite length_take. lia. Qed.

Lemma toString_content b : buffer_wf size b -> toString b = Ok (content b).
Proof.
  intros [Hs Hr]. unfold toString, length_. rewrite i32_small by lia.
  rewrite vec_read_ok by lia. unfold slice, content. by rewrite Z.add_0_l, Z.sub_0_r, drop_0.
Qed.

(** The array after a write of [txt ++ rest] at [cur_], [cur_] moved by [txt]. *)
Lemma appended_splice b txt rest :
  buffer_wf size b -> cur_ b + zlen (txt ++ rest) <= size -> cur_ b + zlen txt < size ->
  appended txt b (mkFixedBuffer (splice (data_ b) (cur_ b) (txt ++ rest)) (cur_ b + zlen txt)).
Proof.
  intros [Hs Hc] Hr Ht. pose proof (zlen_nonneg txt). unfold appended, buffer_wf, content.
  cbn [data_ cur_]. rewrite zlen_splice by lia. repeat split; try lia.
  apply take_splice; lia.
Qed.

Lemma fixed_append_spec b txt :
  buffer_wf size b -> zlen txt < 2 ^ 64 ->
  wp (append txt) (fun _ => appended (if zlen txt <? size - cur_ b then txt else []) b) b.
Proof.
  intros Hwf Ht. pose proof Hwf as [Hs Hc]. unfold append. wp_simp.
  rewrite avail_wf, u64_small by (done || lia).
  destruct (Z.ltb_spec (zlen txt) (size - cur_ b)).
  - wp_simp. apply wp_lift. eexists. split; [by apply vec_write_ok; lia|].
    pose proof (appended_splice b txt [] Hwf) as Ha. rewrite app_nil_r in Ha.
    apply Ha; lia.
  - unfold appended. by rewrite app_nil_r.
Qed.

Lemma formatInteger_spec b v :
  buffer_wf size b -> - 2 ^ 63 <= v < 2 ^ 64 ->
  wp (formatInteger v)
     (fun _ => appended (if kMaxNumericSize <=? size - cur_ b then int_text v else []) b) b.
Proof.
  intros Hwf Hv. pose proof Hwf as [Hs Hc]. unfold formatInteger. wp_simp.
  rewrite avail_wf by done. unfold kMaxNumericSize. destruct (Z.leb_spec 32 (size - cur_ b)).
  - pose proof (int_text_length v). wp_simp. eapply wp_ok; [apply convert_ok; lia|].
    cbn beta. unfold add. wp_simp. unfold set_cur_. cbn [set_data_ data_ cur_].
    apply appended_splice; [done| |lia]. rewrite zlen_app.
    change (zlen [x00]) with 1. lia.
  - unfold appended. by rewrite app_nil_r.
Qed.

Lemma put_pointer_spec b p :
  buffer_wf size b -> 0 <= p < 2 ^ 64 ->
  wp (put_pointer p)
     (fun _ => appended (if kMaxNumericSize <=? size - cur_ b
                         then bytes "0x" ++ hex_text p else []) b) b.
Proof.
  intros Hwf Hp. pose proof Hwf as [Hs Hc]. unfold put_pointer.
  rewrite u64_small by done. wp_simp.
  rewrite avail_wf by done. unfold kMaxNumericSize. destruct (Z.leb_spec 32 (size - cur_ b)).
  2: { unfold appended. by rewrite app_nil_r. }
  assert (zlen (hex_text p) <= 16).
  { unfold hex_text. rewrite zlen_reverse. apply (digits_text_length hex_char 16). }
  wp_simp.
  eapply wp_ok; [apply store_ok; lia|]. wp_simp.
  eapply wp_ok; [apply store_ok; cbn [set_data_ data_];
    rewrite zlen_splice by (unfold zlen in *; cbn; lia); lia|]. wp_simp.
  cbn [set_data_ data_ cur_].
  rewrite (splice_splice _ _ ["0"%byte] ["x"%byte]) by (unfold zlen in *; cbn; lia).
  eapply wp_ok; [apply convertHex_ok; [lia|lia|]; cbn [set_data_ data_];
    rewrite zlen_splice by (unfold zlen in *; cbn; lia); lia|]. cbn beta.
  unfold add. wp_simp. cbn [set_data_ data_ cur_].
  assert (zlen (bytes "0x" ++ hex_text p ++ [x00]) = zlen (hex_text p) + 3).
  { rewrite !zlen_app. change (zlen (bytes "0x")) with 2. change (zlen [x00]) with 1. lia. }
  rewrite (splice_splice _ (cur_ b) (bytes "0x")) by lia.
  rewrite (assoc app). unfold set_cur_. cbn [cur_ data_].
  replace (cur_ b + (zlen (hex_text p) + 2)) with (cur_ b + zlen (bytes "0x" ++ hex_text p))
    by (rewrite zlen_app; change (zlen (bytes "0x")) with 2; lia).
  apply appended_splice; [done| |]; rewrite !zlen_app in *;
    change (zlen (bytes "0x")) with 2 in *; change (zlen [x00]) with 1 in *; lia.
Qed.

Lemma put_double_spec b text :
  buffer_wf size b -> zlen text < kMaxNumericSize ->
  wp (put_double text)
     (fun _ => appended (if kMaxNumericSize <=? size - cur_ b then text else []) b) b.
Proof.
  intros Hwf Ht. pose proof Hwf as [Hs Hc]. pose proof (zlen_nonneg text).
  unfold put_double. wp_simp. rewrite avail_wf by done.
  rewrite take_ge by (unfold zlen, kMaxNumericSize in *; lia). unfold kMaxNumericSize in *.
  destruct (Z.leb_spec 32 (size - cur_ b)).
  - wp_simp. apply wp_lift. eexists. split; [apply vec_write_ok;
      rewrite ?zlen_app; change (zlen [x00]) with 1; lia|].
    unfold add. wp_simp. rewrite i32_small by lia. unfold set_cur_. cbn [set_data_ data_ cur_].
    apply appended_splice; [done| |lia]. rewrite zlen_app. change (zlen [x00]) with 1. lia.
  - unfold appended. by rewrite app_nil_r.
Qed.

(** The common form: [i] is inserted when it fits. *)
Lemma put_spec b i :
  buffer_wf size b -> valid i ->
  wp (put i) (fun _ => appended (if fits (size - cur_ b) i then render i else []) b) b.
Proof.
  intros Hwf Hi. destruct i as [v|v|v|v|v|text|v|[s|]|s|self id]; cbn in Hi; cbn [put];
    unfold fits; cbn [numeric render].
  - destruct v; by apply fixed_append_spec.
  - unfold put_short, put_int. rewrite i32_small by lia. apply formatInteger_spec; [done|lia].
  - unfold put_ushort, put_int, u32. rewrite Z.mod_small by lia.
    apply formatInteger_spec; [done|lia].
  - by apply formatInteger_spec.
  - by apply put_pointer_spec.
  - by apply put_double_spec.
  - by apply fixed_append_spec.
  - by apply fixed_append_spec.
  - by apply fixed_append_spec.
  - by apply fixed_append_spec.
  - apply fixed_append_spec; [done|]. rewrite !zlen_app. change (zlen (bytes " ")) with 1. lia.
Qed.

Lemma put_all_spec b its :
  buffer_wf size b -> Forall valid its ->
  wp (for_each its put)
     (fun _ b' => buffer_wf size b' /\
        content b' = foldl (insert_item size) (content b) its) b.
Proof.
  intros Hwf Hits. revert b Hwf. induction Hits as [|i its Hi Hits IH]; intros b Hwf; [done|].
  cbn [for_each]. wp_simp. eapply wp_mono; [by apply put_spec|].
  intros [] b' [Hwf' Hc']. cbn [foldl]. eapply wp_mono; [by apply IH|].
  intros _ b'' [? Hc'']. split; [done|]. rewrite Hc'', Hc'. f_equal.
  unfold insert_item. rewrite content_length by done. destruct (fits _ i); [done|].
  apply app_nil_r.
Qed.
End put.

(** When the whole line leaves [kMaxNumericSize] bytes of the array free,
    nothing is dropped. *)
Lemma insert_all_fits size txt its :
  zlen txt + zlen (its ≫= render) + kMaxNumericSize <= size ->
  foldl (insert_item size) txt its = txt ++ (its ≫= render).
Proof.
  revert txt. induction its as [|i its IH]; intros txt Hl; cbn in *; [by rewrite app_nil_r|].
  rewrite zlen_app in Hl. pose proof (zlen_nonneg (its ≫= render)).
  pose proof (zlen_nonneg (render i)).
  assert (insert_item size txt i = txt ++ render i) as ->.
  { unfold insert_item, fits, kMaxNumericSize in *. by destruct (numeric i); zcase; try lia. }
  rewrite IH by (rewrite zlen_app; lia). by rewrite <- (assoc app).
Qed.

(** ** Properties *)

(** C34. For every array of fewer than 2^31 bytes and every sequence of
    insertions, the log stream never reads or writes outside its array, and the
    text it holds is what the insertions say: each one whole when it fits (a
    number needs thirty-two free bytes, a string one more than its length) and
    dropped otherwise. *)
Theorem stream_inserts_whole_or_nothing size b its :
  size < 2 ^ 31 -> buffer_wf size b -> Forall valid its ->
  wp (for_each its put)
     (fun _ b' => buffer_wf size b' /\
        toString b' = Ok (foldl (insert_item size) (content b) its)) b.
Proof.
  intros Hsize Hwf Hits. eapply wp_mono; [by apply put_all_spec|].
  intros _ b' [Hwf' <-]. split; [done|]. by apply (toString_content size).
Qed.

(** C35. [operator<<] on any C++ integer, [INT64_MIN] and [UINT64_MAX] included,
    ends (the fuel of the digit loop is enough) and appends a text that reads
    back as that integer. *)
Theorem formatInteger_roundtrip size b v :
  size < 2 ^ 31 -> buffer_wf size b -> kMaxNumericSize <= size - cur_ b ->
  - 2 ^ 63 <= v < 2 ^ 64 ->
  wp (put_int v)
     (fun _ b' => exists txt, content b' = content b ++ txt /\ parse_int txt = Some v) b.
Proof.
  intros Hsize Hwf Hroom Hv. eapply wp_mono; [by eapply (put_spec size Hsize b (IInt v))|].
  intros _ b' [_ Hc]. exists (int_text v). split; [|apply int_text_parse; lia].
  rewrite Hc. cbn [fits numeric]. by destruct (Z.leb_spec kMaxNumericSize (size - cur_ b)); [|lia].
Qed.

Definition empty_stream (n : nat) : FixedBuffer := FixedBuffer_ctor (replicate n x00).

Lemma stream_inserts_whole_or_nothing_witness :
  wp (for_each [ICStr (Some (bytes "n=")); IInt (- 5); IString (replicate 44 x41)] put)
     (fun _ b' => buffer_wf 48 b' /\ toString b' = Ok (bytes "n=-5")) (empty_stream 48).
Proof.
  refine (wp_mono _ _ _ _ (stream_inserts_whole_or_nothing 48 (empty_stream 48)
    [ICStr (Some (bytes "n=")); IInt (- 5); IString (replicate 44 x41)] _ _ _) _).
  - lia.
  - split; [reflexivity | cbn; lia].
  - repeat constructor; cbn; unfold zlen; cbn; lia.
  - intros _ b' [Hwf Ht]. split; [exact Hwf | exact Ht].
Defined.

Lemma formatInteger_roundtrip_witness :
  wp (put_int (- 2 ^ 63))
     (fun _ b' => exists txt, content b' = content (empty_stream 32) ++ txt /\
        parse_int txt = Some (- 2 ^ 63)) (empty_stream 32).
Proof.
  refine (formatInteger_roundtrip 32 (empty_stream 32) (- 2 ^ 63) _ _ _ _).
  - lia.
  - split; [reflexivity | cbn; lia].
  - cbn. unfold kMaxNumericSize. lia.
  - lia.
Defined.
