(* ===== verification/Timestamp.v ===== *)
(** * Timestamp.h

    A [Timestamp] is the number of nanoseconds since 1970 in a signed 64-bit
    integer.  [localtime] reads the time zone of the machine and is a parameter;
    [strftime] is modelled for the two formats of the sources. *)

From S2P Require Import Prelude Posix LogStream.

(** ** The clock *)
Section clock.
Context {K : Type} `{ClockSys K}.

Definition now : M K Z := total sys_now.

Definition nowAfter (interval : Z) : M K Z :=
  let! t := now in lift (i64_checked (t + interval)).

Definition nowBefore (interval : Z) : M K Z :=
  let! t := now in lift (i64_checked (t - interval)).
End clock.

(** ** Dates *)

(** The fields of [struct tm] that are printed. *)
Record tm : Type := mkTm {
  tm_year : Z;  (** since 1900 *)
  tm_mon : Z;   (** from 0 *)
  tm_mday : Z;
  tm_hour : Z;
  tm_min : Z;
  tm_sec : Z;
}.

(** [%m], [%d], [%H], [%M], [%S]: two digits. *)
Definition two_digits (n : Z) : list byte := [dec_char (n / 10 mod 10); dec_char (n mod 10)].

(** [%Y] *)
Definition year_text (t : tm) : list byte := int_text (1900 + tm_year t).

Definition time_text (t : tm) : list byte :=
  two_digits (tm_hour t) ++ ":"%byte :: two_digits (tm_min t) ++ ":"%byte :: two_digits (tm_sec t).

(** ["%Y%m%d %H:%M:%S"] *)
Definition compact_text (t : tm) : list byte :=
  year_text t ++ two_digits (tm_mon t + 1) ++ two_digits (tm_mday t) ++ " "%byte :: time_text t.

(** ["%Y-%m-%d %H:%M:%S "] *)
Definition dashed_text (t : tm) : list byte :=
  year_text t ++ "-"%byte :: two_digits (tm_mon t + 1) ++ "-"%byte :: two_digits (tm_mday t) ++
  " "%byte :: time_text t ++ [" "%byte].

(** [strftime] into an array of [size] zeros: nothing when the text and its zero
    do not fit. *)
Definition strftime (text : list byte) (size : Z) : list byte :=
  if zlen text <? size then text else [].

(** [system_clock::to_time_t] truncates. *)
Definition to_time_t (n : Z) : Z := Z.quot n (10 ^ 9).

Definition clock_toString (localtime : Z -> tm) (n : Z) : list byte :=
  strftime (compact_text (localtime (to_time_t n))) 100.

(** ** The interval types the compile-time check admits *)
Inductive Duration : Type :=
| Nanosecond | Microsecond | Millisecond | Second | Minute | Hour
| OtherDuration (num den : positive).

Definition IntervalTypeCheckImpl (T : Duration) : bool :=
  match T with
  | Nanosecond | Microsecond | Millisecond | Second | Minute | Hour => true
  | OtherDuration _ _ => false
  end.

(** ** Lemmas *)

(** The fields are those of a date after 1900 with a year of at most five digits. *)
Definition date_ok (t : tm) : Prop :=
  0 <= tm_year t < 98100 /\ 0 <= tm_mon t < 12 /\ 1 <= tm_mday t < 32 /\
  0 <= tm_hour t < 24 /\ 0 <= tm_min t < 60 /\ 0 <= tm_sec t < 61.

Lemma two_digits_inj a b :
  0 <= a < 100 -> 0 <= b < 100 -> two_digits a = two_digits b -> a = b.
Proof.
  intros Ha Hb [= H1 H2]. apply (f_equal digit_value) in H1, H2.
  rewrite !digit_value_dec in H1 by (apply Z.mod_pos_bound; lia).
  rewrite !digit_value_dec in H2 by (apply Z.mod_pos_bound; lia).
  injection H1 as H1. injection H2 as H2. Z.to_euclidean_division_equations. lia.
Qed.

Lemma time_text_inj t1 t2 :
  date_ok t1 -> date_ok t2 -> time_text t1 = time_text t2 ->
  tm_hour t1 = tm_hour t2 /\ tm_min t1 = tm_min t2 /\ tm_sec t1 = tm_sec t2.
Proof.
  unfold date_ok, time_text. intros ? ? H.
  apply app_inj_1 in H as [Hh H]; [|done]. injection H as Hm0 Hm1 Hs0 Hs1.
  assert (Hm : two_digits (tm_min t1) = two_digits (tm_min t2)) by (unfold two_digits; congruence).
  assert (Hs : two_digits (tm_sec t1) = two_digits (tm_sec t2)) by (unfold two_digits; congruence).
  apply two_digits_inj in Hh, Hm, Hs; lia.
Qed.

(** Two different dates have different texts. *)
Lemma compact_text_inj t1 t2 : date_ok t1 -> date_ok t2 -> compact_text t1 = compact_text t2 -> t1 = t2.
Proof.
  intros H1 H2 H. assert (Hok1 := H1). assert (Hok2 := H2). unfold date_ok in H1, H2.
  unfold compact_text in H. apply app_inj_2 in H as [Hy H]; [|done].
  apply app_inj_1 in H as [Hmon H]; [|done].
  apply app_inj_1 in H as [Hday Ht]; [|done].
  assert (Ht' : time_text t1 = time_text t2) by exact (f_equal tail Ht).
  apply (time_text_inj t1 t2 Hok1 Hok2) in Ht' as (? & ? & ?).
  apply two_digits_inj in Hmon, Hday; try lia. unfold year_text in Hy.
  apply (f_equal parse_int) in Hy. rewrite !int_text_parse in Hy by lia.
  destruct t1, t2; cbn in *. injection Hy as Hy. f_equal; lia.
Qed.

(** A date always fits its array. *)
Lemma clock_toString_ok localtime n :
  clock_toString localtime n = compact_text (localtime (to_time_t n)).
Proof.
  unfold clock_toString, strftime. rewrite (proj2 (Z.ltb_lt _ _)); [done|].
  unfold compact_text, year_text. set (t := localtime (to_time_t n)).
  pose proof (int_text_length (1900 + tm_year t)). rewrite !zlen_app, zlen_cons.
  unfold zlen at 2 3 4. cbn. lia.
Qed.

Lemma clock_toString_short localtime n : zlen (clock_toString localtime n) < 100.
Proof. unfold clock_toString, strftime. by case_match eqn:E; [apply Z.ltb_lt|]. Qed.

(** The date of a log line tells the second it was written. *)
Lemma clock_toString_inj localtime n1 n2 :
  date_ok (localtime (to_time_t n1)) -> date_ok (localtime (to_time_t n2)) ->
  clock_toString localtime n1 = clock_toString localtime n2 ->
  localtime (to_time_t n1) = localtime (to_time_t n2).
Proof. rewrite !clock_toString_ok. apply compact_text_inj. Qed.

(** ** Coordinated universal time, as a concrete [localtime] *)

(** The date of a day since 1970 in the Gregorian calendar, by eras of 400 years
    that begin on the first of March. *)
Definition civil (days : Z) : Z * Z * Z :=
  let z := days + 719468 in
  let era := z / 146097 in
  let doe := z mod 146097 in
  let yoe := (doe - doe / 1460 + doe / 36524 - doe / 146096) / 365 in
  let doy := doe - (365 * yoe + yoe / 4 - yoe / 100) in
  let mp := (5 * doy + 2) / 153 in
  let m := if mp <? 10 then mp + 2 else mp - 10 in
  (yoe + era * 400 + (if m <? 2 then 1 else 0), m, doy - (153 * mp + 2) / 5 + 1).

Definition utc (t : Z) : tm :=
  let '(y, m, d) := civil (t / 86400) in
  let s := t mod 86400 in
  mkTm (y - 1900) m d (s / 3600) (s / 60 mod 60) (s mod 60).

Lemma clock_toString_utc : clock_toString utc (1627898400 * 10 ^ 9 + 5) = bytes "20210802 10:00:00".
Proof. reflexivity. Qed.

Lemma dashed_utc : dashed_text (utc 951782399) = bytes "2000-02-28 23:59:59 ".
Proof. reflexivity. Qed.
