(* ===== verification/Logging.v ===== *)
(** * Log/Logging.h, Log/Logging.cc: a log line from macro to output

    A [Logger] is built, filled and destroyed inside one full expression, so a
    macro is one computation over the calls made on [stdout].  The text of the
    current time, of the thread id and of [strerror_r] come from the system: they
    are parameters ([LogSystem]).  The functions [g_output] and [g_flush] point
    to are the class [Sinks]. *)

From S2P Require Import Prelude Posix LogStream Timestamp.
From Stdlib Require Strings.String.

(** What the logger asks of the system while one line is built. *)
Class LogSystem : Type := {
  now_text : list byte;        (** [clock::toString(clock::now())] *)
  self_text : list byte;       (** [std::this_thread::get_id()] through [<<] *)
  strerror_text : Z -> list byte;  (** [strerror_r] *)
  errno_value : Z;
}.

(** Nothing in C++ prints a date, a thread or an error longer than this. *)
Class LogSystemLaws (L : LogSystem) : Prop := {
  now_short : zlen now_text < 100;
  self_short : zlen self_text < 2 ^ 32;
  strerror_short e : zlen (strerror_text e) < 512;
  errno_int : - 2 ^ 31 <= errno_value < 2 ^ 31;
}.

(** ** [SourceFile] *)
Record SourceFile : Type := mkSourceFile { sf_data_ : list byte; sf_size_ : Z }.

(** [strrchr(s, '/') + 1]: the bytes after the last slash. *)
Fixpoint after_last_slash (s : list byte) : option (list byte) :=
  match s with
  | [] => None
  | c :: s' =>
      match after_last_slash s' with
      | Some r => Some r
      | None => if decide (c = "/"%byte) then Some s' else None
      end
  end.

(** From a string literal of [N - 1] characters. *)
Definition SourceFile_literal (arr : list byte) : SourceFile :=
  match after_last_slash arr with
  | Some slash => mkSourceFile slash (zlen arr - i32 (zlen arr - zlen slash))
  | None => mkSourceFile arr (zlen arr)
  end.

Definition SourceFile_filename (filename : list byte) : SourceFile :=
  match after_last_slash filename with
  | Some slash => mkSourceFile slash (i32 (zlen slash))
  | None => mkSourceFile filename (i32 (zlen filename))
  end.

(** ** The level *)
Definition initLogLevel (env_trace env_debug : bool) : LogLevel :=
  if env_trace then TRACE else if env_debug then DEBUG else INFO.

Definition setLogLevel (level : Z) : LogLevel :=
  match level with
  | 1 => TRACE
  | 2 => DEBUG
  | 3 => INFO
  | 4 => WARN
  | 5 => NONE
  | _ => INFO
  end.

Definition LogLevelName : list (list byte) :=
  [bytes "TRACE "; bytes "DEBUG "; bytes "INFO  ";
   bytes "WARN  "; bytes "ERROR "; bytes "FATAL "].

(** ** Where lines go *)

(** A call on [stdout]. *)
Inductive stdio : Type :=
| Fwrite (msg : list byte)
| Fflush.

Definition Output : Type := list stdio.

(** [g_output] and [g_flush]. *)
Class Sinks : Type := mkSinks {
  g_output : list byte -> M Output unit;
  g_flush : M Output unit;
}.

Definition defaultOutput (msg : list byte) : M Output unit :=
  modify (fun out => out ++ [Fwrite msg]).

Definition defaultFlush : M Output unit := modify (fun out => out ++ [Fflush]).

Definition default_sinks : Sinks := mkSinks defaultOutput defaultFlush.

Definition setOutput (out : list byte -> M Output unit) (k : Sinks) : Sinks :=
  mkSinks out (@g_flush k).

Definition setFlush (flush : M Output unit) (k : Sinks) : Sinks :=
  mkSinks (@g_output k) flush.

(** ** [Logger] *)
Record Logger : Type := mkLogger {
  stream_ : FixedBuffer;
  level_ : LogLevel;
  line_ : Z;
  basename_ : SourceFile;
}.

Definition stream_lens : lens Logger FixedBuffer :=
  Lens stream_ (fun s l => mkLogger s (level_ l) (line_ l) (basename_ l)).

Section Logging.
Context {B : Build} {L : LogSystem} {Sk : Sinks}.

Definition strerror_tl (savedErrno : Z) : list byte := strerror_text savedErrno.

(** [append(data, len)] reads [len] bytes from [data]. *)
Definition stream_append (data : list byte) (len : Z) : M FixedBuffer unit :=
  let! buf := lift (vec_read data 0 len) in append buf.

(** [operator<<(LogStream&, T)] with the constructor of [T]. *)
Definition put_T (str : list byte) (len : Z) : M FixedBuffer unit :=
  assert_ (zlen str =? len) ;; stream_append str len.

Definition put_SourceFile (v : SourceFile) : M FixedBuffer unit :=
  stream_append (sf_data_ v) (sf_size_ v).

Definition LogLevelName_at (level : LogLevel) : res (list byte) :=
  match vec_read LogLevelName (level_num level) 1 with Ok [s] => Ok s | _ => Err OutOfBounds end.

(** [Logger::Impl::Impl]; [mem] is what the array held before. *)
Definition Impl_ctor (mem : list byte) (level : LogLevel) (savedErrno : Z)
    (file : SourceFile) (line : Z) : res Logger :=
  let body : M FixedBuffer unit :=
    put_string now_text ;;
    put_thread_id self_text self_text ;;
    let! name := lift (LogLevelName_at level) in
    put_T name 6 ;;
    whenb (negb (savedErrno =? 0))
      (put_cstr (Some (strerror_tl savedErrno)) ;;
       put_cstr (Some (bytes " (errno=")) ;;
       put_int savedErrno ;;
       put_cstr (Some (bytes ") "))) in
  match body (FixedBuffer_ctor mem) with
  | Ok (_, s) => Ok (mkLogger s level line file)
  | Err f => Err f
  end.

(** [Impl::formatTime]: [now] is [localtime] of the current second. *)
Definition formatTime (now : tm) : M Logger unit :=
  zoom stream_lens (put_cstr (Some (strftime (dashed_text now) 26))).

Definition finish : M Logger unit :=
  let! l := get in
  zoom stream_lens
    (put_cstr (Some (bytes " - ")) ;;
     put_SourceFile (basename_ l) ;;
     put_char ":"%byte ;;
     put_int (line_ l) ;;
     put_char x0a).

Definition Logger_ctor (mem : list byte) (file : SourceFile) (line : Z) : res Logger :=
  Impl_ctor mem INFO 0 file line.

Definition Logger_ctor_level (mem : list byte) (file : SourceFile) (line : Z)
    (level : LogLevel) : res Logger :=
  Impl_ctor mem level errno_value file line.

Definition Logger_ctor_func (mem : list byte) (file : SourceFile) (line : Z)
    (level : LogLevel) (func : list byte) : res Logger :=
  match Impl_ctor mem level 0 file line with
  | Ok l =>
      match zoom stream_lens (put_cstr (Some func) ;; put_char " "%byte) l with
      | Ok (_, l) => Ok l
      | Err f => Err f
      end
  | Err f => Err f
  end.

(** [~Logger] *)
Definition Logger_dtor (l : Logger) : M Output unit :=
  let! l := lift (match finish l with Ok (_, l) => Ok l | Err f => Err f end) in
  let! msg := lift (toString (stream_ l)) in
  g_output msg ;;
  if decide (level_ l = FATAL) then g_flush ;; throw Aborted else ret tt.

(** [Logger(...).stream() << items;] *)
Definition log_with (ctor : res Logger) (items : list item) : M Output unit :=
  let! l := lift ctor in
  let! l := lift (match zoom stream_lens (for_each items put) l with
                  | Ok (_, l) => Ok l | Err f => Err f end) in
  Logger_dtor l.

(** The macros; [file] is [__FILE__], a literal. *)
Definition enabled (threshold : LogLevel) : bool :=
  level_num g_logLevel <=? level_num threshold.

Variables (mem file : list byte) (line : Z) (func : list byte).

Definition log_TRACE (items : list item) : M Output unit :=
  whenb (enabled TRACE)
    (log_with (Logger_ctor_func mem (SourceFile_literal file) line TRACE func) items).
Definition log_DEBUG (items : list item) : M Output unit :=
  whenb (enabled DEBUG)
    (log_with (Logger_ctor_func mem (SourceFile_literal file) line DEBUG func) items).
Definition log_INFO (items : list item) : M Output unit :=
  whenb (enabled INFO) (log_with (Logger_ctor mem (SourceFile_literal file) line) items).
Definition log_WARN (items : list item) : M Output unit :=
  whenb (enabled WARN)
    (log_with (Logger_ctor_level mem (SourceFile_literal file) line WARN) items).
Definition log_ERROR (items : list item) : M Output unit :=
  whenb (enabled WARN)
    (log_with (Logger_ctor_level mem (SourceFile_literal file) line ERROR) items).
Definition log_FATAL (items : list item) : M Output unit :=
  whenb (enabled WARN)
    (log_with (Logger_ctor_level mem (SourceFile_literal file) line FATAL) items).

Definition log (level : LogLevel) : list item -> M Output unit :=
  match level with
  | TRACE => log_TRACE | DEBUG => log_DEBUG | INFO => log_INFO
  | WARN => log_WARN | ERROR => log_ERROR | FATAL => log_FATAL
  | NONE => fun _ => ret tt
  end.
End Logging.

(** ** The line a macro produces *)
Section line.
Context {B : Build} {L : LogSystem} {Sk : Sinks}.

Definition level_name (level : LogLevel) : list byte :=
  match LogLevelName_at level with Ok s => s | Err _ => [] end.

Definition basename (file : list byte) : list byte :=
  match after_last_slash file with Some s => s | None => file end.

(** The least severe [g_logLevel] that silences the macro is the next one. *)
Definition threshold (level : LogLevel) : LogLevel :=
  match level with ERROR | FATAL => WARN | l => l end.

Definition errno_items (e : Z) : list item :=
  if e =? 0 then []
  else [ICStr (Some (strerror_text e)); ICStr (Some (bytes " (errno=")); IInt e;
        ICStr (Some (bytes ") "))].

Definition head_items (level : LogLevel) (e : Z) : list item :=
  [IString now_text; IThreadId self_text self_text; ICStr (Some (level_name level))] ++
  errno_items e.

(** What the constructor a macro picks writes. *)
Definition macro_items (level : LogLevel) (func : list byte) : list item :=
  match level with
  | TRACE | DEBUG => head_items level 0 ++ [ICStr (Some func); IChar " "%byte]
  | INFO => head_items level 0
  | _ => head_items level errno_value
  end.

Definition tail_items (file : list byte) (line : Z) : list item :=
  [ICStr (Some (bytes " - ")); IString (basename file); IChar ":"%byte; IInt line; IChar x0a].

Definition line_items (level : LogLevel) (file : list byte) (line : Z) (func : list byte)
    (items : list item) : list item :=
  macro_items level func ++ items ++ tail_items file line.

Definition line_text (its : list item) : list byte :=
  foldl (insert_item kSmallBuffer) [] its.

Lemma stream_append_all str b : stream_append str (zlen str) b = append str b.
Proof.
  unfold stream_append, bind, lift. rewrite vec_read_ok by (pose proof (zlen_nonneg str); lia).
  unfold slice. rewrite drop_0, take_ge; [done|]. unfold zlen. lia.
Qed.

Lemma put_T_ok str b : put_T str (zlen str) b = append str b.
Proof.
  unfold put_T, bind, assert_. rewrite Z.eqb_refl.
  destruct NDEBUG; apply stream_append_all.
Qed.

Lemma level_name_ok level : level <> NONE -> LogLevelName_at level = Ok (level_name level).
Proof. by destruct level. Qed.

Lemma level_name_length level : level <> NONE -> zlen (level_name level) = 6.
Proof. by destruct level. Qed.

Lemma Impl_ctor_items mem level e file line :
  level <> NONE ->
  Impl_ctor mem level e file line =
  match for_each (head_items level e) put (FixedBuffer_ctor mem) with
  | Ok (_, s) => Ok (mkLogger s level line file)
  | Err f => Err f
  end.
Proof.
  intros Hl. unfold Impl_ctor, head_items, errno_items, strerror_tl. set (b := FixedBuffer_ctor mem).
  unfold lift. rewrite level_name_ok, <- (level_name_length level) by done.
  cbn [for_each put app]. unfold bind, ret.
  destruct (put_string now_text b) as [[[] b1]|f]; [|done].
  destruct (put_thread_id self_text self_text b1) as [[[] b2]|f]; [|done].
  rewrite put_T_ok. cbn [put_cstr].
  destruct (append (level_name level) b2) as [[[] b3]|f]; [|done].
  destruct (e =? 0); [done|]. cbn [negb whenb for_each put put_cstr]. unfold bind, ret.
  repeat (case_match; simplify_eq; try done).
Qed.

Lemma after_last_slash_length s r : after_last_slash s = Some r -> zlen r <= zlen s.
Proof.
  revert r. induction s as [|c s IH]; intros r; [done|]. cbn. rewrite zlen_cons.
  destruct (after_last_slash s) as [r'|].
  - intros [= <-]. specialize (IH r' eq_refl). lia.
  - case_decide; [|done]. intros [= <-]. lia.
Qed.

Lemma SourceFile_literal_ok file :
  zlen file < 2 ^ 31 ->
  SourceFile_literal file = mkSourceFile (basename file) (zlen (basename file)).
Proof.
  intros Hf. unfold SourceFile_literal, basename.
  destruct (after_last_slash file) as [r|] eqn:E; [|done].
  apply after_last_slash_length in E. pose proof (zlen_nonneg r).
  rewrite i32_small by lia. f_equal. lia.
Qed.

(** Both constructors find the same file name. *)
Lemma SourceFile_agree file :
  zlen file < 2 ^ 31 -> SourceFile_literal file = SourceFile_filename file.
Proof.
  intros Hf. rewrite SourceFile_literal_ok by done. unfold SourceFile_filename, basename.
  pose proof (zlen_nonneg file).
  destruct (after_last_slash file) as [r|] eqn:E; rewrite i32_small; try done; [|lia].
  apply after_last_slash_length in E. pose proof (zlen_nonneg r). lia.
Qed.

Lemma finish_items l file :
  basename_ l = mkSourceFile (basename file) (zlen (basename file)) ->
  finish l = zoom stream_lens (for_each (tail_items file (line_ l)) put) l.
Proof.
  intros Hb. unfold finish, bind at 1, get. rewrite Hb. unfold zoom. cbn [stream_lens lget].
  unfold tail_items, put_SourceFile, put_string. cbn [for_each put sf_data_ sf_size_].
  unfold put_string, bind, ret. cbn [put_cstr].
  destruct (append (bytes " - ") (stream_ l)) as [[[] b]|f]; [|done].
  rewrite stream_append_all. repeat (case_match; simplify_eq; try done).
  by repeat match goal with u : unit |- _ => destruct u end.
Qed.

Context {HL : LogSystemLaws L}.

Lemma head_items_valid level e :
  level <> NONE -> - 2 ^ 31 <= e < 2 ^ 31 -> Forall valid (head_items level e).
Proof.
  intros Hl He. pose proof now_short. pose proof self_short. pose proof (strerror_short e).
  pose proof (level_name_length level Hl).
  unfold head_items, errno_items. destruct (e =? 0); cbn [app];
    repeat (apply Forall_cons; split); try apply Forall_nil; cbn [valid]; try done; lia.
Qed.

Lemma zlen_basename file : zlen (basename file) <= zlen file.
Proof.
  unfold basename. destruct (after_last_slash file) eqn:E; [|lia].
  by apply after_last_slash_length.
Qed.

Lemma tail_items_valid file line :
  zlen file < 2 ^ 31 -> - 2 ^ 31 <= line < 2 ^ 31 -> Forall valid (tail_items file line).
Proof.
  intros Hf Hl. pose proof (zlen_basename file). unfold tail_items.
  repeat (apply Forall_cons; split); try apply Forall_nil; cbn [valid]; try done; lia.
Qed.

(** A run of insertions, as an equation. *)
Lemma put_all_ok b its :
  buffer_wf kSmallBuffer b -> Forall valid its ->
  exists b', for_each its put b = Ok (tt, b') /\ buffer_wf kSmallBuffer b' /\
    content b' = foldl (insert_item kSmallBuffer) (content b) its.
Proof.
  intros Hwf Hv.
  destruct (wp_inv _ _ _ (put_all_spec kSmallBuffer ltac:(done) b its Hwf Hv)) as ([] & b' & ? & ?).
  eauto.
Qed.

(** [log_with] on a logger that holds the text of [its0]. *)
Lemma log_with_ok ctor its0 its level file line out :
  ctor = Ok (mkLogger its0 level line (mkSourceFile (basename file) (zlen (basename file)))) ->
  buffer_wf kSmallBuffer its0 -> Forall valid its ->
  zlen file < 2 ^ 31 -> - 2 ^ 31 <= line < 2 ^ 31 ->
  log_with ctor its out =
  (g_output (foldl (insert_item kSmallBuffer) (content its0) (its ++ tail_items file line)) ;;
   if decide (level = FATAL) then g_flush ;; throw Aborted else ret tt) out.
Proof.
  intros -> Hwf Hv Hf Hl. unfold log_with, Logger_dtor. unfold bind at 1 2, lift at 1 2.
  destruct (put_all_ok its0 its Hwf Hv) as (b1 & H1 & Hwf1 & Hc1).
  unfold zoom at 1. cbn [lget stream_lens stream_]. rewrite H1. cbn [lset stream_lens].
  rewrite (finish_items _ file) by done. unfold zoom. cbn [lget stream_lens stream_ line_].
  destruct (put_all_ok b1 (tail_items file line) Hwf1 (tail_items_valid _ _ Hf Hl))
    as (b2 & H2 & Hwf2 & Hc2).
  rewrite H2. cbn [lset stream_lens level_]. unfold bind at 1, lift at 1.
  unfold bind at 1, lift at 1. cbn [stream_].
  rewrite (toString_content kSmallBuffer) by done. by rewrite Hc2, Hc1, <- foldl_app.
Qed.

(** The logger the macro of [level] builds. *)
Lemma ctor_ok mem file line func level (ctor : res Logger) :
  level <> NONE -> zlen mem = kSmallBuffer -> zlen func < 2 ^ 32 ->
  ctor = match level with
         | TRACE | DEBUG => Logger_ctor_func mem file line level func
         | INFO => Logger_ctor mem file line
         | _ => Logger_ctor_level mem file line level
         end ->
  exists s, ctor = Ok (mkLogger s level line file) /\ buffer_wf kSmallBuffer s /\
    content s = line_text (macro_items level func).
Proof.
  intros Hl Hmem Hfunc ->. pose proof errno_int.
  assert (Hwf : buffer_wf kSmallBuffer (FixedBuffer_ctor mem)) by (split; [done | cbn; unfold kSmallBuffer; lia]).
  assert (Himpl : forall e, - 2 ^ 31 <= e < 2 ^ 31 -> exists s,
    Impl_ctor mem level e file line = Ok (mkLogger s level line file) /\
    buffer_wf kSmallBuffer s /\ content s = line_text (head_items level e)).
  { intros e He. rewrite Impl_ctor_items by done.
    destruct (put_all_ok _ _ Hwf (head_items_valid level e Hl He)) as (s & -> & ? & Hs).
    exists s. split; [done|]. by split. }
  assert (Hfn : exists s, Logger_ctor_func mem file line level func =
      Ok (mkLogger s level line file) /\ buffer_wf kSmallBuffer s /\
      content s = line_text (head_items level 0 ++ [ICStr (Some func); IChar " "%byte])).
  { destruct (Himpl 0 ltac:(lia)) as (s & Hs & Hwfs & Hcs). unfold Logger_ctor_func. rewrite Hs.
    assert (Hv : Forall valid [ICStr (Some func); IChar " "%byte])
      by (repeat constructor; cbn; lia).
    destruct (put_all_ok s _ Hwfs Hv) as (s' & Hs' & ? & Hc').
    exists s'. unfold line_text. rewrite foldl_app. fold (line_text (head_items level 0)).
    rewrite <- Hcs. split; [|by split]. unfold zoom. cbn [lget stream_lens stream_].
    cbn [for_each put] in Hs'. unfold bind, ret in Hs' |- *.
    destruct (put_cstr (Some func) s) as [[[] s1]|]; [|done].
    by destruct (put_char " " s1) as [[[] s2]|]; simplify_eq. }
  destruct level; try done; by apply Himpl.
Qed.
End line.

(** The run of a macro. *)
Lemma log_macro_run {B : Build} {L : LogSystem} {Sk : Sinks} {HL : LogSystemLaws L}
    mem file line func level items out :
  level <> NONE -> zlen mem = kSmallBuffer -> zlen func < 2 ^ 32 -> zlen file < 2 ^ 31 ->
  - 2 ^ 31 <= line < 2 ^ 31 -> Forall valid items ->
  log mem file line func level items out =
  if enabled (threshold level) then
    (g_output (line_text (line_items level file line func items)) ;;
     if decide (level = FATAL) then g_flush ;; throw Aborted else ret tt) out
  else Ok (tt, out).
Proof.
  intros Hl Hmem Hfunc Hfile Hline Hitems.
  destruct (ctor_ok mem (SourceFile_literal file) line func level _ Hl Hmem Hfunc eq_refl)
    as (s & Hs & Hwf & Hc).
  rewrite (SourceFile_literal_ok file Hfile) in Hs.
  pose proof (log_with_ok _ s items level file line out Hs Hwf Hitems Hfile Hline) as Hlog.
  rewrite Hc in Hlog. unfold line_items, line_text. rewrite foldl_app.
  rewrite <- (SourceFile_literal_ok file Hfile) in Hlog.
  destruct level; try done; cbn [threshold log];
    unfold log_TRACE, log_DEBUG, log_INFO, log_WARN, log_ERROR, log_FATAL, whenb;
    (destruct (enabled _); [exact Hlog | done]).
Qed.

(** ** Properties *)

(** C36. Every logging macro, on every build and with any output and flush
    function: it does nothing when the level that gates it is disabled; otherwise
    it calls the output function exactly once, with a line made of the date, the thread, the level name, the error text when
    the macro saves errno, the function name for [TRACE] and [DEBUG], the
    message, the base name of the file and the line, each piece whole or
    dropped as in the stream; and [LOG_FATAL] flushes and aborts after it.
    [LOG_ERROR] and [LOG_FATAL] are gated by [WARN]. *)
Theorem log_macro_line {B : Build} {L : LogSystem} {Sk : Sinks} {HL : LogSystemLaws L}
    mem file line func level items out :
  level <> NONE -> zlen mem = kSmallBuffer -> zlen func < 2 ^ 32 -> zlen file < 2 ^ 31 ->
  - 2 ^ 31 <= line < 2 ^ 31 -> Forall valid items ->
  log mem file line func level items out =
  if enabled (threshold level) then
    (g_output (line_text (line_items level file line func items)) ;;
     if decide (level = FATAL) then g_flush ;; throw Aborted else ret tt) out
  else Ok (tt, out).
Proof. apply log_macro_run. Qed.

(** The [LOG_FATAL] of the other components keeps exactly the effect of the
    macro that matters to them: the program ends, or nothing happens. *)
Lemma log_FATAL_refines {B : Build} {L : LogSystem} {HL : LogSystemLaws L}
    mem file line items out :
  zlen mem = kSmallBuffer -> zlen file < 2 ^ 31 -> - 2 ^ 31 <= line < 2 ^ 31 ->
  Forall valid items ->
  log_FATAL (Sk:=default_sinks) mem file line items out = LOG_FATAL out.
Proof.
  intros Hmem Hfile Hline Hitems.
  destruct (ctor_ok mem (SourceFile_literal file) line [] FATAL _ ltac:(done)
    Hmem ltac:(done) eq_refl) as (s & Hs & Hwf & Hc).
  rewrite (SourceFile_literal_ok file Hfile) in Hs.
  pose proof (log_with_ok (Sk:=default_sinks) _ s items FATAL file line out Hs Hwf Hitems Hfile Hline) as Hlog.
  rewrite <- (SourceFile_literal_ok file Hfile) in Hlog.
  unfold log_FATAL, LOG_FATAL, whenb, enabled. destruct (_ <=? _); [exact Hlog | done].
Qed.

Definition sample_log : LogSystem := {|
  now_text := bytes "20210802 10:00:00";
  self_text := bytes "140";
  strerror_text _ := bytes "Broken pipe";
  errno_value := 32;
|}.

Lemma sample_log_laws : LogSystemLaws sample_log.
Proof. by split. Qed.

Lemma log_macro_line_witness :
  log (B := debug_build) (L := sample_log) (Sk := default_sinks) (replicate 4000 x41)
    (bytes "src/twnl/a.cc") 12
    (bytes "f") WARN [ICStr (Some (bytes "fd = ")); IInt 7] [] =
  Ok (tt, [Fwrite (bytes "20210802 10:00:00 140 WARN  Broken pipe (errno=32) fd = 7 - a.cc:12" ++ [x0a])]).
Proof.
  refine (eq_trans (log_macro_line (B := debug_build) (L := sample_log) (Sk := default_sinks)
    (HL := sample_log_laws)
    (replicate 4000 x41) (bytes "src/twnl/a.cc") 12 (bytes "f") WARN
    [ICStr (Some (bytes "fd = ")); IInt 7] [] _ _ _ _ _ _) _).
  - discriminate.
  - reflexivity.
  - reflexivity.
  - reflexivity.
  - lia.
  - apply Forall_cons; split; [reflexivity|]. apply Forall_cons; split; [cbn; lia | constructor].
  - vm_compute. reflexivity.
Defined.
