(* ===== verification/SocketsOps.v ===== *)
(** * SocketsOps.h, SocketsOps.cc, InetAddress.h, InetAddress.cc, Socket.h, Socket.cc

    The wrappers of the socket calls, and addresses.  The host is little endian
    (x86-64).  [inet_pton] and [inet_ntop] are parameters.  A [Socket] is its
    descriptor. *)

From S2P Require Import Prelude Posix LogStream.

(** ** Byte order *)
Definition htobe16 (z : Z) : Z := (z mod 2 ^ 8) * 2 ^ 8 + (z / 2 ^ 8) mod 2 ^ 8.
Definition htobe32 (z : Z) : Z := htobe16 (z mod 2 ^ 16) * 2 ^ 16 + htobe16 (z / 2 ^ 16).
Definition htobe64 (z : Z) : Z := htobe32 (z mod 2 ^ 32) * 2 ^ 32 + htobe32 (z / 2 ^ 32).
Definition be16toh (z : Z) : Z := htobe16 z.
Definition be32toh (z : Z) : Z := htobe32 z.
Definition be64toh (z : Z) : Z := htobe64 z.

Definition hostToNetwork16 (host16 : Z) : Z := htobe16 host16.
Definition hostToNetwork32 (host32 : Z) : Z := htobe32 host32.
Definition hostToNetwork64 (host64 : Z) : Z := htobe64 host64.
Definition networkToHost16 (net16 : Z) : Z := be16toh net16.
Definition networkToHost32 (net32 : Z) : Z := be32toh net32.
Definition networkToHost64 (net64 : Z) : Z := be64toh net64.

(** ** [InetAddress] *)
Section InetAddress.
Context {B : Build}.

(** [inet_pton] on a C string: [None] when it does not parse. *)
Variable inet_pton4 : list byte -> option Z.
Variable inet_pton6 : list byte -> option (list byte).
(** [inet_ntop] *)
Variable inet_ntop4 : Z -> list byte.
Variable inet_ntop6 : list byte -> list byte.

Definition in6addr_any : list byte := replicate 16 x00.
Definition in6addr_loopback : list byte := replicate 15 x00 ++ [x01].

(** The constructors; [mem] is what the union held before.  The IPv4 address
    covers the first sixteen bytes. *)
Definition InetAddress_ctor (mem : sockaddr) (port : Z) (loopbackOnly ipv6 : bool) : sockaddr :=
  if ipv6 then
    mkSockaddr AF_INET6 (htobe16 port) 0 (if loopbackOnly then in6addr_loopback else in6addr_any) 0
  else
    let ip := if loopbackOnly then INADDR_LOOPBACK else INADDR_ANY in
    mkSockaddr AF_INET (htobe16 port) (htobe32 ip) (replicate 8 x00 ++ drop 8 (sin6_addr mem))
      (sin6_scope_id mem).

Definition InetAddress_ctor_ip (mem : sockaddr) (ip : list byte) (port : Z) (ipv6 : bool) : sockaddr :=
  if ipv6 then
    mkSockaddr AF_INET6 (htobe16 port) 0 (default in6addr_any (inet_pton6 ip)) 0
  else
    mkSockaddr AF_INET (htobe16 port) (default 0 (inet_pton4 ip))
      (replicate 8 x00 ++ drop 8 (sin6_addr mem)) (sin6_scope_id mem).

Definition family (a : sockaddr) : Z := sa_family a.
Definition portNetEndian (a : sockaddr) : Z := sin_port a.
Definition toPort (a : sockaddr) : Z := be16toh (portNetEndian a).

Definition ipNetEndian {S} (a : sockaddr) : M S Z :=
  assert_ (family a =? AF_INET) ;; ret (sin_addr a).

Definition setScopeId (scope_id : Z) (a : sockaddr) : sockaddr :=
  if family a =? AF_INET6
  then mkSockaddr (sa_family a) (sin_port a) (sin_addr a) (sin6_addr a) scope_id else a.

Definition toIp (a : sockaddr) : list byte :=
  if family a =? AF_INET6 then inet_ntop6 (sin6_addr a) else inet_ntop4 (sin_addr a).

(** The port is printed with [snprintf] into what is left of the 64 bytes. *)
Definition toIpPort (a : sockaddr) : list byte :=
  let buf := toIp a in
  buf ++ take (64 - length buf - 1) (":"%byte :: dec_text (be16toh (sin_port a))).

Definition fromIpPort4 (ip : list byte) (port : Z) (a : sockaddr) : sockaddr :=
  mkSockaddr AF_INET (hostToNetwork16 port) (default (sin_addr a) (inet_pton4 ip))
    (sin6_addr a) (sin6_scope_id a).

Definition fromIpPort6 (ip : list byte) (port : Z) (a : sockaddr) : sockaddr :=
  mkSockaddr AF_INET6 (hostToNetwork16 port) (sin_addr a) (default (sin6_addr a) (inet_pton6 ip))
    (sin6_scope_id a).
End InetAddress.

(** ** [namespace sockets] *)
Section sockets.
Context {B : Build} {K : Type} `{NetSys K} `{SockSys K}.

(** The descriptor, or [-1]. *)
Definition createNonblockingOrDie (family : Z) : M K Z :=
  let! r := total (sys_socket family) in
  match r with inl fd => ret fd | inr _ => LOG_FATAL ;; ret (-1) end.

Definition bindOrDie (sockfd : Z) (addr : sockaddr) : M K unit :=
  let! r := total (sys_bind sockfd addr) in
  match r with inl _ => ret tt | inr _ => LOG_FATAL end.

Definition listenOrDie (sockfd : Z) : M K unit :=
  let! r := total (sys_listen sockfd) in
  match r with inl _ => ret tt | inr _ => LOG_FATAL end.

(** The errors of [accept] after which the server goes on. *)
Definition accept_transient (e : Z) : bool :=
  (e =? EAGAIN) || (e =? ECONNABORTED) || (e =? EINTR) || (e =? EPROTO) || (e =? EPERM) ||
  (e =? EMFILE).

(** A descriptor with the address of the peer, or the value [errno] is left with. *)
Definition accept (sockfd : Z) : M K (sysres (Z * sockaddr)) :=
  let! r := total (sys_accept sockfd) in
  match r with
  | inl c => ret (inl c)
  | inr savedErrno =>
      whenb (negb (accept_transient savedErrno)) LOG_FATAL ;; ret (inr savedErrno)
  end.

Definition connect (sockfd : Z) (addr : sockaddr) : M K (sysres unit) :=
  total (sys_connect sockfd addr).

(** A failed close is only logged. *)
Definition close (sockfd : Z) : M K unit := let! r := total (sys_close sockfd) in ret tt.

Definition shutdownWrite (sockfd : Z) : M K unit :=
  let! r := total (sys_shutdown_write sockfd) in ret tt.

Definition getSocketError (sockfd : Z) : M K Z := total (sys_getSocketError sockfd).

Definition getLocalAddr (sockfd : Z) : M K sockaddr :=
  let! r := total (sys_getsockname sockfd) in
  ret (match r with inl a => a | inr _ => zero_sockaddr end).

Definition getPeerAddr (sockfd : Z) : M K sockaddr :=
  let! r := total (sys_getpeername sockfd) in
  ret (match r with inl a => a | inr _ => zero_sockaddr end).

Definition isSelfConnect (sockfd : Z) : M K bool :=
  let! localaddr := getLocalAddr sockfd in
  let! peeraddr := getPeerAddr sockfd in
  ret (if sa_family localaddr =? AF_INET then
         (sin_port localaddr =? sin_port peeraddr) && (sin_addr localaddr =? sin_addr peeraddr)
       else if sa_family localaddr =? AF_INET6 then
         (sin_port localaddr =? sin_port peeraddr) &&
         bool_decide (sin6_addr localaddr = sin6_addr peeraddr)
       else false).

(** [Socket::setReuseAddr] and its three siblings ignore the result. *)
Definition set_option (sockfd opt : Z) (on : bool) : M K unit :=
  let! r := total (sys_setsockopt sockfd opt on) in ret tt.
Definition setReuseAddr (sockfd : Z) (on : bool) : M K unit := set_option sockfd SO_REUSEADDR on.
Definition setReusePort (sockfd : Z) (on : bool) : M K unit := set_option sockfd SO_REUSEPORT on.
End sockets.

(** ** Lemmas *)

Lemma htobe16_range z : 0 <= htobe16 z < 2 ^ 16.
Proof. unfold htobe16. Z.to_euclidean_division_equations. lia. Qed.

Lemma htobe16_htobe16 z : 0 <= z < 2 ^ 16 -> htobe16 (htobe16 z) = z.
Proof. unfold htobe16. intros. Z.to_euclidean_division_equations. lia. Qed.

(** A word swapped by halves. *)
Lemma swap_halves (f : Z -> Z) (w z : Z) :
  0 < w -> (forall x, 0 <= f x < w) -> (forall x, 0 <= x < w -> f (f x) = x) -> 0 <= z < w * w ->
  let g z := f (z mod w) * w + f (z / w) in
  0 <= g z < w * w /\ g (g z) = z.
Proof.
  intros Hw Hr Hf Hz g. pose proof (Hr (z mod w)) as H1. pose proof (Hr (z / w)) as H2.
  assert (Hm : g z mod w = f (z / w)) by (unfold g; rewrite Z.add_comm, Z.mod_add, Z.mod_small; lia).
  assert (Hd : g z / w = f (z mod w))
    by (unfold g; rewrite Z.add_comm, Z.div_add, Z.div_small; lia).
  split; [unfold g; nia|]. unfold g at 1. rewrite Hm, Hd, !Hf.
  - pose proof (Z.div_mod z w ltac:(lia)). lia.
  - apply Z.mod_pos_bound. lia.
  - split; [apply Z.div_pos; lia | apply Z.div_lt_upper_bound; lia].
Qed.

Lemma htobe32_range z : 0 <= htobe32 z < 2 ^ 32.
Proof.
  unfold htobe32. pose proof (htobe16_range (z mod 2 ^ 16)). pose proof (htobe16_range (z / 2 ^ 16)).
  lia.
Qed.

Lemma htobe32_htobe32 z : 0 <= z < 2 ^ 32 -> htobe32 (htobe32 z) = z.
Proof.
  intros Hz. apply (swap_halves htobe16 (2 ^ 16) z); [lia | | apply htobe16_htobe16 | lia].
  apply htobe16_range.
Qed.

Lemma htobe64_htobe64 z : 0 <= z < 2 ^ 64 -> htobe64 (htobe64 z) = z.
Proof.
  intros Hz. apply (swap_halves htobe32 (2 ^ 32) z); [lia | | apply htobe32_htobe32 | lia].
  apply htobe32_range.
Qed.

(** The port reads back, whatever the address. *)
Lemma toPort_ctor mem port loopbackOnly ipv6 :
  0 <= port < 2 ^ 16 -> toPort (InetAddress_ctor mem port loopbackOnly ipv6) = port.
Proof. intros Hp. destruct ipv6; cbn; by apply htobe16_htobe16. Qed.

Section sockets_lemmas.
Context {B : Build} {K : Type} `{NetSys K} `{SockSys K}.

Lemma close_ok fd (k : K) : close fd k = Ok (tt, (sys_close fd k).2).
Proof. unfold close, bind, total. by destruct (sys_close fd k). Qed.

(** [accept] never aborts on the errors a busy server meets. *)
Lemma accept_transient_ok fd (k : K) :
  match (sys_accept fd k).1 with inr e => accept_transient e = true | inl _ => True end ->
  accept fd k = Ok (sys_accept fd k).
Proof.
  unfold accept, bind, total. destruct (sys_accept fd k) as [[c|e] k']; cbn; [done|].
  by intros ->.
Qed.
End sockets_lemmas.
