(* ===== verification/Socket.v ===== *)
(** * Socket.h, Socket.cc, and the rest of SocketsOps.cc

    Addresses printed into an array of the caller ([toIp], [toIpPort]), the class
    [Socket], and the code compiled under [VALGRIND] or [NO_ACCEPT4], which makes
    descriptors non-blocking with [fcntl] after they exist. *)

From S2P Require Import Prelude Posix LogStream SocketsOps.

(** ** Addresses in a C array *)

(** [strlen]: the index of the first zero; there must be one. *)
Definition strlen (buf : list byte) : res Z :=
  match list_find (fun b => b = x00) buf with
  | Some (i, _) => Ok (Z.of_nat i)
  | None => Err OutOfBounds
  end.

(** [inet_ntop] with the text [text] into an array of [size] bytes: it fails,
    with [ENOSPC], when the text and its zero do not fit. *)
Definition ntop_into (text : list byte) (size : Z) (buf : list byte) : res (list byte) :=
  if zlen text <? size then vec_write buf 0 (text ++ [x00]) else Ok buf.

(** [snprintf] of [text] at [at_], where [size] bytes are left. *)
Definition snprintf_at (at_ size : Z) (text : list byte) (buf : list byte) : res (list byte) :=
  if 0 <? size then vec_write buf at_ (take (Z.to_nat (size - 1)) text ++ [x00]) else Ok buf.

Definition INET_ADDRSTRLEN : Z := 16.
Definition INET6_ADDRSTRLEN : Z := 46.

Section toIp.
Context {B : Build}.
Variable inet_ntop4 : Z -> list byte.
Variable inet_ntop6 : list byte -> list byte.

(** The state is the array [buf] points to. *)
Definition sockets_toIp (size : Z) (addr : sockaddr) : M (list byte) unit :=
  if sa_family addr =? AF_INET then
    assert_ (INET_ADDRSTRLEN <=? size) ;;
    let! b := get in
    let! b' := lift (ntop_into (inet_ntop4 (sin_addr addr)) size b) in
    modify (fun _ => b')
  else if sa_family addr =? AF_INET6 then
    assert_ (INET6_ADDRSTRLEN <=? size) ;;
    let! b := get in
    let! b' := lift (ntop_into (inet_ntop6 (sin6_addr addr)) size b) in
    modify (fun _ => b')
  else ret tt.

Definition sockets_toIpPort (size : Z) (addr : sockaddr) : M (list byte) unit :=
  sockets_toIp size addr ;;
  let! b := get in
  let! end_ := lift (strlen b) in
  let port := networkToHost16 (sin_port addr) in
  assert_ (end_ <? size) ;;
  let! b' := lift (snprintf_at end_ (u64 (size - end_)) (":"%byte :: dec_text port) b) in
  modify (fun _ => b').

(** The C string at the beginning of an array. *)
Definition c_string (buf : list byte) : list byte :=
  match strlen buf with Ok n => take (Z.to_nat n) buf | Err _ => buf end.
End toIp.

(** ** The class [Socket] *)
Section Socket.
Context {B : Build} {K : Type} `{NetSys K} `{SockSys K}.

(** [InetAddress] is a union of the two forms of an address: it is converted
    to and from a [sockaddr] without change. *)
Definition getSockAddr (a : sockaddr) : sockaddr := a.
Definition setSockAddrInet6 (addr6 a : sockaddr) : sockaddr := addr6.

Definition Socket_dtor (sockfd_ : Z) : M K unit := close sockfd_.
Definition Socket_bindAddress (sockfd_ : Z) (addr : sockaddr) : M K unit :=
  bindOrDie sockfd_ (getSockAddr addr).
Definition Socket_listen (sockfd_ : Z) : M K unit := listenOrDie sockfd_.

(** The descriptor, or the error, and what [*peeraddr] holds afterwards. *)
Definition Socket_accept (sockfd_ : Z) (peeraddr : sockaddr) : M K (sysres Z * sockaddr) :=
  let! r := accept sockfd_ in
  match r with
  | inl (connfd, addr) => ret (inl connfd, setSockAddrInet6 addr peeraddr)
  | inr errno => ret (inr errno, peeraddr)
  end.

Definition Socket_setTcpNoDelay (sockfd_ : Z) (on : bool) : M K unit :=
  set_option sockfd_ TCP_NODELAY on.
Definition Socket_setKeepAlive (sockfd_ : Z) (on : bool) : M K unit :=
  set_option sockfd_ SO_KEEPALIVE on.
Definition Socket_shutdownWrite (sockfd_ : Z) : M K unit := shutdownWrite sockfd_.
End Socket.

(** ** Without [accept4]: [fcntl] *)

Definition F_GETFD : Z := 1.
Definition F_SETFD : Z := 2.
Definition F_GETFL : Z := 3.
Definition F_SETFL : Z := 4.
Definition O_NONBLOCK : Z := 2048.
Definition FD_CLOEXEC : Z := 1.

(** [socket] and [accept] without flags, and [fcntl]. *)
Class FcntlSys (K : Type) : Type := {
  sys_plain_socket : forall (family : Z), K -> sysres Z * K;
  sys_plain_accept : forall (fd : Z), K -> sysres (Z * sockaddr) * K;
  sys_fcntl : forall (fd cmd arg : Z), K -> sysres Z * K;
}.

(** [file_flags k fd]: the status flags and the descriptor flags of an open [fd]. *)
Class FcntlLaws (K : Type) `{FcntlSys K} : Type := {
  file_flags : K -> Z -> option (Z * Z);
  plain_socket_law family k fd k' :
    sys_plain_socket family k = (inl fd, k') -> 0 <= fd /\ is_Some (file_flags k' fd);
  plain_accept_law fd k c a k' :
    sys_plain_accept fd k = (inl (c, a), k') -> 0 <= c /\ is_Some (file_flags k' c);
  getfl_law fd k fl dl : file_flags k fd = Some (fl, dl) -> sys_fcntl fd F_GETFL 0 k = (inl fl, k);
  getfd_law fd k fl dl : file_flags k fd = Some (fl, dl) -> sys_fcntl fd F_GETFD 0 k = (inl dl, k);
  (** [F_SETFL] can change [O_NONBLOCK]. *)
  setfl_law fd k fl dl :
    file_flags k fd = Some (fl, dl) ->
    exists k', sys_fcntl fd F_SETFL (Z.lor fl O_NONBLOCK) k = (inl 0, k') /\
      file_flags k' fd = Some (Z.lor fl O_NONBLOCK, dl);
  setfd_law fd k fl dl :
    file_flags k fd = Some (fl, dl) ->
    exists k', sys_fcntl fd F_SETFD (Z.lor dl FD_CLOEXEC) k = (inl 0, k') /\
      file_flags k' fd = Some (fl, Z.lor dl FD_CLOEXEC);
  (** A negative number is no descriptor. *)
  fcntl_negative fd cmd arg k : fd < 0 -> sys_fcntl fd cmd arg k = (inr EBADF, k);
}.

Section compat.
Context {B : Build} {K : Type} `{FcntlSys K}.

(** The [int] a call returns. *)
Definition int_of {A} (f : A -> Z) (r : sysres A) : Z :=
  match r with inl a => f a | inr _ => -1 end.

(** [errno] after a call that may fail. *)
Definition errno_after {A} (r : sysres A) (errno : Z) : Z :=
  match r with inl _ => errno | inr e => e end.

(** It takes [errno] and gives what it is afterwards: no result is checked. *)
Definition setNonBlockAndCloseOnExec (sockfd errno : Z) : M K Z :=
  let! r1 := total (sys_fcntl sockfd F_GETFL 0) in
  let flags := Z.lor (int_of id r1) O_NONBLOCK in
  let! r2 := total (sys_fcntl sockfd F_SETFL flags) in
  let! r3 := total (sys_fcntl sockfd F_GETFD 0) in
  let flags := Z.lor (int_of id r3) FD_CLOEXEC in
  let! r4 := total (sys_fcntl sockfd F_SETFD flags) in
  ret (errno_after r4 (errno_after r3 (errno_after r2 (errno_after r1 errno)))).

(** [createNonblockingOrDie] under [VALGRIND]. *)
Definition createNonblockingOrDie_valgrind (family errno : Z) : M K Z :=
  let! r := total (sys_plain_socket family) in
  whenb (int_of id r <? 0) LOG_FATAL ;;
  let! e := setNonBlockAndCloseOnExec (int_of id r) (errno_after r errno) in
  ret (int_of id r).

(** [accept] under [VALGRIND] or [NO_ACCEPT4]: [savedErrno] is read after the
    calls of [fcntl]. *)
Definition accept_compat (sockfd errno : Z) : M K (sysres (Z * sockaddr)) :=
  let! r := total (sys_plain_accept sockfd) in
  let! savedErrno := setNonBlockAndCloseOnExec (int_of fst r) (errno_after r errno) in
  match r with
  | inl c => ret (inl c)
  | inr _ =>
      whenb (negb (accept_transient savedErrno)) LOG_FATAL ;; ret (inr savedErrno)
  end.
End compat.

(** ** Lemmas *)

Lemma list_find_app_zero (t r : list byte) :
  (x00 ∉ t) -> list_find (fun b => b = x00) (t ++ x00 :: r) = Some (length t, x00).
Proof.
  intros Ht. apply list_find_Some. split_and!; [|done|].
  - rewrite lookup_app_r, Nat.sub_diag by lia. done.
  - intros j y Hj Hlt Hy. rewrite lookup_app_l in Hj by done. subst y.
    apply Ht. by eapply list_elem_of_lookup_2.
Qed.

Lemma strlen_text (t r : list byte) : (x00 ∉ t) -> strlen (t ++ x00 :: r) = Ok (zlen t).
Proof. intros Ht. unfold strlen. by rewrite list_find_app_zero. Qed.

Lemma c_string_text (t r : list byte) : (x00 ∉ t) -> c_string (t ++ x00 :: r) = t.
Proof.
  intros Ht. unfold c_string. rewrite strlen_text by done. unfold zlen.
  by rewrite Nat2Z.id, take_app_length.
Qed.

Lemma vec_write_zlen (buf d buf' : list byte) i : vec_write buf i d = Ok buf' -> zlen buf' = zlen buf.
Proof. unfold vec_write. zcase; intros; simplify_eq. apply zlen_splice; lia. Qed.

(** A text and its zero stored at the beginning of an array, or behind a text. *)
Lemma vec_write_text (p t buf : list byte) :
  zlen p + zlen t < zlen buf -> take (length p) buf = p ->
  vec_write buf (zlen p) (t ++ [x00]) =
    Ok (p ++ t ++ x00 :: drop (length p + length t + 1) buf).
Proof.
  intros Hl Hp. rewrite vec_write_ok; [|apply zlen_nonneg|].
  - unfold splice, zlen. rewrite Nat2Z.id, Hp, length_app, <- app_assoc. cbn [length app].
    by rewrite Nat.add_assoc.
  - rewrite zlen_app. change (zlen [x00]) with 1. lia.
Qed.

Lemma ntop_into_ok text size buf :
  zlen text < size -> size <= zlen buf ->
  ntop_into text size buf = Ok (text ++ x00 :: drop (length text + 1) buf).
Proof.
  intros Ht Hs. unfold ntop_into. rewrite (proj2 (Z.ltb_lt _ _)) by done.
  exact (vec_write_text [] text buf ltac:(unfold zlen in *; cbn; lia) eq_refl).
Qed.

Lemma snprintf_at_ok p t r size :
  let buf := p ++ x00 :: r in
  zlen p < size -> size <= zlen buf ->
  exists r', snprintf_at (zlen p) (size - zlen p) t buf =
    Ok (p ++ take (Z.to_nat (size - zlen p - 1)) t ++ x00 :: r').
Proof.
  intros buf Hp Hs. unfold snprintf_at. rewrite (proj2 (Z.ltb_lt _ _)) by lia.
  eexists. apply (vec_write_text p); [|by apply take_app_length].
  unfold zlen in *. rewrite length_take. lia.
Qed.

Lemma dec_text_no_zero n : (x00 ∉ dec_text n).
Proof.
  unfold dec_text. rewrite elem_of_reverse, list_elem_of_fmap. intros (d & Hd & Hin).
  pose proof (digits_le_range 20 10 n ltac:(lia)) as Hr. rewrite Forall_forall in Hr.
  specialize (digit_value_dec d (Hr d Hin)). by rewrite <- Hd.
Qed.


Section toIp_lemmas.
Context {B : Build}.
Variable inet_ntop4 : Z -> list byte.
Variable inet_ntop6 : list byte -> list byte.

(** The array [toIp] needs. *)
Definition room_for (a : sockaddr) : Z :=
  if sa_family a =? AF_INET6 then INET6_ADDRSTRLEN else INET_ADDRSTRLEN.

(** What [inet_ntop] guarantees of the text of [a]. *)
Definition text_ok (a : sockaddr) : Prop :=
  zlen (toIp inet_ntop4 inet_ntop6 a) < room_for a /\ (x00 ∉ toIp inet_ntop4 inet_ntop6 a).

Lemma sockets_toIp_ok size a buf :
  sa_family a = AF_INET \/ sa_family a = AF_INET6 -> text_ok a ->
  room_for a <= size -> size <= zlen buf ->
  let t := toIp inet_ntop4 inet_ntop6 a in
  sockets_toIp inet_ntop4 inet_ntop6 size a buf =
    Ok (tt, t ++ x00 :: drop (length t + 1) buf).
Proof.
  unfold text_ok, room_for, toIp, sockets_toIp, family.
  intros [-> | ->] [Ht _] Hr Hs; cbn -[INET_ADDRSTRLEN INET6_ADDRSTRLEN] in *;
    (erewrite bind_run by (apply assert_ok; by apply Z.leb_le));
    (erewrite bind_run by reflexivity); unfold bind, lift;
    rewrite ntop_into_ok by lia; reflexivity.
Qed.
End toIp_lemmas.

(** ** Properties of the printed addresses *)
Section toIp_properties.
Context {B : Build}.
Variable inet_ntop4 : Z -> list byte.
Variable inet_ntop6 : list byte -> list byte.

(** C38. [sockets::toIpPort] prints an IPv4 or IPv6 address into an array of the
    caller: whatever the array held, it then holds the address, a colon and the
    decimal port, cut at the end of the array, as a C string; nothing outside the
    array is written.  With an array of 64 bytes it is the text
    [InetAddress::toIpPort] gives. *)
Theorem toIpPort_prints size a buf :
  sa_family a = AF_INET \/ sa_family a = AF_INET6 -> text_ok inet_ntop4 inet_ntop6 a ->
  room_for a <= size -> size <= zlen buf -> size < 2 ^ 64 ->
  exists buf',
    sockets_toIpPort inet_ntop4 inet_ntop6 size a buf = Ok (tt, buf') /\
    zlen buf' = zlen buf /\
    c_string buf' = take (Z.to_nat (size - 1))
      (toIp inet_ntop4 inet_ntop6 a ++ ":"%byte :: dec_text (toPort a)) /\
    (size = 64 -> c_string buf' = toIpPort inet_ntop4 inet_ntop6 a).
Proof.
  intros Hf Ht Hr Hs H64. destruct Ht as [Hlen Hz].
  set (t := toIp inet_ntop4 inet_ntop6 a) in *.
  assert (Hend : zlen t < size) by lia. pose proof (zlen_nonneg t) as H0.
  set (p := ":"%byte :: dec_text (toPort a)).
  assert (Hbuf : zlen (t ++ x00 :: drop (length t + 1) buf) = zlen buf).
  { rewrite zlen_app. unfold zlen in *. cbn. rewrite length_drop. lia. }
  destruct (snprintf_at_ok t p (drop (length t + 1) buf) size Hend) as [r' Hw]; [lia|].
  set (buf' := t ++ take (Z.to_nat (size - zlen t - 1)) p ++ x00 :: r') in *.
  assert (Hnz : x00 ∉ t ++ take (Z.to_nat (size - zlen t - 1)) p).
  { rewrite not_elem_of_app. split; [done|]. intros Hin.
    apply (subseteq_take) in Hin. unfold p in Hin.
    rewrite elem_of_cons in Hin. destruct Hin as [|Hin]; [done|]. by eapply dec_text_no_zero. }
  assert (Hc : c_string buf' = t ++ take (Z.to_nat (size - zlen t - 1)) p).
  { unfold buf'. rewrite app_assoc. by apply c_string_text. }
  exists buf'. split_and!.
  - unfold sockets_toIpPort.
    erewrite bind_run by (by apply (sockets_toIp_ok inet_ntop4 inet_ntop6 size a buf)). fold t.
    erewrite bind_run by reflexivity. unfold bind at 1, lift. rewrite strlen_text by done.
    erewrite bind_run by (apply assert_ok; by apply Z.ltb_lt).
    rewrite u64_small by lia. unfold bind. change (networkToHost16 (sin_port a)) with (toPort a).
    fold p. by rewrite Hw.
  - revert Hw. unfold snprintf_at. rewrite (proj2 (Z.ltb_lt _ _)) by lia.
    intros Hw. rewrite <- Hbuf. by eapply vec_write_zlen.
  - rewrite Hc, take_app_ge; [|unfold zlen in *; lia].
    do 2 f_equal. unfold zlen. lia.
  - intros ->. rewrite Hc. unfold toIpPort. fold t. do 2 f_equal. unfold zlen. lia.
Qed.
End toIp_properties.

(** ** Properties of the code without [accept4] *)
Section compat_properties.
Context {B : Build} {K : Type} `{FcntlLaws K}.

(** On an open descriptor the two flags are set, the others stay, and no call
    fails. *)
Lemma setNonBlock_sets fd errno (k : K) fl dl :
  file_flags k fd = Some (fl, dl) ->
  exists k', setNonBlockAndCloseOnExec fd errno k = Ok (errno, k') /\
    file_flags k' fd = Some (Z.lor fl O_NONBLOCK, Z.lor dl FD_CLOEXEC).
Proof.
  intros Hk. unfold setNonBlockAndCloseOnExec, bind, total. rewrite (getfl_law _ _ _ _ Hk). cbn.
  destruct (setfl_law _ _ _ _ Hk) as (k1 & -> & Hk1). rewrite (getfd_law _ _ _ _ Hk1). cbn.
  destruct (setfd_law _ _ _ _ Hk1) as (k2 & -> & Hk2). by exists k2.
Qed.

(** On [-1] every call fails and [errno] is lost. *)
Lemma setNonBlock_negative fd errno (k : K) :
  fd < 0 -> setNonBlockAndCloseOnExec fd errno k = Ok (EBADF, k).
Proof.
  intros Hfd. unfold setNonBlockAndCloseOnExec, bind, total. by rewrite !fcntl_negative by done.
Qed.

(** The descriptor made under [VALGRIND] is non-blocking and closed on exec. *)
Lemma createNonblocking_valgrind_flags family errno (k : K) fd k1 :
  sys_plain_socket family k = (inl fd, k1) ->
  exists k' fl dl, createNonblockingOrDie_valgrind family errno k = Ok (fd, k') /\
    file_flags k' fd = Some (Z.lor fl O_NONBLOCK, Z.lor dl FD_CLOEXEC).
Proof.
  intros Hs. destruct (plain_socket_law _ _ _ _ Hs) as [Hfd [[fl dl] Hk]].
  destruct (setNonBlock_sets fd errno k1 fl dl Hk) as (k' & Hset & Hk').
  exists k', fl, dl. split; [|done].
  unfold createNonblockingOrDie_valgrind, bind at 1, total. rewrite Hs. cbn [int_of id].
  rewrite (proj2 (Z.ltb_ge _ _)) by done. cbn [whenb].
  rewrite bind_ret_l. unfold bind. cbn [errno_after]. by rewrite Hset.
Qed.

(** C39. Without [accept4] an accepted connection comes back non-blocking and
    closed on exec, as with it; but when [accept] fails, [fcntl] is called on
    [-1] before [errno] is saved: every failure, be it [EAGAIN], is taken for
    [EBADF] and [LOG_FATAL] ends the process (unless the log level disables it),
    where the code with [accept4] goes on. *)
Theorem accept_compat_outcome sockfd errno (k : K) r k1 :
  sys_plain_accept sockfd k = (r, k1) ->
  match r with
  | inl (connfd, addr) =>
      exists k' fl dl, accept_compat sockfd errno k = Ok (inl (connfd, addr), k') /\
        file_flags k' connfd = Some (Z.lor fl O_NONBLOCK, Z.lor dl FD_CLOEXEC)
  | inr e =>
      accept_compat sockfd errno k =
        if level_num g_logLevel <=? level_num WARN then Err Aborted else Ok (inr EBADF, k1)
  end.
Proof.
  intros Hr. unfold accept_compat. erewrite bind_run by (unfold total; by rewrite Hr).
  destruct r as [[connfd addr]|e]; cbn [int_of errno_after fst]; unfold bind.
  - destruct (plain_accept_law _ _ _ _ _ Hr) as [_ [[fl dl] Hk]].
    destruct (setNonBlock_sets connfd errno k1 fl dl Hk) as (k' & Hset & Hk').
    exists k', fl, dl. split; [|done]. by rewrite Hset.
  - rewrite setNonBlock_negative by done. change (accept_transient EBADF) with false. cbn [negb whenb].
    unfold LOG_FATAL. by destruct (level_num g_logLevel <=? level_num WARN).
Qed.
End compat_properties.

(** ** Witnesses *)

(** The dotted text of an address in network order, on a little-endian host. *)
Definition dotted (a : Z) : list byte :=
  dec_text (a mod 256) ++ bytes "." ++ dec_text (a / 2 ^ 8 mod 256) ++ bytes "." ++
  dec_text (a / 2 ^ 16 mod 256) ++ bytes "." ++ dec_text (a / 2 ^ 24 mod 256).

Definition local_8080 : sockaddr := InetAddress_ctor zero_sockaddr 8080 true false.

Lemma toIpPort_prints_witness :
  exists buf', sockets_toIpPort (B:=debug_build) dotted (fun _ => bytes "::1") 64 local_8080
      (replicate 64 xff) = Ok (tt, buf') /\ c_string buf' = bytes "127.0.0.1:8080".
Proof.
  destruct (toIpPort_prints (B:=debug_build) dotted (fun _ => bytes "::1") 64 local_8080
    (replicate 64 xff)) as (buf' & Hrun & _ & Hc & _).
  - by left.
  - split; [by vm_compute|]. vm_compute. intros Hin. by repeat (inversion Hin as [|? ? ? Hin']; clear Hin; rename Hin' into Hin).
  - by vm_compute.
  - by vm_compute.
  - lia.
  - exists buf'. split; [exact Hrun|]. rewrite Hc. by vm_compute.
Defined.

(** A kernel of descriptors with their flags; the next descriptor is new, or the
    call fails with the error given. *)
Record flag_kernel : Type := FlagKernel {
  fk_flags : gmap Z (Z * Z);
  fk_next : sysres Z;
}.

Definition fk_open (k : flag_kernel) : sysres Z * flag_kernel :=
  match fk_next k with
  | inl fd => (inl (Z.abs fd), FlagKernel (<[Z.abs fd := (2, 0)]> (fk_flags k)) (fk_next k))
  | inr e => (inr e, k)
  end.

Definition fk_lookup (k : flag_kernel) (fd : Z) : option (Z * Z) :=
  if fd <? 0 then None else fk_flags k !! fd.

Definition fk_fcntl (fd cmd arg : Z) (k : flag_kernel) : sysres Z * flag_kernel :=
  match fk_lookup k fd with
  | None => (inr EBADF, k)
  | Some (fl, dl) =>
      if cmd =? F_GETFL then (inl fl, k)
      else if cmd =? F_GETFD then (inl dl, k)
      else if cmd =? F_SETFL then (inl 0, FlagKernel (<[fd := (arg, dl)]> (fk_flags k)) (fk_next k))
      else (inl 0, FlagKernel (<[fd := (fl, arg)]> (fk_flags k)) (fk_next k))
  end.

#[export] Instance fk_sys : FcntlSys flag_kernel := {|
  sys_plain_socket _ := fk_open;
  sys_plain_accept _ k := match fk_open k with
                          | (inl fd, k') => (inl (fd, zero_sockaddr), k')
                          | (inr e, k') => (inr e, k')
                          end;
  sys_fcntl := fk_fcntl;
|}.

Lemma fk_lookup_insert m n fd x : 0 <= fd -> fk_lookup (FlagKernel (<[fd := x]> m) n) fd = Some x.
Proof.
  intros Hfd. unfold fk_lookup. rewrite (proj2 (Z.ltb_ge _ _)) by done. apply lookup_insert_eq.
Qed.

Lemma fk_lookup_nonneg k fd x : fk_lookup k fd = Some x -> 0 <= fd.
Proof. unfold fk_lookup. by destruct (Z.ltb_spec fd 0). Qed.

#[export] Instance fk_laws : FcntlLaws flag_kernel.
Proof.
  refine {| file_flags := fk_lookup |}; cbn; unfold fk_open, fk_fcntl.
  - intros _ k fd k' Hs. destruct (fk_next k) as [n|e]; simplify_eq.
    rewrite fk_lookup_insert by lia. split; [lia | by eexists].
  - intros _ k fd a k' Hs. destruct (fk_next k) as [n|e]; simplify_eq.
    rewrite fk_lookup_insert by lia. split; [lia | by eexists].
  - by intros fd k fl dl ->.
  - by intros fd k fl dl ->.
  - intros fd k fl dl Hk. rewrite Hk. eexists. split; [done|].
    by apply fk_lookup_insert, (fk_lookup_nonneg k _ _ Hk).
  - intros fd k fl dl Hk. rewrite Hk. eexists. split; [done|].
    by apply fk_lookup_insert, (fk_lookup_nonneg k _ _ Hk).
  - intros fd cmd arg k Hfd. unfold fk_lookup. by rewrite (proj2 (Z.ltb_lt _ _)).
Defined.

Lemma accept_compat_outcome_witness :
  accept_compat (B:=debug_build) 3 0 (FlagKernel ∅ (inr EAGAIN)) = Err Aborted /\
  exists k', accept_compat (B:=debug_build) 3 0 (FlagKernel ∅ (inl 7)) = Ok (inl (7, zero_sockaddr), k').
Proof.
  split.
  - exact (accept_compat_outcome (B:=debug_build) 3 0 (FlagKernel ∅ (inr EAGAIN)) (inr EAGAIN) _ eq_refl).
  - destruct (accept_compat_outcome (B:=debug_build) 3 0 (FlagKernel ∅ (inl 7)) (inl (7, zero_sockaddr))
      (FlagKernel (<[7 := (2, 0)]> ∅) (inl 7)) ltac:(by vm_compute)) as (k' & _ & _ & Hrun & _). by exists k'.
Defined.
