(* ===== verification/Buffer.v ===== *)
(** * Buffer.h, Buffer.cc: the growable input/output buffer

    The storage [buffer_] is a list of bytes, the two indices are [size_t]
    values in [Z] with the wrap-around of the code; a [char*] into the buffer is
    its offset from [begin()].  The operations are computations over a [Buffer];
    those that reach a file descriptor run over a [Buffer] and the kernel. *)

From S2P Require Import Prelude Posix.

Record Buffer : Type := mkBuffer {
  buffer_ : list byte;
  readerIndex_ : Z;
  writerIndex_ : Z;
}.

#[global] Instance Buffer_eq_dec : EqDecision Buffer.
Proof. solve_decision. Defined.

Definition kInitialSize : Z := 1024.

Definition kCRLF : list byte := [x0d; x0a].

Definition set_buffer_ (v : list byte) (b : Buffer) : Buffer :=
  mkBuffer v (readerIndex_ b) (writerIndex_ b).
Definition set_readerIndex_ (i : Z) (b : Buffer) : Buffer :=
  mkBuffer (buffer_ b) i (writerIndex_ b).
Definition set_writerIndex_ (i : Z) (b : Buffer) : Buffer :=
  mkBuffer (buffer_ b) (readerIndex_ b) i.

(** [std::search] of a pattern: the offset of its first occurrence, or the
    length of the text. *)
Fixpoint std_search (pat text : list byte) : nat :=
  if decide (take (length pat) text = pat) then 0%nat
  else match text with
       | [] => 0%nat
       | _ :: text' => S (std_search pat text')
       end.

(** [memchr]: the offset of the first byte equal to [c]. *)
Fixpoint memchr (c : byte) (text : list byte) : option nat :=
  match text with
  | [] => None
  | x :: text' => if decide (x = c) then Some 0%nat else S <$> memchr c text'
  end.

Section Buffer_ops.
Context {B : Build}.

Definition readableBytes (b : Buffer) : Z := u64 (writerIndex_ b - readerIndex_ b).

Definition writableBytes (b : Buffer) : Z := u64 (zlen (buffer_ b) - writerIndex_ b).

(** [Buffer(size_t initialSize)] *)
Definition Buffer_ctor {S} (initialSize : Z) : M S Buffer :=
  let b := mkBuffer (replicate (Z.to_nat initialSize) x00) 0 0 in
  assert_ (readableBytes b =? 0) ;;
  assert_ (writableBytes b =? initialSize) ;;
  ret b.

(** [swap]: the two statements of the body that exchange [readerIndex_], as
    they are written. *)
Definition swap (this rhs : Buffer) : Buffer * Buffer :=
  let '(this, rhs) := (set_buffer_ (buffer_ rhs) this, set_buffer_ (buffer_ this) rhs) in
  let '(this, rhs) := (set_readerIndex_ (readerIndex_ rhs) this,
                       set_readerIndex_ (readerIndex_ this) rhs) in
  (set_readerIndex_ (readerIndex_ rhs) this, set_readerIndex_ (readerIndex_ this) rhs).

(** Pointers into the buffer, as offsets from [begin()]. *)
Definition peek (b : Buffer) : Z := readerIndex_ b.
Definition beginWrite (b : Buffer) : Z := writerIndex_ b.

Definition retrieveAll : M Buffer unit :=
  modify (fun b => set_writerIndex_ 0 (set_readerIndex_ 0 b)).

Definition retrieve (len : Z) : M Buffer unit :=
  let! b := get in
  assert_ (len <=? readableBytes b) ;;
  if len <? readableBytes b
  then modify (fun b => set_readerIndex_ (u64 (readerIndex_ b + len)) b)
  else retrieveAll.

Definition retrieveUntil (end_ : Z) : M Buffer unit :=
  let! b := get in
  assert_ (peek b <=? end_) ;;
  assert_ (end_ <=? beginWrite b) ;;
  retrieve (u64 (end_ - peek b)).

Definition retrieveAsString (len : Z) : M Buffer (list byte) :=
  let! b := get in
  let! str := lift (vec_read (buffer_ b) (peek b) len) in
  retrieve len ;;
  ret str.

Definition retrieveAllAsString : M Buffer (list byte) :=
  let! b := get in retrieveAsString (readableBytes b).

Definition hasWritten (len : Z) : M Buffer unit :=
  let! b := get in
  assert_ (len <=? writableBytes b) ;;
  modify (fun b => set_writerIndex_ (u64 (writerIndex_ b + len)) b).

Definition makeSpace (len : Z) : M Buffer unit :=
  let! b := get in
  if u64 (writableBytes b + readableBytes b) <? len then
    let! v := lift (vec_resize x00 (buffer_ b) (u64 (writerIndex_ b + len))) in
    modify (set_buffer_ v)
  else
    let readable := readableBytes b in
    let! src := lift (vec_read (buffer_ b) (readerIndex_ b)
                               (writerIndex_ b - readerIndex_ b)) in
    let! v := lift (vec_write (buffer_ b) 0 src) in
    modify (fun b => set_readerIndex_ 0 (set_buffer_ v b)) ;;
    modify (fun b => set_writerIndex_ (u64 (readerIndex_ b + readable)) b) ;;
    let! b := get in
    assert_ (readable =? readableBytes b).

Definition ensureWriteBytes (len : Z) : M Buffer unit :=
  let! b := get in
  whenb (writableBytes b <? len) (makeSpace len) ;;
  let! b := get in
  assert_ (len <=? writableBytes b).

(** The three overloads of [append] end in this one. *)
Definition append (data : list byte) : M Buffer unit :=
  let len := zlen data in
  ensureWriteBytes len ;;
  let! b := get in
  let! v := lift (vec_write (buffer_ b) (beginWrite b) data) in
  modify (set_buffer_ v) ;;
  hasWritten len.

(** [findCRLF(start)]; the result is an offset, [None] is [NULL]. *)
Definition findCRLF_from (start : Z) (b : Buffer) : option Z :=
  let text := slice start (beginWrite b) (buffer_ b) in
  let crlf := start + Z.of_nat (std_search kCRLF text) in
  if crlf =? beginWrite b then None else Some crlf.

Definition findCRLF (b : Buffer) : option Z :=
  let text := slice (peek b) (beginWrite b) (buffer_ b) in
  let crlf := peek b + Z.of_nat (std_search kCRLF text) in
  if crlf =? beginWrite b then None else Some crlf.

Definition findEOL (b : Buffer) : option Z :=
  (fun i => peek b + Z.of_nat i) <$>
    memchr x0a (slice (peek b) (peek b + readableBytes b) (buffer_ b)).

Definition findEOL_from (start : Z) : M Buffer (option Z) :=
  let! b := get in
  assert_ (peek b <=? start) ;;
  assert_ (start <=? beginWrite b) ;;
  ret ((fun i => start + Z.of_nat i) <$>
         memchr x0a (slice start (beginWrite b) (buffer_ b))).

End Buffer_ops.

(** ** Buffer.cc: transfers between the buffer and a descriptor

    [savedErrno] is the value of [*savedErrno] on entry; each function returns
    its result and the value of [*savedErrno] on exit. *)
Section Buffer_io.
Context {B : Build} {K : Type} `{SocketIO K}.

Definition buf : lens (Buffer * K) Buffer := fst_lens.
Definition os : lens (Buffer * K) K := snd_lens.

(** [sizeof extrabuf] *)
Definition extrabuf_size : Z := 65536.

Definition readFd (fd savedErrno : Z) : M (Buffer * K) (Z * Z) :=
  let! b := gets fst in
  let writable := writableBytes b in
  let! r := zoom os (total (sys_readv fd (writable + extrabuf_size))) in
  match r with
  | inr errno => ret (-1, errno)
  | inl data =>
      let n := zlen data in
      (* the kernel fills vec[0], the room after writerIndex_, then vec[1] *)
      let vec0 := take (Z.to_nat writable) data in
      let extrabuf := drop (Z.to_nat writable) data in
      let! v := lift (vec_write (buffer_ b) (writerIndex_ b) vec0) in
      zoom buf (modify (set_buffer_ v)) ;;
      (if n <=? writable
       then zoom buf (modify (fun b => set_writerIndex_ (u64 (writerIndex_ b + n)) b))
       else zoom buf (modify (fun b => set_writerIndex_ (zlen (buffer_ b)) b) ;;
                      append extrabuf)) ;;
      ret (n, savedErrno)
  end.

Definition writeFd (fd savedErrno : Z) : M (Buffer * K) (Z * Z) :=
  let! b := gets fst in
  let readable := readableBytes b in
  let! data := lift (vec_read (buffer_ b) (peek b) readable) in
  let! r := zoom os (total (sys_write fd data)) in
  match r with
  | inr errno => ret (-1, errno)
  | inl n =>
      zoom buf (modify (fun b => set_readerIndex_ (u64 (readerIndex_ b + n)) b)) ;;
      ret (n, savedErrno)
  end.

(** The [while (true)] of [readFdET], [n] bytes read so far. *)
Fixpoint readFdET_loop (fuel : nat) (fd n savedErrno : Z) : M (Buffer * K) (Z * Z) :=
  match fuel with
  | O => throw OutOfFuel
  | S fuel' =>
      let! (len, savedErrno) := readFd fd savedErrno in
      if len <=? 0 then
        if savedErrno =? EAGAIN then ret (n, savedErrno) else ret (len, savedErrno)
      else readFdET_loop fuel' fd (n + len) savedErrno
  end.

Definition readFdET (fuel : nat) (fd savedErrno : Z) : M (Buffer * K) (Z * Z) :=
  readFdET_loop fuel fd 0 savedErrno.

Fixpoint writeFdET_loop (fuel : nat) (fd n savedErrno : Z) : M (Buffer * K) (Z * Z) :=
  match fuel with
  | O => throw OutOfFuel
  | S fuel' =>
      let! (len, savedErrno) := writeFd fd savedErrno in
      if len <=? 0 then
        if savedErrno =? EAGAIN then ret (n, savedErrno) else ret (len, savedErrno)
      else writeFdET_loop fuel' fd (n + len) savedErrno
  end.

Definition writeFdET (fuel : nat) (fd savedErrno : Z) : M (Buffer * K) (Z * Z) :=
  writeFdET_loop fuel fd 0 savedErrno.

End Buffer_io.

(** ** What the buffer promises: a queue of bytes *)

(** The indices stay ordered within the storage. *)
Definition Inv (b : Buffer) : Prop :=
  0 <= readerIndex_ b <= writerIndex_ b /\ writerIndex_ b <= zlen (buffer_ b) <= vector_max.

(** The bytes written and not yet retrieved. *)
Definition content (b : Buffer) : list byte :=
  slice (readerIndex_ b) (writerIndex_ b) (buffer_ b).

(** The appends [makeSpace] makes room for: those that fit after sliding the
    content to the front, and those longer than everything behind
    [readerIndex_], which it resizes for. *)
Definition fits (b : Buffer) (len : Z) : Prop :=
  len <= zlen (buffer_ b) - writerIndex_ b + readerIndex_ b \/
  zlen (buffer_ b) - readerIndex_ b < len.

(** The room behind [writerIndex_]. *)
Definition space (b : Buffer) : Z := zlen (buffer_ b) - writerIndex_ b.

#[global] Instance fits_dec b len : Decision (fits b len).
Proof. unfold fits. apply _. Defined.

(** The size of the storage and the two indices. *)
Definition shape (b : Buffer) : Z * Z * Z := (zlen (buffer_ b), readerIndex_ b, writerIndex_ b).

(** What [ensureWriteBytes], [append] and a read of [n] bytes make of them.  Where [n]
    bytes do not fit behind [writerIndex_], the storage is resized when they are more
    than all of it behind [readerIndex_]; else the content slides to the front, and
    when that is not enough there is no room ([None]). *)
Definition ensured (n : Z) (sh : Z * Z * Z) : option (Z * Z * Z) :=
  let '(size, reader, writer) := sh in
  if n <=? size - writer then Some (size, reader, writer)
  else if size - reader <? n then Some (writer + n, reader, writer)
  else if n <=? size - writer + reader then Some (size, 0, writer - reader)
  else None.

Definition written (n : Z) (sh : Z * Z * Z) : Z * Z * Z :=
  let '(size, reader, writer) := sh in (size, reader, writer + n).

Definition appended (n : Z) (sh : Z * Z * Z) : option (Z * Z * Z) := written n <$> ensured n sh.

(** The bytes of a read past the end of the storage are appended from [extrabuf]. *)
Definition grow (n : Z) (sh : Z * Z * Z) : option (Z * Z * Z) :=
  let '(size, reader, writer) := sh in
  if n <=? size - writer then Some (written n sh)
  else appended (n - (size - writer)) (size, reader, size).

(** ** Lemmas *)

Section Buffer_lemmas.
Context {B : Build}.

Lemma readable_inv b : Inv b -> readableBytes b = writerIndex_ b - readerIndex_ b.
Proof. intros [? ?]. unfold vector_max in *. apply u64_small. lia. Qed.

Lemma writable_inv b : Inv b -> writableBytes b = zlen (buffer_ b) - writerIndex_ b.
Proof. intros [? ?]. unfold vector_max in *. apply u64_small. lia. Qed.

Lemma zlen_content b : Inv b -> zlen (content b) = writerIndex_ b - readerIndex_ b.
Proof. intros [? ?]. apply zlen_slice; lia. Qed.

(** Storing [d] after the content and moving [writerIndex_] appends it. *)
Lemma content_grow b d :
  Inv b -> writerIndex_ b + zlen d <= zlen (buffer_ b) ->
  content (mkBuffer (splice (buffer_ b) (writerIndex_ b) d) (readerIndex_ b)
                    (writerIndex_ b + zlen d)) = content b ++ d.
Proof.
  intros [? ?] ?. pose proof (zlen_nonneg d). unfold content; cbn.
  rewrite (slice_app _ _ (writerIndex_ b)) by lia.
  rewrite slice_splice_before, slice_splice by lia. done.
Qed.

Lemma Inv_grow b d :
  Inv b -> writerIndex_ b + zlen d <= zlen (buffer_ b) ->
  Inv (mkBuffer (splice (buffer_ b) (writerIndex_ b) d) (readerIndex_ b)
                (writerIndex_ b + zlen d)).
Proof.
  intros [? ?] ?. pose proof (zlen_nonneg d). split; cbn; [lia|].
  rewrite zlen_splice; lia.
Qed.

(** [makeSpace] keeps the content; when [fits] holds it leaves enough room. *)
Lemma makeSpace_spec b len :
  Inv b -> writableBytes b < len -> writerIndex_ b + len <= vector_max ->
  wp (makeSpace len)
     (fun _ b' => Inv b' /\ content b' = content b /\
        (fits b len -> len <= zlen (buffer_ b') - writerIndex_ b' /\
                       writerIndex_ b' + len <= vector_max) /\
        (~ fits b len -> zlen (buffer_ b') - writerIndex_ b' < len) /\
        (fits b len -> ensured len (shape b) = Some (shape b'))) b.
Proof.
  intros HI Hlt Hmax. pose proof HI as [HI1 HI2]. unfold vector_max in *.
  rewrite writable_inv in Hlt by done.
  unfold makeSpace, ensured, shape. wp_simp. rewrite (writable_inv b), (readable_inv b) by done.
  rewrite (proj2 (Z.leb_gt _ _)) by lia. rewrite u64_small by lia. destruct (Z.ltb_spec
    (zlen (buffer_ b) - writerIndex_ b + (writerIndex_ b - readerIndex_ b)) len) as [Hr|Hr].
  - wp_simp. apply wp_lift. rewrite (u64_small (_ + len)) by lia.
    rewrite vec_resize_grow by (unfold vector_max; lia).
    eexists; split; [done|]. wp_simp.
    set (l := replicate _ _).
    assert (Hl : zlen (buffer_ b ++ l) = writerIndex_ b + len).
    { rewrite zlen_app. unfold zlen at 2, l. rewrite length_replicate. lia. }
    repeat split; cbn; rewrite ?Hl; try (unfold vector_max; lia).
    + unfold content; cbn. apply slice_app_l; lia.
    + intros Hf. exfalso. apply Hf. right. lia.
    + intros _. by rewrite (proj2 (Z.ltb_lt _ _)) by lia.
  - wp_simp. apply wp_lift. rewrite vec_read_ok by lia.
    replace (readerIndex_ b + _) with (writerIndex_ b) by lia.
    fold (content b). eexists; split; [done|]. wp_simp. apply wp_lift.
    pose proof (zlen_content b HI) as Hc.
    rewrite vec_write_ok by lia.
    eexists; split; [done|]. wp_simp. cbn. rewrite Z.add_0_l.
    rewrite u64_small by lia. 
    assert (HI' : Inv (mkBuffer (splice (buffer_ b) 0 (content b)) 0
                         (writerIndex_ b - readerIndex_ b))).
    { split; cbn; [lia|]. rewrite zlen_splice by lia. unfold vector_max. lia. }
    apply wp_assert; [apply Z.eqb_eq; rewrite readable_inv by done; cbn; lia|].
    split; [done|]. cbn. rewrite zlen_splice by lia. split.
    { unfold content at 1; cbn. rewrite <- Hc, <- (Z.add_0_l (zlen _)).
      apply slice_splice; lia. }
    unfold fits, vector_max. split_and!; [intros; lia.. |]. intros Hf.
    rewrite (proj2 (Z.ltb_ge _ _)) by lia. by rewrite (proj2 (Z.leb_le _ _)) by lia.
Qed.

Lemma hasWritten_ok b len :
  Inv b -> 0 <= len <= zlen (buffer_ b) - writerIndex_ b ->
  hasWritten len b =
    Ok (tt, mkBuffer (buffer_ b) (readerIndex_ b) (writerIndex_ b + len)).
Proof.
  intros HI ?. pose proof HI as [? ?]. unfold vector_max in *.
  unfold hasWritten, bind, get, assert_. rewrite (writable_inv b) by done.
  rewrite (proj2 (Z.leb_le len _)) by lia.
  destruct NDEBUG; cbn; unfold modify, set_writerIndex_; by rewrite u64_small by lia.
Qed.

Lemma ensureWriteBytes_spec b len :
  Inv b -> fits b len -> writerIndex_ b + len <= vector_max ->
  wp (ensureWriteBytes len)
     (fun _ b' => Inv b' /\ content b' = content b /\ Z.max len (space b) <= space b' /\
                  ensured len (shape b) = Some (shape b')) b.
Proof.
  intros HI Hf Hmax. unfold ensureWriteBytes, space. wp_simp.
  destruct (Z.ltb_spec (writableBytes b) len) as [Hlt|Hge].
  - eapply wp_mono; [by apply makeSpace_spec|].
    intros [] b' (HI' & Hc & Hroom & _ & Hsh). wp_simp. destruct (Hroom Hf).
    rewrite writable_inv in Hlt by done.
    apply wp_assert; [|split_and!; [done | done | lia | auto]]. apply Z.leb_le. by rewrite writable_inv.
  - wp_simp. apply wp_assert; [by apply Z.leb_le|].
    rewrite writable_inv in Hge by done. split_and!; [done | done | lia |].
    unfold ensured, shape. by rewrite (proj2 (Z.leb_le _ _)) by lia.
Qed.

(** What is stored at [beginWrite()], once [hasWritten] is told, is appended. *)
Lemma write_in_place_spec b data :
  Inv b -> zlen data <= space b ->
  wp (let! v := lift (vec_write (buffer_ b) (beginWrite b) data) in
      modify (set_buffer_ v) ;; hasWritten (zlen data))
     (fun _ b' => Inv b' /\ content b' = content b ++ data /\ space b' = space b - zlen data /\
                  shape b' = written (zlen data) (shape b)) b.
Proof.
  intros HI Hroom. unfold space in *. pose proof (zlen_nonneg data). pose proof HI as [? ?].
  wp_simp. apply wp_lift. unfold beginWrite. rewrite vec_write_ok by lia.
  eexists; split; [done|]. wp_simp.
  assert (HI2 : Inv (set_buffer_ (splice (buffer_ b) (writerIndex_ b) data) b)).
  { split; cbn; rewrite ?zlen_splice; lia. }
  eapply wp_ok; [apply hasWritten_ok; [done|]; cbn; rewrite zlen_splice; lia|].
  cbn. split; [apply Inv_grow; auto; lia|].
  split; [by rewrite content_grow by (auto; lia)|]. rewrite zlen_splice by lia.
  split; [lia|]. unfold shape. cbn. by rewrite zlen_splice by lia.
Qed.

Lemma append_spec b data :
  Inv b -> fits b (zlen data) -> writerIndex_ b + zlen data <= vector_max ->
  wp (append data)
     (fun _ b' => Inv b' /\ content b' = content b ++ data /\ space b - zlen data <= space b' /\
                  appended (zlen data) (shape b) = Some (shape b')) b.
Proof.
  intros HI Hf Hmax. unfold append. wp_simp.
  eapply wp_mono; [by apply ensureWriteBytes_spec|].
  intros [] b' (HI' & Hc & Hroom & Hsh).
  eapply wp_mono; [apply (write_in_place_spec b' data); [done | lia]|].
  intros [] b2 (HI2 & Hc2 & Hs & Hsh2). rewrite Hc2, Hc. unfold appended. rewrite Hsh, Hsh2.
  split_and!; [done | done | lia | done].
Qed.
End Buffer_lemmas.

(** *** Failure of [append] *)
Section Buffer_failures.
Context {B : Build}.

(** What the program does when [makeSpace] left too little room. *)
Definition no_room : fault := if NDEBUG then OutOfBounds else AssertFailed.

(** When [fits] does not hold, [append] faults: the assertion of
    [ensureWriteBytes] fails in a debug build, and in a release build the copy
    runs past the end of the storage. *)
Lemma append_fault b data :
  Inv b -> ~ fits b (zlen data) -> writerIndex_ b + zlen data <= vector_max ->
  append data b = Err no_room.
Proof.
  intros HI Hf Hmax. pose proof HI as [? ?].
  assert (Hlt : writableBytes b < zlen data).
  { rewrite writable_inv by done. unfold fits in Hf. lia. }
  destruct (wp_inv _ _ _ (makeSpace_spec b _ HI Hlt Hmax))
    as ([] & b' & Hrun & HI' & _ & _ & Hno & _). specialize (Hno Hf).
  unfold append, ensureWriteBytes, bind at 1 2 3, get at 1.
  rewrite (proj2 (Z.ltb_lt _ _)) by done. cbn [whenb]. rewrite Hrun.
  unfold bind at 1 2, get at 1, assert_, no_room. destruct NDEBUG; cbn.
  - unfold bind, lift, beginWrite. by rewrite vec_write_oob by lia.
  - rewrite (proj2 (Z.leb_gt _ _)) by (rewrite writable_inv; auto; lia). done.
Qed.

Lemma ensured_fits b n : Inv b -> ensured n (shape b) = None <-> ~ fits b n.
Proof.
  intros [? ?]. unfold ensured, shape, fits. zcase; (split; intros; [try discriminate; lia | first [done | exfalso; lia]]).
Qed.

(** An empty buffer makes room for anything. *)
Lemma empty_fits b n : Inv b -> content b = [] -> fits b n.
Proof.
  intros HI Hc. pose proof (zlen_content b HI) as Hz. rewrite Hc, zlen_nil in Hz.
  pose proof HI as [? ?]. unfold fits. lia.
Qed.

(** [append] on every input. *)
Lemma append_outcome b data :
  Inv b -> writerIndex_ b + zlen data <= vector_max ->
  match appended (zlen data) (shape b) with
  | Some sh => exists b', append data b = Ok (tt, b') /\ Inv b' /\
      content b' = content b ++ data /\ shape b' = sh
  | None => append data b = Err no_room
  end.
Proof.
  intros HI Hmax. destruct (decide (fits b (zlen data))) as [Hf|Hf].
  - destruct (wp_inv _ _ _ (append_spec b data HI Hf Hmax)) as ([] & b' & Hrun & HI' & Hc & _ & ->).
    by exists b'.
  - unfold appended. rewrite (proj2 (ensured_fits b _ HI) Hf). by apply append_fault.
Qed.
End Buffer_failures.

(** *** Retrieving *)
Section Buffer_retrieve.
Context {B : Build}.

Lemma content_drop b n :
  Inv b -> 0 <= n <= zlen (content b) ->
  content (set_readerIndex_ (readerIndex_ b + n) b) = drop (Z.to_nat n) (content b).
Proof. intros [? ?] ?. unfold content; cbn. rewrite drop_slice by lia. done. Qed.

Lemma retrieveAll_spec b :
  Inv b -> wp retrieveAll (fun _ b' => Inv b' /\ content b' = [] /\ space b <= space b') b.
Proof.
  intros [? ?]. unfold retrieveAll. wp_simp. split; [split; cbn; lia|].
  split; [apply slice_nil | unfold space; cbn; lia].
Qed.

Lemma retrieve_spec b len :
  Inv b -> 0 <= len <= zlen (content b) ->
  wp (retrieve len)
     (fun _ b' => Inv b' /\ content b' = drop (Z.to_nat len) (content b) /\
                  space b <= space b') b.
Proof.
  intros HI Hlen. pose proof (content_drop b len HI Hlen) as Hc.
  pose proof Hlen as Hlen'. rewrite zlen_content in Hlen' by done.
  pose proof HI as [? ?]. unfold vector_max in *. unfold retrieve. wp_simp.
  apply wp_assert; [apply Z.leb_le; rewrite readable_inv by done; lia|].
  destruct (Z.ltb_spec len (readableBytes b)) as [Hlt|Hge].
  - wp_simp. rewrite u64_small by lia.
    rewrite readable_inv in Hlt by done. split; [|split; [exact Hc | done]].
    split; cbn; unfold vector_max; lia.
  - rewrite readable_inv in Hge by done.
    eapply wp_mono; [by apply retrieveAll_spec|]. intros [] b' (HI' & -> & Hs).
    split; [done|]. split; [|done]. symmetry. apply drop_ge. unfold zlen in Hlen.
    pose proof (zlen_content b HI). unfold zlen in *. lia.
Qed.

(** [retrieveUntil] of a pointer [len] bytes behind [peek()]. *)
Lemma retrieveUntil_spec b len :
  Inv b -> 0 <= len <= zlen (content b) ->
  wp (retrieveUntil (peek b + len))
     (fun _ b' => Inv b' /\ content b' = drop (Z.to_nat len) (content b) /\
                  space b <= space b') b.
Proof.
  intros HI Hlen. pose proof Hlen as Hlen'. rewrite zlen_content in Hlen' by done.
  pose proof HI as [? ?]. unfold vector_max in *. unfold retrieveUntil, peek, beginWrite. wp_simp.
  apply wp_assert; [apply Z.leb_le; lia|]. wp_simp. apply wp_assert; [apply Z.leb_le; lia|].
  replace (u64 _) with len by (rewrite u64_small; lia). by apply retrieve_spec.
Qed.

Lemma retrieveAsString_spec b len :
  Inv b -> 0 <= len <= zlen (content b) ->
  wp (retrieveAsString len)
     (fun str b' => Inv b' /\ str = take (Z.to_nat len) (content b) /\
                    content b' = drop (Z.to_nat len) (content b) /\ space b <= space b') b.
Proof.
  intros HI Hlen. pose proof Hlen as Hlen'. rewrite zlen_content in Hlen' by done.
  pose proof HI as [? ?]. unfold retrieveAsString. wp_simp. apply wp_lift.
  unfold peek. rewrite vec_read_ok by lia. eexists; split; [done|]. wp_simp.
  eapply wp_mono; [by apply retrieve_spec|]. intros [] b' (HI' & Hc & Hs). wp_simp.
  split; [done|]. split; [|done]. unfold content, slice. rewrite take_take. f_equal. lia.
Qed.

Lemma retrieveAllAsString_spec b :
  Inv b ->
  wp retrieveAllAsString
     (fun str b' => Inv b' /\ str = content b /\ content b' = [] /\ space b <= space b') b.
Proof.
  intros HI. unfold retrieveAllAsString. wp_simp.
  rewrite readable_inv, <- zlen_content by done.
  eapply wp_mono; [apply retrieveAsString_spec; [done|]; pose proof (zlen_nonneg (content b)); lia|].
  intros str b' (HI' & -> & -> & Hs). unfold zlen. rewrite Nat2Z.id, drop_all.
  by rewrite take_ge by lia.
Qed.
End Buffer_retrieve.

(** ** The buffer implements a queue of bytes *)

(** The bytes of the queue, and the room its user may count on behind them. *)
Record Queue : Type := mkQueue {
  q_bytes : list byte;
  q_room : Z;
}.

Section Buffer_queue.
Context {B : Build}.

(** The operations of the class.  [OWrite] is what a caller of [beginWrite()] does:
    it stores bytes there and tells [hasWritten]; the [len] of [ORetrieveUntil]
    is the distance of its pointer from [peek()]. *)
Inductive op : Type :=
| OAppend (data : list byte)
| OEnsureWriteBytes (len : Z)
| OWrite (data : list byte)
| ORetrieve (len : Z)
| ORetrieveUntil (len : Z)
| ORetrieveAll
| ORetrieveAsString (len : Z)
| ORetrieveAllAsString.

(** An operation of the class, with the bytes it returns. *)
Definition run_op (o : op) : M Buffer (list byte) :=
  match o with
  | OAppend data => append data ;; ret []
  | OEnsureWriteBytes len => ensureWriteBytes len ;; ret []
  | OWrite data =>
      let! b := get in
      let! v := lift (vec_write (buffer_ b) (beginWrite b) data) in
      modify (set_buffer_ v) ;;
      hasWritten (zlen data) ;;
      ret []
  | ORetrieve len => retrieve len ;; ret []
  | ORetrieveUntil len => let! b := get in retrieveUntil (peek b + len) ;; ret []
  | ORetrieveAll => retrieveAll ;; ret []
  | ORetrieveAsString len => retrieveAsString len
  | ORetrieveAllAsString => retrieveAllAsString
  end.

(** The same operation on a queue of bytes: a request for room changes no byte and
    makes the room sure, what is stored uses it up, a retrieval leaves it. *)
Definition spec_op (o : op) (q : Queue) : list byte * Queue :=
  let '(mkQueue q room) := q in
  match o with
  | OAppend data => ([], mkQueue (q ++ data) (Z.max 0 (room - zlen data)))
  | OEnsureWriteBytes len => ([], mkQueue q (Z.max len room))
  | OWrite data => ([], mkQueue (q ++ data) (room - zlen data))
  | ORetrieve len | ORetrieveUntil len => ([], mkQueue (drop (Z.to_nat len) q) room)
  | ORetrieveAll => ([], mkQueue [] room)
  | ORetrieveAsString len =>
      (take (Z.to_nat len) q, mkQueue (drop (Z.to_nat len) q) room)
  | ORetrieveAllAsString => (q, mkQueue [] room)
  end.

(** What a caller has to respect: an append or a request has to fit [makeSpace], bytes
    are stored in the room asked for, and only what is there is retrieved. *)
Definition legal (o : op) (b : Buffer) (q : Queue) : Prop :=
  match o with
  | OAppend data => fits b (zlen data) /\ writerIndex_ b + zlen data <= vector_max
  | OEnsureWriteBytes len => fits b len /\ writerIndex_ b + len <= vector_max
  | OWrite data => zlen data <= q_room q
  | ORetrieve len | ORetrieveUntil len | ORetrieveAsString len => 0 <= len <= zlen (q_bytes q)
  | ORetrieveAll | ORetrieveAllAsString => True
  end.

Fixpoint run_ops (os : list op) : M Buffer (list (list byte)) :=
  match os with
  | [] => ret []
  | o :: os' => let! out := run_op o in let! outs := run_ops os' in ret (out :: outs)
  end.

Fixpoint spec_ops (os : list op) (q : Queue) : list (list byte) * Queue :=
  match os with
  | [] => ([], q)
  | o :: os' => let '(out, q1) := spec_op o q in
                let '(outs, q2) := spec_ops os' q1 in (out :: outs, q2)
  end.

Fixpoint legal_run (os : list op) (b : Buffer) (q : Queue) : Prop :=
  match os with
  | [] => True
  | o :: os' => legal o b q /\
      match run_op o b with
      | Ok (_, b') => legal_run os' b' (spec_op o q).2
      | Err _ => True
      end
  end.

(** The buffer holds the queue and has the room it promised. *)
Definition holds (b : Buffer) (q : Queue) : Prop :=
  Inv b /\ content b = q_bytes q /\ q_room q <= space b.

Lemma run_op_spec o b q :
  holds b q -> legal o b q ->
  wp (run_op o) (fun out b' => (spec_op o q).1 = out /\ holds b' (spec_op o q).2) b.
Proof.
  destruct q as [q room]. intros (HI & Hq & Hroom) HL. cbn in Hq, Hroom. subst q.
  pose proof HI as [? ?].
  destruct o; cbn [run_op spec_op legal q_bytes q_room fst snd] in *; unfold holds;
    cbn [q_bytes q_room]; wp_simp.
  - eapply wp_mono; [by apply append_spec; tauto|]. intros [] b' (HI' & Hc & Hs & _). wp_simp.
    pose proof HI' as [? ?]. rewrite Hc. split_and!; try done. unfold space in *. lia.
  - eapply wp_mono; [by apply ensureWriteBytes_spec; tauto|]. intros [] b' (? & Hc & Hs & _).
    wp_simp. rewrite Hc. split_and!; try done. lia.
  - assert (Hw : zlen data <= space b) by lia.
    pose proof (write_in_place_spec b data HI Hw) as Hwp. revert Hwp. wp_simp.
    intros (v & Hv & Hwp)%wp_lift. apply wp_lift. exists v. split; [done|]. revert Hwp. wp_simp.
    intros Hwp. eapply wp_mono; [exact Hwp|]. intros [] b' (? & Hc & Hs & _). wp_simp.
    rewrite Hc. split_and!; try done. lia.
  - eapply wp_mono; [by apply retrieve_spec|]. intros [] b' (? & Hc & Hs). wp_simp.
    rewrite Hc. split_and!; try done. lia.
  - eapply wp_mono; [by apply retrieveUntil_spec|]. intros [] b' (? & Hc & Hs). wp_simp.
    rewrite Hc. split_and!; try done. lia.
  - destruct (retrieveAll_spec b HI) as (? & Hc & Hs). split_and!; try done. lia.
  - eapply wp_mono; [by apply retrieveAsString_spec|]. intros str b' (? & -> & Hc & Hs).
    rewrite Hc. split_and!; try done. lia.
  - eapply wp_mono; [by apply retrieveAllAsString_spec|]. intros str b' (? & -> & Hc & Hs).
    rewrite Hc. split_and!; try done. lia.
Qed.
End Buffer_queue.

(** ** Searching *)
Section Buffer_search.

Definition occurs (pat text : list byte) (i : nat) : Prop :=
  take (length pat) (drop i text) = pat.

Lemma std_search_spec pat text :
  pat <> [] ->
  (std_search pat text <= length text)%nat /\
  ((std_search pat text < length text)%nat -> occurs pat text (std_search pat text)) /\
  (forall j, (j < std_search pat text)%nat -> ~ occurs pat text j) /\
  (std_search pat text = length text -> forall j, ~ occurs pat text j).
Proof.
  intros Hpat. induction text as [|x text IH].
  - cbn. case_decide as Hd; [by rewrite take_nil in Hd|].
    repeat split; try lia. intros _ j. unfold occurs. by rewrite drop_nil, take_nil.
  - cbn [std_search]. case_decide as Hd.
    { repeat split; cbn; try lia. intros _. exact Hd. }
    destruct IH as (Hle & Hat & Hbefore & Hnone). repeat split; cbn [length]; try lia.
    + intros Hlt. apply Hat. lia.
    + intros [|j] Hj; [exact Hd|]. apply Hbefore. lia.
    + intros Heq [|j]; [exact Hd|]. apply Hnone. lia.
Qed.

Lemma memchr_spec c text :
  match memchr c text with
  | Some i => text !! i = Some c /\ forall j, (j < i)%nat -> text !! j <> Some c
  | None => c ∉ text
  end.
Proof.
  induction text as [|x text IH]; cbn; [set_solver|].
  case_decide as Hd; [subst; split; [done | lia]|].
  destruct (memchr c text) as [i|]; cbn.
  - destruct IH as [Hi Hj]. split; [done|]. intros [|j] Hlt; cbn; [congruence|].
    apply Hj. lia.
  - rewrite not_elem_of_cons. done.
Qed.

(** An occurrence in the readable part, by its offset in the storage. *)
Lemma occurs_slice b pat i :
  Inv b -> pat <> [] -> occurs pat (content b) i ->
  readerIndex_ b + Z.of_nat i + zlen pat <= writerIndex_ b /\
  slice (readerIndex_ b + Z.of_nat i) (readerIndex_ b + Z.of_nat i + zlen pat)
        (buffer_ b) = pat.
Proof.
  intros HI Hne Hocc. pose proof HI as [? ?].
  assert (Hlen : (length pat <= length (content b) - i)%nat).
  { unfold occurs in Hocc. apply (f_equal length) in Hocc.
    rewrite length_take, length_drop in Hocc. lia. }
  pose proof (zlen_content b HI) as Hc. unfold zlen in *.
  assert (length pat <> 0%nat) by (by destruct pat). split; [lia|].
  unfold occurs, content in Hocc. rewrite <- (Nat2Z.id i), drop_slice in Hocc by lia.
  rewrite <- (Nat2Z.id (length pat)), take_slice in Hocc by lia. exact Hocc.
Qed.

Lemma slice_occurs b pat p :
  Inv b -> readerIndex_ b <= p -> p + zlen pat <= writerIndex_ b ->
  slice p (p + zlen pat) (buffer_ b) = pat ->
  occurs pat (content b) (Z.to_nat (p - readerIndex_ b)).
Proof.
  intros [? ?] ? ? Hs. pose proof (zlen_nonneg pat). unfold occurs, content.
  rewrite drop_slice by lia. unfold zlen in *. rewrite <- (Nat2Z.id (length pat)) at 1.
  rewrite take_slice by lia. by replace (readerIndex_ b + (p - readerIndex_ b)) with p by lia.
Qed.
End Buffer_search.

(** ** Transfers *)
Section Buffer_io_lemmas.
Context {B : Build} {K : Type} `{SocketIOLaws K}.

(** The buffer after the kernel has filled its writable part. *)
Definition filled (b : Buffer) (d : list byte) : Buffer :=
  mkBuffer (splice (buffer_ b) (writerIndex_ b) d) (readerIndex_ b) (zlen (buffer_ b)).

Lemma filled_spec b d :
  Inv b -> writerIndex_ b + zlen d = zlen (buffer_ b) ->
  Inv (filled b d) /\ content (filled b d) = content b ++ d /\
  zlen (buffer_ (filled b d)) = zlen (buffer_ b).
Proof.
  intros HI Heq. unfold filled. rewrite <- Heq at 1 2. pose proof HI as [? ?].
  split; [apply Inv_grow; auto; lia|]. split; [apply content_grow; auto; lia|].
  cbn. apply zlen_splice; lia.
Qed.

(** [readFd] once the kernel has delivered [d]. *)
Lemma readFd_data fd se b k d k' :
  Inv b -> sys_readv fd (writableBytes b + extrabuf_size) k = (inl d, k') ->
  readFd fd se (b, k) =
    if zlen d <=? writableBytes b
    then Ok ((zlen d, se),
             (mkBuffer (splice (buffer_ b) (writerIndex_ b) d) (readerIndex_ b)
                       (writerIndex_ b + zlen d), k'))
    else match append (drop (Z.to_nat (writableBytes b)) d)
                      (filled b (take (Z.to_nat (writableBytes b)) d)) with
         | Ok (_, b') => Ok ((zlen d, se), (b', k'))
         | Err f => Err f
         end.
Proof.
  intros HI Hsys. pose proof HI as [? ?]. pose proof (writable_inv b HI) as Hw.
  pose proof (zlen_nonneg d). unfold vector_max in *.
  set (w := writableBytes b) in *.
  assert (Hlen0 : zlen (take (Z.to_nat w) d) = Z.min w (zlen d)).
  { unfold zlen. rewrite length_take. lia. }
  unfold readFd, bind at 1 2, gets. cbn [fst]. fold w. unfold zoom at 1, total. cbn -[zlen].
  rewrite Hsys. unfold bind at 1, lift. rewrite vec_write_ok by lia.
  destruct (Z.leb_spec (zlen d) w) as [Hle|Hgt].
  - unfold bind, zoom, modify, ret. cbn -[zlen]. rewrite u64_small by lia.
    rewrite take_ge by (unfold zlen in *; lia). done.
  - unfold bind at 1 2 3, zoom, modify, ret. cbn -[zlen]. rewrite zlen_splice by lia.
    unfold filled. by destruct (append _ _) as [[[] b']|f].
Qed.

Lemma writeFd_spec fd se b k :
  Inv b ->
  wp (writeFd fd se)
     (fun '(n, se') '(b', k') =>
        Inv b' /\ -1 <= n <= zlen (content b) /\
        content b' = drop (Z.to_nat n) (content b) /\
        sent k' fd = sent k fd ++ take (Z.to_nat n) (content b) /\
        (0 <= n -> se' = se) /\
        match sys_write fd (content b) k with
        | (inl m, _) => n = m
        | (inr e, _) => n = -1 /\ se' = e
        end) (b, k).
Proof.
  intros HI. pose proof HI as [? ?]. unfold vector_max in *.
  unfold writeFd. wp_simp. apply wp_lift. cbn [fst]. unfold peek.
  rewrite readable_inv, vec_read_ok by (auto; lia).
  replace (readerIndex_ b + _) with (writerIndex_ b) by lia. fold (content b).
  eexists; split; [done|]. wp_simp. cbn.
  destruct (sys_write fd (content b) k) as [[n|e] k'] eqn:Hw; cbn; wp_simp.
  - pose proof (write_le _ _ _ _ _ Hw) as Hn. pose proof (zlen_content b HI) as Hc.
    cbn. rewrite u64_small by lia. split; [split; cbn; unfold vector_max; lia|].
    split; [lia|]. split; [apply content_drop; auto; lia|].
    split; [by apply (write_sent _ _ _ _ _ Hw)|]. done.
  - pose proof (zlen_nonneg (content b)). split; [done|]. split; [lia|].
    rewrite (write_failed _ _ _ _ _ Hw), drop_0, take_0, app_nil_r. repeat split; lia.
Qed.

(** A read of [d], by [grow]: what arrived is appended, or there is no room. *)
Lemma readFd_grow fd se b k d k' :
  Inv b -> zlen (buffer_ b) + extrabuf_size <= vector_max ->
  sys_readv fd (writableBytes b + extrabuf_size) k = (inl d, k') ->
  match grow (zlen d) (shape b) with
  | Some sh => exists b', readFd fd se (b, k) = Ok ((zlen d, se), (b', k')) /\
      Inv b' /\ content b' = content b ++ d /\ shape b' = sh
  | None => readFd fd se (b, k) = Err no_room
  end.
Proof.
  intros HI Hmax Hsys. pose proof HI as [? ?]. pose proof (writable_inv b HI) as Hw.
  assert (Hle : zlen d <= writableBytes b + extrabuf_size)
    by (eapply readv_le; [|exact Hsys]; unfold extrabuf_size; lia).
  pose proof (zlen_nonneg d). rewrite (readFd_data _ _ _ _ _ _ HI Hsys).
  unfold grow, shape at 1. rewrite <- Hw. destruct (Z.leb_spec (zlen d) (writableBytes b)) as [Hn|Hn].
  - eexists. split; [reflexivity|]. split_and!; [apply Inv_grow; auto; lia | apply content_grow; auto; lia|].
    unfold shape. cbn. by rewrite zlen_splice by lia.
  - set (w := writableBytes b) in *.
    destruct (filled_spec b (take (Z.to_nat w) d) HI) as (HIf & Hcf & Hlf).
    { unfold zlen in *. rewrite length_take. lia. }
    assert (Hx : zlen (drop (Z.to_nat w) d) = zlen d - w).
    { unfold zlen in *. rewrite length_drop. lia. }
    pose proof (append_outcome _ (drop (Z.to_nat w) d) HIf) as Happ. rewrite Hx in Happ.
    specialize (Happ ltac:(cbn; lia)). unfold shape at 1 in Happ. rewrite Hlf in Happ.
    cbn [readerIndex_ writerIndex_ filled] in Happ.
    destruct (appended _ _) as [sh|]; [|by rewrite Happ].
    destruct Happ as (b' & -> & HI' & Hc' & Hsh). exists b'. split; [done|]. split; [done|].
    split; [by rewrite Hc', Hcf, <- app_assoc, take_drop | done].
Qed.

(** A read that fails leaves the buffer alone. *)
Lemma readFd_fails fd se b k e k' :
  sys_readv fd (writableBytes b + extrabuf_size) k = (inr e, k') ->
  readFd fd se (b, k) = Ok ((-1, e), (b, k')).
Proof.
  intros Hsys. unfold readFd, gets, zoom, total, bind. cbn [fst snd lget os snd_lens].
  by rewrite Hsys.
Qed.

(** [writeFd] as a function of the system call. *)
Lemma writeFd_eq fd se b k :
  Inv b ->
  writeFd fd se (b, k) =
    match sys_write fd (content b) k with
    | (inl n, k') => Ok ((n, se), (set_readerIndex_ (readerIndex_ b + n) b, k'))
    | (inr e, k') => Ok ((-1, e), (b, k'))
    end.
Proof.
  intros HI. pose proof HI as [? ?]. unfold vector_max in *.
  unfold writeFd, bind at 1, gets. cbn [fst]. unfold bind at 1, lift, peek.
  rewrite readable_inv, vec_read_ok by (auto; lia).
  replace (readerIndex_ b + _) with (writerIndex_ b) by lia. fold (content b).
  unfold bind at 1, zoom at 1, total. cbn [lget os snd_lens snd].
  destruct (sys_write fd (content b) k) as [[n|e] k'] eqn:Hw; cbn; [|done].
  pose proof (write_le _ _ _ _ _ Hw) as Hn. pose proof (zlen_content b HI) as Hc.
  rewrite u64_small by lia. done.
Qed.
End Buffer_io_lemmas.

Section Buffer_loops.
Context {B : Build} {K : Type} `{SocketIOLaws K}.

(** The reads of the loop, from a buffer of the given shape, deliver the segments [ds]
    one by one and then [r]; each asks for the room there is and [extrabuf]. *)
Fixpoint delivers (fd : Z) (sh : Z * Z * Z) (k : K) (ds : list (list byte))
    (r : sysres (list byte)) (k' : K) : Prop :=
  let '(size, _, writer) := sh in
  let cap := size - writer + extrabuf_size in
  match ds with
  | [] => sys_readv fd cap k = (r, k')
  | d :: ds' => d <> [] /\ exists k1, sys_readv fd cap k = (inl d, k1) /\
      match grow (zlen d) sh with Some sh' => delivers fd sh' k1 ds' r k' | None => True end
  end.

(** The shape after the segments. *)
Fixpoint grow_all (ds : list (list byte)) (sh : Z * Z * Z) : option (Z * Z * Z) :=
  match ds with
  | [] => Some sh
  | d :: ds' => sh' ← grow (zlen d) sh; grow_all ds' sh'
  end.

(** What [readFdET] returns after [n] bytes: the count only when the last call
    left [EAGAIN] in [*savedErrno], otherwise the result of that call. *)
Definition readFdET_result (n savedErrno : Z) (r : sysres (list byte)) : Z * Z :=
  match r with
  | inl _ => if savedErrno =? EAGAIN then (n, savedErrno) else (0, savedErrno)
  | inr e => if e =? EAGAIN then (n, e) else (-1, e)
  end.

(** A shape grows by no more than what was read. *)
Lemma grow_size n size reader writer sh :
  0 <= n -> 0 <= reader <= writer -> writer <= size -> grow n (size, reader, writer) = Some sh ->
  sh.1.1 <= size + n.
Proof.
  unfold grow, appended, ensured, written. intros ? ? ? Hg. revert Hg.
  zcase; cbn; intros; simplify_eq; cbn; lia.
Qed.

Lemma readFdET_loop_spec fd se ds r k' : forall fuel b k n,
  Inv b -> zlen (buffer_ b) + zlen (concat ds) + extrabuf_size <= vector_max ->
  delivers fd (shape b) k ds r k' -> r = inl [] \/ (exists e, r = inr e) -> (length ds < fuel)%nat ->
  match grow_all ds (shape b) with
  | Some sh => exists b', Inv b' /\ content b' = content b ++ concat ds /\ shape b' = sh /\
      readFdET_loop fuel fd n se (b, k) =
        Ok (readFdET_result (n + zlen (concat ds)) se r, (b', k'))
  | None => readFdET_loop fuel fd n se (b, k) = Err no_room
  end.
Proof.
  induction ds as [|d ds IH]; intros [|fuel] b k n HI Hmax Hd Hr Hfuel;
    cbn [length] in Hfuel; try lia; cbn [delivers shape] in Hd; cbn [readFdET_loop concat grow_all];
    pose proof (writable_inv b HI) as Hw; pose proof HI as [Hix Hsz]; rewrite <- Hw in Hd.
  - destruct Hr as [->|[e ->]].
    + pose proof (readFd_grow fd se b k [] k' HI) as Hg. rewrite zlen_nil in Hmax, Hg.
      specialize (Hg ltac:(lia) Hd). unfold grow, shape at 1 in Hg.
      rewrite (proj2 (Z.leb_le _ _)) in Hg by lia. destruct Hg as (b' & Hrun & HI' & Hc & Hsh).
      exists b'. split; [done|]. split; [done|]. split.
      { rewrite Hsh. unfold written, shape. by rewrite Z.add_0_r. }
      erewrite bind_run by exact Hrun. cbn. rewrite Z.add_0_r. by destruct (se =? EAGAIN).
    + exists b. split; [done|]. split; [by rewrite app_nil_r|]. split; [done|].
      erewrite bind_run by (by apply readFd_fails). cbn. rewrite Z.add_0_r. by destruct (e =? EAGAIN).
  - destruct Hd as (Hne & k1 & Hread & Hrest). cbn [concat] in Hmax. rewrite zlen_app in *.
    pose proof (zlen_nonneg (concat ds)).
    assert (0 < zlen d) by (unfold zlen; destruct d; cbn; [done | lia]).
    pose proof (readFd_grow fd se b k d k1 HI ltac:(lia) Hread) as Hg.
    destruct (grow (zlen d) (shape b)) as [sh|] eqn:Egrow; cbn [mbind option_bind];
      [|unfold bind; by rewrite Hg].
    destruct Hg as (b1 & Hrun & HI1 & Hc1 & Hsh1). erewrite bind_run by exact Hrun. cbn beta iota.
    rewrite (proj2 (Z.leb_gt _ _)) by lia.
    apply grow_size in Egrow; [|lia..]. rewrite <- Hsh1 in *. cbn [shape fst] in Egrow.
    pose proof (IH fuel b1 k1 (n + zlen d) HI1 ltac:(lia) Hrest Hr ltac:(lia)) as Hloop.
    destruct (grow_all ds (shape b1)) as [sh2|]; [|exact Hloop].
    destruct Hloop as (b' & HI' & Hc' & Hsh' & Hrun'). exists b'. split_and!; [done.. | |done|].
    + by rewrite Hc', Hc1, app_assoc.
    + by rewrite Hrun', Z.add_assoc.
Qed.

(** The bytes a run of [writeFdET_loop] moved to the kernel, and what it says. *)
Lemma writeFdET_loop_spec fd se : forall fuel b k n,
  se <> EAGAIN -> Inv b -> (length (content b) < fuel)%nat ->
  wp (writeFdET_loop fuel fd n se)
     (fun '(ans, se') '(b', k') => exists m,
        Inv b' /\ (m <= length (content b))%nat /\
        content b' = drop m (content b) /\
        sent k' fd = sent k fd ++ take m (content b) /\
        (content b' = [] -> ans <= 0) /\
        (0 < ans -> ans = n + Z.of_nat m /\ se' = EAGAIN)) (b, k).
Proof.
  induction fuel as [|fuel IH]; intros b k n Hse HI Hfuel; [lia|].
  cbn [writeFdET_loop]. apply wp_bind.
  eapply wp_mono; [by apply writeFd_spec|].
  intros [len se'] [b1 k1] (HI1 & Hlen & Hc & Hsent & Hkeep & Hsys).
  destruct (Z.leb_spec len 0) as [Hle|Hgt].
  - assert (Hnone : len = 0 \/ content b1 <> []).
    { destruct (decide (content b = [])) as [He|He].
      - left. destruct (write_nothing fd k) as [k2 Hz]. rewrite He in Hsys.
        rewrite Hz in Hsys. done.
      - right. rewrite Hc. replace (Z.to_nat len) with 0%nat by lia. by rewrite drop_0. }
    assert (Hm : Inv b1 /\ (0 <= length (content b))%nat /\
              content b1 = drop 0 (content b) /\
              sent k1 fd = sent k fd ++ take 0 (content b)).
    { replace (Z.to_nat len) with 0%nat in * by lia. repeat split; auto; try lia; apply HI1. }
    destruct Hm as (? & ? & ? & ?).
    destruct (Z.eqb_spec se' EAGAIN) as [->|Hse']; wp_simp; exists 0%nat;
      (do 4 (split; [done|])).
    + split; [|lia]. intros He. destruct Hnone as [-> | ?]; [|done].
      exfalso. apply Hse. symmetry. apply Hkeep. lia.
    + split; lia.
  - rewrite Hkeep by lia.
    assert (Hl : length (content b1) = (length (content b) - Z.to_nat len)%nat).
    { by rewrite Hc, length_drop. }
    eapply wp_mono; [apply IH; [done..|unfold zlen in *; lia]|].
    intros [ans se2] [b2 k2] (m & HI2 & Hm & Hc2 & Hs2 & Hz & Hpos).
    exists (Z.to_nat len + m)%nat. split; [done|]. split; [unfold zlen in *; lia|].
    split; [by rewrite Hc2, Hc, drop_drop|]. split.
    { rewrite Hs2, Hsent, Hc, <- app_assoc. f_equal. apply take_take_drop. }
    split; [done|]. intros Ha. destruct (Hpos Ha). split; [lia | done].
Qed.
End Buffer_loops.

(** ** Properties *)
Section Buffer_properties.
Context {B : Build}.

(** C8. Any sequence of appends, requests for room ([ensureWriteBytes]), bytes stored
    at [beginWrite()] and told to [hasWritten], and retrievals ([retrieve],
    [retrieveUntil], [retrieveAll] and the two that return a string) runs without a
    fault, keeps the indices ordered, and returns what the same calls return on a
    queue of bytes, as long as each call respects its precondition: an append or a
    request fits what [makeSpace] can provide ([fits]: there is room once the content
    has slid to the front, or it is longer than the storage behind [readerIndex_]),
    no more is stored than was asked for, and no more is retrieved than is there.  A
    request for room keeps every byte and provides the room. *)
Theorem buffer_refines_queue (os : list op) (b : Buffer) (q : Queue) :
  holds b q -> legal_run os b q ->
  wp (run_ops os)
     (fun outs b' => exists q', spec_ops os q = (outs, q') /\ holds b' q') b.
Proof.
  revert b q. induction os as [|o os IH]; intros b q Hh HL; cbn in *; [by exists q|].
  destruct HL as [HL Hrest]. wp_simp.
  destruct (wp_inv _ _ _ (run_op_spec o b q Hh HL)) as (out & b1 & Hrun & Hout & Hh1).
  rewrite Hrun in Hrest. eapply wp_ok; [exact Hrun|]. wp_simp.
  eapply wp_mono; [by apply (IH b1 (spec_op o q).2)|]. intros outs b' (q' & Hs & Hh'). wp_simp.
  exists q'. split; [|done]. destruct (spec_op o q) as [out' q1]. cbn in *. by rewrite Hs, Hout.
Qed.

(** [findCRLF] returns the first CR LF of the readable bytes, and [NULL]
    exactly when there is none. *)
Lemma findCRLF_first (b : Buffer) :
  Inv b ->
  match findCRLF b with
  | Some p =>
      readerIndex_ b <= p /\ p + 2 <= writerIndex_ b /\
      slice p (p + 2) (buffer_ b) = kCRLF /\
      forall q, readerIndex_ b <= q < p -> slice q (q + 2) (buffer_ b) <> kCRLF
  | None =>
      forall q, readerIndex_ b <= q -> q + 2 <= writerIndex_ b ->
                slice q (q + 2) (buffer_ b) <> kCRLF
  end.
Proof.
  intros HI. pose proof HI as [? ?]. pose proof (zlen_content b HI) as Hc.
  assert (Hne : kCRLF <> []) by done.
  destruct (std_search_spec kCRLF (content b) Hne) as (Hle & Hat & Hbefore & Hnone).
  unfold findCRLF, peek, beginWrite. fold (content b).
  set (i := std_search kCRLF (content b)) in *. unfold zlen in Hc.
  destruct (Z.eqb_spec (readerIndex_ b + Z.of_nat i) (writerIndex_ b)) as [He|He].
  - intros q Hq1 Hq2 Hs. apply (Hnone ltac:(lia) (Z.to_nat (q - readerIndex_ b))).
    apply slice_occurs; auto.
  - destruct (occurs_slice b kCRLF i HI Hne (Hat ltac:(lia))) as [Hend Hs].
    change (zlen kCRLF) with 2 in *. split; [lia|]. split; [done|]. split; [done|].
    intros q [Hq1 Hq2] Hs2. apply (Hbefore (Z.to_nat (q - readerIndex_ b)) ltac:(lia)).
    apply slice_occurs; auto. change (zlen kCRLF) with 2. lia.
Qed.
End Buffer_properties.

Section Buffer_io_properties.
Context {B : Build} {K : Type} `{SocketIOLaws K}.

(** C28. [readFd] for every result of [readv].  A failed call leaves the buffer alone
    and returns -1 and the [errno].  Bytes that fit behind [writerIndex_], and bytes
    that do not when those past the end of the storage, which went to [extrabuf], are
    at most [readerIndex_] or more than the storage behind it, are appended to the
    content in order, and their number is returned.  In the cases between ([grow] is
    [None]; on a fresh buffer of 1024 bytes, a read of 1025 to 2048 bytes) the append
    of [extrabuf] faults: the assertion of [ensureWriteBytes] fails in a debug build
    and a release build writes out of bounds. *)
Theorem readFd_outcome fd se b k :
  Inv b -> zlen (buffer_ b) + extrabuf_size <= vector_max ->
  match sys_readv fd (writableBytes b + extrabuf_size) k with
  | (inr e, k') => readFd fd se (b, k) = Ok ((-1, e), (b, k'))
  | (inl d, k') =>
      match grow (zlen d) (shape b) with
      | Some sh => exists b', readFd fd se (b, k) = Ok ((zlen d, se), (b', k')) /\
          Inv b' /\ content b' = content b ++ d /\ shape b' = sh
      | None => readFd fd se (b, k) = Err no_room
      end
  end.
Proof.
  intros HI Hmax. destruct (sys_readv _ _ _) as [[d|e] k'] eqn:Hsys.
  - by apply readFd_grow.
  - by apply readFd_fails.
Qed.

(** C29. The edge-triggered read loop ends with the first read that delivers nothing,
    after the segments [ds] before it.  While each of them has room ([grow_all]), all
    their bytes are in the buffer in order, also when it grows on the way; the first
    that has none faults.  The number of bytes is returned when the last call said
    [EAGAIN], but 0 when it was the end of the stream and -1 after another error,
    although the bytes are in the buffer. *)
Theorem readFdET_drains fd se fuel b k ds r k' :
  Inv b -> zlen (buffer_ b) + zlen (concat ds) + extrabuf_size <= vector_max ->
  delivers fd (shape b) k ds r k' -> r = inl [] \/ (exists e, r = inr e) -> (length ds < fuel)%nat ->
  match grow_all ds (shape b) with
  | Some sh => exists b', Inv b' /\ content b' = content b ++ concat ds /\ shape b' = sh /\
      readFdET fuel fd se (b, k) = Ok (readFdET_result (zlen (concat ds)) se r, (b', k'))
  | None => readFdET fuel fd se (b, k) = Err no_room
  end.
Proof. intros. by apply readFdET_loop_spec. Qed.

(** [writeFdET] terminates, moves a prefix of the content to the kernel in
    order, and returns a positive count only when bytes are left over: a
    complete flush is reported as a count that is not positive. *)
Lemma writeFdET_complete_flush fd fuel b k :
  Inv b -> (length (content b) < fuel)%nat ->
  wp (writeFdET fuel fd 0)
     (fun '(ans, se') '(b', k') => exists m,
        Inv b' /\ content b' = drop m (content b) /\
        sent k' fd = sent k fd ++ take m (content b) /\
        (content b' = [] -> ans <= 0) /\
        (0 < ans -> ans = Z.of_nat m /\ se' = EAGAIN)) (b, k).
Proof.
  intros HI Hfuel. eapply wp_mono; [by apply writeFdET_loop_spec|].
  intros [ans se'] [b' k'] (m & ? & ? & ? & ? & ? & ?). exists m. by split_and!.
Qed.
End Buffer_io_properties.

(** [swap] does not exchange the indices: it exchanges [readerIndex_] twice and
    never touches [writerIndex_]. *)
Lemma swap_keeps_indices (b1 b2 : Buffer) :
  swap b1 b2 = (mkBuffer (buffer_ b2) (readerIndex_ b1) (writerIndex_ b1),
                mkBuffer (buffer_ b1) (readerIndex_ b2) (writerIndex_ b2)).
Proof. reflexivity. Qed.

(** ** Witnesses *)

(** A buffer of [n] bytes of storage, read up to [r] and written up to [w]. *)
Definition sample (n r w : Z) : Buffer := mkBuffer (replicate (Z.to_nat n) x61) r w.

Definition sample_ops : list op :=
  [OAppend [x61; x62; x63]; ORetrieveAsString 2; OEnsureWriteBytes 6; OWrite [x64; x65];
   ORetrieveUntil 2; OAppend [x66]; ORetrieveAllAsString].

Lemma buffer_refines_queue_witness :
  holds (sample 8 0 0) (mkQueue [] 8) /\
  legal_run (B:=debug_build) sample_ops (sample 8 0 0) (mkQueue [] 8) /\
  wp (run_ops (B:=debug_build) sample_ops)
     (fun outs b' => exists q', spec_ops sample_ops (mkQueue [] 8) = (outs, q') /\ holds b' q' /\
        outs = [[]; [x61; x62]; []; []; []; []; [x65; x66]] /\ q_room q' = 3)
     (sample 8 0 0).
Proof.
  assert (HI : holds (sample 8 0 0) (mkQueue [] 8)) by (repeat split; done).
  assert (HL : legal_run (B:=debug_build) sample_ops (sample 8 0 0) (mkQueue [] 8)).
  { cbn. repeat split; try done; left; done. }
  split; [exact HI|]. split; [exact HL|].
  refine (wp_mono _ _ _ _ (buffer_refines_queue (B:=debug_build) sample_ops (sample 8 0 0) _ HI HL) _).
  intros outs b' (q' & Hs & Hh). exists q'. vm_compute in Hs. injection Hs as <- <-. by split_and!.
Defined.

(** Two segments of 700 bytes wait on the socket. *)
Definition sample_kernel : script :=
  Script [inl (replicate 700 x62); inl (replicate 324 x63)] [inl 3; inr EAGAIN] ∅.

(** 700 bytes find room; 3000 go through [extrabuf] and the storage grows; after 600
    bytes have been read, 1100 fit once the content slides; 1500 on a fresh buffer
    write out of bounds. *)
Definition arrived (n : nat) : script := Script [inl (replicate n x62)] [] ∅.

Definition read_to (b : Buffer) (n : nat) (sh : Z * Z * Z) : Prop :=
  exists b', readFd (B:=release_build) 5 0 (b, arrived n) =
      Ok ((Z.of_nat n, 0), (b', Script [] [] ∅)) /\
    Inv b' /\ content b' = content b ++ replicate n x62 /\ shape b' = sh.

Lemma readFd_outcome_witness :
  read_to (sample kInitialSize 0 0) 700 (1024, 0, 700) /\
  read_to (sample kInitialSize 0 0) 3000 (3000, 0, 3000) /\
  read_to (sample kInitialSize 600 800) 300 (1024, 0, 500) /\
  readFd (B:=release_build) 5 0 (sample kInitialSize 0 0, arrived 1500) = Err OutOfBounds /\
  readFd (B:=debug_build) 5 0 (sample kInitialSize 0 0, arrived 1500) = Err AssertFailed.
Proof.
  pose proof (fun n => readFd_outcome (B:=release_build) 5 0 (sample kInitialSize 0 0) (arrived n)
    ltac:(repeat split; vm_compute; congruence) ltac:(vm_compute; congruence)) as H.
  split_and!.
  - exact (H 700%nat).
  - exact (H 3000%nat).
  - exact (readFd_outcome (B:=release_build) 5 0 (sample kInitialSize 600 800) (arrived 300)
      ltac:(repeat split; vm_compute; congruence) ltac:(vm_compute; congruence)).
  - exact (H 1500%nat).
  - exact (readFd_outcome (B:=debug_build) 5 0 (sample kInitialSize 0 0) (arrived 1500)
      ltac:(repeat split; vm_compute; congruence) ltac:(vm_compute; congruence)).
Defined.

(** A storage of four bytes, two of them used, takes three segments. *)
Lemma readFdET_drains_witness :
  exists b', Inv b' /\
    content b' = content (sample 4 0 2) ++ concat [[x62; x63]; replicate 5 x64; replicate 10 x65] /\
    shape b' = (19, 0, 19) /\
    readFdET (B:=debug_build) 4 5 0
      (sample 4 0 2, Script [inl [x62; x63]; inl (replicate 5 x64); inl (replicate 10 x65); inr EAGAIN] [] ∅) =
    Ok ((17, EAGAIN), (b', Script [] [] ∅)).
Proof.
  apply (readFdET_drains (B:=debug_build) 5 0 4 (sample 4 0 2)
    (Script [inl [x62; x63]; inl (replicate 5 x64); inl (replicate 10 x65); inr EAGAIN] [] ∅)
    [[x62; x63]; replicate 5 x64; replicate 10 x65] (inr EAGAIN) (Script [] [] ∅)).
  - repeat split; vm_compute; congruence.
  - vm_compute; congruence.
  - repeat (split; [done|]; eexists; split; [reflexivity|]). reflexivity.
  - right. by exists EAGAIN.
  - cbn; lia.
Defined.

Lemma writeFdET_complete_flush_witness :
  wp (writeFdET 6 5 0)
     (fun '(ans, se') '(b', k') => exists m,
        Inv b' /\ content b' = drop m (content (sample 64 0 5)) /\
        sent k' 5 = sent (Script [] [inl 3] ∅) 5 ++ take m (content (sample 64 0 5)) /\
        (content b' = [] -> ans <= 0) /\
        (0 < ans -> ans = Z.of_nat m /\ se' = EAGAIN))
     (sample 64 0 5, Script [] [inl 3] ∅).
Proof.
  apply (writeFdET_complete_flush).
  - repeat split; vm_compute; congruence.
  - vm_compute; lia.
Defined.

Lemma findCRLF_first_witness :
  let b := mkBuffer [x61; x0d; x0a; x0d; x0a; x00] 0 5 in
  match findCRLF b with
  | Some p =>
      readerIndex_ b <= p /\ p + 2 <= writerIndex_ b /\
      slice p (p + 2) (buffer_ b) = kCRLF /\
      forall q, readerIndex_ b <= q < p -> slice q (q + 2) (buffer_ b) <> kCRLF
  | None => False
  end.
Proof.
  apply (findCRLF_first (mkBuffer [x61; x0d; x0a; x0d; x0a; x00] 0 5)).
  repeat split; vm_compute; congruence.
Defined.

(** The flush of five bytes in two writes is complete and reported as 0. *)
Example flush_reported_as_zero :
  fst <$> (match writeFdET 6 5 0 (sample 64 0 5, Script [] [inl 3] ∅) with
           | Ok (r, (b', _)) => Some (r, content b')
           | Err _ => None
           end) = Some (0, 0).
Proof. reflexivity. Qed.
