(* ===== verification/Callbacks.v ===== *)
(** * Callbacks.h: what the library stores in a [std::function]

    The components hand each other [std::function] objects built by [std::bind]
    or by a lambda.  The model names every object the sources build by a
    constructor that carries the bound arguments; the component that owns the
    callback says what running it means. *)

From S2P Require Import Prelude.

(** Addresses of the objects the components share by pointer. *)
Abbreviation chan := positive (only parsing).
Abbreviation conn := positive (only parsing).
Abbreviation timer := positive (only parsing).
Abbreviation loop_id := positive (only parsing).

(** [new] returns the address of no live object. *)
Class Allocator : Type := {
  new_address : gset positive -> positive;
  new_address_fresh live : new_address live ∉ live;
}.

Definition fresh_allocator : Allocator := {|
  new_address := fresh;
  new_address_fresh := is_fresh;
|}.

(** Callbacks of a [Channel]. *)
Inductive Handler : Type :=
| EventLoop_handleRead
| TimerQueue_handleRead
| Acceptor_handleRead
| TcpConnection_handleRead (c : conn)
| TcpConnection_handleWrite (c : conn)
| TcpConnection_handleClose (c : conn)
| TcpConnection_handleError (c : conn)
| Connector_handleWrite
| Connector_handleError.

#[global] Instance Handler_eq_dec : EqDecision Handler.
Proof. solve_decision. Defined.

(** Callbacks of a [TcpConnection]: those of the library, and the user's.
    [queue_connectDestroyed] is the free function [removeConnection] of TcpClient.cc. *)
Inductive ConnectionCallback : Type :=
| defaultConnectionCallback
| user_connection (n : nat).

Inductive MessageCallback : Type :=
| defaultMessageCallback
| user_message (n : nat).

Inductive CloseCallback : Type :=
| TcpServer_removeConnection
| TcpClient_removeConnection
| queue_connectDestroyed
| user_close (n : nat).

#[global] Instance CloseCallback_eq_dec : EqDecision CloseCallback.
Proof. solve_decision. Defined.

(** [WriteCompleteCallback] and [HighWaterMarkCallback] are always the user's. *)
Abbreviation WriteCompleteCallback := nat (only parsing).
Abbreviation HighWaterMarkCallback := nat (only parsing).

(** The data of a [sendInLoop] task is a pointer and a length.

    Tasks given to [EventLoop::runInLoop] and [EventLoop::queueInLoop]. *)
Inductive Functor : Type :=
| TcpConnection_sendInLoop (c : conn) (data : positive) (len : Z)
| TcpConnection_shutdownInLoop (c : conn)
| TcpConnection_forceCloseInLoop (c : conn)
| TcpConnection_startReadInLoop (c : conn)
| TcpConnection_stopReadInLoop (c : conn)
| TcpConnection_connectEstablished (c : conn)
| TcpConnection_connectDestroyed (c : conn)
| TcpConnection_setCloseCallback (c : conn) (cb : CloseCallback)
| writeCompleteCallback (cb : WriteCompleteCallback) (c : conn)
| highWaterMarkCallback (cb : HighWaterMarkCallback) (c : conn) (len : Z)
| TcpServer_removeConnectionInLoop (c : conn)
| Connector_startInLoop
| Connector_resetChannel
| TimerQueue_addTimerInLoop (t : timer) (when_at : Z)
| TimerQueue_cancelTimerInLoop (t : timer)
| user_task (n : nat).

#[global] Instance Functor_eq_dec : EqDecision Functor.
Proof. solve_decision. Defined.
