(* ===== verification/Channel.v ===== *)
(** * Channel.h, Channel.cc: one descriptor and the events it waits for

    A [Channel] is reached by pointer from its owner, from the poller and from
    the list of active channels, so the objects live in a heap indexed by their
    address.  What a channel needs of the loop that owns it is the class
    [ChannelHost]; [Reactor.v] gives the instance. *)

From S2P Require Import Prelude Posix Callbacks.

Inductive mode : Type := LT | ET.

#[global] Instance mode_eq_dec : EqDecision mode.
Proof. solve_decision. Defined.

(** The static members, shared by every channel of the process. *)
Record ChannelStatics : Type := mkStatics {
  mode_ : mode;
  kNoneEvent : Z;
  kReadEvent : Z;
  kWriteEvent : Z;
}.

(** Statics start zeroed; [LT] is the enumerator 0. *)
Definition statics_zero : ChannelStatics := mkStatics LT 0 0 0.

Definition initDefaultEvent (m : mode) : ChannelStatics :=
  match m with
  | LT => mkStatics LT 0 (Z.lor EPOLLIN EPOLLPRI) EPOLLOUT
  | ET => mkStatics ET 0 (i32 (Z.lor (Z.lor EPOLLET EPOLLIN) EPOLLPRI))
                         (i32 (Z.lor EPOLLET EPOLLOUT))
  end.

Record Channel : Type := mkChannel {
  loop_ : loop_id;
  fd_ : Z;
  events_ : Z;
  revents_ : Z;
  index_ : Z;
  logHup_ : bool;
  eventHanding_ : bool;
  addedToLoop_ : bool;
  readCallBack_ : option Handler;
  writeCallback_ : option Handler;
  errorCallback_ : option Handler;
  closeCallback_ : option Handler;
}.

#[global] Instance Channel_eq_dec : EqDecision Channel.
Proof. solve_decision. Defined.

(** [Channel(loop, fd)] *)
Definition Channel_ctor (loop : loop_id) (fdarg : Z) : Channel :=
  mkChannel loop fdarg 0 0 (-1) true false false None None None None.

Definition set_events (ev : Z) (c : Channel) : Channel :=
  mkChannel (loop_ c) (fd_ c) ev (revents_ c) (index_ c) (logHup_ c) (eventHanding_ c)
    (addedToLoop_ c) (readCallBack_ c) (writeCallback_ c) (errorCallback_ c) (closeCallback_ c).
Definition set_revents (revt : Z) (c : Channel) : Channel :=
  mkChannel (loop_ c) (fd_ c) (events_ c) revt (index_ c) (logHup_ c) (eventHanding_ c)
    (addedToLoop_ c) (readCallBack_ c) (writeCallback_ c) (errorCallback_ c) (closeCallback_ c).
Definition set_index (idx : Z) (c : Channel) : Channel :=
  mkChannel (loop_ c) (fd_ c) (events_ c) (revents_ c) idx (logHup_ c) (eventHanding_ c)
    (addedToLoop_ c) (readCallBack_ c) (writeCallback_ c) (errorCallback_ c) (closeCallback_ c).
Definition set_eventHanding (b : bool) (c : Channel) : Channel :=
  mkChannel (loop_ c) (fd_ c) (events_ c) (revents_ c) (index_ c) (logHup_ c) b
    (addedToLoop_ c) (readCallBack_ c) (writeCallback_ c) (errorCallback_ c) (closeCallback_ c).
Definition set_addedToLoop (b : bool) (c : Channel) : Channel :=
  mkChannel (loop_ c) (fd_ c) (events_ c) (revents_ c) (index_ c) (logHup_ c) (eventHanding_ c)
    b (readCallBack_ c) (writeCallback_ c) (errorCallback_ c) (closeCallback_ c).
Definition setReadCallback (cb : Handler) (c : Channel) : Channel :=
  mkChannel (loop_ c) (fd_ c) (events_ c) (revents_ c) (index_ c) (logHup_ c) (eventHanding_ c)
    (addedToLoop_ c) (Some cb) (writeCallback_ c) (errorCallback_ c) (closeCallback_ c).
Definition setWriteCallback (cb : Handler) (c : Channel) : Channel :=
  mkChannel (loop_ c) (fd_ c) (events_ c) (revents_ c) (index_ c) (logHup_ c) (eventHanding_ c)
    (addedToLoop_ c) (readCallBack_ c) (Some cb) (errorCallback_ c) (closeCallback_ c).
Definition setErrorCallback (cb : Handler) (c : Channel) : Channel :=
  mkChannel (loop_ c) (fd_ c) (events_ c) (revents_ c) (index_ c) (logHup_ c) (eventHanding_ c)
    (addedToLoop_ c) (readCallBack_ c) (writeCallback_ c) (Some cb) (closeCallback_ c).
Definition setCloseCallback (cb : Handler) (c : Channel) : Channel :=
  mkChannel (loop_ c) (fd_ c) (events_ c) (revents_ c) (index_ c) (logHup_ c) (eventHanding_ c)
    (addedToLoop_ c) (readCallBack_ c) (writeCallback_ c) (errorCallback_ c) (Some cb).

(** [ev & mask] as a condition. *)
Definition has (ev mask : Z) : bool := negb (Z.land ev mask =? 0).

Definition isNoneEvent (st : ChannelStatics) (c : Channel) : bool := events_ c =? kNoneEvent st.
Definition isReading (st : ChannelStatics) (c : Channel) : bool := has (events_ c) (kReadEvent st).
Definition isWriting (st : ChannelStatics) (c : Channel) : bool := has (events_ c) (kWriteEvent st).
Definition isET (st : ChannelStatics) : bool := bool_decide (mode_ st = ET).

(** The masks [enableReading] and its relatives store in [events_]. *)
Definition ev_enableReading (st : ChannelStatics) (ev : Z) : Z := Z.lor ev (kReadEvent st).
Definition ev_disableReading (st : ChannelStatics) (ev : Z) : Z :=
  Z.land ev (Z.lnot (kReadEvent st)).
Definition ev_enableWriting (st : ChannelStatics) (ev : Z) : Z := Z.lor ev (kWriteEvent st).
Definition ev_disableWriting (st : ChannelStatics) (ev : Z) : Z :=
  Z.land ev (Z.lnot (kWriteEvent st)).
Definition ev_disableAll (st : ChannelStatics) (ev : Z) : Z := kNoneEvent st.

(** A state with channels in it: the heap and the static members. *)
Class ChannelHeap (S : Type) : Type := {
  statics : S -> ChannelStatics;
  channels : lens S (gmap chan Channel);
}.

(** ** What a channel asks of its loop *)
Class ChannelHost (S : Type) `{ChannelHeap S} : Type := {
  EventLoop_updateChannel : chan -> M S unit;
  EventLoop_removeChannel : chan -> M S unit;
}.

Section Channel_heap.
Context {S : Type} `{ChannelHeap S}.

(** Dereferencing a [Channel*]. *)
Definition ch_get (c : chan) : M S Channel :=
  let! s := get in of_option UseAfterFree (lget channels s !! c).

Definition ch_modify (c : chan) (f : Channel -> Channel) : M S unit :=
  let! ch := ch_get c in
  modify (fun s => lset channels (<[c := f ch]> (lget channels s)) s).

End Channel_heap.

Section Channel_ops.
Context {B : Build} {S : Type} `{ChannelHost S}.

Definition update (c : chan) : M S unit :=
  ch_modify c (set_addedToLoop true) ;;
  EventLoop_updateChannel c.

Definition set_interest (f : ChannelStatics -> Z -> Z) (c : chan) : M S unit :=
  let! st := gets statics in
  ch_modify c (fun ch => set_events (f st (events_ ch)) ch) ;;
  update c.

Definition enableReading (c : chan) : M S unit := set_interest ev_enableReading c.
Definition disableReading (c : chan) : M S unit := set_interest ev_disableReading c.
Definition enableWriting (c : chan) : M S unit := set_interest ev_enableWriting c.
Definition disableWriting (c : chan) : M S unit := set_interest ev_disableWriting c.
Definition disableAll (c : chan) : M S unit := set_interest ev_disableAll c.

Definition remove (c : chan) : M S unit :=
  let! st := gets statics in
  let! ch := ch_get c in
  assert_ (isNoneEvent st ch) ;;
  ch_modify c (set_addedToLoop false) ;;
  EventLoop_removeChannel c.

(** [~Channel()]: the storage is released. *)
Definition Channel_dtor (c : chan) : M S unit :=
  let! ch := ch_get c in
  assert_ (negb (eventHanding_ ch)) ;;
  modify (fun s => lset channels (delete c (lget channels s)) s).

(** [if (callback_) callback_();] *)
Definition call_if (run : Handler -> M S unit) (cb : option Handler) : M S unit :=
  match cb with Some h => run h | None => ret tt end.

Definition handleEvent (run : Handler -> M S unit) (runRead : Z -> Handler -> M S unit)
    (c : chan) (receiveTime : Z) : M S unit :=
  ch_modify c (set_eventHanding true) ;;
  let! ch := ch_get c in
  whenb (has (revents_ ch) EPOLLHUP && negb (has (revents_ ch) EPOLLIN))
    (call_if run (closeCallback_ ch)) ;;
  let! ch := ch_get c in
  whenb (has (revents_ ch) EPOLLERR) (call_if run (errorCallback_ ch)) ;;
  let! ch := ch_get c in
  whenb (has (revents_ ch) (Z.lor (Z.lor EPOLLIN EPOLLPRI) EPOLLRDHUP))
    (call_if (runRead receiveTime) (readCallBack_ ch)) ;;
  let! ch := ch_get c in
  whenb (has (revents_ ch) EPOLLOUT) (call_if run (writeCallback_ ch)) ;;
  ch_modify c (set_eventHanding false).

End Channel_ops.

(** [eventsToString(fd, ev)]; [dec] is how a stream prints an [int]. *)
Definition eventsToString (dec : Z -> string) (fd ev : Z) : string :=
  ((dec fd ++ ": ") ++
   (if has ev EPOLLIN then "IN " else "") ++
   (if has ev EPOLLPRI then "PRI " else "") ++
   (if has ev EPOLLOUT then "OUT " else "") ++
   (if has ev EPOLLHUP then "HUP " else "") ++
   (if has ev EPOLLRDHUP then "RDHUP " else "") ++
   (if has ev EPOLLERR then "ERR " else ""))%string.

Definition reventsToString (dec : Z -> string) (ch : Channel) : string :=
  eventsToString dec (fd_ ch) (revents_ ch).

(** The [eventsToString] of no argument. *)
Definition eventsToString_events (dec : Z -> string) (ch : Channel) : string :=
  eventsToString dec (fd_ ch) (events_ ch).

(** ** Specifications *)

(** The five ways the code changes the interest of a channel. *)
Inductive intent : Type :=
| EnableReading | DisableReading | EnableWriting | DisableWriting | DisableAll.

Definition apply_intent (st : ChannelStatics) (ev : Z) (i : intent) : Z :=
  match i with
  | EnableReading => ev_enableReading st ev
  | DisableReading => ev_disableReading st ev
  | EnableWriting => ev_enableWriting st ev
  | DisableWriting => ev_disableWriting st ev
  | DisableAll => ev_disableAll st ev
  end.

(** What they mean: two independent flags, reading and writing. *)
Definition flag_intent (rw : bool * bool) (i : intent) : bool * bool :=
  match i with
  | EnableReading => (true, rw.2)
  | DisableReading => (false, rw.2)
  | EnableWriting => (rw.1, true)
  | DisableWriting => (rw.1, false)
  | DisableAll => (false, false)
  end.

(** The value of [events_] in level-triggered mode. *)
Definition flags_events (rw : bool * bool) : Z :=
  Z.lor (if rw.1 then Z.lor EPOLLIN EPOLLPRI else 0) (if rw.2 then EPOLLOUT else 0).

(** The callbacks an event mask calls for, in order; the flag marks the read
    callback, which also takes the time of the poll. *)
Definition dispatch (ch : Channel) : list (bool * Handler) :=
  let slot (b r : bool) (cb : option Handler) :=
    if b then match cb with Some h => [(r, h)] | None => [] end else [] in
  slot (has (revents_ ch) EPOLLHUP && negb (has (revents_ ch) EPOLLIN)) false (closeCallback_ ch) ++
  slot (has (revents_ ch) EPOLLERR) false (errorCallback_ ch) ++
  slot (has (revents_ ch) (Z.lor (Z.lor EPOLLIN EPOLLPRI) EPOLLRDHUP)) true (readCallBack_ ch) ++
  slot (has (revents_ ch) EPOLLOUT) false (writeCallback_ ch).

(** The fields [handleEvent] consults. *)
Definition same_dispatch (a b : Channel) : Prop :=
  revents_ a = revents_ b /\ readCallBack_ a = readCallBack_ b /\
  writeCallback_ a = writeCallback_ b /\ errorCallback_ a = errorCallback_ b /\
  closeCallback_ a = closeCallback_ b.

(** ** Lemmas *)

Lemma flags_step rw i :
  apply_intent (initDefaultEvent LT) (flags_events rw) i = flags_events (flag_intent rw i).
Proof. by destruct rw as [[] []], i. Qed.

Lemma flags_fold l rw :
  foldl (apply_intent (initDefaultEvent LT)) (flags_events rw) l =
  flags_events (foldl flag_intent rw l).
Proof.
  revert rw. induction l as [|i l IH]; intros rw; cbn [foldl]; [done|].
  by rewrite flags_step, IH.
Qed.

Lemma has_lor_r ev m k : has k m = true -> has (Z.lor ev k) m = true.
Proof.
  unfold has. rewrite !negb_true_iff, !Z.eqb_neq. intros Hk Hz. apply Hk.
  rewrite Z.land_lor_distr_l in Hz. by apply Z.lor_eq_0_iff in Hz as [_ ?].
Qed.

Lemma has_clear ev m k : Z.land (Z.lnot k) m = 0 -> has (Z.land ev (Z.lnot k)) m = false.
Proof.
  unfold has. intros Hk. rewrite <- Z.land_assoc, Hk, Z.land_0_r. done.
Qed.

Section Channel_lemmas.
Context {S : Type} `{ChannelHeap S}.

Lemma ch_get_ok c (s : S) ch :
  lget channels s !! c = Some ch -> ch_get c s = Ok (ch, s).
Proof. intros Hc. unfold ch_get, bind, get, of_option. by rewrite Hc. Qed.

Lemma ch_modify_ok c f (s : S) ch :
  lget channels s !! c = Some ch ->
  ch_modify c f s = Ok (tt, lset channels (<[c := f ch]> (lget channels s)) s).
Proof. intros Hc. unfold ch_modify, bind. by rewrite (ch_get_ok _ _ _ Hc). Qed.

Lemma wp_ch_get c (s : S) Q :
  wp (ch_get c) Q s <-> exists ch, lget channels s !! c = Some ch /\ Q ch s.
Proof. unfold ch_get. wp_simp. apply wp_of_option. Qed.

Lemma wp_ch_modify c f (s : S) Q :
  wp (ch_modify c f) Q s <->
  exists ch, lget channels s !! c = Some ch /\
             Q tt (lset channels (<[c := f ch]> (lget channels s)) s).
Proof. unfold ch_modify. wp_simp. rewrite wp_ch_get. by wp_simp. Qed.

Lemma wp_Channel_dtor {B : Build} c ch (Q : unit -> S -> Prop) s :
  lget channels s !! c = Some ch -> eventHanding_ ch = false ->
  Q tt (lset channels (delete c (lget channels s)) s) -> wp (Channel_dtor c) Q s.
Proof.
  intros Hc Hev HQ. unfold Channel_dtor. wp_simp. apply wp_ch_get. exists ch. split; [done|].
  wp_simp. rewrite Hev. apply wp_assert; [done|]. by wp_simp.
Qed.

Context (run : Handler -> M S unit) (runRead : Z -> Handler -> M S unit).
Context (c : chan) (receiveTime : Z).

(** Running one entry of [dispatch]. *)
Definition run_one (e : bool * Handler) : M S unit :=
  if e.1 then runRead receiveTime e.2 else run e.2.

(** A callback neither frees channel [c] nor touches what [handleEvent] reads. *)
Definition keeps (m : M S unit) : Prop :=
  forall s s' ch, lget channels s !! c = Some ch -> m s = Ok (tt, s') ->
  exists ch', lget channels s' !! c = Some ch' /\ same_dispatch ch ch'.

(** One test of [handleEvent]: reading the channel again gives the snapshot. *)
Lemma slot_step (k : M S unit) (guard : Channel -> bool) (cb : Channel -> option Handler)
    (r : bool) (ch ch0 : Channel) (s : S) rest :
  keeps (match cb ch0 with Some h => run_one (r, h) | None => ret tt end) ->
  (forall a b, same_dispatch a b -> guard a = guard b /\ cb a = cb b) ->
  lget channels s !! c = Some ch -> same_dispatch ch0 ch ->
  (forall s' ch', lget channels s' !! c = Some ch' -> same_dispatch ch0 ch' ->
     k s' = rest s') ->
  (let! ch := ch_get c in
   whenb (guard ch) (call_if (fun h => run_one (r, h)) (cb ch)) ;; k) s =
  (for_each (if guard ch0 then match cb ch0 with Some h => [(r, h)] | None => [] end else [])
     run_one ;; rest) s.
Proof.
  intros Hkeep Hsame Hc Hsd Hk. unfold bind at 1. rewrite (ch_get_ok _ _ _ Hc).
  destruct (Hsame _ _ Hsd) as [<- <-]. unfold whenb.
  destruct (guard ch0); [|cbn; by eapply Hk].
  destruct (cb ch0) as [h|]; cbn [for_each call_if]; [|cbn; by eapply Hk].
  rewrite bind_assoc. unfold bind.
  destruct (run_one (r, h) s) as [[[] s']|f] eqn:Hrun; [|done].
  destruct (Hkeep _ _ _ Hc Hrun) as (ch' & Hc' & Hsd'). cbn.
  eapply Hk; [done|]. destruct Hsd as (?&?&?&?&?), Hsd' as (?&?&?&?&?).
  split_and!; congruence.
Qed.
End Channel_lemmas.

(** ** Properties *)

(** In level-triggered mode any sequence of [enableReading],
    [disableReading], [enableWriting], [disableWriting] and [disableAll] leaves
    in [events_] exactly the two flags the calls describe; [isReading],
    [isWriting] and [isNoneEvent] read them back. *)
Lemma LT_flags (l : list intent) (ch : Channel) :
  let st := initDefaultEvent LT in
  events_ ch = foldl (apply_intent st) 0 l ->
  (isReading st ch, isWriting st ch) = foldl flag_intent (false, false) l /\
  (isNoneEvent st ch = true <-> foldl flag_intent (false, false) l = (false, false)).
Proof.
  intros st Hev. change 0 with (flags_events (false, false)) in Hev.
  unfold st in *. rewrite flags_fold in Hev.
  destruct (foldl flag_intent (false, false) l) as [[] []];
    unfold isReading, isWriting, isNoneEvent; rewrite Hev; cbn; split; split; done.
Qed.

(** In edge-triggered mode the two directions share the [EPOLLET] bit:
    a channel that enables reading counts as writing, one that enables writing
    counts as reading, and disabling either direction clears [EPOLLET]. *)
Lemma ET_flags_entangled (ch : Channel) :
  let st := initDefaultEvent ET in
  isWriting st (set_events (ev_enableReading st (events_ ch)) ch) = true /\
  isReading st (set_events (ev_enableWriting st (events_ ch)) ch) = true /\
  has (ev_disableReading st (events_ ch)) EPOLLET = false /\
  has (ev_disableWriting st (events_ ch)) EPOLLET = false.
Proof.
  cbn [isWriting isReading]. unfold isWriting, isReading. split_and!.
  - by apply has_lor_r.
  - by apply has_lor_r.
  - by apply has_clear.
  - by apply has_clear.
Qed.

Section handleEvent_property.
Context {S : Type} `{ChannelHeap S} `{!LensLaws (channels (S:=S))}.

(** C26. [handleEvent] calls back for close, error, read and write in this
    order, each when its bits are set and a callback is registered, when no
    callback frees the channel or rewrites what it consults; [eventHanding_] is
    set around the calls. *)
Theorem handleEvent_dispatch (run : Handler -> M S unit) (runRead : Z -> Handler -> M S unit)
    (c : chan) (t : Z) (s : S) (ch : Channel) :
  (forall h, keeps c (run h)) -> (forall h, keeps c (runRead t h)) ->
  lget channels s !! c = Some ch ->
  handleEvent run runRead c t s =
  (ch_modify c (set_eventHanding true) ;;
   for_each (dispatch ch) (run_one run runRead t) ;;
   ch_modify c (set_eventHanding false)) s.
Proof.
  intros Hrun Hread Hc. unfold handleEvent, dispatch.
  unfold bind at 1. rewrite (ch_modify_ok _ _ _ _ Hc). symmetry.
  unfold bind at 1. rewrite (ch_modify_ok _ _ _ _ Hc). symmetry.
  set (s1 := lset _ _ _).
  assert (Hc1 : lget channels s1 !! c = Some (set_eventHanding true ch)).
  { unfold s1. rewrite lget_lset. apply lookup_insert_eq. }
  assert (Hsd : same_dispatch ch (set_eventHanding true ch)) by (split_and!; done).
  assert (Hkeep : forall r (cb : option Handler),
            keeps c (match cb with Some h => run_one run runRead t (r, h) | None => ret tt end)).
  { intros r [h|]; [destruct r; [apply Hread | apply Hrun]|].
    intros s' s'' ch' Hc' [= <-]. exists ch'. split; [done|]. by split_and!. }
  revert s1 Hc1 Hsd. generalize (set_eventHanding true ch) as ch1. intros ch1 s1 Hc1 Hsd.
  (* the four tests in turn *)
  rewrite for_each_app_bind.
  apply (slot_step run runRead c t _ (fun ch => _ && _) closeCallback_ false ch1 ch);
    auto; [by intros ?? (-> & ? & ? & ? & ->)|].
  clear s1 ch1 Hc1 Hsd. intros s1 ch1 Hc1 Hsd. rewrite for_each_app_bind.
  apply (slot_step run runRead c t _ (fun ch => has _ _) errorCallback_ false ch1 ch);
    auto; [by intros ?? (-> & ? & ? & -> & ?)|].
  clear s1 ch1 Hc1 Hsd. intros s1 ch1 Hc1 Hsd. rewrite for_each_app_bind.
  apply (slot_step run runRead c t _ (fun ch => has _ _) readCallBack_ true ch1 ch);
    auto; [by intros ?? (-> & -> & ?)|].
  clear s1 ch1 Hc1 Hsd. intros s1 ch1 Hc1 Hsd.
  apply (slot_step run runRead c t _ (fun ch => has _ _) writeCallback_ false ch1 ch);
    auto; by intros ?? (-> & ? & -> & ?).
Qed.
End handleEvent_property.

(** ** Witnesses *)

Lemma LT_flags_witness :
  let st := initDefaultEvent LT in
  let ch := set_events 4 (Channel_ctor 1%positive 7) in
  (isReading st ch, isWriting st ch) = (false, true) /\
  (isNoneEvent st ch = true <-> (false, true) = (false, false)).
Proof.
  exact (LT_flags [EnableReading; EnableWriting; DisableReading]
           (set_events 4 (Channel_ctor 1%positive 7)) eq_refl).
Defined.

(** A state that only keeps the channels and the callbacks that ran. *)
Definition recorder : Type := gmap chan Channel * list Handler.

#[export] Instance recorder_heap : ChannelHeap recorder := {|
  statics _ := initDefaultEvent LT;
  channels := fst_lens;
|}.

Definition record (h : Handler) : M recorder unit :=
  modify (fun s => (s.1, s.2 ++ [h])).

Lemma record_keeps c h : keeps c (record h).
Proof. intros s s' ch Hc [= <-]. exists ch. by split_and!. Qed.

Definition sample_channel : Channel :=
  set_revents (Z.lor EPOLLIN EPOLLOUT)
    (setWriteCallback (TcpConnection_handleWrite 1%positive)
       (setReadCallback (TcpConnection_handleRead 1%positive)
          (setCloseCallback (TcpConnection_handleClose 1%positive) (Channel_ctor 1%positive 7)))).

Lemma handleEvent_dispatch_witness :
  let s : recorder := ({[1%positive := sample_channel]}, []) in
  handleEvent record (fun _ => record) 1%positive 0 s =
  (ch_modify 1%positive (set_eventHanding true) ;;
   for_each (dispatch sample_channel) (run_one record (fun _ => record) 0) ;;
   ch_modify 1%positive (set_eventHanding false)) s.
Proof.
  apply (handleEvent_dispatch record (fun _ => record)).
  - apply record_keeps.
  - intros h. apply record_keeps.
  - reflexivity.
Defined.

Example sample_dispatch :
  dispatch sample_channel =
    [(true, TcpConnection_handleRead 1%positive); (false, TcpConnection_handleWrite 1%positive)].
Proof. reflexivity. Qed.
