(* ===== verification/LoopThread.v ===== *)
(** * EventLoop.h: the check that a call runs in the thread of its loop

    [threadId_] is the thread that built the loop; [this_thread] is
    [std::this_thread::get_id()] of the code that runs. *)

From S2P Require Import Prelude.

Class InThread (S : Type) : Type := {
  threadId_ : S -> Z;
  this_thread : S -> Z;
}.

Section LoopThread.
Context {B : Build} {S : Type} `{InThread S}.

Definition isInLoopThread (s : S) : bool := threadId_ s =? this_thread s.

(** Logs with level [FATAL]. *)
Definition abortNotInLoopThread : M S unit := LOG_FATAL.

Definition assertInLoopThread : M S unit :=
  let! b := gets isInLoopThread in
  whenb (negb b) abortNotInLoopThread.

Lemma assertInLoopThread_ok (s : S) :
  isInLoopThread s = true -> assertInLoopThread s = Ok (tt, s).
Proof. intros Hin. unfold assertInLoopThread, bind, gets. by rewrite Hin. Qed.

Lemma wp_assertInLoopThread (s : S) Q :
  isInLoopThread s = true -> Q tt s -> wp assertInLoopThread Q s.
Proof. intros Hin HQ. eapply wp_ok; [by apply assertInLoopThread_ok | done]. Qed.
End LoopThread.
