(* ===== verification/Wakeup.v ===== *)
(** * EventLoop.cc: the task queue between threads

    [queueInLoop] may be called from any thread.  The model has the thread of
    the loop, statement by statement of [loop()], [handleRead()] and
    [doPendingFunctors()], and any number of other threads, each either before
    or after the push of [queueInLoop]: [waking] of them have pushed and not
    yet written the wake-up descriptor.  [eventfd] is the counter of that
    descriptor.  The two lists [queued] and [executed] only record.  [quit()] is
    not called; the sequential effects of the same functions are in [Reactor.v]
    and [EventLoop.v]. *)

From S2P Require Import Prelude.
From Stdlib Require Import Relations.Relation_Operators Wellfounded.Lexicographic_Product.

Section Wakeup.
Context {task : Type}.

(** Where the loop is.  An active channel is the wake-up channel ([None]) or
    another one, whose handler queues the tasks given. *)
Inductive Pc : Type :=
| Polling
| Handling (activeChannels : list (option (list task)))
| Swapping
| Running (functors : list task).

Record Shared : Type := mkShared {
  pc : Pc;
  pendingFunctors_ : list task;
  callingPendingFunctors_ : bool;
  eventfd : Z;
  waking : Z;
  queued : list task;
  executed : list task;
}.

Implicit Types s : Shared.

Definition init : Shared := mkShared Polling [] false 0 0 [] [].

Definition set_pc (p : Pc) s : Shared :=
  mkShared p (pendingFunctors_ s) (callingPendingFunctors_ s) (eventfd s) (waking s) (queued s)
    (executed s).
Definition set_calling (b : bool) s : Shared :=
  mkShared (pc s) (pendingFunctors_ s) b (eventfd s) (waking s) (queued s) (executed s).
Definition set_eventfd (n : Z) s : Shared :=
  mkShared (pc s) (pendingFunctors_ s) (callingPendingFunctors_ s) n (waking s) (queued s)
    (executed s).
Definition set_waking (n : Z) s : Shared :=
  mkShared (pc s) (pendingFunctors_ s) (callingPendingFunctors_ s) (eventfd s) n (queued s)
    (executed s).
Definition set_pending (l : list task) s : Shared :=
  mkShared (pc s) l (callingPendingFunctors_ s) (eventfd s) (waking s) (queued s) (executed s).
Definition record_executed (f : task) s : Shared :=
  mkShared (pc s) (pendingFunctors_ s) (callingPendingFunctors_ s) (eventfd s) (waking s)
    (queued s) (executed s ++ [f]).

(** [pendingFunctors_.push_back(cb)], under the lock. *)
Definition push (f : task) s : Shared :=
  mkShared (pc s) (pendingFunctors_ s ++ [f]) (callingPendingFunctors_ s) (eventfd s) (waking s)
    (queued s ++ [f]) (executed s).

(** [!isInLoopThread() || callingPendingFunctors_] *)
Definition must_wake (isInLoopThread : bool) s : bool :=
  negb isInLoopThread || callingPendingFunctors_ s.

(** [wakeup()] and [handleRead()]: the counter grows by one, a read clears it. *)
Definition wakeup s : Shared := set_eventfd (eventfd s + 1) s.
Definition handleRead s : Shared := set_eventfd 0 s.

(** [queueInLoop(cb)] called in the thread of the loop. *)
Definition queueInLoop s (f : task) : Shared :=
  let s := push f s in if must_wake true s then wakeup s else s.

Inductive event : Type :=
| Other_push (f : task)                     (** another thread, before the [if] *)
| Other_wakeup                              (** and after it *)
| Poll (active : list (option (list task))) (** woken by the descriptor *)
| Poll_other (active : list (option (list task)))
                                            (** by the time-out or another channel *)
| Handle                                    (** the next active channel *)
| Begin_pending
| Swap
| Run (l : list task)                       (** the next task, which queues [l] *)
| End_pending.

Definition step (e : event) s : option Shared :=
  match e, pc s with
  | Other_push f, _ =>
      let s := push f s in
      Some (if must_wake false s then set_waking (waking s + 1) s else s)
  | Other_wakeup, _ =>
      if 0 <? waking s then Some (wakeup (set_waking (waking s - 1) s)) else None
  | Poll active, Polling => if 0 <? eventfd s then Some (set_pc (Handling active) s) else None
  | Poll_other active, Polling => Some (set_pc (Handling active) s)
  | Handle, Handling (None :: active) => Some (set_pc (Handling active) (handleRead s))
  | Handle, Handling (Some l :: active) =>
      Some (set_pc (Handling active) (foldl queueInLoop s l))
  | Begin_pending, Handling [] => Some (set_pc Swapping (set_calling true s))
  | Swap, Swapping => Some (set_pc (Running (pendingFunctors_ s)) (set_pending [] s))
  | Run l, Running (f :: functors) =>
      Some (set_pc (Running functors) (foldl queueInLoop (record_executed f s) l))
  | End_pending, Running [] => Some (set_pc Polling (set_calling false s))
  | _, _ => None
  end.

Fixpoint run (es : list event) s : option Shared :=
  match es with
  | [] => Some s
  | e :: es' => s' ← step e s; run es' s'
  end.

(** ** The invariant *)

(** The tasks taken and not yet run. *)
Definition taken s : list task := match pc s with Running functors => functors | _ => [] end.

(** Either the loop will swap the queue before it sleeps, or the queue is empty,
    or the descriptor is readable, or a thread is about to write it. *)
Definition will_notice s : Prop :=
  match pc s with
  | Handling _ | Swapping => True
  | Polling | Running _ => pendingFunctors_ s = [] \/ 0 < eventfd s \/ 0 < waking s
  end.

Definition inv s : Prop :=
  queued s = executed s ++ taken s ++ pendingFunctors_ s /\
  0 <= eventfd s /\ 0 <= waking s /\
  callingPendingFunctors_ s = match pc s with Swapping | Running _ => true | _ => false end /\
  will_notice s.

(** What queueing [l] in the loop's thread does. *)
Lemma queueInLoop_all l s :
  foldl queueInLoop s l =
  mkShared (pc s) (pendingFunctors_ s ++ l) (callingPendingFunctors_ s)
    (eventfd s + (if callingPendingFunctors_ s then zlen l else 0)) (waking s) (queued s ++ l)
    (executed s).
Proof.
  revert s. induction l as [|f l IH]; intros s; cbn [foldl].
  - rewrite !app_nil_r. unfold zlen. destruct s as [? ? [] ? ? ? ?]; cbn; f_equal; lia.
  - rewrite IH. unfold queueInLoop, must_wake, zlen. destruct s as [? ? [] ? ? ? ?]; cbn;
      rewrite <- !(assoc app); cbn; f_equal; lia.
Qed.

Lemma step_inv e s s' : inv s -> step e s = Some s' -> inv s'.
Proof.
  intros (Hq & He & Hw & Hc & Hn) Hs. destruct s as [p pend call efd wk qd ex].
  unfold will_notice in Hn. cbn in *.
  destruct e as [f| |active|active| | | |l| ], p as [|[|[l0|] ac]| |[|g fs]]; cbn in Hs;
    try discriminate; repeat case_match; simplify_eq; unfold inv, will_notice, taken;
    rewrite ?queueInLoop_all; cbn in *; rewrite ?app_nil_r in *; subst;
    repeat rewrite <- (assoc app); cbn;
    repeat split; try done; unfold zlen in *; try lia; try (right; lia); auto.
  - by rewrite <- (assoc app).
  - by rewrite <- (assoc app).
  - destruct l; cbn; [by rewrite app_nil_r, Z.add_0_r | right; left; lia].
Qed.

Lemma run_inv es s s' : inv s -> run es s = Some s' -> inv s'.
Proof.
  revert s. induction es as [|e es IH]; intros s Hi; cbn; [by intros [= <-]|].
  destruct (step e s) as [s1|] eqn:Hs; cbn; [|done]. apply IH. by eapply step_inv.
Qed.

Lemma init_inv : inv init.
Proof. repeat split; try done. by left. Qed.

Lemma reachable_inv es s : run es init = Some s -> inv s.
Proof. apply run_inv, init_inv. Qed.

(** Of two prefixes of one list the shorter is a prefix of the longer. *)
Lemma prefix_length_le_both (l1 l2 l : list task) :
  l1 `prefix_of` l -> l2 `prefix_of` l -> (length l1 <= length l2)%nat -> l1 `prefix_of` l2.
Proof.
  intros H1 H2 Hl. destruct (prefix_weak_total _ _ _ H1 H2) as [H|H]; [done|].
  destruct H as [k ->]. rewrite length_app in Hl. destruct k; [|cbn in Hl; lia].
  by rewrite app_nil_r.
Qed.

(** ** Progress *)

(** The steps that do not depend on anybody's goodwill: the loop's, except that
    it is not woken by the time-out or another channel, and those of the threads
    that have pushed. *)
Definition internal (e : event) : bool :=
  match e with Other_push _ | Poll_other _ => false | _ => true end.

Definition internal_step s s' : Prop := exists e, internal e = true /\ step e s = Some s'.

(** The first [n] tasks have run. *)
Definition all_run (n : nat) s : Prop := (n <= length (executed s))%nat.

Definition phase s : nat :=
  match pc s with
  | Polling => 4 | Handling _ => 3 | Swapping => 1 | Running [] => 5 | Running _ => 0
  end.

Definition active_left s : nat := match pc s with Handling ac => length ac | _ => 0 end.

(** What is left to do for the first [n] tasks. *)
Definition measure (n : nat) s : nat * nat :=
  (10 * (n - length (executed s)) + phase s + Z.to_nat (waking s), active_left s)%nat.

Definition lex_lt : nat * nat -> nat * nat -> Prop := slexprod nat nat lt lt.

Lemma lex_lt_wf : well_founded lex_lt.
Proof. apply wf_slexprod; apply lt_wf. Qed.

Lemma internal_measure n s s' :
  inv s -> (length (executed s) < n)%nat -> (n <= length (queued s))%nat -> internal_step s s' ->
  lex_lt (measure n s') (measure n s).
Proof.
  intros (Hq & He & Hw & Hc & Hn) Hlt Hle (e & Hint & Hs).
  destruct s as [p pend call efd wk qd ex]. unfold measure. cbn in *.
  destruct e as [f| |active|active| | | |l| ], p as [|[|[l0|] ac]| |[|g fs]]; cbn in Hint, Hs;
    try discriminate; repeat case_match; simplify_eq; rewrite ?queueInLoop_all; cbn;
    try (apply left_slex; rewrite ?length_app; cbn; repeat case_match; cbn; lia);
    try (apply right_slex; cbn; lia).
  apply left_slex. destruct pend; [|cbn; lia].
  exfalso. cbn in Hq. rewrite app_nil_r in Hq. subst qd. lia.
Qed.

Lemma internal_enabled n s :
  inv s -> (length (executed s) < n)%nat -> (n <= length (queued s))%nat ->
  exists s', internal_step s s'.
Proof.
  intros (Hq & He & Hw & Hc & Hn) Hlt Hle. unfold internal_step.
  destruct s as [p pend call efd wk qd ex]. unfold will_notice in Hn. cbn in *.
  destruct p as [|[|[l0|] ac]| |[|g fs]].
  - destruct Hn as [-> |[Hn|Hn]].
    + exfalso. rewrite !app_nil_r in Hq. subst qd. lia.
    + eexists _, (Poll []). split; [done|]. cbn. by destruct (Z.ltb_spec 0 efd); [|lia].
    + eexists _, Other_wakeup. split; [done|]. cbn. by destruct (Z.ltb_spec 0 wk); [|lia].
  - by eexists _, Begin_pending.
  - by eexists _, Handle.
  - by eexists _, Handle.
  - by eexists _, Swap.
  - by eexists _, End_pending.
  - by eexists _, (Run []).
Qed.

Lemma step_queued e s s' : step e s = Some s' -> queued s `prefix_of` queued s'.
Proof.
  intros Hs. destruct s as [p pend call efd wk qd ex].
  destruct e, p as [|[|[l0|] ac]| |[|g fs]]; cbn in Hs;
    try discriminate; repeat case_match; simplify_eq; rewrite ?queueInLoop_all; cbn;
    try done; by apply prefix_app_r.
Qed.

(** ** Properties *)

(** C17. With any number of threads queueing tasks and in every interleaving: the
    tasks run exactly once each, in the order in which they were queued (those
    that ran, those taken and those pending make up the tasks queued), and the
    loop never sleeps on a lost wake-up: when it waits with a task in the
    queue, its descriptor is readable or a thread is about to write it. *)
Theorem tasks_run_once_in_order es s :
  run es init = Some s ->
  queued s = executed s ++ taken s ++ pendingFunctors_ s /\
  (pc s = Polling -> pendingFunctors_ s <> [] -> 0 < eventfd s \/ 0 < waking s).
Proof.
  intros Hr. apply reachable_inv in Hr as (Hq & _ & _ & _ & Hn). split; [done|].
  intros Hpc Hne. unfold will_notice in Hn. rewrite Hpc in Hn. by destruct Hn.
Qed.

(** C19. Every task that has been queued is run: from every reachable state,
    whatever the order of the steps of the loop and of the threads that have
    pushed, whatever other tasks the tasks and the handlers queue, and without
    the help of the time-out of [poll] or of other descriptors, it is inevitable
    that all the tasks queued so far have run. *)
Theorem queued_tasks_run es s :
  run es init = Some s ->
  inevitable internal_step (fun s' => queued s `prefix_of` executed s') s.
Proof.
  intros Hr. apply reachable_inv in Hr. set (n := length (queued s)).
  apply (inevitable_wf _ lex_lt _ (fun a => inv a /\ queued s `prefix_of` queued a) (measure n));
    [apply lex_lt_wf | | by split].
  intros a [Ha Hp]. pose proof (prefix_length _ _ Hp) as Hlen. fold n in Hlen.
  destruct (decide (n <= length (executed a))%nat) as [Hall|Hsome]; [left | right].
  - destruct Ha as (Hq & _). apply (prefix_length_le_both _ _ (queued a)); try done.
    rewrite Hq. by apply prefix_app_r.
  - split; [apply (internal_enabled n a); [done|lia|done]|].
    intros b Hstep. assert (Hst := Hstep). destruct Hstep as (e & He & Hs). split; [split|].
    + by eapply step_inv.
    + etransitivity; [exact Hp | by eapply step_queued].
    + apply internal_measure; [done|lia|done|done].
Qed.
End Wakeup.

(** Thread 1 pushes while the loop sleeps; a handler queues; a second push comes
    between the swap and the sleep, and its wake-up is still to come. *)
Definition sample_run : list (event (task := nat)) :=
  [Other_push 1%nat; Other_wakeup; Poll [None; Some [2%nat]]; Handle; Handle; Begin_pending; Swap;
   Run [3%nat]; Other_push 4%nat; Run []; End_pending].

Definition sample_end : Shared (task := nat) :=
  mkShared Polling [3; 4]%nat false 1 1 [1; 2; 3; 4]%nat [1; 2]%nat.

Lemma tasks_run_once_in_order_witness :
  run sample_run init = Some sample_end /\ (0 < 1 \/ 0 < 1) /\
  [1; 2; 3; 4]%nat = [1; 2]%nat ++ [] ++ [3; 4]%nat.
Proof.
  assert (Hr : run sample_run init = Some sample_end) by reflexivity.
  destruct (tasks_run_once_in_order sample_run sample_end Hr) as [Hq Hn].
  split; [reflexivity|]. split; [apply Hn; [reflexivity | discriminate] | exact Hq].
Defined.

Lemma queued_tasks_run_witness :
  inevitable internal_step (fun s' => [1; 2; 3; 4]%nat `prefix_of` executed s') sample_end.
Proof. exact (queued_tasks_run sample_run sample_end eq_refl). Defined.
