(* ===== verification/EventLoopThread.v ===== *)
(** * EventLoopThread.h, EventLoopThread.cc: starting and stopping a loop thread

    Two threads share [loop_], the mutex and the condition variable: the one
    that owns the [EventLoopThread] runs [startLoop()] and later the destructor,
    the new one runs [threadFunc()].  Each statement that touches the shared
    state is one step; an interleaving is the list of the threads that moved.
    Of the [EventLoop] on the stack of the new thread the model keeps whether it
    exists and its [quit_], which [loop()] clears when it starts
    ([EventLoop.v]). *)

From S2P Require Import Prelude.

(** Where the owner is. *)
Inductive Owner : Type :=
| Created                 (** constructed, [startLoop] not called *)
| LockWait                (** acquiring [mutex_] *)
| TestLoop                (** [while (loop_ == nullptr)], mutex held *)
| CondWait                (** [cond_.wait(lock)], mutex released *)
| UnlockWait              (** leaving the block *)
| ReadLoop                (** [return loop_;] *)
| Returned (loop : bool)  (** whether the pointer is not null *)
| TestNull                (** destructor: [if (loop_ != nullptr)] *)
| CallQuit                (** [loop_->quit()] *)
| Join                    (** [thread_.join()] *)
| Destroyed
| UsedAfterFree.

(** Where the new thread is in [threadFunc()]. *)
Inductive Worker : Type :=
| NoThread
| Construct               (** [EventLoop loop;] and the callback *)
| LockStore               (** acquiring [mutex_] *)
| StoreLoop               (** [loop_ = &loop;] *)
| Notify                  (** [cond_.notify_one();] *)
| UnlockStore
| EnterLoop               (** [loop.loop()]: [quit_ = false] *)
| InLoop                  (** the [while (!quit_)] of [loop()] *)
| ClearLoop               (** [loop_ = NULL;] *)
| DestroyLoop             (** the end of the scope of [loop] *)
| Finished.

Inductive holder : Type := ByOwner | ByWorker.

Record EventLoopThread : Type := mkThread {
  owner : Owner;
  worker : Worker;
  mutex_ : option holder;
  started_ : bool;
  loop_ : bool;   (** not null *)
  alive : bool;   (** the [EventLoop] object exists *)
  quit_ : bool;
}.

(** Who moves: either thread, a spurious wake-up of the condition variable, or a
    task of the loop that calls [quit()] in the loop's own thread. *)
Inductive actor : Type := Own | Work | Spurious | SelfQuit.

#[global] Instance actor_eq_dec : EqDecision actor.
Proof. solve_decision. Defined.

Section fields.
Implicit Types s : EventLoopThread.

Definition set_owner (o : Owner) s : EventLoopThread :=
  mkThread o (worker s) (mutex_ s) (started_ s) (loop_ s) (alive s) (quit_ s).
Definition set_worker (w : Worker) s : EventLoopThread :=
  mkThread (owner s) w (mutex_ s) (started_ s) (loop_ s) (alive s) (quit_ s).
Definition set_mutex (m : option holder) s : EventLoopThread :=
  mkThread (owner s) (worker s) m (started_ s) (loop_ s) (alive s) (quit_ s).
Definition set_started (b : bool) s : EventLoopThread :=
  mkThread (owner s) (worker s) (mutex_ s) b (loop_ s) (alive s) (quit_ s).
Definition set_loop (b : bool) s : EventLoopThread :=
  mkThread (owner s) (worker s) (mutex_ s) (started_ s) b (alive s) (quit_ s).
Definition set_alive (b : bool) s : EventLoopThread :=
  mkThread (owner s) (worker s) (mutex_ s) (started_ s) (loop_ s) b (quit_ s).
Definition set_quit (b : bool) s : EventLoopThread :=
  mkThread (owner s) (worker s) (mutex_ s) (started_ s) (loop_ s) (alive s) b.

Definition EventLoopThread_ctor : EventLoopThread :=
  mkThread Created NoThread None false false false false.

(** [startLoop()], then [~EventLoopThread()]; [None] when the thread is blocked. *)
Definition owner_step s : option EventLoopThread :=
  match owner s with
  | Created => Some (set_owner LockWait (set_worker Construct (set_started true s)))
  | LockWait =>
      match mutex_ s with
      | None => Some (set_owner TestLoop (set_mutex (Some ByOwner) s))
      | Some _ => None
      end
  | TestLoop =>
      if loop_ s then Some (set_owner UnlockWait s)
      else Some (set_owner CondWait (set_mutex None s))
  | CondWait => None
  | UnlockWait => Some (set_owner ReadLoop (set_mutex None s))
  | ReadLoop => Some (set_owner (Returned (loop_ s)) s)
  | Returned _ => Some (set_owner (if started_ s then TestNull else Destroyed) s)
  | TestNull => Some (set_owner (if loop_ s then CallQuit else Join) s)
  | CallQuit =>
      if alive s then Some (set_owner Join (set_quit true s))
      else Some (set_owner UsedAfterFree s)
  | Join => match worker s with Finished => Some (set_owner Destroyed s) | _ => None end
  | Destroyed | UsedAfterFree => None
  end.

(** [threadFunc()] *)
Definition worker_step s : option EventLoopThread :=
  match worker s with
  | NoThread | Finished => None
  | Construct => Some (set_worker LockStore (set_alive true s))
  | LockStore =>
      match mutex_ s with
      | None => Some (set_worker StoreLoop (set_mutex (Some ByWorker) s))
      | Some _ => None
      end
  | StoreLoop => Some (set_worker Notify (set_loop true s))
  | Notify =>
      Some (set_worker UnlockStore
              (match owner s with CondWait => set_owner LockWait s | _ => s end))
  | UnlockStore => Some (set_worker EnterLoop (set_mutex None s))
  | EnterLoop => Some (set_worker InLoop (set_quit false s))
  | InLoop => if quit_ s then Some (set_worker ClearLoop s) else None
  | ClearLoop => Some (set_worker DestroyLoop (set_loop false s))
  | DestroyLoop => Some (set_worker Finished (set_alive false s))
  end.

Definition move (a : actor) s : option EventLoopThread :=
  match a with
  | Own => owner_step s
  | Work => worker_step s
  | Spurious => match owner s with CondWait => Some (set_owner LockWait s) | _ => None end
  | SelfQuit => match worker s with InLoop => Some (set_quit true s) | _ => None end
  end.

Fixpoint interleave (l : list actor) s : option EventLoopThread :=
  match l with
  | [] => Some s
  | a :: l' => s' ← move a s; interleave l' s'
  end.
End fields.

(** ** The invariant of a loop that only its owner stops *)

(** The order of the statements of [threadFunc()]. *)
Definition wpos (w : Worker) : Z :=
  match w with
  | NoThread => 0 | Construct => 1 | LockStore => 2 | StoreLoop => 3 | Notify => 4
  | UnlockStore => 5 | EnterLoop => 6 | InLoop => 7 | ClearLoop => 8 | DestroyLoop => 9
  | Finished => 10
  end.

(** The owner has seen [loop_] set. *)
Definition seen (o : Owner) : bool :=
  match o with Created | LockWait | TestLoop | CondWait => false | _ => true end.

(** The owner has called [quit()]. *)
Definition quitting (o : Owner) : bool :=
  match o with Join | Destroyed => true | _ => false end.

Definition inv (s : EventLoopThread) : bool :=
  let w := wpos (worker s) in
  Bool.eqb (loop_ s) ((4 <=? w) && (w <=? 8)) &&
  Bool.eqb (alive s) ((2 <=? w) && (w <=? 9)) &&
  match mutex_ s with
  | None => negb ((3 <=? w) && (w <=? 5)) &&
            match owner s with TestLoop | UnlockWait => false | _ => true end
  | Some ByOwner => negb ((3 <=? w) && (w <=? 5)) &&
            match owner s with TestLoop | UnlockWait => true | _ => false end
  | Some ByWorker => (3 <=? w) && (w <=? 5) &&
            match owner s with TestLoop | UnlockWait => false | _ => true end
  end &&
  implb (quit_ s || (8 <=? w)) (quitting (owner s)) &&
  implb (seen (owner s)) (4 <=? w) &&
  match owner s with
  | Created => w =? 0
  | CondWait => (1 <=? w) && (w <=? 4)
  | Returned b => (1 <=? w) && b
  | UsedAfterFree => false
  | _ => 1 <=? w
  end &&
  Bool.eqb (started_ s) (1 <=? w).

Lemma move_inv a s s' : a <> SelfQuit -> inv s = true -> move a s = Some s' -> inv s' = true.
Proof.
  destruct s as [o w m st l al q]. intros Ha Hi Hm.
  destruct a; try done; destruct w, o as [| | | | | |[]| | | | |]; try discriminate;
    destruct m as [[]|], l, al, st, q; try discriminate;
    cbn in Hm; try discriminate; injection Hm as <-; reflexivity.
Qed.

Lemma interleave_inv l s s' :
  SelfQuit ∉ l -> inv s = true -> interleave l s = Some s' -> inv s' = true.
Proof.
  revert s. induction l as [|a l IH]; intros s Hl Hi; cbn; [by intros [= <-]|].
  apply not_elem_of_cons in Hl as [Ha Hl].
  destruct (move a s) as [s1|] eqn:Hm; cbn; [|done]. apply IH; [done|].
  eapply move_inv; [by apply not_eq_sym | done | done].
Qed.

(** ** Termination *)

(** [startLoop()] has not returned. *)
Definition starting (o : Owner) : bool :=
  match o with
  | Created | LockWait | TestLoop | CondWait | UnlockWait | ReadLoop => true
  | _ => false
  end.

(** Every step of either thread makes this smaller. *)
Definition orank (o : Owner) : Z :=
  match o with
  | Created => 11 | LockWait => 10 | TestLoop => 9 | CondWait => 8 | UnlockWait => 8
  | ReadLoop => 7 | Returned _ => 6 | TestNull => 5 | CallQuit => 4 | Join => 3
  | Destroyed | UsedAfterFree => 0
  end.

Definition measure (s : EventLoopThread) : Z := 4 * (10 - wpos (worker s)) + orank (owner s).

Definition is_thread (a : actor) : Prop := a = Own \/ a = Work.

Lemma measure_nonneg s : 0 <= measure s.
Proof. unfold measure. destruct (worker s), (owner s); cbn; lia. Qed.

Lemma move_measure a s s' :
  inv s = true -> is_thread a -> move a s = Some s' -> measure s' < measure s.
Proof.
  destruct s as [o w m st l al q]. intros Hi [-> | ->] Hm; unfold measure.
  - assert (o = Created -> w = NoThread).
    { intros ->. by destruct w, m as [[]|], l, al, st, q. }
    destruct o; [rewrite H in Hm |- * by done|..]; cbn in Hm; repeat case_match; simplify_eq; cbn; lia.
  - destruct w; cbn in Hm; repeat case_match; simplify_eq; cbn; lia.
Qed.

Lemma interleave_measure l s s' :
  inv s = true -> Forall is_thread l -> interleave l s = Some s' ->
  zlen l + measure s' <= measure s.
Proof.
  intros Hi Hl. revert s Hi. induction Hl as [|a l Ha Hl IH]; intros s Hi; cbn.
  { intros [= <-]. unfold zlen. cbn. lia. }
  destruct (move a s) as [s1|] eqn:Hm; cbn; [|done].
  assert (Hi1 : inv s1 = true) by (by eapply (move_inv a); [destruct Ha as [-> | ->]| |]).
  intros H%IH; [|done]. apply move_measure in Hm; [|done|done]. unfold zlen in *. cbn. lia.
Qed.

Ltac no_self_quit :=
  repeat (apply not_elem_of_cons; split; [discriminate|]); apply not_elem_of_nil.

(** Who is blocked, and when. *)
Lemma stuck_cases s :
  inv s = true -> owner_step s = None -> worker_step s = None ->
  owner s = Destroyed \/ (owner s = Join /\ worker s = InLoop /\ quit_ s = false) .
Proof.
  destruct s as [o w m st l al q]. intros Hi Ho Hw.
  destruct o as [| | | | | |[]| | | | |]; try discriminate;
    destruct w; try discriminate; destruct m as [[]|], l, al, st, q; try discriminate; auto.
Qed.

(** ** Properties *)

(** One step of one of the two threads. *)
Definition thread_step (s s' : EventLoopThread) : Prop :=
  exists a, is_thread a /\ move a s = Some s'.

(** [startLoop()] has returned a pointer to the living loop. *)
Definition has_loop (s : EventLoopThread) : Prop :=
  owner s = Returned true /\ loop_ s = true /\ alive s = true.

Lemma inv_returned s b : inv s = true -> owner s = Returned b -> b = true /\ has_loop s.
Proof.
  destruct s as [o w m st lp al q]. unfold has_loop. cbn. intros Hi ->.
  by destruct w, b; try discriminate; destruct m as [[]|], lp, al, st, q.
Qed.

(** Inside [startLoop()] some thread can move, and the first step out of it is
    the return. *)
Lemma starting_moves s :
  inv s = true -> starting (owner s) = true -> exists s', thread_step s s'.
Proof.
  intros Hi Hs.
  destruct (owner_step s) as [s1|] eqn:E1; [by exists s1, Own; split; [left|]|].
  destruct (worker_step s) as [s2|] eqn:E2; [by exists s2, Work; split; [right|]|].
  destruct (stuck_cases s Hi E1 E2) as [Ho|(Ho & _)]; rewrite Ho in Hs; discriminate Hs.
Qed.

Lemma starting_step s s' :
  thread_step s s' -> starting (owner s) = true ->
  starting (owner s') = true \/ exists b, owner s' = Returned b.
Proof.
  destruct s as [o w m st l al q]. intros (a & [-> | ->] & Hm) Hs; cbn in Hm, Hs |- *.
  - destruct o; try discriminate; cbn in Hm; repeat case_match; simplify_eq; cbn; eauto.
  - destruct w; cbn in Hm; repeat case_match; simplify_eq; cbn; eauto.
Qed.

(** C22. As long as only the owner stops the loop, in every interleaving of the two
    threads with any spurious wake-ups, [startLoop()] returns nothing but a
    pointer to the living loop, and nobody uses the loop after its end. *)
Theorem startLoop_returns_live_loop l s :
  SelfQuit ∉ l -> interleave l EventLoopThread_ctor = Some s ->
  owner s <> UsedAfterFree /\ forall b, owner s = Returned b -> b = true /\ has_loop s.
Proof.
  intros Hl Hr. assert (Hi : inv s = true) by exact (interleave_inv l EventLoopThread_ctor s Hl eq_refl Hr).
  split; [|by intros b; apply inv_returned].
  intros Ho. destruct s as [o w m st lp al q]. cbn in Ho. subst o.
  by destruct w, m as [[]|], lp, al, st, q.
Qed.

(** C23. As long as no task of the loop quits it by itself, before [startLoop()] has
    returned, [startLoop()] returns: from every state the two threads can reach before
    that, even after spurious wake-ups, it is inevitable, however the steps of the two
    threads interleave from there, that [startLoop()] has returned a pointer to the
    living loop.  The notification is never lost.  With such a task it may wait for
    ever ([startLoop_may_hang]). *)
Theorem startLoop_returns l s :
  SelfQuit ∉ l -> interleave l EventLoopThread_ctor = Some s -> starting (owner s) = true ->
  inevitable thread_step has_loop s.
Proof.
  intros Hl Hr Hs. assert (Hi : inv s = true) by exact (interleave_inv l EventLoopThread_ctor s Hl eq_refl Hr).
  apply (inevitable_measure _ _
    (fun a => inv a = true /\ (starting (owner a) = true \/ exists b, owner a = Returned b)) measure).
  - intros a [Ha [Hst|[b Hb]]]; [right | left; by eapply inv_returned].
    split; [by apply starting_moves|]. intros a' Hstep. pose proof Hstep as (x & Hx & Hm).
    split; [split|].
    + eapply (move_inv x); [by destruct Hx as [-> | ->] | done | done].
    + by eapply starting_step.
    + split; [apply measure_nonneg | by eapply move_measure].
  - auto.
Qed.

(** The destructor: whenever both threads are blocked for good (and no task
    of the loop calls [quit]) either the thread has been joined or the owner
    waits in [join()] for a loop that runs without having seen its [quit()];
    and the second case is reachable, when [quit()] comes between the
    notification and the first statement of [loop()]. *)
Lemma destructor_joins_or_hangs :
  (forall l s, SelfQuit ∉ l -> interleave l EventLoopThread_ctor = Some s ->
     move Own s = None -> move Work s = None ->
     owner s = Destroyed \/ (owner s = Join /\ worker s = InLoop /\ quit_ s = false)) /\
  (exists l s, (SelfQuit ∉ l) /\ interleave l EventLoopThread_ctor = Some s /\
     owner s = Join /\ forall a, a <> SelfQuit -> move a s = None).
Proof.
  split.
  - intros l s Hl Hr Ho Hw. apply stuck_cases; [exact (interleave_inv l EventLoopThread_ctor s Hl eq_refl Hr) | done | done].
  - exists [Own; Work; Work; Work; Work; Work; Own; Own; Own; Own; Own; Own; Own; Work].
    eexists. split; [|split; [vm_compute; reflexivity|]].
    + no_self_quit.
    + split; [done|]. by intros [].
Qed.

(** With a task that quits the loop by itself, the unlocked [return loop_]
    yields a null pointer. *)
Lemma startLoop_may_return_null :
  exists l s, interleave l EventLoopThread_ctor = Some s /\ owner s = Returned false.
Proof.
  exists [Own; Work; Work; Work; Work; Work; Own; Own; Own; Work; SelfQuit; Work; Work; Own].
  eexists. split; [vm_compute; reflexivity | done].
Qed.

(** Or the owner finds [loop_] cleared before it has looked at it once, and waits for
    a notification that nobody will give. *)
Lemma startLoop_may_hang :
  exists l s, interleave l EventLoopThread_ctor = Some s /\ owner s = CondWait /\
    move Own s = None /\ move Work s = None /\ worker s = Finished.
Proof.
  exists [Own; Work; Work; Work; Work; Work; Work; SelfQuit; Work; Work; Work; Own; Own].
  eexists. split; [vm_compute; reflexivity | done].
Qed.

Definition started_run : list actor :=
  [Own; Own; Own; Spurious; Own; Own; Work; Work; Work; Work; Work; Own; Own; Own; Own].

Lemma startLoop_returns_live_loop_witness :
  exists s, interleave started_run EventLoopThread_ctor = Some s /\
    owner s = Returned true /\ has_loop s /\ owner s <> UsedAfterFree.
Proof.
  pose proof (startLoop_returns_live_loop started_run
    (mkThread (Returned true) EnterLoop None true true true false)) as H.
  destruct H as (Hu & Hr).
  - no_self_quit.
  - vm_compute. reflexivity.
  - eexists. split; [vm_compute; reflexivity|]. split; [reflexivity|].
    destruct (Hr true eq_refl) as (_ & Ha). split; [exact Ha | exact Hu].
Defined.

(** The owner sleeps on the condition variable, the worker has not locked yet. *)
Lemma startLoop_returns_witness :
  inevitable thread_step has_loop (mkThread CondWait LockStore None true false true false).
Proof.
  apply (startLoop_returns [Own; Own; Own; Spurious; Own; Own; Work]).
  - no_self_quit.
  - vm_compute. reflexivity.
  - reflexivity.
Defined.
