(* ===== verification/EventLoopThreadPool.v ===== *)
(** * EventLoopThreadPool.h, EventLoopThreadPool.cc: the loops connections are dealt to

    A loop is its address.  [start_loop i] is what building the [i]-th
    [EventLoopThread] and calling its [startLoop()] does and returns;
    [EventLoopThread.v] shows that the pointer is not null and the loop alive. *)

From S2P Require Import Prelude Callbacks LoopThread.

Record EventLoopThreadPool : Type := mkPool {
  baseLoop_ : loop_id;
  started_ : bool;
  numThreads_ : Z;
  next_ : Z;
  loops_ : list loop_id;
}.

Definition EventLoopThreadPool_ctor (baseLoop : loop_id) : EventLoopThreadPool :=
  mkPool baseLoop false 0 0 [].

Definition setThreadNum (numThreads : Z) (p : EventLoopThreadPool) : EventLoopThreadPool :=
  mkPool (baseLoop_ p) (started_ p) numThreads (next_ p) (loops_ p).
Definition set_started (p : EventLoopThreadPool) : EventLoopThreadPool :=
  mkPool (baseLoop_ p) true (numThreads_ p) (next_ p) (loops_ p).
Definition set_next (n : Z) (p : EventLoopThreadPool) : EventLoopThreadPool :=
  mkPool (baseLoop_ p) (started_ p) (numThreads_ p) n (loops_ p).
Definition push_loop (l : loop_id) (p : EventLoopThreadPool) : EventLoopThreadPool :=
  mkPool (baseLoop_ p) (started_ p) (numThreads_ p) (next_ p) (loops_ p ++ [l]).

Section Pool_ops.
Context {B : Build} {S : Type} `{InThread S} (pool : lens S EventLoopThreadPool).
Variable start_loop : Z -> M S loop_id.

(** [v[i]] of a vector *)
Definition vec_at {A} (l : list A) (i : Z) : res A :=
  match vec_read l i 1 with Ok [x] => Ok x | _ => Err OutOfBounds end.

Definition start (cb : option (loop_id -> M S unit)) : M S unit :=
  let! p := gets (lget pool) in
  assert_ (negb (started_ p)) ;;
  assertInLoopThread ;;
  zoom pool (modify set_started) ;;
  for_each (Z.of_nat <$> seq 0 (Z.to_nat (numThreads_ p)))
    (fun i => let! l := start_loop i in zoom pool (modify (push_loop l))) ;;
  match cb with
  | Some cb => whenb (numThreads_ p =? 0) (cb (baseLoop_ p))
  | None => ret tt
  end.

Definition getNextLoop : M S loop_id :=
  assertInLoopThread ;;
  let! p := gets (lget pool) in
  assert_ (started_ p) ;;
  let loop := baseLoop_ p in
  match loops_ p with
  | [] => ret loop
  | _ :: _ =>
      let! loop := lift (vec_at (loops_ p) (next_ p)) in
      zoom pool (modify (set_next (next_ p + 1))) ;;
      let! p := gets (lget pool) in
      whenb (zlen (loops_ p) <=? u64 (next_ p)) (zoom pool (modify (set_next 0))) ;;
      ret loop
  end.

Definition getLoopForHash (hashCode : Z) : M S loop_id :=
  assertInLoopThread ;;
  let! p := gets (lget pool) in
  let loop := baseLoop_ p in
  match loops_ p with
  | [] => ret loop
  | _ :: _ => lift (vec_at (loops_ p) (hashCode mod zlen (loops_ p)))
  end.

Definition getAllLoops : M S (list loop_id) :=
  assertInLoopThread ;;
  let! p := gets (lget pool) in
  assert_ (started_ p) ;;
  match loops_ p with
  | [] => ret [baseLoop_ p]
  | _ :: _ => ret (loops_ p)
  end.
End Pool_ops.

(** [n] calls of [m] in a row, their results in order. *)
Fixpoint repeat_call {S A} (n : nat) (m : M S A) : M S (list A) :=
  match n with
  | O => ret []
  | S n' => let! a := m in let! l := repeat_call n' m in ret (a :: l)
  end.

Section Pool_facts.
Context {B : Build} {S : Type} `{InThread S} (pool : lens S EventLoopThreadPool) `{!LensLaws pool}.

(** Replacing the pool moves no thread. *)
Hypothesis pool_thread : forall p s, isInLoopThread (lset pool p s) = isInLoopThread s.

Definition pool_wf (p : EventLoopThreadPool) : Prop :=
  started_ p = true /\ zlen (loops_ p) < 2 ^ 31 /\
  (loops_ p = [] \/ 0 <= next_ p < zlen (loops_ p)).

(** The loop whose turn is [k] calls from now. *)
Definition turn (p : EventLoopThreadPool) (k : nat) : loop_id :=
  match loops_ p with
  | [] => baseLoop_ p
  | l :: _ => default l (loops_ p !! Z.to_nat ((next_ p + Z.of_nat k) mod zlen (loops_ p)))
  end.

(** [k] turns pass. *)
Definition advance (k : nat) (p : EventLoopThreadPool) : EventLoopThreadPool :=
  match loops_ p with
  | [] => p
  | _ :: _ => set_next ((next_ p + Z.of_nat k) mod zlen (loops_ p)) p
  end.

Lemma vec_at_ok {A} (l : list A) i x :
  0 <= i -> l !! Z.to_nat i = Some x -> vec_at l i = Ok x.
Proof.
  intros Hi Hx. pose proof (lookup_lt_Some _ _ _ Hx) as Hl. unfold vec_at.
  rewrite vec_read_ok by (unfold zlen; lia). unfold slice.
  replace (Z.to_nat (i + 1 - i)) with 1%nat by lia.
  by rewrite (drop_S _ _ _ Hx).
Qed.

Lemma advance_wf k p : pool_wf p -> pool_wf (advance k p).
Proof.
  intros (Hst & Hlen & Hnext). unfold advance, pool_wf.
  destruct (loops_ p) as [|l ls] eqn:E; [rewrite E; auto|]. cbn [started_ loops_ next_ set_next].
  rewrite E. split; [done|]. split; [done|]. right. apply Z.mod_pos_bound. unfold zlen. cbn. lia.
Qed.

Lemma advance_advance j k p : advance j (advance k p) = advance (k + j) p.
Proof.
  unfold advance at 2 3. destruct (loops_ p) as [|l ls] eqn:E; unfold advance.
  - by rewrite E.
  - cbn [loops_ set_next next_]. rewrite E. unfold set_next. cbn [baseLoop_ started_ numThreads_ loops_].
    f_equal. rewrite Zplus_mod_idemp_l. f_equal. lia.
Qed.

Lemma turn_advance j k p : turn (advance k p) j = turn p (k + j).
Proof.
  unfold turn, advance. destruct (loops_ p) as [|l ls] eqn:E; [by rewrite E|].
  cbn [loops_ set_next next_]. rewrite E, Zplus_mod_idemp_l.
  do 3 f_equal. f_equal. lia.
Qed.

(** One call: the loop whose turn it is, and the turn passes. *)
Lemma getNextLoop_ok s :
  isInLoopThread s = true -> pool_wf (lget pool s) ->
  getNextLoop pool s = Ok (turn (lget pool s) 0, lset pool (advance 1 (lget pool s)) s).
Proof.
  intros Hin (Hst & Hlen & Hnext). remember (lget pool s) as p eqn:Hp.
  unfold getNextLoop. unfold bind at 1. rewrite assertInLoopThread_ok by done.
  rewrite bind_gets, <- Hp. unfold bind at 1, assert_. rewrite Hst.
  assert (Ha : (if NDEBUG then ret tt else ret tt) s = Ok (tt, s)) by (by destruct NDEBUG).
  rewrite Ha. unfold turn, advance. destruct (loops_ p) as [|l0 ls] eqn:E.
  { subst p. by rewrite lset_lget. }
  destruct Hnext as [|Hnext]; [done|]. rewrite <- E in *.
  destruct (lookup_lt_is_Some_2 (loops_ p) (Z.to_nat (next_ p))) as [l Hl];
    [unfold zlen in *; lia|].
  unfold bind at 1, lift. rewrite (vec_at_ok _ _ l) by (lia || done).
  unfold bind, zoom, modify, gets. cbv beta iota. rewrite lget_lset, <- Hp.
  cbn [loops_ set_next next_]. rewrite u64_small by lia.
  replace ((next_ p + Z.of_nat 0) mod zlen (loops_ p)) with (next_ p)
    by (rewrite Z.mod_small; lia).
  rewrite Hl. cbn [default]. change (Z.of_nat 1) with 1.
  destruct (Z.leb_spec (zlen (loops_ p)) (next_ p + 1)); cbn [whenb]; cbv beta iota.
  - rewrite lget_lset, lset_lset. unfold ret. do 3 f_equal.
    replace (next_ p + 1) with (zlen (loops_ p)) by lia. by rewrite Z.mod_same by lia.
  - rewrite Z.mod_small by lia. done.
Qed.

Lemma repeat_getNextLoop n s :
  isInLoopThread s = true -> pool_wf (lget pool s) ->
  repeat_call n (getNextLoop pool) s =
  Ok (turn (lget pool s) <$> seq 0 n,
      lset pool (match n with O => lget pool s | _ => advance n (lget pool s) end) s).
Proof.
  revert s. induction n as [|n IH]; intros s Hin Hwf; cbn [repeat_call seq].
  { by rewrite lset_lget. }
  unfold bind at 1. rewrite getNextLoop_ok by done. unfold bind at 1. rewrite IH.
  - rewrite !lget_lset, lset_lset. unfold ret. rewrite fmap_cons. do 2 f_equal.
    + f_equal. rewrite <- (fmap_S_seq 0 n), <- list_fmap_compose.
      apply list_fmap_ext. intros _ k _. cbn. by rewrite turn_advance.
    + f_equal. destruct n; [done|]. by rewrite advance_advance.
  - by rewrite pool_thread.
  - rewrite lget_lset. by apply advance_wf.
Qed.

(** The turns of one round. *)
Lemma round_turns p :
  pool_wf p -> loops_ p <> [] ->
  turn p <$> seq 0 (length (loops_ p)) =
  drop (Z.to_nat (next_ p)) (loops_ p) ++ take (Z.to_nat (next_ p)) (loops_ p).
Proof.
  intros (_ & Hlen & [|Hnext]) Hne; [done|]. apply list_eq. intros i.
  rewrite list_lookup_fmap. destruct (decide (i < length (loops_ p))%nat) as [Hi|Hi].
  2: { rewrite (lookup_ge_None_2 (seq _ _)) by (rewrite length_seq; lia). symmetry.
       apply lookup_ge_None_2. rewrite length_app, length_take, length_drop. lia. }
  rewrite lookup_seq_lt by done. cbn. unfold turn.
  destruct (loops_ p) as [|l0 ls] eqn:E; [done|]. rewrite <- E in *. unfold zlen in *.
  assert (Hd : forall j, (j < length (loops_ p))%nat -> Some (default l0 (loops_ p !! j)) = loops_ p !! j).
  { intros j Hj. by destruct (lookup_lt_is_Some_2 _ _ Hj) as [x ->]. }
  destruct (decide (Z.to_nat (next_ p) + i < length (loops_ p))%nat).
  - rewrite Z.mod_small by lia. rewrite Hd by lia.
    rewrite lookup_app_l by (rewrite length_drop; lia). rewrite lookup_drop. f_equal. lia.
  - replace ((next_ p + Z.of_nat i) mod Z.of_nat (length (loops_ p)))
      with (next_ p + Z.of_nat i - Z.of_nat (length (loops_ p)))
      by (rewrite <- (Z.mod_add _ (-1)), Z.mod_small; lia).
    rewrite Hd by lia.
    rewrite lookup_app_r by (rewrite length_drop; lia). rewrite length_drop, lookup_take.
    case_decide; [|lia]. f_equal. lia.
Qed.

(** [start]: as many loops as threads were asked for, in the order they were
    started, and the base loop is prepared only when there are none. *)
Lemma start_ok start_loop cb s :
  let p := lget pool s in
  isInLoopThread s = true -> started_ p = false -> loops_ p = [] -> next_ p = 0 ->
  0 <= numThreads_ p < 2 ^ 31 ->
  (forall i s0, isInLoopThread s0 = true ->
     wp (start_loop i) (fun _ s1 => lget pool s1 = lget pool s0 /\ isInLoopThread s1 = true) s0) ->
  (forall f l s0, cb = Some f ->
     wp (f l) (fun _ s1 => lget pool s1 = lget pool s0 /\ isInLoopThread s1 = true) s0) ->
  wp (start pool start_loop cb)
     (fun _ s' => pool_wf (lget pool s') /\ zlen (loops_ (lget pool s')) = numThreads_ p /\
        next_ (lget pool s') = 0 /\ baseLoop_ (lget pool s') = baseLoop_ p) s.
Proof.
  intros p Hin Hst Hlo Hne Hn Hstart Hcb. unfold start. wp_simp. fold p.
  apply wp_assert; [by rewrite Hst|]. wp_simp. apply wp_assertInLoopThread; [done|]. wp_simp.
  fold p. set (ids := Z.of_nat <$> seq 0 (Z.to_nat (numThreads_ p))).
  assert (Hids : zlen ids = numThreads_ p) by (unfold ids, zlen; rewrite length_fmap, length_seq; lia).
  eapply wp_mono.
  - apply (wp_for_each (fun l s0 => isInLoopThread s0 = true /\ started_ (lget pool s0) = true /\
      next_ (lget pool s0) = 0 /\ baseLoop_ (lget pool s0) = baseLoop_ p /\
      zlen (loops_ (lget pool s0)) + zlen l = numThreads_ p)).
    + rewrite pool_thread, lget_lset. cbn. by rewrite Hlo.
    + intros i l s0 (Hin0 & Hs0 & Hn0 & Hb0 & Hl0). wp_simp.
      eapply wp_mono; [by apply Hstart|]. intros x s1 [Hp1 Hin1]. wp_simp.
      rewrite pool_thread, lget_lset, Hp1. cbn. unfold zlen in *. rewrite length_app.
      cbn in *. split_and!; try done. lia.
  - intros _ s1 (Hin1 & Hs1 & Hn1 & Hb1 & Hl1). unfold zlen in Hl1 at 2. cbn in Hl1.
    assert (Hwf : pool_wf (lget pool s1)).
    { unfold pool_wf. split; [done|]. split; [lia|]. rewrite Hn1.
      destruct (loops_ (lget pool s1)); [by left | right; unfold zlen; cbn; lia]. }
    rewrite Z.add_0_r in Hl1. destruct cb as [f|]; [|by wp_simp; auto].
    wp_simp. destruct (numThreads_ p =? 0); [|by auto].
    eapply wp_mono; [by apply Hcb|]. intros _ s2 [-> _]. auto.
Qed.
End Pool_facts.

(** ** Properties *)

(** [getNextLoop] deals the loops round robin: a full round of calls returns
    every loop of the pool exactly once, from the one whose turn it is and in
    the order they were started, and leaves the state as it was; a pool without
    threads always returns the base loop. *)
Lemma getNextLoop_round_robin {B : Build} {S : Type} `{InThread S}
    (pool : lens S EventLoopThreadPool) `{!LensLaws pool} s :
  (forall p s, isInLoopThread (lset pool p s) = isInLoopThread s) ->
  isInLoopThread s = true -> pool_wf (lget pool s) ->
  let p := lget pool s in
  (loops_ p = [] -> getNextLoop pool s = Ok (baseLoop_ p, s)) /\
  (loops_ p <> [] ->
   repeat_call (length (loops_ p)) (getNextLoop pool) s =
   Ok (drop (Z.to_nat (next_ p)) (loops_ p) ++ take (Z.to_nat (next_ p)) (loops_ p), s)).
Proof.
  intros Hlens Hin Hwf p. split.
  - intros Hnil. rewrite getNextLoop_ok by done. unfold turn, advance. fold p.
    rewrite Hnil. unfold p. by rewrite lset_lget.
  - intros Hne. rewrite repeat_getNextLoop by done. fold p.
    rewrite round_turns by done. do 2 f_equal. destruct Hwf as (_ & Hlen & [|Hnext]); [done|].
    fold p in Hlen, Hnext |- *.
    assert (match length (loops_ p) with O => p | S _ => advance (length (loops_ p)) p end = p) as ->.
    { destruct (length (loops_ p)) eqn:El; [done|]. rewrite <- El.
      unfold advance. destruct (loops_ p) as [|l0 ls] eqn:E; [done|]. rewrite <- E in *.
      replace (next_ p + Z.of_nat (length (loops_ p))) with (next_ p + 1 * zlen (loops_ p))
        by (unfold zlen; lia).
      rewrite Z.mod_add, Z.mod_small by lia. unfold set_next. by destruct p. }
    apply lset_lget.
Qed.

(** A base loop of address 1 and three threads. *)
Definition sample_pool : EventLoopThreadPool := mkPool 1 true 3 1 [2; 3; 4]%positive.

#[local] Instance sample_thread : InThread EventLoopThreadPool := {|
  threadId_ _ := 7; this_thread _ := 7
|}.

Lemma getNextLoop_round_robin_witness :
  repeat_call 3 (getNextLoop (B := debug_build) id_lens) sample_pool =
  Ok ([3; 4; 2]%positive, sample_pool).
Proof.
  refine (proj2 (getNextLoop_round_robin (B := debug_build) id_lens sample_pool _ _ _) _).
  - reflexivity.
  - reflexivity.
  - split; [reflexivity|]. split; [reflexivity|]. right. cbn. unfold zlen. cbn. lia.
  - discriminate.
Defined.
