(* ===== verification/Poller.v ===== *)
(** * Poller.h, Poller.cc: the base class of the two pollers

    The state a poller works on, the interface the event loop calls and the
    contract both implementations meet: a table from descriptor to channel, and
    the set of descriptors the kernel watches with the events asked for. *)

From S2P Require Import Prelude Posix Callbacks Channel LoopThread.

(** [self] holds the members of the derived class, [chans] the channels in
    memory, [kern] the kernel. *)
Record PollState (P K : Type) : Type := mkPollState {
  self : P;
  chans : gmap chan Channel;
  sts : ChannelStatics;
  kern : K;
  ownerThread : Z;
  runningThread : Z;
}.
Arguments mkPollState {P K}.
Arguments self {P K}.
Arguments chans {P K}.
Arguments sts {P K}.
Arguments kern {P K}.
Arguments ownerThread {P K}.
Arguments runningThread {P K}.

Definition self_lens {P K} : lens (PollState P K) P :=
  Lens self (fun p s => mkPollState p (chans s) (sts s) (kern s) (ownerThread s) (runningThread s)).
Definition chans_lens {P K} : lens (PollState P K) (gmap chan Channel) :=
  Lens chans (fun h s => mkPollState (self s) h (sts s) (kern s) (ownerThread s) (runningThread s)).
Definition kern_lens {P K} : lens (PollState P K) K :=
  Lens kern (fun k s => mkPollState (self s) (chans s) (sts s) k (ownerThread s) (runningThread s)).

#[export] Instance PollState_heap {P K} : ChannelHeap (PollState P K) := {|
  statics := sts;
  channels := chans_lens;
|}.

#[export] Instance PollState_thread {P K} : InThread (PollState P K) := {|
  threadId_ := ownerThread;
  this_thread := runningThread;
|}.

#[export] Instance chans_lens_laws {P K} : LensLaws (@chans_lens P K).
Proof. split; by intros; repeat match goal with s : PollState _ _ |- _ => destruct s end. Qed.

(** ** What the loop calls *)
Class PollerOps (P K : Type) : Type := {
  (** [channels_] of the base class *)
  table : P -> gmap Z chan;
  Poller_updateChannel : chan -> M (PollState P K) unit;
  Poller_removeChannel : chan -> M (PollState P K) unit;
  (** the time of return, and [*activeChannels] on exit *)
  Poller_poll : forall (timeoutMs : Z) (activeChannels : list chan),
      M (PollState P K) (Z * list chan);
}.

Section hasChannel.
Context {B : Build} {P K : Type} `{PollerOps P K}.

Definition hasChannel (c : chan) : M (PollState P K) bool :=
  assertInLoopThread ;;
  let! ch := ch_get c in
  let! s := get in
  ret (match table (self s) !! fd_ ch with
       | Some c' => bool_decide (c' = c)
       | None => false
       end).
End hasChannel.

(** ** The contract *)

(** Two heaps whose channels differ at most in [index_]. *)
Definition same_but_index (h h' : gmap chan Channel) : Prop :=
  forall c, (set_index 0 <$> h' !! c) = (set_index 0 <$> h !! c).

(** The watched set after [updateChannel] of a channel with descriptor [fd];
    [enc] is how the poller stores the mask. *)
Definition spec_update (enc : Z -> Z) (none : bool) (fd : Z) (c : chan) (ev : Z)
    (w : gmap Z (chan * Z)) : gmap Z (chan * Z) :=
  if none then delete fd w else <[fd := (c, enc ev)]> w.

Section contract.
Context {P K : Type} `{PollerOps P K}.
Implicit Types s : PollState P K.

(** When the loop may call [updateChannel(c)]: the channel is alive and has a
    descriptor, there are fewer than 2^31 of them, it is either registered or new with a descriptor not in the table, and only a watched
    channel loses its last event. *)
Definition may_update (watched : gmap Z (chan * Z)) (c : chan) (ch : Channel) s : Prop :=
  isInLoopThread s = true /\ chans s !! c = Some ch /\
  0 <= fd_ ch /\ Z.of_nat (size (table (self s))) < 2 ^ 31 - 1 /\
  ((index_ ch = -1 /\ table (self s) !! fd_ ch = None) \/ table (self s) !! fd_ ch = Some c) /\
  (isNoneEvent (sts s) ch = true -> is_Some (watched !! fd_ ch)).

(** When it may call [removeChannel(c)]. *)
Definition may_remove (watched : gmap Z (chan * Z)) (c : chan) (ch : Channel) s : Prop :=
  isInLoopThread s = true /\ chans s !! c = Some ch /\
  table (self s) !! fd_ ch = Some c /\ isNoneEvent (sts s) ch = true /\
  watched !! fd_ ch = None.

Definition with_threads (owner running : Z) s : PollState P K :=
  mkPollState (self s) (chans s) (sts s) (kern s) owner running.

(** What [poll] leaves alone. *)
Definition untouched s s' : Prop :=
  table (self s') = table (self s) /\ sts s' = sts s /\
  ownerThread s' = ownerThread s /\ runningThread s' = runningThread s.

(** The fields no poller call changes. *)
Definition frame s s' : Prop :=
  same_but_index (chans s) (chans s') /\ sts s' = sts s /\
  ownerThread s' = ownerThread s /\ runningThread s' = runningThread s.
End contract.

Class PollerContract (P K : Type) `{PollerOps P K} : Type := {
  poller_inv : PollState P K -> Prop;
  watched : PollState P K -> gmap Z (chan * Z);
  encode : Z -> Z;
  encode_small ev : 0 <= ev < 2 ^ 15 -> encode ev = ev;
  (** changes of a channel other than to its descriptor and index *)
  memory_law c ch ch' s :
    poller_inv s -> chans s !! c = Some ch -> fd_ ch' = fd_ ch -> index_ ch' = index_ ch ->
    poller_inv (lset chans_lens (<[c := ch']> (chans s)) s) /\
    watched (lset chans_lens (<[c := ch']> (chans s)) s) = watched s;
  (** a new channel in memory *)
  new_law c ch s :
    poller_inv s -> chans s !! c = None ->
    poller_inv (lset chans_lens (<[c := ch]> (chans s)) s) /\
    watched (lset chans_lens (<[c := ch]> (chans s)) s) = watched s;
  (** a channel the poller does not know is destroyed *)
  forget_law c s :
    poller_inv s -> (forall fd, table (self s) !! fd <> Some c) ->
    poller_inv (lset chans_lens (delete c (chans s)) s) /\
    watched (lset chans_lens (delete c (chans s)) s) = watched s;
  (** which thread runs *)
  thread_law owner running s :
    poller_inv s ->
    poller_inv (with_threads owner running s) /\ watched (with_threads owner running s) = watched s;
  update_law c ch s :
    poller_inv s -> may_update (watched s) c ch s ->
    wp (Poller_updateChannel c)
       (fun _ s' => poller_inv s' /\ frame s s' /\
          table (self s') = <[fd_ ch := c]> (table (self s)) /\
          watched s' = spec_update encode (isNoneEvent (sts s) ch) (fd_ ch) c (events_ ch) (watched s)) s;
  remove_law c ch s :
    poller_inv s -> may_remove (watched s) c ch s ->
    wp (Poller_removeChannel c)
       (fun _ s' => poller_inv s' /\ frame s s' /\
          table (self s') = delete (fd_ ch) (table (self s)) /\ watched s' = watched s) s;
}.

(** Channels with the events a poll reported for them. *)
Definition marked (hits : list (chan * Z)) (h : gmap chan Channel) : gmap chan Channel :=
  foldl (fun h hit => alter (set_revents hit.2) hit.1 h) h hits.

(** A poll reports watched channels only, marks each with its events and changes
    no registration. *)
Class PollReports (P K : Type) `{PollerContract P K} : Type := {
  ready_to_poll : PollState P K -> Prop;
  reports_law timeoutMs active s :
    poller_inv s -> isInLoopThread s = true -> ready_to_poll s ->
    wp (Poller_poll timeoutMs active)
       (fun r s' => exists hits, r.2 = active ++ map fst hits /\ chans s' = marked hits (chans s) /\
          poller_inv s' /\ watched s' = watched s /\ untouched s s' /\
          Forall (fun hit => exists fd m, watched s !! fd = Some (hit.1, m)) hits) s;
}.

(** ** The poller and the calls that do not concern it *)
Class QuietPoller (P K : Type) `{PollerContract P K} `{SysCalls K, !Quiet K} : Prop := {
  quiet_law k' s :
    quiet (kern s) k' -> poller_inv s ->
    poller_inv (lset kern_lens k' s) /\ watched (lset kern_lens k' s) = watched s;
}.

(** Closing a descriptor the poller does not know. *)
Class QuietClose (P K : Type) `{PollerContract P K} `{!SockSys K} : Prop := {
  close_law fd s :
    poller_inv s -> table (self s) !! fd = None ->
    let k' := (sys_close fd (kern s)).2 in
    poller_inv (lset kern_lens k' s) /\ watched (lset kern_lens k' s) = watched s;
}.

(** ** Lemmas *)

Lemma set_index_set_index i j ch : set_index i (set_index j ch) = set_index i ch.
Proof. by destruct ch. Qed.

Lemma same_but_index_refl h : same_but_index h h.
Proof. by intros c. Qed.

Lemma same_but_index_trans h1 h2 h3 :
  same_but_index h1 h2 -> same_but_index h2 h3 -> same_but_index h1 h3.
Proof. intros H12 H23 c. by rewrite H23, H12. Qed.

Lemma same_but_index_insert h c ch i :
  h !! c = Some ch -> same_but_index h (<[c := set_index i ch]> h).
Proof.
  intros Hc c'. destruct (decide (c = c')) as [<-|Hne].
  - by rewrite lookup_insert_eq, Hc; cbn; rewrite set_index_set_index.
  - by rewrite lookup_insert_ne by done.
Qed.

#[export] Hint Resolve same_but_index_refl same_but_index_insert : twnl.

(** ** Sequences of calls *)
Section calls.
Context {P K : Type} `{PollerContract P K}.

(** [Channel::enableReading] and its relatives store a mask, then call
    [updateChannel]; [Channel::remove] calls [removeChannel]. *)
Inductive call : Type :=
| CUpdate (c : chan) (ev : Z)
| CRemove (c : chan).

Definition run_call (cl : call) : M (PollState P K) unit :=
  match cl with
  | CUpdate c ev => ch_modify c (set_events ev) ;; Poller_updateChannel c
  | CRemove c => Poller_removeChannel c
  end.

Fixpoint run_calls (cls : list call) : M (PollState P K) unit :=
  match cls with
  | [] => ret tt
  | cl :: cls' => run_call cl ;; run_calls cls'
  end.

(** The registrations a sequence of calls leaves, table and watched set; [none] is
    [kNoneEvent]. *)
Definition spec_call (none : Z) (fd_of : chan -> Z) (a : gmap Z chan * gmap Z (chan * Z))
    (cl : call) : gmap Z chan * gmap Z (chan * Z) :=
  match cl with
  | CUpdate c ev => (<[fd_of c := c]> a.1, spec_update id (ev =? none) (fd_of c) c ev a.2)
  | CRemove c => (delete (fd_of c) a.1, a.2)
  end.

Definition fd_in (h : gmap chan Channel) (c : chan) : Z :=
  match h !! c with Some ch => fd_ ch | None => -1 end.

Definition with_events (c : chan) (ev : Z) (ch : Channel) (s : PollState P K) : PollState P K :=
  lset chans_lens (<[c := set_events ev ch]> (chans s)) s.

Definition legal_call (cl : call) (s : PollState P K) : Prop :=
  match cl with
  | CUpdate c ev => exists ch, chans s !! c = Some ch /\ 0 <= ev < 2 ^ 15 /\
      may_update (watched s) c (set_events ev ch) (with_events c ev ch s)
  | CRemove c => exists ch, may_remove (watched s) c ch s
  end.

(** Legal from the first call to the last, as long as the calls return. *)
Fixpoint legal_calls (cls : list call) (s : PollState P K) : Prop :=
  match cls with
  | [] => True
  | cl :: cls' => legal_call cl s /\
      match run_call cl s with Ok (_, s') => legal_calls cls' s' | Err _ => True end
  end.

Lemma fd_in_frame (s s' : PollState P K) c : frame s s' -> fd_in (chans s') c = fd_in (chans s) c.
Proof.
  intros (Hf & _). specialize (Hf c). apply (f_equal (fmap fd_)) in Hf.
  rewrite <- !option_fmap_compose in Hf. unfold fd_in.
  by destruct (chans s !! c) as [[]|], (chans s' !! c) as [[]|]; cbn in Hf; simplify_eq.
Qed.

Lemma run_call_spec cl (s : PollState P K) :
  poller_inv s -> legal_call cl s ->
  wp (run_call cl)
     (fun _ s' => poller_inv s' /\ (forall c, fd_in (chans s') c = fd_in (chans s) c) /\
        sts s' = sts s /\
        (table (self s'), watched s') =
          spec_call (kNoneEvent (sts s)) (fd_in (chans s)) (table (self s), watched s) cl) s.
Proof.
  intros HI HL. destruct cl as [c ev|c]; cbn in HL |- *.
  - destruct HL as (ch & Hc & Hev & HL). wp_simp. apply wp_ch_modify. exists ch.
    split; [done|]. destruct (memory_law c ch (set_events ev ch) s HI Hc eq_refl eq_refl) as [HI' Hw'].
    change (lset channels _ s) with (with_events c ev ch s) in *.
    fold (with_events c ev ch s) in HI', Hw'.
    eapply wp_mono; [apply update_law; [done|by rewrite Hw']|].
    intros [] s' (HIs' & Hf & Ht & Hw).
    assert (Hfd : forall c', fd_in (chans (with_events c ev ch s)) c' = fd_in (chans s) c').
    { intros c'. unfold fd_in. cbn. rewrite lookup_insert. case_decide; [|done].
      subst. by rewrite Hc. }
    split; [done|]. split; [intros c'; by rewrite (fd_in_frame _ _ _ Hf), Hfd|].
    split; [apply Hf|]. rewrite Ht, Hw, Hw'. unfold spec_call, spec_update. cbn.
    unfold isNoneEvent; cbn. unfold fd_in. rewrite Hc.
    destruct (ev =? kNoneEvent (sts s)); [done|]. by rewrite encode_small.
  - destruct HL as (ch & HL). eapply wp_mono; [by apply remove_law|].
    intros [] s' (HIs' & Hf & Ht & Hw). destruct HL as (_ & Hc & _).
    split; [done|]. split; [intros c'; by apply fd_in_frame|]. split; [apply Hf|].
    cbn. unfold fd_in. by rewrite Ht, Hw, Hc.
Qed.

Lemma spec_call_ext none f g a cl :
  (forall c, f c = g c) -> spec_call none f a cl = spec_call none g a cl.
Proof. intros Hfg. destruct cl; cbn; by rewrite Hfg. Qed.

Lemma run_calls_spec cls : forall (s : PollState P K) f,
  poller_inv s -> legal_calls cls s -> (forall c, fd_in (chans s) c = f c) ->
  wp (run_calls cls)
     (fun _ s' => poller_inv s' /\
        (table (self s'), watched s') =
          foldl (spec_call (kNoneEvent (sts s)) f) (table (self s), watched s) cls) s.
Proof.
  induction cls as [|cl cls IH]; intros s f HI HL Hf; cbn [run_calls foldl]; [by apply wp_ret|].
  destruct HL as [HL Hrest]. wp_simp.
  destruct (wp_inv _ _ _ (run_call_spec cl s HI HL)) as ([] & s1 & Hrun & HI1 & Hfd & Hst & Hspec).
  rewrite Hrun in Hrest. eapply wp_ok; [exact Hrun|].
  rewrite <- (spec_call_ext _ _ _ _ _ Hf), <- Hspec, <- Hst.
  apply IH; [done..|]. intros c. by rewrite Hfd.
Qed.
End calls.
