(* ===== verification/EpollPoller.v ===== *)
(** * Poller/EpollPoller.h, Poller/EpollPoller.cc: the epoll implementation

    The table of the base class, the descriptor of the epoll instance and the
    array of returned events, which doubles when it is full.  The interest list is
    the kernel's, one for each epoll instance. *)

From S2P Require Import Prelude Posix Process Callbacks Channel LoopThread Poller.

Definition kNew : Z := -1.
Definition kAdded : Z := 1.
Definition kDeleted : Z := 2.

Definition kInitEventListSize : Z := 16.

(** [events_] is the array [epoll_wait] fills; [ep_channels] is [channels_] of
    the base class. *)
Record EpollPoller : Type := mkEpollPoller {
  epollfd_ : Z;
  ep_events : list epoll_event;
  ep_channels : gmap Z chan;
}.

(** A value-initialised [struct epoll_event]. *)
Definition zero_event : epoll_event := mkEpollEvent 0 None.

Definition set_ep_events (evs : list epoll_event) (p : EpollPoller) : EpollPoller :=
  mkEpollPoller (epollfd_ p) evs (ep_channels p).
Definition set_ep_channels (m : gmap Z chan) (p : EpollPoller) : EpollPoller :=
  mkEpollPoller (epollfd_ p) (ep_events p) m.

Section EpollPoller_ops.
Context {B : Build} {K : Type} `{EpollSys K} `{ClockSys K}.

(** [epollfd] is the result of [epoll_create1]. *)
Definition EpollPoller_ctor {S} (epollfd : Z) : M S EpollPoller :=
  let p := mkEpollPoller epollfd (replicate (Z.to_nat kInitEventListSize) zero_event) ∅ in
  whenb (epollfd_ p <? 0) LOG_FATAL ;;
  ret p.

Definition EpollPoller_dtor {P} `{SockSys K} (p : EpollPoller) : M (PollState P K) unit :=
  let! r := zoom kern_lens (total (sys_close (epollfd_ p))) in ret tt.

(** The type [epoll_op] has no other value. *)
Definition operationToString (op : epoll_op) : string :=
  match op with
  | EPOLL_CTL_ADD => "ADD"
  | EPOLL_CTL_DEL => "DEL"
  | EPOLL_CTL_MOD => "MOD"
  end.

Definition update (operation : epoll_op) (c : chan) : M (PollState EpollPoller K) unit :=
  let! ch := ch_get c in
  let event := mkEpollEvent (u32 (events_ ch)) (Some c) in
  let fd := fd_ ch in
  let! p := gets self in
  let! r := zoom kern_lens (total (sys_epoll_ctl (epollfd_ p) operation fd event)) in
  match r with
  | inl _ => ret tt
  | inr _ => if decide (operation = EPOLL_CTL_DEL) then ret tt else LOG_FATAL
  end.

Definition updateChannel (c : chan) : M (PollState EpollPoller K) unit :=
  assertInLoopThread ;;
  let! ch := ch_get c in
  let index := index_ ch in
  let fd := fd_ ch in
  if (index =? kNew) || (index =? kDeleted) then
    let! p := gets self in
    (if index =? kNew then
       assert_ (bool_decide (ep_channels p !! fd = None)) ;;
       zoom self_lens (modify (set_ep_channels (<[fd := c]> (ep_channels p))))
     else
       assert_ (bool_decide (ep_channels p !! fd <> None)) ;;
       assert_ (bool_decide (ep_channels p !! fd = Some c))) ;;
    ch_modify c (set_index kAdded) ;;
    update EPOLL_CTL_ADD c
  else
    let! st := gets sts in
    if isNoneEvent st ch then
      update EPOLL_CTL_DEL c ;;
      ch_modify c (set_index kDeleted)
    else
      update EPOLL_CTL_MOD c.

Definition removeChannel (c : chan) : M (PollState EpollPoller K) unit :=
  assertInLoopThread ;;
  let! ch := ch_get c in
  let fd := fd_ ch in
  let index := index_ ch in
  zoom self_lens (modify (fun p => set_ep_channels (delete fd (ep_channels p)) p)) ;;
  whenb (index =? kAdded) (update EPOLL_CTL_DEL c) ;;
  ch_modify c (set_index kDeleted).

(** The [for] loop: [left] events still to do, the next one at [i]. *)
Fixpoint fill_loop (left i : nat) (activeChannels : list chan) :
    M (PollState EpollPoller K) (list chan) :=
  match left with
  | O => ret activeChannels
  | S left' =>
      let! p := gets self in
      let! ev := of_option OutOfBounds (ep_events p !! i) in
      let! c := of_option NullDeref (ev_ptr ev) in
      ch_modify c (set_revents (i32 (ev_events ev))) ;;
      fill_loop left' (S i) (activeChannels ++ [c])
  end.

Definition fillActiveChannels (numEvents : Z) (activeChannels : list chan) :
    M (PollState EpollPoller K) (list chan) :=
  let! p := gets self in
  assert_ (numEvents <=? zlen (ep_events p)) ;;
  fill_loop (Z.to_nat numEvents) 0 activeChannels.

Definition poll (timeoutMs : Z) (activeChannels : list chan) :
    M (PollState EpollPoller K) (Z * list chan) :=
  assertInLoopThread ;;
  let! p := gets self in
  let size := zlen (ep_events p) in
  let! r := zoom kern_lens (total (sys_epoll_wait (epollfd_ p) (i32 size) timeoutMs)) in
  let! now := zoom kern_lens (total sys_now) in
  match r with
  | inl evs =>
      let numEvents := zlen evs in
      (* the kernel has filled the front of events_ *)
      let! v := lift (vec_write (ep_events p) 0 evs) in
      zoom self_lens (modify (set_ep_events v)) ;;
      if 0 <? numEvents then
        let! activeChannels := fillActiveChannels numEvents activeChannels in
        whenb (numEvents =? size)
          (let! w := lift (vec_resize zero_event v (size * 2)) in
           zoom self_lens (modify (set_ep_events w))) ;;
        ret (now, activeChannels)
      else ret (now, activeChannels)
  | inr savedErrno => ret (now, activeChannels)
  end.

#[export] Instance EpollPoller_ops : PollerOps EpollPoller K := {|
  table := ep_channels;
  Poller_updateChannel := updateChannel;
  Poller_removeChannel := removeChannel;
  Poller_poll := poll;
|}.
End EpollPoller_ops.

(** ** The contract *)

(** The interest list of this poller. *)
Local Abbreviation asked s k := (interest k (epollfd_ (self s))) (only parsing).

Section EpollPoller_spec.
Context {B : Build} {K : Type} `{EpollSys K, !EpollLaws K, !ClockSys K, !ClockLaws K}.
Implicit Types s : PollState EpollPoller K.

(** Every registered channel is alive and its index says whether its descriptor
    is in the kernel's interest list; nothing else is in that list. *)
Definition epoll_inv (s : PollState EpollPoller K) : Prop :=
  (forall fd c, ep_channels (self s) !! fd = Some c ->
     exists ch, chans s !! c = Some ch /\ fd_ ch = fd /\
       ((index_ ch = kAdded /\
         exists ev, asked s (kern s) !! fd = Some (mkEpollEvent ev (Some c))) \/
        (index_ ch = kDeleted /\ asked s (kern s) !! fd = None))) /\
  (forall fd, is_Some (asked s (kern s) !! fd) -> is_Some (ep_channels (self s) !! fd)) /\
  0 < zlen (ep_events (self s)).

(** The channel and the mask of an entry of the interest list. *)
Definition entry (e : epoll_event) : option (chan * Z) :=
  (fun c => (c, ev_events e)) <$> ev_ptr e.

Definition epoll_watched (s : PollState EpollPoller K) : gmap Z (chan * Z) :=
  omap entry (asked s (kern s)).

(** ** Lemmas *)

Lemma epoll_watched_lookup s fd :
  epoll_watched s !! fd = asked s (kern s) !! fd ≫= entry.
Proof. apply lookup_omap. Qed.

Lemma wp_update op c s ch Q :
  chans s !! c = Some ch -> ctl_legal op (fd_ ch) (asked s (kern s)) = true ->
  (forall k', asked s k' = ctl_effect op (fd_ ch)
                (mkEpollEvent (u32 (events_ ch)) (Some c)) (asked s (kern s)) ->
              Q tt (lset kern_lens k' s)) ->
  wp (update op c) Q s.
Proof.
  intros Hc Hl HQ. unfold update. wp_simp. apply wp_ch_get. exists ch. split; [done|].
  wp_simp. cbn [lget kern_lens].
  destruct (ctl_law (epollfd_ (self s)) op (fd_ ch) (mkEpollEvent (u32 (events_ ch)) (Some c)) (kern s) Hl)
    as (k' & Hk & Hi). rewrite Hk. cbn [fst snd]. by apply wp_ret, HQ.
Qed.

(** The one registration that changes: channel [c] on its own descriptor. *)
Lemma epoll_inv_entry s c ch i k' :
  epoll_inv s -> chans s !! c = Some ch ->
  (ep_channels (self s) !! fd_ ch = None \/ ep_channels (self s) !! fd_ ch = Some c) ->
  (forall fd, fd <> fd_ ch -> asked s k' !! fd = asked s (kern s) !! fd) ->
  ((i = kAdded /\ exists ev, asked s k' !! fd_ ch = Some (mkEpollEvent ev (Some c))) \/
   (i = kDeleted /\ asked s k' !! fd_ ch = None)) ->
  epoll_inv (mkPollState
    (set_ep_channels (<[fd_ ch := c]> (ep_channels (self s))) (self s))
    (<[c := set_index i ch]> (chans s)) (sts s) k' (ownerThread s) (runningThread s)).
Proof.
  intros (HI1 & HI2 & HI3) Hc Hreg Hother Hi. split_and!; cbn; [|intros fd Hfd|lia].
  - intros fd c'. rewrite lookup_insert. case_decide as Hfd.
    { subst fd. intros [= <-]. exists (set_index i ch).
      by rewrite lookup_insert_eq. }
    intros Hc'. destruct (HI1 _ _ Hc') as (ch' & Hch' & <- & Hst).
    exists ch'. rewrite lookup_insert_ne, Hother by congruence. done.
  - rewrite lookup_insert. case_decide; [done|]. apply HI2. by rewrite <- Hother.
Qed.

(** What the invariant says of a registered channel. *)
Lemma epoll_inv_index s c ch :
  epoll_inv s -> chans s !! c = Some ch -> ep_channels (self s) !! fd_ ch = Some c ->
  (index_ ch = kAdded /\
     exists ev, asked s (kern s) !! fd_ ch = Some (mkEpollEvent ev (Some c))) \/
  (index_ ch = kDeleted /\ asked s (kern s) !! fd_ ch = None).
Proof.
  intros (HI1 & _ & _) Hc Hreg. destruct (HI1 _ _ Hreg) as (ch' & Hch' & _ & Hst).
  congruence.
Qed.

Lemma epoll_inv_unregistered s fd :
  epoll_inv s -> ep_channels (self s) !! fd = None -> asked s (kern s) !! fd = None.
Proof.
  intros (_ & HI2 & _) Hfd. destruct (asked s (kern s) !! fd) eqn:E; [|done].
  destruct (HI2 fd) as [? ?]; [eauto | congruence].
Qed.

(** The table is unchanged when the channel is already in it. *)
Lemma set_ep_channels_id (p : EpollPoller) fd c :
  ep_channels p !! fd = Some c -> set_ep_channels (<[fd := c]> (ep_channels p)) p = p.
Proof. intros Hc. rewrite insert_id by done. by destruct p. Qed.

(** The state after an update, whichever calls led to it. *)
Definition updated (s : PollState EpollPoller K) (c : chan) (ch : Channel) (i : Z) (k' : K) :
    PollState EpollPoller K :=
  mkPollState (set_ep_channels (<[fd_ ch := c]> (ep_channels (self s))) (self s))
    (<[c := set_index i ch]> (chans s)) (sts s) k' (ownerThread s) (runningThread s).

Lemma updated_post s c ch (none : bool) k' :
  epoll_inv s -> chans s !! c = Some ch ->
  (ep_channels (self s) !! fd_ ch = None \/ ep_channels (self s) !! fd_ ch = Some c) ->
  asked s k' = ctl_effect (if none then EPOLL_CTL_DEL else EPOLL_CTL_ADD) (fd_ ch)
                  (mkEpollEvent (u32 (events_ ch)) (Some c)) (asked s (kern s)) ->
  let s' := updated s c ch (if none then kDeleted else kAdded) k' in
  epoll_inv s' /\ frame s s' /\ table (self s') = <[fd_ ch := c]> (table (self s)) /\
  epoll_watched s' = spec_update u32 none (fd_ ch) c (events_ ch) (epoll_watched s).
Proof.
  intros HI Hc Hreg Hk'. cbn zeta. split_and!.
  - apply epoll_inv_entry; auto; rewrite Hk'; destruct none; cbn.
    + intros. by rewrite lookup_delete_ne.
    + intros. by rewrite lookup_insert_ne.
    + right. by rewrite lookup_delete_eq.
    + left. rewrite lookup_insert_eq. eauto.
  - split_and!; cbn; auto with twnl.
  - done.
  - unfold epoll_watched, spec_update. cbn [kern updated self set_ep_channels epollfd_]. rewrite Hk'. destruct none; cbn.
    + apply omap_delete.
    + by rewrite (omap_insert_Some _ _ _ _ (c, u32 (events_ ch))).
Qed.

(** The registered channel keeps its place in the table. *)
Lemma updated_registered s c ch i k' :
  ep_channels (self s) !! fd_ ch = Some c ->
  updated s c ch i k' = mkPollState (self s) (<[c := set_index i ch]> (chans s)) (sts s) k'
                          (ownerThread s) (runningThread s).
Proof. intros Hreg. unfold updated. by rewrite set_ep_channels_id. Qed.

(** A new channel is added whatever its mask, the empty one included. *)
Lemma ep_add_new s c ch Q :
  isInLoopThread s = true -> chans s !! c = Some ch -> index_ ch = kNew ->
  ep_channels (self s) !! fd_ ch = None -> asked s (kern s) !! fd_ ch = None ->
  (forall k', asked s k' = <[fd_ ch := mkEpollEvent (u32 (events_ ch)) (Some c)]> (asked s (kern s)) ->
     Q tt (updated s c ch kAdded k')) ->
  wp (updateChannel c) Q s.
Proof.
  intros Hin Hc Hidx Hreg Hi HQ. unfold updateChannel. wp_simp.
  apply wp_assertInLoopThread; [done|]. wp_simp. apply wp_ch_get. exists ch. split; [done|].
  rewrite Hidx. cbn. wp_simp. apply wp_assert; [by apply bool_decide_eq_true|]. wp_simp.
  apply wp_ch_modify. exists ch. split; [done|]. cbn.
  eapply wp_update; [apply lookup_insert_eq | cbn; by rewrite Hi | cbn].
  intros k' Hk'. by apply HQ.
Qed.

Lemma ep_updateChannel_spec s c ch :
  epoll_inv s -> may_update (epoll_watched s) c ch s ->
  wp (updateChannel c)
     (fun _ s' => epoll_inv s' /\ frame s s' /\
        table (self s') = <[fd_ ch := c]> (table (self s)) /\
        epoll_watched s' = spec_update u32 (isNoneEvent (sts s) ch) (fd_ ch) c (events_ ch)
                             (epoll_watched s)) s.
Proof.
  intros HI (Hin & Hc & _ & _ & Hreg & Hnone). unfold updateChannel. wp_simp.
  apply wp_assertInLoopThread; [done|]. wp_simp. apply wp_ch_get. exists ch. split; [done|].
  assert (Hn : asked s (kern s) !! fd_ ch = None -> isNoneEvent (sts s) ch = false).
  { intros Hi. destruct (isNoneEvent (sts s) ch); [|done].
    destruct (Hnone eq_refl) as [x Hx]. rewrite epoll_watched_lookup, Hi in Hx. done. }
  destruct Hreg as [[Hidx Hreg]|Hreg]; cbn in Hreg.
  - (* a new channel *)
    pose proof (epoll_inv_unregistered _ _ HI Hreg) as Hi. rewrite (Hn Hi), Hidx. cbn.
    wp_simp. apply wp_assert; [by apply bool_decide_eq_true|]. wp_simp.
    apply wp_ch_modify. exists ch. split; [done|]. cbn.
    eapply wp_update; [apply lookup_insert_eq | cbn; by rewrite Hi | cbn].
    intros k' Hk'. apply (updated_post s c ch false k'); auto.
  - destruct (epoll_inv_index _ _ _ HI Hc Hreg) as [[Hidx [ev Hi]]|[Hidx Hi]];
      rewrite Hidx; cbn; wp_simp.
    + (* in the interest list: delete or modify *)
      destruct (isNoneEvent (sts s) ch) eqn:En; wp_simp.
      * eapply wp_update; [done | cbn; by rewrite Hi | cbn]. intros k' Hk'.
        apply wp_ch_modify. exists ch. split; [done|].
        destruct (updated_post s c ch true k') as (?&?&?&?); auto.
        rewrite (updated_registered s c ch) in * by done. done.
      * eapply wp_update; [done | cbn; by rewrite Hi | cbn]. intros k' Hk'.
        destruct (updated_post s c ch false k') as (?&?&?&?); auto.
        rewrite (updated_registered s c ch) in * by done.
        assert (Hch : set_index kAdded ch = ch) by (destruct ch; cbn in *; by subst).
        rewrite Hch, (insert_id (chans s)) in * by done. done.
    + (* registered, not in the list: add it again *)
      rewrite (Hn Hi).
      apply wp_assert; [apply bool_decide_eq_true_2; congruence|]. wp_simp.
      apply wp_assert; [by apply bool_decide_eq_true_2|]. wp_simp.
      apply wp_ch_modify. exists ch. split; [done|]. cbn.
      eapply wp_update; [apply lookup_insert_eq | cbn; by rewrite Hi | cbn].
      intros k' Hk'. destruct (updated_post s c ch false k') as (?&?&?&?); auto.
      rewrite (updated_registered s c ch) in * by done. done.
Qed.

Lemma ep_removeChannel_spec s c ch :
  epoll_inv s -> may_remove (epoll_watched s) c ch s ->
  wp (removeChannel c)
     (fun _ s' => epoll_inv s' /\ frame s s' /\
        table (self s') = delete (fd_ ch) (table (self s)) /\
        epoll_watched s' = epoll_watched s) s.
Proof.
  intros HI (Hin & Hc & Hreg & Hnone & Hw). unfold removeChannel. wp_simp.
  apply wp_assertInLoopThread; [done|]. wp_simp. apply wp_ch_get. exists ch. split; [done|].
  wp_simp. cbn in Hreg. rewrite epoll_watched_lookup in Hw.
  destruct (epoll_inv_index _ _ _ HI Hc Hreg) as [[Hidx [ev Hi]]|[Hidx Hi]].
  { by rewrite Hi in Hw. }
  rewrite Hidx. cbn. wp_simp. apply wp_ch_modify. exists ch. split; [done|].
  split; [|split; [split_and!; cbn; auto with twnl | done]].
  destruct HI as (HI1 & HI2 & HI3). unfold epoll_inv. split_and!; cbn; try lia.
  - intros fd c'. rewrite lookup_delete. case_decide; [done|]. intros Hc'.
    destruct (HI1 _ _ Hc') as (ch' & Hch' & <- & Hst). exists ch'.
    by rewrite lookup_insert_ne by congruence.
  - intros fd Hfd. rewrite lookup_delete. case_decide; [|by apply HI2].
    subst. rewrite Hi in Hfd. by destruct Hfd.
Qed.
End EpollPoller_spec.

Section EpollPoller_poll.
Context {B : Build} {K : Type} `{EpollSys K, !EpollLaws K, !ClockSys K, !ClockLaws K}.
Implicit Types s : PollState EpollPoller K.

(** The channels after the events [evs] have been stored in [revents_]. *)
Definition report (evs : list epoll_event) (h : gmap chan Channel) : gmap chan Channel :=
  foldl (fun h e => match ev_ptr e with
                    | Some c => alter (set_revents (i32 (ev_events e))) c h
                    | None => h
                    end) h evs.

Definition with_chans (h : gmap chan Channel) (s : PollState EpollPoller K) :
    PollState EpollPoller K := lset chans_lens h s.

(** An event the kernel may report in state [s]. *)
Definition deliverable (s : PollState EpollPoller K) (e : epoll_event) : Prop :=
  exists c, ev_ptr e = Some c /\ is_Some (chans s !! c).

Lemma deliverable_alter s c f e :
  deliverable s e -> deliverable (with_chans (alter f c (chans s)) s) e.
Proof.
  intros (c' & He & Hc). exists c'. split; [done|]. cbn. rewrite lookup_alter.
  case_decide; [|done]. destruct Hc as [ch Hch]. subst. rewrite Hch. eauto.
Qed.

Lemma ep_fill_loop_spec evs : forall left i active s,
  left = length evs -> take left (drop i (ep_events (self s))) = evs ->
  Forall (deliverable s) evs ->
  fill_loop left i active s =
    Ok (active ++ omap ev_ptr evs, with_chans (report evs (chans s)) s).
Proof.
  induction evs as [|e evs IH]; intros left i active s -> Hevs Hd; cbn [length fill_loop].
  - cbn. rewrite app_nil_r. by destruct s.
  - apply Forall_cons in Hd as [(c & He & [ch Hc]) Hd].
    destruct (drop i (ep_events (self s))) as [|e' tl] eqn:Hdrop; cbn in Hevs; [done|].
    injection Hevs as -> Hevs.
    assert (Hi : ep_events (self s) !! i = Some e).
    { rewrite <- (Nat.add_0_r i), <- lookup_drop, Hdrop. done. }
    unfold bind, gets, of_option at 1. rewrite Hi. unfold of_option at 1. rewrite He.
    assert (Hm : ch_modify c (set_revents (i32 (ev_events e))) s =
      Ok (tt, with_chans (<[c := set_revents (i32 (ev_events e)) ch]> (chans s)) s))
      by exact (ch_modify_ok (S:=PollState EpollPoller K) c _ s ch Hc).
    rewrite Hm.
    assert (Halter : <[c := set_revents (i32 (ev_events e)) ch]> (chans s) =
                     alter (set_revents (i32 (ev_events e))) c (chans s)).
    { apply map_eq. intros c'. rewrite lookup_insert, lookup_alter.
      case_decide; [by subst; rewrite Hc | done]. }
    rewrite Halter.
    rewrite (IH _ (S i) (active ++ [c]) (with_chans _ s)); [|done|..].
    + cbn [omap list_omap]. rewrite He, <- app_assoc. cbn. by rewrite He.
    + cbn. replace (S i) with (i + 1)%nat by lia. by rewrite <- drop_drop, Hdrop.
    + eapply Forall_impl; [exact Hd|]. intros e'. apply deliverable_alter.
Qed.

Lemma ep_report_cons e evs h :
  report (e :: evs) h =
  report evs (match ev_ptr e with
              | Some c => alter (set_revents (i32 (ev_events e))) c h
              | None => h
              end).
Proof. reflexivity. Qed.

(** Storing [revents_] is invisible to the registrations. *)
Lemma ep_report_lookup evs h c :
  exists f, report evs h !! c = f <$> h !! c /\
    forall ch, fd_ (f ch) = fd_ ch /\ index_ (f ch) = index_ ch.
Proof.
  revert h. induction evs as [|e evs IH]; intros h.
  - exists id. cbn. by destruct (h !! c).
  - rewrite ep_report_cons. destruct (ev_ptr e) as [c'|]; [|apply IH].
    destruct (IH (alter (set_revents (i32 (ev_events e))) c' h)) as (f & -> & Hf).
    destruct (decide (c' = c)) as [->|Hne].
    + exists (f ∘ set_revents (i32 (ev_events e))). rewrite lookup_alter_eq.
      split; [by destruct (h !! c)|]. intros ch. cbn. by destruct (Hf (set_revents (i32 (ev_events e)) ch)) as [-> ->].
    + exists f. by rewrite lookup_alter_ne.
Qed.

Lemma epoll_inv_report s evs p' k' :
  epoll_inv s -> epollfd_ p' = epollfd_ (self s) -> ep_channels p' = ep_channels (self s) ->
  0 < zlen (ep_events p') -> asked s k' = asked s (kern s) ->
  epoll_inv (mkPollState p' (report evs (chans s)) (sts s) k' (ownerThread s) (runningThread s)).
Proof.
  intros (HI1 & HI2 & HI3) He Hp Hlen Hk. unfold epoll_inv; cbn. rewrite He, Hp, Hk.
  split_and!; [|done|done]. intros fd c Hc. destruct (HI1 _ _ Hc) as (ch & Hch & Hfd & Hst).
  destruct (ep_report_lookup evs (chans s) c) as (f & Hf & Hsame).
  exists (f ch). rewrite Hf, Hch. cbn. by destruct (Hsame ch) as [-> ->].
Qed.

(** Every event of the kernel points to a live channel. *)
Lemma wait_deliverable s evs :
  epoll_inv s ->
  Forall (fun e => exists fd e0, asked s (kern s) !! fd = Some e0 /\ ev_ptr e = ev_ptr e0 /\
                     reportable (ev_events e0) (ev_events e)) evs ->
  Forall (fun e => exists c fd m, ev_ptr e = Some c /\ is_Some (chans s !! c) /\
                     epoll_watched s !! fd = Some (c, m) /\ reportable m (ev_events e)) evs.
Proof.
  intros (HI1 & HI2 & _) Hall. eapply Forall_impl; [exact Hall|].
  intros e (fd & e0 & Hfd & He & Hr).
  destruct (HI2 fd) as [c Hc]; [eauto|].
  destruct (HI1 _ _ Hc) as (ch & Hch & _ & [[_ [ev Hev]]|[_ Hn]]); [|congruence].
  rewrite Hfd in Hev. injection Hev as ->. cbn in *.
  exists c, fd, ev. split_and!; [done|eauto| |done].
  by rewrite epoll_watched_lookup, Hfd.
Qed.

(** The size of [events_] after a poll that returned [n] events. *)
Definition next_size (n size : Z) : Z := if (0 <? n) && (n =? size) then size * 2 else size.

Lemma ep_poll_spec s timeoutMs active :
  epoll_inv s -> isInLoopThread s = true -> zlen (ep_events (self s)) < 2 ^ 31 ->
  wp (poll timeoutMs active)
     (fun r s' => exists evs,
        match fst (sys_epoll_wait (epollfd_ (self s)) (zlen (ep_events (self s))) timeoutMs (kern s)) with
        | inl l => evs = l | inr _ => evs = [] end /\
        r.2 = active ++ omap ev_ptr evs /\
        chans s' = report evs (chans s) /\
        zlen (ep_events (self s')) = next_size (zlen evs) (zlen (ep_events (self s))) /\
        epoll_inv s' /\ epoll_watched s' = epoll_watched s /\
        Forall (fun e => exists c fd m, ev_ptr e = Some c /\ is_Some (chans s !! c) /\
                  epoll_watched s !! fd = Some (c, m) /\ reportable m (ev_events e)) evs /\
        untouched s s') s.
Proof.
  intros HI Hin Hsize. pose proof HI as (_ & _ & Hpos). unfold poll. wp_simp.
  apply wp_assertInLoopThread; [done|]. wp_simp. cbn [lget kern_lens].
  rewrite i32_small by lia.
  destruct (sys_epoll_wait (epollfd_ (self s)) (zlen (ep_events (self s))) timeoutMs (kern s)) as [r k'] eqn:Hwait.
  cbn [fst snd lset lget kern_lens kern]. pose proof (now_interest k' (epollfd_ (self s))) as Hnow.
  pose proof (wait_interest (epollfd_ (self s)) (zlen (ep_events (self s))) timeoutMs (kern s)
    (epollfd_ (self s))) as Hk. rewrite Hwait in Hk. cbn [snd] in Hk.
  destruct (sys_now k') as [now k2]. cbn [fst snd] in *.
  destruct r as [evs|e].
  2: { apply wp_ret. exists []. cbn. rewrite app_nil_r. unfold next_size. cbn.
       rewrite Hk in Hnow.
       split_and!; try done; [by apply (epoll_inv_report s [])|].
       unfold epoll_watched; cbn. by rewrite Hnow. }
  destruct (wait_law _ _ _ _ _ _ Hpos Hwait) as (Hle & Hall).
  rewrite Hk in Hnow. pose proof (wait_deliverable s evs HI Hall) as Hdel.
  pose proof (zlen_nonneg evs) as Hn0.
  wp_simp. apply wp_lift. rewrite vec_write_ok by lia.
  eexists; split; [done|]. wp_simp. set (v := splice (ep_events (self s)) 0 evs).
  assert (Hv : zlen v = zlen (ep_events (self s))) by (apply zlen_splice; lia).
  set (s2 := lset self_lens _ _).
  assert (Hfinal : forall w, 0 < zlen w ->
    epoll_inv (mkPollState (set_ep_events w (self s)) (report evs (chans s)) (sts s) k2
      (ownerThread s) (runningThread s)) /\
    epoll_watched (mkPollState (set_ep_events w (self s)) (report evs (chans s)) (sts s) k2
      (ownerThread s) (runningThread s)) = epoll_watched s).
  { intros w Hw. split; [by apply epoll_inv_report|]. unfold epoll_watched; cbn. by rewrite Hnow. }
  destruct (Z.ltb_spec 0 (zlen evs)) as [Hn|Hn].
  - unfold fillActiveChannels. wp_simp. apply wp_assert; [apply Z.leb_le; cbn; lia|].
    eapply wp_ok.
    { apply (ep_fill_loop_spec evs); [unfold zlen; by rewrite Nat2Z.id| |].
      - change (ep_events (self s2)) with v. rewrite drop_0. unfold v, splice.
        change (Z.to_nat 0) with 0%nat. rewrite take_0. cbn [app].
        unfold zlen. rewrite Nat2Z.id. apply take_app_length.
      - eapply Forall_impl; [exact Hdel|]. intros e (c & _ & _ & ? & ? & _). by exists c. }
    wp_simp. destruct (Z.eqb_spec (zlen evs) (zlen (ep_events (self s)))) as [Heq|Hneq].
    + apply wp_bind, wp_lift. rewrite vec_resize_grow by (unfold vector_max; lia).
      eexists; split; [done|]. wp_simp. exists evs.
      destruct (Hfinal (v ++ replicate (Z.to_nat (zlen (ep_events (self s)) * 2 - zlen v)) zero_event))
        as [? ?]; [rewrite zlen_app; pose proof (zlen_nonneg (replicate (Z.to_nat (zlen (ep_events (self s)) * 2 - zlen v)) zero_event)); lia|].
      split_and!; try done. cbn. rewrite zlen_app, Hv. unfold zlen at 2.
      rewrite length_replicate. unfold next_size.
      rewrite (proj2 (Z.ltb_lt _ _)), (proj2 (Z.eqb_eq _ _)) by done. cbn. lia.
    + wp_simp. exists evs. destruct (Hfinal v) as [? ?]; [lia|]. split_and!; try done.
      cbn. rewrite Hv. unfold next_size. rewrite (proj2 (Z.eqb_neq _ _)) by done.
      by rewrite andb_false_r.
  - wp_simp. exists evs. destruct evs as [|e evs]; [|unfold zlen in *; cbn in *; lia].
    destruct (Hfinal v) as [? ?]; [lia|]. cbn. rewrite app_nil_r. by split_and!.
Qed.
End EpollPoller_poll.

#[export] Instance epoll_contract {B : Build} {K : Type} `{EpollSys K, !EpollLaws K, !ClockSys K} :
  PollerContract EpollPoller K.
Proof.
  refine {| poller_inv := epoll_inv; watched := epoll_watched; encode := u32 |}.
  - intros ev Hev. unfold u32. apply Z.mod_small. lia.
  - intros c ch ch2 s (HI1 & HI2 & HI3) Hc Hfd2 Hidx2. split; [|done]. split; [|by split].
    intros fd c' Hc'. destruct (HI1 _ _ Hc') as (ch' & Hch' & Hfd & Hst).
    destruct (decide (c = c')) as [<-|Hne].
    + rewrite Hc in Hch'. injection Hch' as <-. exists ch2.
      cbn. by rewrite lookup_insert_eq, Hfd2, Hidx2.
    + exists ch'. cbn. by rewrite lookup_insert_ne.
  - intros c ch s (HI1 & HI2 & HI3) Hc. split; [|done]. split; [|by split].
    intros fd c' Hc'. destruct (HI1 _ _ Hc') as (ch' & Hch' & Hst). exists ch'. cbn.
    rewrite lookup_insert_ne; [done | by intros ->; congruence].
  - intros c s (HI1 & HI2 & HI3) Hc. split; [|done]. split; [|by split].
    intros fd c' Hc'. destruct (HI1 _ _ Hc') as (ch' & Hch' & Hst). exists ch'. cbn.
    rewrite lookup_delete_ne; [done | by intros ->; apply (Hc fd)].
  - by intros owner running s.
  - intros c ch s. apply ep_updateChannel_spec.
  - intros c ch s. apply ep_removeChannel_spec.
Defined.

(** The channels of a list of events, with what they report. *)
Definition hits_of (evs : list epoll_event) : list (chan * Z) :=
  omap (fun e => (fun c => (c, i32 (ev_events e))) <$> ev_ptr e) evs.

Lemma hits_of_spec evs h :
  map fst (hits_of evs) = omap ev_ptr evs /\ marked (hits_of evs) h = report evs h.
Proof.
  revert h. induction evs as [|e evs IH]; intros h; [done|]. unfold hits_of, report. cbn.
  destruct (ev_ptr e) as [c|]; cbn; [|apply IH].
  destruct (IH (alter (set_revents (i32 (ev_events e))) c h)) as [IH1 IH2]. split; [|exact IH2].
  f_equal. exact IH1.
Qed.

#[export] Instance epoll_reports {B : Build} {K : Type} `{EpollSys K, !EpollLaws K, !ClockSys K, !ClockLaws K} :
  PollReports EpollPoller K.
Proof.
  refine {| ready_to_poll s := zlen (ep_events (self s)) < 2 ^ 31 |}.
  intros timeoutMs active s HI Hin Hsz. eapply wp_mono; [by apply ep_poll_spec|].
  intros r s' (evs & _ & Hr & Hc & _ & HI' & Hw & Hall & Hu). exists (hits_of evs).
  destruct (hits_of_spec evs (chans s)) as [-> ->]. split_and!; try done.
  apply Forall_forall. intros [c rev] Hin'. apply list_elem_of_omap in Hin' as (e & He & Hx).
  destruct (proj1 (Forall_forall _ _) Hall e He) as (c' & fd & m & Hp & _ & Hfd & _).
  rewrite Hp in Hx. injection Hx as <- _. by exists fd, m.
Defined.

#[export] Instance epoll_quiet {B : Build} {K : Type} `{EpollSys K, !EpollLaws K, Ck : !ClockSys K}
    `{!SysCalls K, !Quiet K, !QuietEpoll K} :
  QuietPoller (H := EpollPoller_ops (H0 := Ck)) EpollPoller K.
Proof.
  split. intros k' s Hq (HI1 & HI2 & HI3). pose proof (quiet_interest _ _ (epollfd_ (self s)) Hq) as Hq'.
  unfold poller_inv, watched, epoll_contract, epoll_inv, epoll_watched. cbn. rewrite Hq'. by split_and!.
Qed.

#[export] Instance epoll_close {B : Build} {K : Type} `{EpollSys K, !EpollLaws K, Ck : !ClockSys K}
    `{!SysCalls K, !CloseEpoll K} :
  QuietClose (H := EpollPoller_ops (H0 := Ck)) EpollPoller K.
Proof.
  split. intros fd s HI Hn k'.
  assert (Hk : asked s k' = asked s (kern s)).
  { unfold k'. rewrite close_interest. by apply delete_id, epoll_inv_unregistered. }
  destruct HI as (HI1 & HI2 & HI3).
  unfold poller_inv, watched, epoll_contract, epoll_inv, epoll_watched. cbn. rewrite Hk. by split_and!.
Qed.

(** ** Properties *)
Section EpollPoller_properties.
Context {B : Build} {K : Type} `{EpollSys K, !EpollLaws K, !ClockSys K, !ClockLaws K}.
Implicit Types s : PollState EpollPoller K.

(** C30. [updateChannel] registers the channel and leaves in the kernel's
    interest list exactly the mask of the channel, or no entry when the mask is
    empty; it faults on no legal call and keeps the table and the indices
    consistent with the kernel. *)
Theorem epoll_updateChannel_refines s c ch :
  epoll_inv s -> may_update (epoll_watched s) c ch s ->
  wp (updateChannel c)
     (fun _ s' => epoll_inv s' /\ frame s s' /\
        ep_channels (self s') = <[fd_ ch := c]> (ep_channels (self s)) /\
        epoll_watched s' =
          if isNoneEvent (sts s) ch then delete (fd_ ch) (epoll_watched s)
          else <[fd_ ch := (c, u32 (events_ ch))]> (epoll_watched s)) s.
Proof. apply ep_updateChannel_spec. Qed.

(** [removeChannel] of a disabled channel forgets it and leaves every other
    registration as it was. *)
Lemma epoll_removeChannel_refines s c ch :
  epoll_inv s -> may_remove (epoll_watched s) c ch s ->
  wp (removeChannel c)
     (fun _ s' => epoll_inv s' /\ frame s s' /\
        ep_channels (self s') = delete (fd_ ch) (ep_channels (self s)) /\
        epoll_watched s' = epoll_watched s) s.
Proof. apply ep_removeChannel_spec. Qed.

(** C31. [poll] appends the channels of the events the kernel returned, in
    order, stores the reported bits in their [revents_], reports only watched
    channels with bits that were asked for (or error and hang-up), and doubles
    [events_] when the answer filled it. *)
Theorem epoll_poll_reports s timeoutMs active :
  epoll_inv s -> isInLoopThread s = true -> zlen (ep_events (self s)) < 2 ^ 31 ->
  wp (poll timeoutMs active)
     (fun r s' => exists evs,
        match fst (sys_epoll_wait (epollfd_ (self s)) (zlen (ep_events (self s))) timeoutMs (kern s)) with
        | inl l => evs = l | inr _ => evs = [] end /\
        r.2 = active ++ omap ev_ptr evs /\
        chans s' = report evs (chans s) /\
        zlen (ep_events (self s')) = next_size (zlen evs) (zlen (ep_events (self s))) /\
        epoll_inv s' /\ epoll_watched s' = epoll_watched s /\
        Forall (fun e => exists c fd m, ev_ptr e = Some c /\ is_Some (chans s !! c) /\
                  epoll_watched s !! fd = Some (c, m) /\ reportable m (ev_events e)) evs /\
        untouched s s') s.
Proof. apply ep_poll_spec. Qed.
End EpollPoller_properties.

(** ** Witnesses, in a debug build *)

#[local] Existing Instance debug_build.

(** Channel 1 on descriptor 7 asks for reading; nothing is registered yet. *)
Definition reading_channel : Channel :=
  set_events (Z.lor EPOLLIN EPOLLPRI) (Channel_ctor 1%positive 7).

Definition fresh_state : PollState EpollPoller epoll_script :=
  mkPollState (mkEpollPoller 3 (replicate 2 zero_event) ∅) {[1%positive := reading_channel]}
    (initDefaultEvent LT) (EpollScript ∅ [[(7, EPOLLIN); (8, EPOLLIN)]] 100) 1 1.

Lemma fresh_inv : epoll_inv fresh_state.
Proof.
  split; [|split; [|by vm_compute]]; intros fd.
  - intros c. cbn. by rewrite lookup_empty.
  - by intros [e He].
Qed.

Lemma fresh_may_update :
  may_update (epoll_watched fresh_state) 1%positive reading_channel fresh_state.
Proof.
  split; [done|]. split; [done|]. split; [by vm_compute|]. split; [by vm_compute|].
  split; [left; by split | by vm_compute].
Qed.

Lemma epoll_updateChannel_refines_witness :
  epoll_inv fresh_state /\
  wp (updateChannel (B:=debug_build) 1%positive)
     (fun _ s' => epoll_inv s' /\ frame fresh_state s' /\
        ep_channels (self s') = <[7 := 1%positive]> ∅ /\
        epoll_watched s' = <[7 := (1%positive, 3)]> (epoll_watched fresh_state)) fresh_state.
Proof.
  split; [exact fresh_inv|].
  exact (epoll_updateChannel_refines (B:=debug_build) fresh_state 1%positive reading_channel
           fresh_inv fresh_may_update).
Defined.

(** The same channel registered and watched. *)
Definition watching_state : PollState EpollPoller epoll_script :=
  mkPollState (mkEpollPoller 3 (replicate 2 zero_event) {[7 := 1%positive]})
    {[1%positive := set_index kAdded reading_channel]} (initDefaultEvent LT)
    (EpollScript {[3 := {[7 := mkEpollEvent 3 (Some 1%positive)]}]} [[(7, EPOLLIN); (8, EPOLLIN)]] 100) 1 1.

Lemma watching_inv : epoll_inv watching_state.
Proof.
  split; [|split; [|by vm_compute]]; intros fd.
  - intros c Hc. cbn in Hc. apply lookup_singleton_Some in Hc as [<- <-].
    exists (set_index kAdded reading_channel). split_and!; try done. left. split; [done|].
    by exists 3.
  - cbn. intros [e He]. rewrite es_list_singleton in He.
    apply lookup_singleton_Some in He as [<- _]. by eexists.
Qed.

Lemma epoll_poll_reports_witness :
  epoll_inv watching_state /\
  wp (poll (B:=debug_build) 10000 [])
     (fun r s' => exists evs,
        match fst (sys_epoll_wait 3 2 10000 (kern watching_state)) with
        | inl l => evs = l | inr _ => evs = [] end /\
        r.2 = [] ++ omap ev_ptr evs /\
        chans s' = report evs (chans watching_state) /\
        zlen (ep_events (self s')) = next_size (zlen evs) 2 /\
        epoll_inv s' /\ epoll_watched s' = epoll_watched watching_state /\
        Forall (fun e => exists c fd m, ev_ptr e = Some c /\ is_Some (chans watching_state !! c) /\
                  epoll_watched watching_state !! fd = Some (c, m) /\
                  reportable m (ev_events e)) evs /\
        untouched watching_state s') watching_state.
Proof.
  split; [exact watching_inv|].
  exact (epoll_poll_reports (B:=debug_build) watching_state 10000 [] watching_inv eq_refl
           eq_refl).
Defined.

(** The channel disabled: still registered, no longer watched. *)
Definition disabled_state : PollState EpollPoller epoll_script :=
  mkPollState (mkEpollPoller 3 (replicate 2 zero_event) {[7 := 1%positive]})
    {[1%positive := set_index kDeleted (Channel_ctor 1%positive 7)]} (initDefaultEvent LT)
    (EpollScript ∅ [] 100) 1 1.

Lemma disabled_inv : epoll_inv disabled_state.
Proof.
  split; [|split; [|by vm_compute]]; intros fd.
  - intros c Hc. cbn in Hc. apply lookup_singleton_Some in Hc as [<- <-].
    exists (set_index kDeleted (Channel_ctor 1%positive 7)). split_and!; try done. by right.
  - by intros [e He].
Qed.

Lemma epoll_removeChannel_refines_witness :
  epoll_inv disabled_state /\
  wp (removeChannel (B:=debug_build) 1%positive)
     (fun _ s' => epoll_inv s' /\ frame disabled_state s' /\
        ep_channels (self s') = delete 7 {[7 := 1%positive]} /\
        epoll_watched s' = epoll_watched disabled_state) disabled_state.
Proof.
  split; [exact disabled_inv|].
  apply (epoll_removeChannel_refines (B:=debug_build) disabled_state 1%positive
           (set_index kDeleted (Channel_ctor 1%positive 7)) disabled_inv).
  by split_and!.
Defined.
