(* ===== verification/PollPoller.v ===== *)
(** * Poller/PollPoller.h, Poller/PollPoller.cc: the poll(2) implementation

    The poller keeps an array of [pollfd] and stores in each channel its position
    in the array; a channel without events keeps its entry with the descriptor
    [fd] replaced by [-fd-1], which poll(2) ignores. *)

From S2P Require Import Prelude Posix Callbacks Channel LoopThread Poller.

Record PollPoller : Type := mkPollPoller {
  pollfds_ : list pollfd;
  pp_channels : gmap Z chan;
}.

Definition set_pollfds (l : list pollfd) (p : PollPoller) : PollPoller :=
  mkPollPoller l (pp_channels p).
Definition set_pp_channels (m : gmap Z chan) (p : PollPoller) : PollPoller :=
  mkPollPoller (pollfds_ p) m.

Section PollPoller_ops.
Context {B : Build} {K : Type} `{PollSys K} `{ClockSys K}.

Definition PollPoller_ctor : PollPoller := mkPollPoller [] ∅.

(** [pollfds_[idx]] and its replacement. *)
Definition pfd_get (idx : Z) : M (PollState PollPoller K) pollfd :=
  let! p := gets self in
  of_option OutOfBounds (if 0 <=? idx then pollfds_ p !! Z.to_nat idx else None).

Definition pfd_set (idx : Z) (pfd : pollfd) : M (PollState PollPoller K) unit :=
  zoom self_lens (modify (fun p => set_pollfds (<[Z.to_nat idx := pfd]> (pollfds_ p)) p)).

Definition updateChannel (c : chan) : M (PollState PollPoller K) unit :=
  assertInLoopThread ;;
  let! ch := ch_get c in
  let! p := gets self in
  let fd := fd_ ch in
  if index_ ch <? 0 then
    assert_ (bool_decide (pp_channels p !! fd = None)) ;;
    let pfd := mkPollfd fd (i16 (events_ ch)) 0 in
    zoom self_lens (modify (set_pollfds (pollfds_ p ++ [pfd]))) ;;
    let! p := gets self in
    let idx := i32 (zlen (pollfds_ p) - 1) in
    ch_modify c (set_index idx) ;;
    zoom self_lens (modify (set_pp_channels (<[fd := c]> (pp_channels p))))
  else
    assert_ (bool_decide (pp_channels p !! fd <> None)) ;;
    assert_ (bool_decide (pp_channels p !! fd = Some c)) ;;
    let idx := index_ ch in
    assert_ ((0 <=? idx) && (idx <? zlen (pollfds_ p))) ;;
    let! pfd := pfd_get idx in
    assert_ ((pfd_fd pfd =? fd) || (pfd_fd pfd =? - fd - 1)) ;;
    pfd_set idx (mkPollfd fd (i16 (events_ ch)) 0) ;;
    let! st := gets sts in
    whenb (isNoneEvent st ch) (pfd_set idx (mkPollfd (- fd - 1) (i16 (events_ ch)) 0)).

Definition removeChannel (c : chan) : M (PollState PollPoller K) unit :=
  assertInLoopThread ;;
  let! ch := ch_get c in
  let! p := gets self in
  let! st := gets sts in
  let fd := fd_ ch in
  assert_ (bool_decide (pp_channels p !! fd <> None)) ;;
  assert_ (bool_decide (pp_channels p !! fd = Some c)) ;;
  assert_ (isNoneEvent st ch) ;;
  let idx := index_ ch in
  assert_ ((0 <=? idx) && (idx <? zlen (pollfds_ p))) ;;
  let! pfd := pfd_get idx in
  assert_ ((pfd_fd pfd =? - fd - 1) && (pfd_events pfd =? events_ ch)) ;;
  let n := if bool_decide (is_Some (pp_channels p !! fd)) then 1 else 0 in
  zoom self_lens (modify (set_pp_channels (delete fd (pp_channels p)))) ;;
  assert_ (n =? 1) ;;
  let last := zlen (pollfds_ p) - 1 in
  if u64 idx =? last then
    zoom self_lens (modify (set_pollfds (take (Z.to_nat last) (pollfds_ p))))
  else
    let! back := pfd_get last in
    let channelAtEnd := pfd_fd back in
    pfd_set idx back ;;
    pfd_set last pfd ;;
    let channelAtEnd := if channelAtEnd <? 0 then - channelAtEnd - 1 else channelAtEnd in
    let! p := gets self in
    let! c' := of_option NullDeref (pp_channels p !! channelAtEnd) in
    ch_modify c' (set_index idx) ;;
    zoom self_lens (modify (set_pollfds (take (Z.to_nat last) (pollfds_ p)))).

(** The [for] loop over the rest of [pollfds_]. *)
Fixpoint fill_loop (pfds : list pollfd) (numEvents : Z) (activeChannels : list chan) :
    M (PollState PollPoller K) (list chan) :=
  match pfds with
  | [] => ret activeChannels
  | pfd :: pfds' =>
      if 0 <? numEvents then
        if 0 <? pfd_revents pfd then
          let! p := gets self in
          assert_ (bool_decide (pp_channels p !! pfd_fd pfd <> None)) ;;
          let! c := of_option NullDeref (pp_channels p !! pfd_fd pfd) in
          let! ch := ch_get c in
          assert_ (fd_ ch =? pfd_fd pfd) ;;
          ch_modify c (set_revents (pfd_revents pfd)) ;;
          fill_loop pfds' (numEvents - 1) (activeChannels ++ [c])
        else fill_loop pfds' numEvents activeChannels
      else ret activeChannels
  end.

Definition fillActiveChannels (numEvents : Z) (activeChannels : list chan) :
    M (PollState PollPoller K) (list chan) :=
  let! p := gets self in fill_loop (pollfds_ p) numEvents activeChannels.

Definition poll (timeoutMs : Z) (activeChannels : list chan) :
    M (PollState PollPoller K) (Z * list chan) :=
  let! p := gets self in
  let! (r, fds) := zoom kern_lens (total (sys_poll (pollfds_ p) timeoutMs)) in
  (* poll(2) has written the revents fields of the array *)
  zoom self_lens (modify (set_pollfds fds)) ;;
  let! now := zoom kern_lens (total sys_now) in
  match r with
  | inl numEvents =>
      if 0 <? numEvents then
        let! activeChannels := fillActiveChannels numEvents activeChannels in
        ret (now, activeChannels)
      else ret (now, activeChannels)
  | inr savedErrno => ret (now, activeChannels)
  end.

#[export] Instance PollPoller_ops : PollerOps PollPoller K := {|
  table := pp_channels;
  Poller_updateChannel := updateChannel;
  Poller_removeChannel := removeChannel;
  Poller_poll := poll;
|}.
End PollPoller_ops.

(** ** The contract *)
Section PollPoller_spec.
Context {B : Build} {K : Type} `{PollSys K, !PollLaws K, !ClockSys K}.
Implicit Types s : PollState PollPoller K.

(** The descriptor an entry stands for. *)
Definition owner (p : pollfd) : Z := if pfd_fd p <? 0 then - pfd_fd p - 1 else pfd_fd p.

(** The table and the array are in one-to-one correspondence through [index_],
    and a disabled entry asks for nothing. *)
Definition pp_inv (s : PollState PollPoller K) : Prop :=
  (forall fd c, pp_channels (self s) !! fd = Some c ->
     0 <= fd /\ exists ch i pfd, chans s !! c = Some ch /\ fd_ ch = fd /\
       index_ ch = Z.of_nat i /\ pollfds_ (self s) !! i = Some pfd /\ owner pfd = fd) /\
  (forall i pfd, pollfds_ (self s) !! i = Some pfd ->
     exists c ch, pp_channels (self s) !! owner pfd = Some c /\ chans s !! c = Some ch /\
       index_ ch = Z.of_nat i) /\
  (length (pollfds_ (self s)) = size (pp_channels (self s)) /\
   zlen (pollfds_ (self s)) < 2 ^ 31) /\
  kNoneEvent (sts s) = 0 /\
  Forall (fun p => pfd_fd p < 0 -> pfd_events p = 0) (pollfds_ (self s)).

(** The mask of the entry of channel [c], unless the entry is disabled. *)
Definition pp_slot (s : PollState PollPoller K) (fd : Z) (c : chan) : option (chan * Z) :=
  ch ← chans s !! c;
  pfd ← pollfds_ (self s) !! Z.to_nat (index_ ch);
  if pfd_fd pfd =? fd then Some (c, pfd_events pfd) else None.

Definition pp_watched (s : PollState PollPoller K) : gmap Z (chan * Z) :=
  map_imap (pp_slot s) (pp_channels (self s)).

(** ** Lemmas *)

Lemma pp_watched_lookup s fd :
  pp_watched s !! fd = pp_channels (self s) !! fd ≫= pp_slot s fd.
Proof. apply map_lookup_imap. Qed.

Lemma owner_nonneg p : 0 <= owner p.
Proof. unfold owner. zcase; lia. Qed.

Lemma owner_enabled fd ev r : 0 <= fd -> owner (mkPollfd fd ev r) = fd.
Proof. intros. unfold owner; cbn. zcase; lia. Qed.

Lemma owner_disabled fd ev r : 0 <= fd -> owner (mkPollfd (- fd - 1) ev r) = fd.
Proof. intros. unfold owner; cbn. zcase; lia. Qed.

(** The assertion on [pfd.fd] restates the correspondence. *)
Lemma owner_cases p fd :
  0 <= fd -> owner p = fd -> (pfd_fd p =? fd) || (pfd_fd p =? - fd - 1) = true.
Proof. unfold owner. intros. apply orb_true_iff. rewrite !Z.eqb_eq. zcase; lia. Qed.

Lemma pp_inv_entry s c ch :
  pp_inv s -> chans s !! c = Some ch -> pp_channels (self s) !! fd_ ch = Some c ->
  0 <= fd_ ch /\ exists i pfd, index_ ch = Z.of_nat i /\
    pollfds_ (self s) !! i = Some pfd /\ owner pfd = fd_ ch.
Proof.
  intros (HI1 & _) Hc Hreg. destruct (HI1 _ _ Hreg) as (? & ch' & i & pfd & Hch & ? & ? & ? & ?).
  rewrite Hc in Hch. injection Hch as <-. eauto 10.
Qed.

(** Two entries of the array never stand for the same descriptor. *)
Lemma owner_inj s i j p q :
  pp_inv s -> pollfds_ (self s) !! i = Some p -> pollfds_ (self s) !! j = Some q ->
  owner p = owner q -> i = j.
Proof.
  intros (_ & HI2 & _) Hi Hj Ho.
  destruct (HI2 _ _ Hi) as (c & ch & Hc & Hch & Hidx).
  destruct (HI2 _ _ Hj) as (c' & ch' & Hc' & Hch' & Hidx').
  rewrite Ho, Hc' in Hc. injection Hc as ->. rewrite Hch' in Hch. injection Hch as ->. lia.
Qed.

Lemma wp_pfd_get idx s Q i pfd :
  idx = Z.of_nat i -> pollfds_ (self s) !! i = Some pfd -> Q pfd s -> wp (pfd_get idx) Q s.
Proof.
  intros -> Hi HQ. unfold pfd_get. wp_simp. rewrite (proj2 (Z.leb_le _ _)) by lia.
  apply wp_of_option. exists pfd. rewrite Nat2Z.id. done.
Qed.

(** What a step does to the entry of channel [c] at position [i]. *)
Definition with_entry (s : PollState PollPoller K) (i : nat) (pfd : pollfd) :
    PollState PollPoller K :=
  lset self_lens (set_pollfds (<[i := pfd]> (pollfds_ (self s))) (self s)) s.

Lemma wp_pfd_set idx i pfd s (Q : unit -> PollState PollPoller K -> Prop) :
  idx = Z.of_nat i -> Q tt (with_entry s i pfd) -> wp (pfd_set idx pfd) Q s.
Proof. intros -> HQ. unfold pfd_set. wp_simp. by rewrite Nat2Z.id. Qed.

(** Replacing an entry by one for the same descriptor. *)
Lemma with_entry_inv s c ch i p pfd :
  pp_inv s -> chans s !! c = Some ch -> pp_channels (self s) !! fd_ ch = Some c ->
  index_ ch = Z.of_nat i -> pollfds_ (self s) !! i = Some p -> owner pfd = fd_ ch ->
  (pfd_fd pfd < 0 -> pfd_events pfd = 0) ->
  pp_inv (with_entry s i pfd).
Proof.
  intros HI Hc Hreg Hidx Hi Ho Hz. pose proof HI as (HI1 & HI2 & HI3 & HI4 & HI5).
  pose proof (lookup_lt_Some _ _ _ Hi) as Hlt. split_and!; cbn.
  - intros fd c' Hc'. destruct (HI1 _ _ Hc') as (Hfd & ch' & j & q & Hch' & Hfd' & Hidx' & Hj & Hq).
    split; [done|]. exists ch', j. destruct (decide (i = j)) as [<-|Hne].
    + exists pfd. rewrite list_lookup_insert_eq by done. split_and!; try done.
      rewrite Ho. destruct (pp_inv_entry _ _ _ HI Hc Hreg) as (_ & i' & p' & Hi' & Hp' & Ho').
      assert (i' = i) as -> by lia. rewrite Hp' in Hj. injection Hj as ->. lia.
    + exists q. rewrite list_lookup_insert_ne by done. done.
  - intros j q. rewrite list_lookup_insert by done. case_decide as Hd; [|apply HI2].
    destruct Hd as [-> _]. intros [= <-]. rewrite Ho. eauto.
  - rewrite length_insert. apply HI3.
  - unfold zlen. rewrite length_insert. apply HI3.
  - done.
  - by apply Forall_insert.
Qed.

Lemma with_entry_watched s c ch i p pfd :
  pp_inv s -> chans s !! c = Some ch -> pp_channels (self s) !! fd_ ch = Some c ->
  index_ ch = Z.of_nat i -> pollfds_ (self s) !! i = Some p ->
  pp_watched (with_entry s i pfd) =
    if pfd_fd pfd =? fd_ ch then <[fd_ ch := (c, pfd_events pfd)]> (pp_watched s)
    else delete (fd_ ch) (pp_watched s).
Proof.
  intros HI Hc Hreg Hidx Hi. pose proof (lookup_lt_Some _ _ _ Hi) as Hlt.
  assert (Hsame : pp_watched (with_entry s i pfd) !! fd_ ch =
                  if pfd_fd pfd =? fd_ ch then Some (c, pfd_events pfd) else None).
  { rewrite pp_watched_lookup. cbn. rewrite Hreg. cbn. unfold pp_slot; cbn.
    rewrite Hc. cbn. rewrite Hidx, Nat2Z.id, list_lookup_insert_eq by done. done. }
  assert (Hother : forall fd, fd <> fd_ ch ->
            pp_watched (with_entry s i pfd) !! fd = pp_watched s !! fd).
  { intros fd Hne. rewrite !pp_watched_lookup. cbn.
    destruct (pp_channels (self s) !! fd) as [c'|] eqn:Hc'; [|done]. cbn.
    destruct (proj1 HI _ _ Hc') as (_ & ch' & j & q & Hch' & Hfd' & Hidx' & Hj & Hq).
    unfold pp_slot; cbn. rewrite Hch'. cbn. rewrite Hidx', Nat2Z.id.
    rewrite list_lookup_insert_ne; [done|]. intros ->.
    destruct (pp_inv_entry _ _ _ HI Hc Hreg) as (_ & i' & p' & Hi' & Hp' & Ho').
    assert (i' = j) as -> by lia. rewrite Hp' in Hj. injection Hj as ->. congruence. }
  apply map_eq. intros fd. destruct (decide (fd = fd_ ch)) as [->|Hne].
  - rewrite Hsame. case_match; by rewrite ?lookup_insert_eq, ?lookup_delete_eq.
  - rewrite Hother by done.
    case_match; by rewrite ?lookup_insert_ne, ?lookup_delete_ne by done.
Qed.
End PollPoller_spec.

Section PollPoller_update.
Context {B : Build} {K : Type} `{PollSys K, !PollLaws K, !ClockSys K}.
Implicit Types s : PollState PollPoller K.

(** The state after registering the new channel [c]. *)
Definition pushed (s : PollState PollPoller K) (c : chan) (ch : Channel) : PollState PollPoller K :=
  mkPollState
    (mkPollPoller (pollfds_ (self s) ++ [mkPollfd (fd_ ch) (i16 (events_ ch)) 0])
                  (<[fd_ ch := c]> (pp_channels (self s))))
    (<[c := set_index (zlen (pollfds_ (self s))) ch]> (chans s))
    (sts s) (kern s) (ownerThread s) (runningThread s).

Lemma pushed_inv s c ch :
  pp_inv s -> chans s !! c = Some ch -> 0 <= fd_ ch ->
  Z.of_nat (size (pp_channels (self s))) < 2 ^ 31 - 1 ->
  pp_channels (self s) !! fd_ ch = None -> pp_inv (pushed s c ch).
Proof.
  intros (HI1 & HI2 & HI3 & HI4 & HI5) Hc Hfd Hsize Hreg. split_and!; cbn.
  - intros fd c'. rewrite lookup_insert. case_decide as Hd.
    { intros [= <-]. subst fd. split; [done|].
      exists (set_index (zlen (pollfds_ (self s))) ch), (length (pollfds_ (self s))).
      eexists. rewrite lookup_insert_eq, list_lookup_middle by done.
      split_and!; try done. by apply owner_enabled. }
    intros Hc'. destruct (HI1 _ _ Hc') as (? & ch' & i & pfd & Hch' & <- & ? & Hi & ?).
    split; [done|]. exists ch', i, pfd. rewrite lookup_insert_ne by congruence.
    split_and!; try done. by apply lookup_app_l_Some.
  - intros i pfd. rewrite lookup_app. destruct (pollfds_ (self s) !! i) as [p|] eqn:Hi.
    + intros [= <-]. destruct (HI2 _ _ Hi) as (c' & ch' & Hc' & Hch' & Hidx).
      exists c', ch'. destruct (HI1 _ _ Hc') as (_ & ch2 & _ & _ & Hch2 & Hfd2 & _).
      rewrite !lookup_insert_ne; [done|..]; congruence.
    + intros Hpfd. apply list_lookup_singleton_Some in Hpfd as [Hlen <-].
      apply lookup_ge_None in Hi. rewrite owner_enabled by done.
      eexists c, _. rewrite !lookup_insert_eq. split_and!; try done. cbn. unfold zlen. lia.
  - rewrite length_app, map_size_insert_None by done. cbn. lia.
  - rewrite zlen_app. unfold zlen in *; cbn. lia.
  - done.
  - apply Forall_app_2; [done|]. constructor; [cbn; lia | constructor].
Qed.

Lemma pushed_watched s c ch :
  pp_inv s -> chans s !! c = Some ch -> 0 <= fd_ ch ->
  pp_channels (self s) !! fd_ ch = None ->
  pp_watched (pushed s c ch) = <[fd_ ch := (c, i16 (events_ ch))]> (pp_watched s).
Proof.
  intros (HI1 & _) Hc Hfd Hreg. apply map_eq. intros fd. rewrite lookup_insert, pp_watched_lookup.
  cbn. rewrite lookup_insert. case_decide as Hd.
  - subst fd. cbn. unfold pp_slot; cbn. rewrite lookup_insert_eq. cbn.
    unfold zlen. rewrite Nat2Z.id, list_lookup_middle by done. cbn. by rewrite Z.eqb_refl.
  - rewrite pp_watched_lookup. destruct (pp_channels (self s) !! fd) as [c'|] eqn:Hc'; [|done].
    destruct (HI1 _ _ Hc') as (_ & ch' & i & pfd & Hch' & Hfd' & Hidx & Hi & _).
    cbn. unfold pp_slot; cbn. rewrite lookup_insert_ne by congruence. rewrite Hch'. cbn.
    rewrite Hidx, Nat2Z.id. by rewrite lookup_app_l by (by eapply lookup_lt_Some).
Qed.

Lemma pp_updateChannel_spec s c ch :
  pp_inv s -> may_update (pp_watched s) c ch s ->
  wp (updateChannel c)
     (fun _ s' => pp_inv s' /\ frame s s' /\
        table (self s') = <[fd_ ch := c]> (table (self s)) /\
        pp_watched s' = spec_update i16 (isNoneEvent (sts s) ch) (fd_ ch) c (events_ ch)
                          (pp_watched s)) s.
Proof.
  intros HI (Hin & Hc & Hfd & Hsize & Hreg & Hnone). cbn in Hsize, Hreg.
  pose proof HI as (HI1 & HI2 & HI3 & HI4 & HI5).
  unfold updateChannel. wp_simp. apply wp_assertInLoopThread; [done|]. wp_simp.
  apply wp_ch_get. exists ch. split; [done|]. wp_simp.
  destruct Hreg as [[Hidx Hreg]|Hreg].
  - rewrite Hidx. cbn [Z.ltb Z.compare]. wp_simp.
    apply wp_assert; [by apply bool_decide_eq_true_2|]. wp_simp.
    apply wp_ch_modify. exists ch. split; [done|]. wp_simp.
    assert (Hidx' : i32 (zlen (pollfds_ (self s) ++ [mkPollfd (fd_ ch) (i16 (events_ ch)) 0]) - 1)
                    = zlen (pollfds_ (self s))).
    { rewrite zlen_app. change (zlen [_]) with 1. unfold zlen. rewrite i32_small by lia. lia. }
    cbn. rewrite Hidx'. assert (Hn : isNoneEvent (sts s) ch = false).
    { destruct (isNoneEvent (sts s) ch); [|done]. destruct (Hnone eq_refl) as [x Hx].
      by rewrite pp_watched_lookup, Hreg in Hx. }
    rewrite Hn. unfold spec_update. fold (pushed s c ch).
    split_and!; [by apply pushed_inv| |done|by apply pushed_watched].
    split_and!; cbn; auto with twnl.
  - destruct (pp_inv_entry _ _ _ HI Hc Hreg) as (_ & i & pfd & Hidx & Hi & Ho).
    pose proof (lookup_lt_Some _ _ _ Hi) as Hlt.
    rewrite Hidx, (proj2 (Z.ltb_ge _ _)) by lia. wp_simp.
    apply wp_assert; [apply bool_decide_eq_true_2; congruence|]. wp_simp.
    apply wp_assert; [by apply bool_decide_eq_true_2|]. wp_simp.
    apply wp_assert.
    { apply andb_true_iff. rewrite Z.leb_le, Z.ltb_lt. unfold zlen. lia. }
    wp_simp. eapply wp_pfd_get; [done|done|]. wp_simp.
    apply wp_assert; [by apply owner_cases|]. wp_simp.
    eapply wp_pfd_set; [done|]. wp_simp.
    set (e1 := mkPollfd (fd_ ch) _ 0). change (sts (with_entry s i e1)) with (sts s). set (e2 := mkPollfd (- fd_ ch - 1) _ 0).
    assert (Ho1 : owner e1 = fd_ ch) by by apply owner_enabled.
    assert (Ho2 : owner e2 = fd_ ch) by by apply owner_disabled.
    assert (Htab : pp_channels (self s) = <[fd_ ch := c]> (pp_channels (self s)))
      by by rewrite insert_id.
    destruct (isNoneEvent (sts s) ch) eqn:En.
    + assert (He : events_ ch = 0) by (unfold isNoneEvent in En; lia).
      eapply wp_pfd_set; [done|].
      assert (Htwice : with_entry (with_entry s i e1) i e2 = with_entry s i e2).
      { unfold with_entry; cbn. unfold set_pollfds; cbn. by rewrite list_insert_insert_eq. }
      rewrite Htwice. split_and!; [eapply with_entry_inv; try done| |exact Htab|].
      * intros _. cbn. by rewrite He.
      * split_and!; cbn; auto with twnl.
      * erewrite with_entry_watched by done. cbn [pfd_fd e2].
        rewrite (proj2 (Z.eqb_neq _ _)) by lia. done.
    + split_and!; [eapply with_entry_inv; try done; cbn; lia| |exact Htab|].
      * split_and!; cbn; auto with twnl.
      * erewrite with_entry_watched by done. cbn [pfd_fd pfd_events e1].
        by rewrite Z.eqb_refl.
Qed.
End PollPoller_update.

Section PollPoller_remove.
Context {B : Build} {K : Type} `{PollSys K, !PollLaws K, !ClockSys K}.
Implicit Types s : PollState PollPoller K.

(** The state after removing channel [c]: the array is [l], the heap [h]. *)
Definition removed (s : PollState PollPoller K) (fd : Z) (l : list pollfd)
    (h : gmap chan Channel) : PollState PollPoller K :=
  mkPollState (mkPollPoller l (delete fd (pp_channels (self s)))) h
    (sts s) (kern s) (ownerThread s) (runningThread s).

(** Removal when the rest of the table keeps its entries, possibly moved: [h]
    gives every other registered channel the position of its entry in [l]. *)
Lemma removed_post s c ch l h :
  pp_inv s -> chans s !! c = Some ch -> pp_channels (self s) !! fd_ ch = Some c ->
  S (length l) = length (pollfds_ (self s)) ->
  (forall fd c' ch' i pfd, fd <> fd_ ch -> pp_channels (self s) !! fd = Some c' ->
     chans s !! c' = Some ch' -> index_ ch' = Z.of_nat i ->
     pollfds_ (self s) !! i = Some pfd ->
     exists j, h !! c' = Some (set_index (Z.of_nat j) ch') /\ l !! j = Some pfd) ->
  (forall j pfd, l !! j = Some pfd -> exists i, pollfds_ (self s) !! i = Some pfd /\
     owner pfd <> fd_ ch /\ forall c' ch', pp_channels (self s) !! owner pfd = Some c' ->
       chans s !! c' = Some ch' -> h !! c' = Some (set_index (Z.of_nat j) ch')) ->
  pp_inv (removed s (fd_ ch) l h) /\
  pp_watched (removed s (fd_ ch) l h) = delete (fd_ ch) (pp_watched s).
Proof.
  intros HI Hc Hreg Hlen Hmove Hback. pose proof HI as (HI1 & HI2 & HI3 & HI4 & HI5).
  split.
  - split_and!; cbn; [| | | |done|].
    + intros fd c'. rewrite lookup_delete. case_decide as Hd; [done|]. intros Hc'.
      destruct (HI1 _ _ Hc') as (? & ch' & i & pfd & Hch' & Hfd' & Hidx & Hi & Ho).
      destruct (Hmove fd c' ch' i pfd) as (j & Hh & Hj); try done.
      split; [done|]. exists (set_index (Z.of_nat j) ch'), j, pfd. done.
    + intros j pfd Hj. destruct (Hback _ _ Hj) as (i & Hi & Ho & Hh).
      destruct (HI2 _ _ Hi) as (c' & ch' & Hc' & Hch' & _).
      exists c', (set_index (Z.of_nat j) ch'). rewrite lookup_delete_ne by done.
      split_and!; [done|by apply Hh|done].
    + rewrite map_size_delete_Some by done. lia.
    + unfold zlen in *. lia.
    + apply Forall_lookup. intros j pfd Hj. destruct (Hback _ _ Hj) as (i & Hi & _).
      exact (proj1 (Forall_lookup _ _) HI5 _ _ Hi).
  - apply map_eq. intros fd. rewrite lookup_delete, pp_watched_lookup. cbn.
    rewrite lookup_delete. case_decide as Hd; [done|]. rewrite pp_watched_lookup.
    destruct (pp_channels (self s) !! fd) as [c'|] eqn:Hc'; [|done]. cbn.
    destruct (HI1 _ _ Hc') as (? & ch' & i & pfd & Hch' & Hfd' & Hidx & Hi & Ho).
    destruct (Hmove fd c' ch' i pfd) as (j & Hh & Hj); try done.
    unfold pp_slot; cbn. rewrite Hh, Hch'. cbn. by rewrite Hidx, !Nat2Z.id, Hj, Hi.
Qed.

(** The last entry is dropped. *)
Lemma removed_last s c ch i pfd :
  pp_inv s -> chans s !! c = Some ch -> pp_channels (self s) !! fd_ ch = Some c ->
  index_ ch = Z.of_nat i -> pollfds_ (self s) !! i = Some pfd ->
  S i = length (pollfds_ (self s)) ->
  let s' := removed s (fd_ ch) (take i (pollfds_ (self s))) (chans s) in
  pp_inv s' /\ pp_watched s' = delete (fd_ ch) (pp_watched s).
Proof.
  intros HI Hc Hreg Hidx Hi Hlast. pose proof HI as (HI1 & HI2 & HI3 & HI4 & HI5).
  destruct (pp_inv_entry _ _ _ HI Hc Hreg) as (_ & i' & p' & Hi' & Hp' & Ho).
  assert (i' = i) as -> by lia. rewrite Hi in Hp'. injection Hp' as <-.
  apply (removed_post s c); auto; [rewrite length_take; lia|..].
  - intros fd c' ch' j q Hfd Hc' Hch' Hj Hq. exists j.
    assert (j <> i).
    { intros ->. rewrite Hi in Hq. injection Hq as <-.
      destruct (HI1 _ _ Hc') as (_ & ch2 & j2 & q2 & Hch2 & Hfd2 & Hj2 & Hq2 & Ho2).
      rewrite Hch' in Hch2. injection Hch2 as <-. assert (j2 = i) as -> by lia. congruence. }
    pose proof (lookup_lt_Some _ _ _ Hq). rewrite lookup_take. case_decide; [|lia].
    split; [|done]. rewrite <- Hj. rewrite Hch'. f_equal. by destruct ch'.
  - intros j q. rewrite lookup_take. case_decide; [|done]. intros Hq. exists j.
    split; [done|]. split.
    { intros Ho'. assert (j = i) by (eapply owner_inj; eauto; congruence). lia. }
    intros c' ch' Hc' Hch'. destruct (HI2 _ _ Hq) as (c2 & ch2 & Hc2 & Hch2 & Hj2).
    rewrite Hc' in Hc2. injection Hc2 as <-. rewrite Hch' in Hch2. injection Hch2 as <-.
    rewrite <- Hj2, Hch'. f_equal. by destruct ch'.
Qed.

(** The last entry takes the place of the removed one. *)
Lemma removed_swap s c ch i pfd back ce che :
  pp_inv s -> chans s !! c = Some ch -> pp_channels (self s) !! fd_ ch = Some c ->
  index_ ch = Z.of_nat i -> pollfds_ (self s) !! i = Some pfd ->
  let n := (length (pollfds_ (self s)) - 1)%nat in
  (i < n)%nat -> pollfds_ (self s) !! n = Some back ->
  pp_channels (self s) !! owner back = Some ce -> chans s !! ce = Some che ->
  let s' := removed s (fd_ ch) (take n (<[n := pfd]> (<[i := back]> (pollfds_ (self s)))))
              (<[ce := set_index (Z.of_nat i) che]> (chans s)) in
  pp_inv s' /\ pp_watched s' = delete (fd_ ch) (pp_watched s).
Proof.
  intros HI Hc Hreg Hidx Hi n Hlt Hback Hce Hche. pose proof HI as (HI1 & HI2 & HI3 & HI4 & HI5).
  pose proof (lookup_lt_Some _ _ _ Hi) as Hlen.
  destruct (pp_inv_entry _ _ _ HI Hc Hreg) as (_ & i' & p' & Hi' & Hp' & Ho).
  assert (i' = i) as -> by lia. rewrite Hi in Hp'. injection Hp' as <-.
  assert (Hl : forall j, (j < n)%nat ->
    take n (<[n := pfd]> (<[i := back]> (pollfds_ (self s)))) !! j =
      if decide (j = i) then Some back else pollfds_ (self s) !! j).
  { intros j Hj. rewrite lookup_take. case_decide; [|lia].
    rewrite list_lookup_insert_ne by lia. rewrite list_lookup_insert.
    repeat case_decide; try lia; done. }
  assert (Hinj : forall j q c' ch', pollfds_ (self s) !! j = Some q ->
    pp_channels (self s) !! owner q = Some c' -> chans s !! c' = Some ch' ->
    index_ ch' = Z.of_nat j /\ fd_ ch' = owner q).
  { intros j q c' ch' Hq Hc' Hch'. destruct (HI2 _ _ Hq) as (c2 & ch2 & Hc2 & Hch2 & Hj2).
    rewrite Hc' in Hc2. injection Hc2 as <-. rewrite Hch' in Hch2. injection Hch2 as <-.
    split; [done|]. destruct (HI1 _ _ Hc') as (_ & ch3 & _ & _ & Hch3 & Hfd3 & _). congruence. }
  destruct (Hinj _ _ _ _ Hback Hce Hche) as [Hidxe Hfde].
  apply (removed_post s c); auto.
  { rewrite length_take, !length_insert. lia. }
  - intros fd c' ch' j q Hfd Hc' Hch' Hj Hq.
    destruct (HI1 _ _ Hc') as (_ & ch2 & j2 & q2 & Hch2 & Hfd2 & Hj2 & Hq2 & Ho2).
    rewrite Hch' in Hch2. injection Hch2 as <-. assert (j2 = j) as -> by lia.
    rewrite Hq in Hq2. injection Hq2 as <-.
    pose proof (lookup_lt_Some _ _ _ Hq). destruct (decide (j = n)) as [->|Hjn].
    + rewrite Hback in Hq. injection Hq as <-. exists i. rewrite Hl by lia.
      case_decide; [|done]. split; [|done]. rewrite Ho2, Hc' in Hce. injection Hce as <-.
      rewrite lookup_insert_eq. by rewrite Hche in Hch'; injection Hch' as <-.
    + assert (j <> i) by (intros ->; congruence). exists j. rewrite Hl by lia.
      case_decide; [done|]. split; [|done]. rewrite lookup_insert_ne.
      * rewrite <- Hj, Hch'. f_equal. by destruct ch'.
      * intros ->. rewrite Hche in Hch'. injection Hch' as <-. lia.
  - intros j q Hq. assert (Hj : (j < n)%nat).
    { apply lookup_lt_Some in Hq. rewrite length_take in Hq. lia. }
    rewrite Hl in Hq by done. case_decide as Hd.
    + injection Hq as <-. subst j. exists n. split; [done|]. split.
      { intros Ho'. assert (n = i) by (eapply owner_inj; eauto; congruence). lia. }
      intros c' ch' Hc' Hch'. rewrite Hce in Hc'. injection Hc' as <-.
      rewrite Hche in Hch'. injection Hch' as <-. by rewrite lookup_insert_eq.
    + exists j. split; [done|]. split.
      { intros Ho'. assert (j = i) by (eapply owner_inj; eauto; congruence). done. }
      intros c' ch' Hc' Hch'. destruct (Hinj _ _ _ _ Hq Hc' Hch') as [Hidx' _].
      rewrite lookup_insert_ne.
      * rewrite <- Hidx', Hch'. f_equal. by destruct ch'.
      * intros ->. rewrite Hche in Hch'. injection Hch' as <-. lia.
Qed.
End PollPoller_remove.

Section PollPoller_poll.
Context {B : Build} {K : Type} `{PollSys K, !PollLaws K, !ClockSys K}.
Implicit Types s : PollState PollPoller K.

Lemma delete_unwatched s fd : pp_watched s !! fd = None ->
  delete fd (pp_watched s) = pp_watched s.
Proof. apply delete_id. Qed.

Lemma pp_removeChannel_spec s c ch :
  pp_inv s -> may_remove (pp_watched s) c ch s ->
  wp (removeChannel c)
     (fun _ s' => pp_inv s' /\ frame s s' /\
        table (self s') = delete (fd_ ch) (table (self s)) /\
        pp_watched s' = pp_watched s) s.
Proof.
  intros HI (Hin & Hc & Hreg & Hnone & Hw). cbn in Hreg.
  pose proof HI as (HI1 & HI2 & HI3 & HI4 & HI5).
  destruct (pp_inv_entry _ _ _ HI Hc Hreg) as (Hfd & i & pfd & Hidx & Hi & Ho).
  pose proof (lookup_lt_Some _ _ _ Hi) as Hlt.
  assert (Hoff : pfd_fd pfd = - fd_ ch - 1 /\ pfd_events pfd = events_ ch).
  { rewrite pp_watched_lookup, Hreg in Hw. cbn in Hw. unfold pp_slot in Hw.
    rewrite Hc in Hw. cbn in Hw. rewrite Hidx, Nat2Z.id, Hi in Hw. cbn in Hw.
    unfold owner in Ho. unfold isNoneEvent in Hnone. rewrite HI4 in Hnone.
    pose proof (proj1 (Forall_lookup _ _) HI5 _ _ Hi) as Hz. cbn in Hz. zcase; try lia; done. }
  destruct Hoff as [Hoff Hev].
  unfold removeChannel. wp_simp. apply wp_assertInLoopThread; [done|]. wp_simp.
  apply wp_ch_get. exists ch. split; [done|]. wp_simp.
  apply wp_assert; [apply bool_decide_eq_true_2; congruence|]. wp_simp.
  apply wp_assert; [by apply bool_decide_eq_true_2|]. wp_simp.
  apply wp_assert; [done|]. wp_simp. apply wp_assert.
  { apply andb_true_iff. rewrite Z.leb_le, Z.ltb_lt. unfold zlen. lia. }
  wp_simp. eapply wp_pfd_get; [done|done|]. wp_simp.
  apply wp_assert; [apply andb_true_iff; lia|]. wp_simp. apply wp_assert.
  { rewrite bool_decide_eq_true_2 by (rewrite Hreg; eauto). done. }
  rewrite Hidx. unfold zlen.
  unfold zlen in HI3. rewrite u64_small by lia.
  destruct (Z.eqb_spec (Z.of_nat i) (Z.of_nat (length (pollfds_ (self s))) - 1)) as [Hlast|Hlast].
  - wp_simp.
    replace (Z.to_nat _) with i by lia.
    destruct (removed_last s c ch i pfd) as [HI' Hw']; auto; [lia|].
    rewrite delete_unwatched in Hw' by done.
    unfold frame. split_and!; cbn; auto with twnl.
  - destruct (lookup_lt_is_Some_2 (pollfds_ (self s)) (length (pollfds_ (self s)) - 1))
      as [back Hback]; [lia|].
    destruct (HI2 _ _ Hback) as (ce & che & Hce & Hche & Hidxe).
    wp_simp. eapply wp_pfd_get; [|exact Hback|]; [lia|]. wp_simp.
    eapply wp_pfd_set; [done|]. wp_simp. eapply (wp_pfd_set _ (length (pollfds_ (self s)) - 1)%nat); [lia|]. wp_simp.
    fold (owner back). apply wp_of_option. exists ce. split.
    { cbn. rewrite lookup_delete_ne; [exact Hce|]. intros Heq.
      assert (i = length (pollfds_ (self s)) - 1)%nat; [|lia].
      eapply owner_inj; eauto; congruence. }
    wp_simp. apply wp_ch_modify. exists che. split; [done|]. wp_simp.
    replace (Z.to_nat _) with (length (pollfds_ (self s)) - 1)%nat by lia.
    destruct (removed_swap s c ch i pfd back ce che) as [HI' Hw']; auto; [lia|].
    rewrite delete_unwatched in Hw' by done.
    unfold frame. split_and!; cbn; auto with twnl.
Qed.

(** The active channels of an array, and the channels once their [revents_] are
    stored. *)
Definition active_of (t : gmap Z chan) (fds : list pollfd) : list chan :=
  omap (fun p => if 0 <? pfd_revents p then t !! pfd_fd p else None) fds.

Definition report (t : gmap Z chan) (fds : list pollfd) (h : gmap chan Channel) :
    gmap chan Channel :=
  foldl (fun h p => if 0 <? pfd_revents p then
                      match t !! pfd_fd p with
                      | Some c => alter (set_revents (pfd_revents p)) c h
                      | None => h
                      end
                    else h) h fds.

Definition with_chans (h : gmap chan Channel) (s : PollState PollPoller K) :
    PollState PollPoller K := lset chans_lens h s.

Lemma pp_report_cons t p fds h :
  report t (p :: fds) h =
  report t fds (if 0 <? pfd_revents p then
                  match t !! pfd_fd p with
                  | Some c => alter (set_revents (pfd_revents p)) c h
                  | None => h
                  end
                else h).
Proof. reflexivity. Qed.

(** An entry the kernel may report: a registered, live channel stands behind it. *)
Definition ready_ok (s : PollState PollPoller K) (p : pollfd) : Prop :=
  0 <= pfd_revents p /\
  (0 < pfd_revents p -> exists c ch, pp_channels (self s) !! pfd_fd p = Some c /\
     chans s !! c = Some ch /\ fd_ ch = pfd_fd p).

Lemma ready_ok_alter s c n p :
  ready_ok s p -> ready_ok (with_chans (alter (set_revents n) c (chans s)) s) p.
Proof.
  intros [Hn Hp]. split; [done|]. intros Hpos. destruct (Hp Hpos) as (c' & ch & Hc & Hch & Hfd).
  exists c'. cbn. rewrite lookup_alter. case_decide as Hd; [|by exists ch].
  subst. rewrite Hch. eexists. split_and!; [done..|]. by destruct ch.
Qed.

Lemma no_reports t fds h :
  Forall (fun p => 0 <= pfd_revents p) fds -> reports fds = 0 ->
  active_of t fds = [] /\ report t fds h = h.
Proof.
  unfold reports. induction fds as [|p fds IH]; intros Hpos Hn; [done|].
  apply Forall_cons in Hpos as [Hp Hpos]. rewrite filter_cons in Hn. case_decide as Hd.
  { unfold zlen in Hn; cbn in Hn. lia. }
  rewrite pp_report_cons. unfold active_of. cbn [omap list_omap]. fold (active_of t fds).
  rewrite (proj2 (Z.ltb_ge _ _)) by lia. by apply IH.
Qed.

Lemma alter_insert_alive (f : Channel -> Channel) (c : chan) ch (h : gmap chan Channel) :
  h !! c = Some ch -> <[c := f ch]> h = alter f c h.
Proof.
  intros Hc. apply map_eq. intros c'. rewrite lookup_insert, lookup_alter.
  case_decide; [by subst; rewrite Hc | done].
Qed.

Lemma pp_fill_loop_spec fds : forall n active s,
  reports fds = n -> Forall (ready_ok s) fds ->
  wp (fill_loop fds n active)
     (fun r s' => r = active ++ active_of (pp_channels (self s)) fds /\
        s' = with_chans (report (pp_channels (self s)) fds (chans s)) s) s.
Proof.
  induction fds as [|p fds IH]; intros n active s Hn Hok; cbn [fill_loop].
  { apply wp_ret. cbn. rewrite app_nil_r. by destruct s. }
  destruct (Z.ltb_spec 0 n) as [Hpos|Hzero].
  2: { destruct (no_reports (pp_channels (self s)) (p :: fds) (chans s)) as [Ha Hr].
       - eapply Forall_impl; [exact Hok|]. by intros q [? _].
       - subst n. pose proof (zlen_nonneg (filter (fun p => pfd_revents p <> 0) (p :: fds))).
         unfold reports in *. lia.
       - apply wp_ret. rewrite Ha, Hr, app_nil_r. by destruct s. }
  apply Forall_cons in Hok as [[Hp Hlive] Hok]. rewrite pp_report_cons.
  unfold active_of. cbn [omap list_omap]. fold (active_of (pp_channels (self s)) fds).
  assert (Hcount : reports fds = if 0 <? pfd_revents p then n - 1 else n).
  { revert Hn. unfold reports. rewrite filter_cons.
    case_decide; unfold zlen; cbn [length]; zcase; lia. }
  destruct (Z.ltb_spec 0 (pfd_revents p)) as [Hr|Hr]; [|by apply IH].
  destruct (Hlive Hr) as (c & ch & Hc & Hch & Hfd). wp_simp. rewrite Hc.
  apply wp_assert; [by apply bool_decide_eq_true_2|]. wp_simp.
  apply wp_of_option. exists c. split; [done|]. wp_simp.
  apply wp_ch_get. exists ch. split; [done|]. wp_simp.
  apply wp_assert; [by apply Z.eqb_eq|]. wp_simp.
  apply wp_ch_modify. exists ch. split; [done|].
  cbn [lget lset channels PollState_heap]. change (lget chans_lens s) with (chans s).
  rewrite (alter_insert_alive _ _ _ _ Hch).
  fold (with_chans (alter (set_revents (pfd_revents p)) c (chans s)) s).
  eapply wp_mono; [apply IH; [lia|]|].
  - eapply Forall_impl; [exact Hok|]. intros q. apply ready_ok_alter.
  - intros r s' [-> ->]. rewrite <- app_assoc. done.
Qed.

(** Storing [revents_] keeps the correspondence. *)
Lemma pp_report_lookup t fds h c :
  exists f, report t fds h !! c = f <$> h !! c /\
    forall ch, fd_ (f ch) = fd_ ch /\ index_ (f ch) = index_ ch.
Proof.
  revert h. induction fds as [|p fds IH]; intros h.
  - exists id. cbn. by destruct (h !! c).
  - rewrite pp_report_cons. destruct (0 <? pfd_revents p); [|apply IH].
    destruct (t !! pfd_fd p) as [c'|]; [|apply IH].
    destruct (IH (alter (set_revents (pfd_revents p)) c' h)) as (f & -> & Hf).
    destruct (decide (c' = c)) as [->|Hne].
    + exists (f ∘ set_revents (pfd_revents p)). rewrite lookup_alter_eq.
      split; [by destruct (h !! c)|]. intros ch. cbn.
      by destruct (Hf (set_revents (pfd_revents p) ch)) as [-> ->].
    + exists f. by rewrite lookup_alter_ne.
Qed.

Lemma polled_owner p q : polled p q -> owner q = owner p.
Proof. intros (Hfd & _). unfold owner. by rewrite Hfd. Qed.

Lemma polled_lookup s fds i q :
  Forall2 polled (pollfds_ (self s)) fds -> fds !! i = Some q ->
  exists p, pollfds_ (self s) !! i = Some p /\ polled p q.
Proof. intros Hp Hq. by apply (Forall2_lookup_r _ _ _ _ _ Hp) in Hq. Qed.

(** The state after a poll: revents in the array and in the channels, a clock
    that moved. *)
Definition after_poll (s : PollState PollPoller K) (fds rep : list pollfd) (k' : K) :
    PollState PollPoller K :=
  mkPollState (set_pollfds fds (self s)) (report (pp_channels (self s)) rep (chans s))
    (sts s) k' (ownerThread s) (runningThread s).

Lemma after_poll_inv s fds rep k' :
  pp_inv s -> Forall2 polled (pollfds_ (self s)) fds -> pp_inv (after_poll s fds rep k').
Proof.
  intros (HI1 & HI2 & [HI3 HI3'] & HI4 & HI5) Hp. pose proof (Forall2_length _ _ _ Hp) as Hlen.
  unfold pp_inv. cbn [self chans sts after_poll set_pollfds pollfds_ pp_channels].
  split; [|split; [|split; [|split]]].
  - intros fd c Hc. destruct (HI1 _ _ Hc) as (? & ch & i & pfd & Hch & Hfd & Hidx & Hi & Ho).
    split; [done|]. destruct (Forall2_lookup_l _ _ _ _ _ Hp Hi) as (q & Hq & Hpq).
    destruct (pp_report_lookup (pp_channels (self s)) rep (chans s) c) as (f & Hf & Hsame).
    exists (f ch), i, q. destruct (Hsame ch) as [-> ->].
    rewrite Hf, Hch, (polled_owner _ _ Hpq). done.
  - intros i q Hq. destruct (polled_lookup _ _ _ _ Hp Hq) as (p & Hi & Hpq).
    destruct (HI2 _ _ Hi) as (c & ch & Hc & Hch & Hidx).
    destruct (pp_report_lookup (pp_channels (self s)) rep (chans s) c) as (f & Hf & Hsame).
    exists c, (f ch). rewrite (polled_owner _ _ Hpq), Hf, Hch.
    destruct (Hsame ch) as [_ ->]. done.
  - unfold zlen in *. split; lia.
  - done.
  - apply Forall_lookup. intros i q Hq. destruct (polled_lookup _ _ _ _ Hp Hq) as (p & Hi & Hpq).
    pose proof (proj1 (Forall_lookup _ _) HI5 _ _ Hi) as Hz. cbn in Hz.
    destruct Hpq as (-> & -> & _). done.
Qed.

Lemma after_poll_watched s fds rep k' :
  pp_inv s -> Forall2 polled (pollfds_ (self s)) fds ->
  pp_watched (after_poll s fds rep k') = pp_watched s.
Proof.
  intros (HI1 & _) Hp. apply map_eq. intros fd. rewrite !pp_watched_lookup. cbn.
  destruct (pp_channels (self s) !! fd) as [c|] eqn:Hc; [|done]. cbn.
  destruct (HI1 _ _ Hc) as (_ & ch & i & pfd & Hch & _ & Hidx & Hi & _).
  destruct (Forall2_lookup_l _ _ _ _ _ Hp Hi) as (q & Hq & (Hqfd & Hqev & _)).
  destruct (pp_report_lookup (pp_channels (self s)) rep (chans s) c) as (f & Hf & Hsame).
  unfold pp_slot; cbn. rewrite Hf, Hch. cbn. destruct (Hsame ch) as [_ ->].
  rewrite Hidx, Nat2Z.id, Hq, Hi. cbn.
  by rewrite Hqfd, Hqev.
Qed.

(** A reported entry is a watched descriptor. *)
Lemma polled_ready s fds :
  pp_inv s -> Forall2 polled (pollfds_ (self s)) fds ->
  Forall (fun q => 0 <= pfd_revents q /\ (0 < pfd_revents q ->
    exists c ch, pp_channels (self s) !! pfd_fd q = Some c /\ chans s !! c = Some ch /\
      fd_ ch = pfd_fd q /\ pp_watched s !! pfd_fd q = Some (c, pfd_events q))) fds.
Proof.
  intros HI Hp. apply Forall_lookup. intros i q Hq.
  destruct (polled_lookup _ _ _ _ Hp Hq) as (p & Hi & (Hfd & Hev & Hr & Hneg)).
  split; [lia|]. intros Hpos.
  assert (Ho : owner p = pfd_fd q).
  { unfold owner. rewrite Hfd. zcase; [|done]. specialize (Hneg ltac:(lia)). lia. }
  destruct (proj1 (proj2 HI) _ _ Hi) as (c & ch & Hc & Hch & Hidx). rewrite Ho in Hc.
  destruct (proj1 HI _ _ Hc) as (_ & ch' & _ & _ & Hch' & Hfd' & _).
  rewrite Hch in Hch'. injection Hch' as <-. exists c, ch. split_and!; try done.
  rewrite pp_watched_lookup, Hc. cbn. unfold pp_slot. rewrite Hch. cbn.
  rewrite Hidx, Nat2Z.id, Hi. cbn. by rewrite <- Hfd, Z.eqb_refl, Hev.
Qed.
End PollPoller_poll.

Section PollPoller_contract.
Context {B : Build} {K : Type} `{PollSys K, !PollLaws K, !ClockSys K}.
Implicit Types s : PollState PollPoller K.

(** The poller looks at the descriptor and the index of a channel only, until the
    next update. *)
Lemma memory_change s c ch chx :
  pp_inv s -> chans s !! c = Some ch -> fd_ chx = fd_ ch -> index_ chx = index_ ch ->
  pp_inv (lset chans_lens (<[c := chx]> (chans s)) s) /\
  pp_watched (lset chans_lens (<[c := chx]> (chans s)) s) = pp_watched s.
Proof.
  intros (HI1 & HI2 & HI3) Hc Hfdx Hidxx.
  assert (Hl : forall c' ch', chans s !! c' = Some ch' ->
    exists ch2, <[c := chx]> (chans s) !! c' = Some ch2 /\
                fd_ ch2 = fd_ ch' /\ index_ ch2 = index_ ch').
  { intros c' ch' Hch'. rewrite lookup_insert. case_decide; [subst|by exists ch'].
    rewrite Hc in Hch'. injection Hch' as <-. by exists chx. }
  split.
  - split; [|split; [|done]]; cbn.
    + intros fd c' Hc'. destruct (HI1 _ _ Hc') as (? & ch' & i & pfd & Hch' & Hfd & Hidx & ?).
      destruct (Hl _ _ Hch') as (ch2 & ? & ? & ?). split; [done|]. exists ch2, i, pfd.
      by rewrite Hfd in *; rewrite Hidx in *.
    + intros i pfd Hi. destruct (HI2 _ _ Hi) as (c' & ch' & Hc' & Hch' & Hidx).
      destruct (Hl _ _ Hch') as (ch2 & ? & ? & ?). exists c', ch2. by rewrite Hidx in *.
  - apply map_eq. intros fd. rewrite !pp_watched_lookup. cbn.
    destruct (pp_channels (self s) !! fd) as [c'|] eqn:Hc'; [|done]. cbn.
    destruct (HI1 _ _ Hc') as (_ & ch' & _ & _ & Hch' & _).
    destruct (Hl _ _ Hch') as (ch2 & Hch2 & _ & Hidx). unfold pp_slot; cbn.
    by rewrite Hch2, Hch'; cbn; rewrite Hidx.
Qed.

Lemma memory_new s c ch :
  pp_inv s -> chans s !! c = None ->
  pp_inv (lset chans_lens (<[c := ch]> (chans s)) s) /\
  pp_watched (lset chans_lens (<[c := ch]> (chans s)) s) = pp_watched s.
Proof.
  intros (HI1 & HI2 & HI3) Hc.
  assert (Hl : forall c' ch', chans s !! c' = Some ch' -> <[c := ch]> (chans s) !! c' = Some ch').
  { intros c' ch' Hch'. rewrite lookup_insert_ne; [done | by intros ->; congruence]. }
  split.
  - split; [|split; [|done]]; cbn.
    + intros fd c' Hc'. destruct (HI1 _ _ Hc') as (? & ch' & i & pfd & Hch' & ?).
      split; [done|]. exists ch', i, pfd. by rewrite (Hl _ _ Hch').
    + intros i pfd Hi. destruct (HI2 _ _ Hi) as (c' & ch' & Hc' & Hch' & ?).
      exists c', ch'. by rewrite (Hl _ _ Hch').
  - apply map_eq. intros fd. rewrite !pp_watched_lookup. cbn.
    destruct (pp_channels (self s) !! fd) as [c'|] eqn:Hc'; [|done]. cbn.
    destruct (HI1 _ _ Hc') as (_ & ch' & _ & _ & Hch' & _). unfold pp_slot; cbn.
    by rewrite (Hl _ _ Hch'), Hch'.
Qed.

Lemma memory_forget s c :
  pp_inv s -> (forall fd, pp_channels (self s) !! fd <> Some c) ->
  pp_inv (lset chans_lens (delete c (chans s)) s) /\
  pp_watched (lset chans_lens (delete c (chans s)) s) = pp_watched s.
Proof.
  intros (HI1 & HI2 & HI3) Hc.
  assert (Hl : forall fd c', pp_channels (self s) !! fd = Some c' ->
    delete c (chans s) !! c' = chans s !! c').
  { intros fd c' Hc'. rewrite lookup_delete_ne; [done | by intros ->; apply (Hc fd)]. }
  split.
  - split; [|split; [|done]]; cbn.
    + intros fd c' Hc'. destruct (HI1 _ _ Hc') as (? & ch' & i & pfd & Hch' & ?).
      split; [done|]. exists ch', i, pfd. by rewrite (Hl _ _ Hc').
    + intros i pfd Hi. destruct (HI2 _ _ Hi) as (c' & ch' & Hc' & Hch' & ?).
      exists c', ch'. by rewrite (Hl _ _ Hc').
  - apply map_eq. intros fd. rewrite !pp_watched_lookup. cbn.
    destruct (pp_channels (self s) !! fd) as [c'|] eqn:Hc'; [|done]. cbn.
    unfold pp_slot; cbn. by rewrite (Hl _ _ Hc').
Qed.

#[export] Instance poll_contract : PollerContract PollPoller K.
Proof.
  refine {| poller_inv := pp_inv; watched := pp_watched; encode := i16 |}.
  - intros ev Hev. unfold i16. rewrite Z.mod_small; lia.
  - intros c ch ch' s. apply memory_change.
  - intros c ch s. apply memory_new.
  - intros c s. apply memory_forget.
  - by intros owner running s.
  - intros c ch s. apply pp_updateChannel_spec.
  - intros c ch s. apply pp_removeChannel_spec.
Defined.

#[export] Instance poll_quiet `{!SysCalls K, !Quiet K} :
  QuietPoller PollPoller K.
Proof. by split. Qed.

#[export] Instance poll_close `{!SockSys K} : QuietClose PollPoller K.
Proof. by split. Qed.

Lemma pp_poll_spec s timeoutMs active :
  pp_inv s ->
  wp (poll timeoutMs active)
     (fun r s' => exists fds,
        Forall2 polled (pollfds_ (self s)) fds /\ pollfds_ (self s') = fds /\
        let rep := match fst (fst (sys_poll (pollfds_ (self s)) timeoutMs (kern s))) with
                   | inl _ => fds | inr _ => [] end in
        r.2 = active ++ active_of (pp_channels (self s)) rep /\
        chans s' = report (pp_channels (self s)) rep (chans s) /\
        pp_inv s' /\ pp_watched s' = pp_watched s /\
        Forall (fun q => 0 < pfd_revents q -> exists c,
          pp_watched s !! pfd_fd q = Some (c, pfd_events q)) rep /\
        untouched s s') s.
Proof.
  intros HI. unfold poll. wp_simp. cbn [lget kern_lens].
  destruct (sys_poll (pollfds_ (self s)) timeoutMs (kern s)) as [[r fds] k'] eqn:Hsys.
  cbn [fst snd lset kern_lens kern].
  assert (Hp : Forall2 polled (pollfds_ (self s)) fds).
  { destruct r; [by apply (poll_law _ _ _ _ _ _ Hsys) | by apply (poll_fails _ _ _ _ _ _ Hsys)]. }
  pose proof (polled_ready s fds HI Hp) as Hready.
  wp_simp. destruct (sys_now k') as [now k2] eqn:Hnow. cbn. rewrite Hnow. cbn [fst snd].
  pose proof (fun rep => after_poll_inv s fds rep k2 HI Hp) as Hinv.
  pose proof (fun rep => after_poll_watched s fds rep k2 HI Hp) as Hwat.
  destruct r as [n|e]; [destruct (poll_law _ _ _ _ _ _ Hsys) as [_ Hn]|].
  - assert (Hw : Forall (fun q => 0 < pfd_revents q -> exists c,
              pp_watched s !! pfd_fd q = Some (c, pfd_events q)) fds).
    { eapply Forall_impl; [exact Hready|]. intros q [_ Hq] Hpos.
      destruct (Hq Hpos) as (c & ch & _ & _ & _ & Hwq). eauto. }
    destruct (Z.ltb_spec 0 n) as [Hpos|Hzero].
    + wp_simp. unfold fillActiveChannels. wp_simp.
      eapply wp_mono; [apply (pp_fill_loop_spec fds n); [done|]|].
      { eapply Forall_impl; [exact Hready|]. intros q [Hge Hq]. split; [done|].
        intros Hq'. destruct (Hq Hq') as (c & ch & ? & ? & ? & _). by exists c, ch. }
      intros a s' [-> ->]. wp_simp. exists fds. split; [done|]. split; [done|].
      split; [done|]. split; [done|]. split; [apply (Hinv fds)|]. split; [apply (Hwat fds) | done].
    + wp_simp. exists fds.
      destruct (no_reports (pp_channels (self s)) fds (chans s)) as [Ha Hr].
      { eapply Forall_impl; [exact Hready|]. by intros q [? _]. }
      { pose proof (zlen_nonneg (filter (fun p => pfd_revents p <> 0) fds)).
        unfold reports in *. lia. }
      cbn [fst]. rewrite Ha, Hr, app_nil_r.
      split; [done|]. split; [done|]. split; [done|]. split; [done|].
      split; [apply (Hinv [])|]. split; [apply (Hwat []) | done].
  - wp_simp. exists fds. cbn. rewrite app_nil_r. split; [done|]. split; [done|].
    split; [done|]. split; [done|]. split; [apply (Hinv [])|]. split; [apply (Hwat []) | done].
Qed.
(** The channels of the entries with a report. *)
Definition hits_in (t : gmap Z chan) (fds : list pollfd) : list (chan * Z) :=
  omap (fun q => if 0 <? pfd_revents q then (fun c => (c, pfd_revents q)) <$> t !! pfd_fd q else None) fds.

Lemma hits_in_spec t fds h :
  map fst (hits_in t fds) = active_of t fds /\ marked (hits_in t fds) h = report t fds h.
Proof.
  revert h. induction fds as [|q fds IH]; intros h; [done|].
  rewrite pp_report_cons. unfold hits_in, active_of. cbn.
  destruct (0 <? pfd_revents q); [|apply IH]. destruct (t !! pfd_fd q) as [c|]; cbn; [|apply IH].
  destruct (IH (alter (set_revents (pfd_revents q)) c h)) as [IH1 IH2]. split; [|exact IH2].
  f_equal. exact IH1.
Qed.

#[export] Instance pp_reports : PollReports PollPoller K.
Proof.
  refine {| ready_to_poll _ := True |}. intros timeoutMs active s HI _ _.
  eapply wp_mono; [by apply pp_poll_spec|]. intros r s' (fds & Hp & _ & Hr & Hc & HI' & Hw & _ & Hu).
  set (rep := match (sys_poll (pollfds_ (self s)) timeoutMs (kern s)).1.1 with
              | inl _ => fds | inr _ => [] end) in *.
  exists (hits_in (pp_channels (self s)) rep).
  destruct (hits_in_spec (pp_channels (self s)) rep (chans s)) as [-> ->]. split_and!; try done.
  apply Forall_forall. intros [c rev] Hin. apply list_elem_of_omap in Hin as (q & Hq & Hx).
  assert (Hqf : q ∈ fds) 
    by (revert Hq; unfold rep; destruct (_.1.1); [done | by intros ?%not_elem_of_nil]).
  destruct (proj1 (Forall_forall _ _) (polled_ready s fds HI Hp) q Hqf) as [_ Hq'].
  case_match eqn:Hpos; [|done]. apply Z.ltb_lt in Hpos.
  destruct (Hq' Hpos) as (c' & ch & Ht & _ & _ & Hwat). rewrite Ht in Hx. injection Hx as <- _.
  by exists (pfd_fd q), (pfd_events q).
Defined.
End PollPoller_contract.

(** ** Properties *)
Section PollPoller_properties.
Context {B : Build} {K : Type} `{PollSys K, !PollLaws K, !ClockSys K}.
Implicit Types s : PollState PollPoller K.

(** [updateChannel] of the poll(2) poller: a new channel gets a slot of its
    own, a registered one keeps its slot; the array asks the kernel for exactly
    the mask of the channel, and an empty mask hides the descriptor from
    poll(2) without giving up the slot. *)
Lemma poll_updateChannel_refines s c ch :
  pp_inv s -> may_update (pp_watched s) c ch s ->
  wp (updateChannel c)
     (fun _ s' => pp_inv s' /\ frame s s' /\
        pp_channels (self s') = <[fd_ ch := c]> (pp_channels (self s)) /\
        pp_watched s' =
          if isNoneEvent (sts s) ch then delete (fd_ ch) (pp_watched s)
          else <[fd_ ch := (c, i16 (events_ ch))]> (pp_watched s)) s.
Proof. apply pp_updateChannel_spec. Qed.

(** C25. [removeChannel] of the poll(2) poller moves the last entry into the
    freed slot and corrects the index stored in its channel: every other
    registration, hidden ones included, still finds its entry. *)
Theorem poll_removeChannel_refines s c ch :
  pp_inv s -> may_remove (pp_watched s) c ch s ->
  wp (removeChannel c)
     (fun _ s' => pp_inv s' /\ frame s s' /\
        pp_channels (self s') = delete (fd_ ch) (pp_channels (self s)) /\
        pp_watched s' = pp_watched s) s.
Proof. apply pp_removeChannel_spec. Qed.

(** [poll] of the poll(2) poller: the scan that stops after [numEvents]
    entries finds every entry poll(2) marked, in array order, and reports only
    watched descriptors. *)
Lemma poll_poll_reports s timeoutMs active :
  pp_inv s ->
  wp (poll timeoutMs active)
     (fun r s' => exists fds,
        Forall2 polled (pollfds_ (self s)) fds /\ pollfds_ (self s') = fds /\
        let rep := match fst (fst (sys_poll (pollfds_ (self s)) timeoutMs (kern s))) with
                   | inl _ => fds | inr _ => [] end in
        r.2 = active ++ active_of (pp_channels (self s)) rep /\
        chans s' = report (pp_channels (self s)) rep (chans s) /\
        pp_inv s' /\ pp_watched s' = pp_watched s /\
        Forall (fun q => 0 < pfd_revents q -> exists c,
          pp_watched s !! pfd_fd q = Some (c, pfd_events q)) rep /\
        untouched s s') s.
Proof. apply pp_poll_spec. Qed.
End PollPoller_properties.

(** ** Witnesses, in a debug build *)

#[local] Existing Instance debug_build.

(** Three descriptors: 5 asks for reading, 6 is disabled, 7 asks for writing. *)
Definition three_channels : gmap chan Channel :=
  {[1%positive := set_index 0 (set_events 3 (Channel_ctor 1%positive 5));
    2%positive := set_index 1 (Channel_ctor 1%positive 6);
    3%positive := set_index 2 (set_events EPOLLOUT (Channel_ctor 1%positive 7))]}.

Definition three_state : PollState PollPoller poll_script :=
  mkPollState
    (mkPollPoller [mkPollfd 5 3 0; mkPollfd (- 6 - 1) 0 0; mkPollfd 7 EPOLLOUT 0]
       {[5 := 1%positive; 6 := 2%positive; 7 := 3%positive]})
    three_channels (initDefaultEvent LT) (PollScript [[(7, EPOLLOUT); (5, EPOLLIN)]] 100) 1 1.

Lemma three_inv : pp_inv three_state.
Proof.
  unfold pp_inv. split_and!; try by vm_compute.
  - intros fd c Hc. cbn in Hc. rewrite !lookup_insert_Some, lookup_singleton_Some in Hc.
    destruct Hc as [[<- <-]|[_ [[<- <-]|[_ [<- <-]]]]]; (split; [lia|]).
    + eexists _, 0%nat, _. split; [by vm_compute|]. by split_and!.
    + eexists _, 1%nat, _. split; [by vm_compute|]. by split_and!.
    + eexists _, 2%nat, _. split; [by vm_compute|]. by split_and!.
  - intros i pfd Hi. destruct i as [|[|[|i]]]; cbn in Hi; simplify_eq;
      (eexists _, _; split; [by vm_compute|]; split; [by vm_compute | done]).
  - repeat constructor; cbn; lia.
Qed.

Lemma poll_updateChannel_refines_witness :
  pp_inv three_state /\
  wp (updateChannel (B:=debug_build) 3%positive)
     (fun _ s' => pp_inv s' /\ frame three_state s' /\
        pp_channels (self s') = <[7 := 3%positive]> (pp_channels (self three_state)) /\
        pp_watched s' = <[7 := (3%positive, EPOLLOUT)]> (pp_watched three_state)) three_state.
Proof.
  split; [exact three_inv|].
  apply (poll_updateChannel_refines (B:=debug_build) three_state 3%positive
           (set_index 2 (set_events EPOLLOUT (Channel_ctor 1%positive 7))) three_inv).
  split_and!; try by vm_compute. right. by vm_compute.
Defined.

Lemma poll_removeChannel_refines_witness :
  pp_inv three_state /\
  wp (removeChannel (B:=debug_build) 2%positive)
     (fun _ s' => pp_inv s' /\ frame three_state s' /\
        pp_channels (self s') = delete 6 (pp_channels (self three_state)) /\
        pp_watched s' = pp_watched three_state) three_state.
Proof.
  split; [exact three_inv|].
  apply (poll_removeChannel_refines (B:=debug_build) three_state 2%positive
           (set_index 1 (Channel_ctor 1%positive 6)) three_inv).
  by split_and!; vm_compute.
Defined.

Lemma poll_poll_reports_witness :
  pp_inv three_state /\
  wp (poll (B:=debug_build) 10000 [])
     (fun r s' => exists fds,
        Forall2 polled (pollfds_ (self three_state)) fds /\ pollfds_ (self s') = fds /\
        r.2 = [] ++ active_of (pp_channels (self three_state)) fds /\
        chans s' = report (pp_channels (self three_state)) fds (chans three_state) /\
        pp_inv s' /\ pp_watched s' = pp_watched three_state /\
        Forall (fun q => 0 < pfd_revents q -> exists c,
          pp_watched three_state !! pfd_fd q = Some (c, pfd_events q)) fds /\
        untouched three_state s') three_state.
Proof.
  split; [exact three_inv|].
  exact (poll_poll_reports (B:=debug_build) three_state 10000 [] three_inv).
Defined.
