(* ===== verification/Pollers.v ===== *)
(** * Poller.h: the two pollers are interchangeable

    [Poller::newDefaultPoller] picks one implementation at run time; the loop
    only ever calls the virtual functions.  Both implementations meet
    [PollerContract], so any sequence of calls the loop may make leaves both
    with the same registrations. *)

From S2P Require Import Prelude Posix Callbacks Channel LoopThread Poller EpollPoller PollPoller.

(** ** The poller chosen at run time *)

Inductive AnyPoller : Type :=
| AnEpoll (p : EpollPoller)
| APoll (p : PollPoller).

Section AnyPoller.
Context {B : Build} {K : Type} `{EpollSys K} `{PollSys K} `{ClockSys K}.

Definition with_self {P P' : Type} (p : P') (s : PollState P K) : PollState P' K :=
  mkPollState p (chans s) (sts s) (kern s) (ownerThread s) (runningThread s).

(** A virtual call runs the method of the object's class. *)
Definition virtual {R} (me : M (PollState EpollPoller K) R) (mp : M (PollState PollPoller K) R) :
    M (PollState AnyPoller K) R :=
  fun s => match self s with
           | AnEpoll p => match me (with_self p s) with
                          | Ok (r, s') => Ok (r, with_self (AnEpoll (self s')) s')
                          | Err f => Err f
                          end
           | APoll p => match mp (with_self p s) with
                        | Ok (r, s') => Ok (r, with_self (APoll (self s')) s')
                        | Err f => Err f
                        end
           end.

#[export] Instance AnyPoller_ops : PollerOps AnyPoller K := {|
  table p := match p with AnEpoll p => ep_channels p | APoll p => pp_channels p end;
  Poller_updateChannel c := virtual (Poller_updateChannel c) (Poller_updateChannel c);
  Poller_removeChannel c := virtual (Poller_removeChannel c) (Poller_removeChannel c);
  Poller_poll timeoutMs active := virtual (Poller_poll timeoutMs active) (Poller_poll timeoutMs active);
|}.

(** [epollfd] is the result of [epoll_create1]. *)
Definition newDefaultPoller {S} (EPoll : bool) (epollfd : Z) : M S AnyPoller :=
  if EPoll then let! p := EpollPoller_ctor epollfd in ret (AnEpoll p)
  else ret (APoll PollPoller_ctor).
End AnyPoller.

Lemma wp_virtual_epoll {B : Build} {K R : Type} `{EpollSys K} (me : M (PollState EpollPoller K) R)
    (mp : M (PollState PollPoller K) R) Q s p :
  self s = AnEpoll p ->
  wp me (fun r s' => Q r (with_self (AnEpoll (self s')) s')) (with_self p s) ->
  wp (virtual me mp) Q s.
Proof.
  intros Hp. unfold virtual, wp. rewrite Hp. by destruct (me (with_self p s)) as [[r s']|].
Qed.

Section agreement.
Context {B : Build}.
Context {P1 K1 : Type} {O1 : PollerOps P1 K1} {C1 : PollerContract P1 K1}.
Context {P2 K2 : Type} {O2 : PollerOps P2 K2} {C2 : PollerContract P2 K2}.

(** Two states, of pollers of any kind, with the same registrations. *)
Definition agree (s1 : PollState P1 K1) (s2 : PollState P2 K2) : Prop :=
  poller_inv s1 /\ poller_inv s2 /\ sts s1 = sts s2 /\
  (forall c, fd_in (chans s1) c = fd_in (chans s2) c) /\
  table (self s1) = table (self s2) /\ watched s1 = watched s2.

Lemma run_calls_agree cls s1 s2 :
  agree s1 s2 -> legal_calls cls s1 -> legal_calls cls s2 ->
  exists s1' s2', run_calls cls s1 = Ok (tt, s1') /\ run_calls cls s2 = Ok (tt, s2') /\
    poller_inv s1' /\ poller_inv s2' /\
    table (self s1') = table (self s2') /\ watched s1' = watched s2'.
Proof.
  intros (HI1 & HI2 & Hst & Hfd & Ht & Hw) HL1 HL2.
  destruct (wp_inv _ _ _ (run_calls_spec cls s1 (fd_in (chans s2)) HI1 HL1 Hfd))
    as ([] & s1' & Hr1 & HI1' & He1).
  destruct (wp_inv _ _ _ (run_calls_spec cls s2 (fd_in (chans s2)) HI2 HL2 (fun _ => eq_refl)))
    as ([] & s2' & Hr2 & HI2' & He2).
  exists s1', s2'. rewrite Hst, Ht, Hw, <- He2 in He1. injection He1 as He He'.
  by split_and!.
Qed.
End agreement.

(** ** Properties *)
Section Pollers_properties.
Context {B : Build}.
Context {K1 : Type} `{EpollSys K1, !EpollLaws K1, !ClockSys K1}.
Context {K2 : Type} `{PollSys K2, !PollLaws K2, !ClockSys K2}.

(** C24. The epoll(7) and the poll(2) pollers are interchangeable: from states
    with the same registrations, every sequence of enable, disable and remove
    calls the loop may make runs without a fault on both and leaves the same
    table and the same watched descriptors with the same masks. *)
Theorem pollers_interchangeable cls (s1 : PollState EpollPoller K1)
    (s2 : PollState PollPoller K2) :
  agree s1 s2 -> legal_calls cls s1 -> legal_calls cls s2 ->
  exists s1' s2', run_calls cls s1 = Ok (tt, s1') /\ run_calls cls s2 = Ok (tt, s2') /\
    ep_channels (self s1') = pp_channels (self s2') /\
    epoll_watched s1' = pp_watched s2'.
Proof.
  intros HA HL1 HL2. destruct (run_calls_agree cls s1 s2 HA HL1 HL2)
    as (s1' & s2' & ? & ? & _ & _ & ? & ?). by exists s1', s2'.
Qed.
End Pollers_properties.

(** ** Witness: two channels come and one goes *)

#[local] Existing Instance debug_build.

Definition two_channels : gmap chan Channel :=
  {[1%positive := Channel_ctor 1%positive 5; 2%positive := Channel_ctor 1%positive 6]}.

Definition two_epoll : PollState EpollPoller epoll_script :=
  mkPollState (mkEpollPoller 3 (replicate 4 zero_event) ∅) two_channels (initDefaultEvent LT)
    (EpollScript ∅ [] 100) 1 1.

Definition two_poll : PollState PollPoller poll_script :=
  mkPollState (mkPollPoller [] ∅) two_channels (initDefaultEvent LT) (PollScript [] 100) 1 1.

Definition come_and_go : list call :=
  [CUpdate 1%positive 3; CUpdate 2%positive EPOLLOUT; CUpdate 1%positive 0; CRemove 1%positive].

Lemma two_agree : agree two_epoll two_poll.
Proof.
  split; [|split; [|done]].
  - split; [|split; [|by vm_compute]]; intros fd; cbn; rewrite lookup_empty; [done|].
    by intros [? ?].
  - split; [done|]. split; [done|]. split; [by vm_compute|]. split; [done|]. by constructor.
Qed.

(** Runs the first call of a concrete sequence. *)
Ltac run_first_call :=
  lazymatch goal with
  | |- match run_call ?cl ?s with _ => _ end =>
      let r := eval vm_compute in (run_call cl s) in
      replace (run_call cl s) with r by (vm_compute; reflexivity); cbv beta iota
  end.

(** A call is legal in a concrete state. *)
Ltac legal_concrete :=
  eexists; unfold may_update, may_remove; split_and!;
  vm_compute; first [done | by left; split | by right | by eexists].

Lemma two_legal_epoll : legal_calls come_and_go two_epoll.
Proof. do 4 (split; [legal_concrete | run_first_call]). done. Qed.

Lemma two_legal_poll : legal_calls come_and_go two_poll.
Proof. do 4 (split; [legal_concrete | run_first_call]). done. Qed.

Lemma pollers_interchangeable_witness :
  exists s1' s2', run_calls come_and_go two_epoll = Ok (tt, s1') /\
    run_calls come_and_go two_poll = Ok (tt, s2') /\
    ep_channels (self s1') = pp_channels (self s2') /\
    epoll_watched s1' = pp_watched s2'.
Proof.
  exact (pollers_interchangeable come_and_go two_epoll two_poll two_agree two_legal_epoll
           two_legal_poll).
Defined.
