(* ===== verification/Timer.v ===== *)
(** * Timer.h and the pure part of TimerQueue.cc

    Times are nanoseconds in a signed 64-bit integer, as in [std::chrono]; the
    set of timers is a [std::set] of pairs of a time and an address, ordered
    lexicographically. *)

From stdpp Require Import sorting.
From S2P Require Import Prelude Callbacks.

(** ** Timer *)
Record Timer : Type := mkTimer {
  callback_ : option Functor;
  when_ : Z;
  interval_ : Z;
  repeat_ : bool;
  canceled_ : bool;
}.

#[global] Instance Timer_eq_dec : EqDecision Timer.
Proof. solve_decision. Defined.

Definition Timer_ctor (callback : option Functor) (when interval : Z) : Timer :=
  mkTimer callback when interval (0 <? interval) false.

Definition expired (now : Z) (t : Timer) : bool := when_ t <=? now.

(** [when_ += interval_] *)
Definition restart {B : Build} (t : Timer) : res Timer :=
  if negb NDEBUG && negb (repeat_ t) then Err AssertFailed
  else match i64_checked (when_ t + interval_ t) with
       | Ok w => Ok (mkTimer (callback_ t) w (interval_ t) (repeat_ t) (canceled_ t))
       | Err f => Err f
       end.

Definition cancel {B : Build} (t : Timer) : res Timer :=
  if negb NDEBUG && canceled_ t then Err AssertFailed
  else Ok (mkTimer (callback_ t) (when_ t) (interval_ t) (repeat_ t) true).

(** ** Entry and TimerList: [std::set<std::pair<Timestamp, Timer*>>] *)
Abbreviation Entry := (Z * timer)%type (only parsing).

(** Pairs are compared by time, then by address; an address is a positive
    number and [nullptr] is 0. *)
Definition before (a b : Z * Z) : bool := (a.1 <? b.1) || ((a.1 =? b.1) && (a.2 <? b.2)).

Definition key (e : Entry) : Z * Z := (e.1, Z.pos e.2).

(** [insert]: the set, and whether the entry is new. *)
Fixpoint set_insert (e : Entry) (l : list Entry) : list Entry * bool :=
  match l with
  | [] => ([e], true)
  | x :: l' =>
      if before (key e) (key x) then (e :: l, true)
      else if before (key x) (key e) then let r := set_insert e l' in (x :: r.1, r.2)
      else (l, false)
  end.

(** [erase] of a key. *)
Definition set_erase (e : Entry) (l : list Entry) : list Entry :=
  filter (fun x => x <> e) l.

(** [lower_bound]: the entries below the bound, and the rest. *)
Fixpoint split_lower (en : Z * Z) (l : list Entry) : list Entry * list Entry :=
  match l with
  | [] => ([], [])
  | x :: l' =>
      if before (key x) en then let r := split_lower en l' in (x :: r.1, r.2)
      else ([], l)
  end.

(** ** durationFromNow *)

Definition one_ms : Z := 1000000.
Definition nano_den : Z := 1000000000.

(** [tv_sec] and [tv_nsec] of the answer; division and remainder truncate. *)
Definition durationFromNow (when now : Z) : res (Z * Z) :=
  match i64_checked (when - now) with
  | Ok ns =>
      let ns := if ns <? one_ms then one_ms else ns in
      Ok (Z.quot ns nano_den, Z.rem ns nano_den)
  | Err f => Err f
  end.

(** ** The order of a timer list *)

Definition entry_lt (a b : Entry) : Prop := before (key a) (key b) = true.

Definition sorted (l : list Entry) : Prop := StronglySorted entry_lt l.

(** ** Lemmas *)

Lemma before_spec a b : before a b = true <-> a.1 < b.1 \/ (a.1 = b.1 /\ a.2 < b.2).
Proof. unfold before. rewrite orb_true_iff, andb_true_iff, !Z.ltb_lt, Z.eqb_eq. lia. Qed.

Lemma entry_lt_spec (a b : Entry) :
  entry_lt a b <-> a.1 < b.1 \/ (a.1 = b.1 /\ Z.pos a.2 < Z.pos b.2).
Proof. unfold entry_lt. by rewrite before_spec. Qed.

Lemma entry_lt_irrefl a : ~ entry_lt a a.
Proof. rewrite entry_lt_spec. lia. Qed.

Lemma entry_lt_trans a b c : entry_lt a b -> entry_lt b c -> entry_lt a c.
Proof. rewrite !entry_lt_spec. lia. Qed.

(** Neither before the other: the same entry. *)
Lemma entry_total (a b : Entry) :
  before (key a) (key b) = false -> before (key b) (key a) = false -> a = b.
Proof.
  destruct a as [w a], b as [w' b]. intros H1 H2.
  apply not_true_iff_false in H1, H2. rewrite before_spec in H1, H2. cbn in *.
  f_equal; [lia|]. assert (Z.pos a = Z.pos b) as [= ->]; [lia | done].
Qed.

Lemma sorted_nodup l : sorted l -> NoDup l.
Proof.
  induction 1 as [|x l Hl IH Hx]; constructor; [|done].
  intros Hin. apply (entry_lt_irrefl x). by eapply (Forall_forall _ l).
Qed.

Lemma sorted_cons x l : sorted (x :: l) <-> Forall (entry_lt x) l /\ sorted l.
Proof.
  split; [by inversion 1 | intros [? ?]; by constructor].
Qed.

Lemma set_insert_elem e l x : x ∈ (set_insert e l).1 <-> x = e \/ x ∈ l.
Proof.
  induction l as [|y l IH]; cbn; [by rewrite list_elem_of_singleton, elem_of_nil; intuition|].
  destruct (before (key e) (key y)) eqn:H1; cbn; [by rewrite elem_of_cons|].
  destruct (before (key y) (key e)) eqn:H2; cbn; rewrite !elem_of_cons; [rewrite IH; tauto|].
  rewrite (entry_total _ _ H1 H2). tauto.
Qed.

Lemma set_insert_sorted e l : sorted l -> sorted (set_insert e l).1.
Proof.
  intros Hl. induction Hl as [|y l Hl IH Hy]; cbn; [repeat constructor|].
  destruct (before (key e) (key y)) eqn:H1; cbn.
  - constructor; [by constructor|]. constructor; [done|].
    eapply Forall_impl; [exact Hy|]. intros z Hz. by eapply entry_lt_trans.
  - destruct (before (key y) (key e)) eqn:H2; cbn; [|by constructor].
    constructor; [done|]. apply Forall_forall. intros z.
    rewrite set_insert_elem. intros [-> | Hz]; [done|]. by eapply Forall_forall.
Qed.

Lemma set_insert_new e l : e ∉ l -> (set_insert e l).2 = true.
Proof.
  induction l as [|y l IH]; cbn; [done|]. intros Hn.
  destruct (before (key e) (key y)) eqn:H1; [done|].
  rewrite elem_of_cons in Hn. destruct (before (key y) (key e)) eqn:H2; cbn; [apply IH; tauto|].
  rewrite (entry_total _ _ H1 H2) in Hn. tauto.
Qed.

Lemma set_erase_elem e l x : x ∈ set_erase e l <-> x ∈ l /\ x <> e.
Proof. unfold set_erase. rewrite list_elem_of_filter. tauto. Qed.

Lemma set_erase_sorted e l : sorted l -> sorted (set_erase e l).
Proof.
  unfold set_erase. induction 1 as [|y l Hl IH Hy]; [constructor|].
  rewrite filter_cons. case_decide; [|done]. constructor; [done|].
  apply Forall_forall. intros z Hz. apply list_elem_of_filter in Hz as [_ Hz].
  by eapply Forall_forall.
Qed.

Lemma split_lower_app en l : (split_lower en l).1 ++ (split_lower en l).2 = l.
Proof.
  induction l as [|x l IH]; cbn; [done|]. destruct (before (key x) en); cbn; [by rewrite IH | done].
Qed.

Lemma split_lower_low en l : Forall (fun x => before (key x) en = true) (split_lower en l).1.
Proof.
  induction l as [|x l IH]; cbn; [constructor|].
  destruct (before (key x) en) eqn:Hx; cbn; by constructor.
Qed.

Lemma split_lower_high en l :
  sorted l -> Forall (fun x => before (key x) en = false) (split_lower en l).2.
Proof.
  induction 1 as [|x l Hl IH Hx]; cbn; [constructor|].
  destruct (before (key x) en) eqn:Hb; cbn; [done|]. constructor; [done|].
  eapply Forall_impl; [exact Hx|]. intros y Hy. apply not_true_iff_false in Hb.
  apply not_true_iff_false. rewrite entry_lt_spec in Hy. rewrite before_spec in Hb |- *.
  cbn in *. lia.
Qed.

Lemma sorted_app l1 l2 : sorted (l1 ++ l2) ->
  sorted l1 /\ sorted l2 /\ forall x y, x ∈ l1 -> y ∈ l2 -> entry_lt x y.
Proof.
  induction l1 as [|x l1 IH]; cbn; [intros; split_and!; [constructor | done | set_solver]|].
  intros H. apply sorted_cons in H as [Hx Hl]. apply IH in Hl as (H1 & H2 & H12).
  rewrite Forall_app in Hx. destruct Hx as [Hx1 Hx2].
  split_and!; [by apply sorted_cons | done |]. intros a b Ha Hb.
  apply elem_of_cons in Ha as [-> | Ha]; [by eapply (Forall_forall _ l2) | by apply H12].
Qed.

Lemma before_bound (e : Entry) now : before (key e) (now + 1, 0) = true <-> e.1 <= now.
Proof. rewrite before_spec. cbn. lia. Qed.

Lemma filter_all {A} (P : A -> Prop) `{forall x, Decision (P x)} l :
  Forall P l -> filter P l = l.
Proof. induction 1; [done|]. rewrite filter_cons. by case_decide; [f_equal|]. Qed.

Lemma filter_none {A} (P : A -> Prop) `{forall x, Decision (P x)} l :
  Forall (fun x => ~ P x) l -> filter P l = [].
Proof. induction 1; [done|]. rewrite filter_cons. by case_decide. Qed.

(** The bound [(now + 1ns, nullptr)] separates the times up to [now]. *)
Lemma split_lower_filter now l :
  sorted l ->
  split_lower (now + 1, 0) l =
    (filter (fun e => e.1 <= now) l, filter (fun e => ~ e.1 <= now) l).
Proof.
  intros Hs. set (r := split_lower _ _).
  assert (Hlow : Forall (fun e : Entry => e.1 <= now) r.1).
  { eapply Forall_impl; [apply split_lower_low|]. intros e. apply before_bound. }
  assert (Hhigh : Forall (fun e : Entry => ~ e.1 <= now) r.2).
  { eapply Forall_impl; [by apply split_lower_high|]. intros e He Hle.
    apply before_bound in Hle. cbn in He. congruence. }
  rewrite <- (split_lower_app (now + 1, 0) l). fold r. rewrite !filter_app.
  rewrite (filter_all _ r.1), (filter_none _ r.2), (filter_none _ r.1), (filter_all _ r.2);
    rewrite ?app_nil_r; try done; [by destruct r|].
  eapply Forall_impl; [exact Hlow|]. by intros e He Hn.
Qed.

Lemma durationFromNow_spec when now :
  in_i64 (when - now) = true ->
  exists sec nsec, durationFromNow when now = Ok (sec, nsec) /\
    0 <= sec /\ 0 <= nsec < nano_den /\ sec * nano_den + nsec = Z.max one_ms (when - now).
Proof.
  intros Hr. unfold durationFromNow. rewrite (i64_checked_ok _ Hr).
  eexists _, _. split; [done|].
  assert (Hmax : (if when - now <? one_ms then one_ms else when - now) = Z.max one_ms (when - now))
    by (zcase; lia).
  rewrite Hmax. set (ns := Z.max one_ms (when - now)).
  assert (0 < ns) by (unfold ns, one_ms; lia).
  pose proof (Z.quot_rem' ns nano_den) as Hqr.
  pose proof (Z.rem_bound_pos ns nano_den ltac:(lia) ltac:(unfold nano_den; lia)).
  pose proof (Z.quot_pos ns nano_den ltac:(lia) ltac:(unfold nano_den; lia)).
  unfold nano_den in *. lia.
Qed.

(** ** Properties *)

(** The argument [timerfd_settime] gets is a legal [timespec]: both fields
    are non-negative, [tv_nsec] is below 10^9, and together they are the time
    left, but never less than a millisecond, so the timer is never disarmed by a
    time that has passed. *)
Lemma durationFromNow_legal when now :
  in_i64 (when - now) = true ->
  exists sec nsec, durationFromNow when now = Ok (sec, nsec) /\
    0 <= sec /\ 0 <= nsec < nano_den /\ 0 < sec + nsec /\
    sec * nano_den + nsec = Z.max one_ms (when - now).
Proof.
  intros Hr. destruct (durationFromNow_spec when now Hr) as (sec & nsec & H1 & H2 & H3 & H4).
  exists sec, nsec. split_and!; try done; try lia. unfold one_ms, nano_den in *. lia.
Qed.

Lemma durationFromNow_legal_witness :
  in_i64 (5 - 2500000000) = true /\
  exists sec nsec, durationFromNow 5 2500000000 = Ok (sec, nsec) /\
    0 <= sec /\ 0 <= nsec < nano_den /\ 0 < sec + nsec /\
    sec * nano_den + nsec = Z.max one_ms (5 - 2500000000).
Proof. split; [reflexivity|]. exact (durationFromNow_legal 5 2500000000 eq_refl). Defined.
