(* ===== verification/Reactor.v ===== *)
(** * EventLoop.h, EventLoop.cc: the state of one loop, its task queue and its channels

    [Reactor] holds the members of an [EventLoop], the objects they point to,
    and what the loop shares with its kernel.  [objs] is room for the objects
    that live on the loop: connections, connectors.  [EventLoop.v] has the
    constructor and [loop()], which also need the timers of [TimerQueue.v]. *)

From S2P Require Import Prelude Posix Callbacks Timer Channel LoopThread Poller.

(** The members of [TimerQueue]. *)
Record TimerQueue : Type := mkTimerQueue {
  timerfd_ : Z;
  timerChannel_ : chan;
  timers_ : list Entry;
}.

Record Reactor (P K X : Type) : Type := mkReactor {
  this_loop : loop_id;
  looping_ : bool;
  quit_ : bool;
  callingPendingFunctors_ : bool;
  pollReturnTime_ : Z;
  poller_ : PollState P K;
  timerQueue_ : TimerQueue;
  timers : gmap timer Timer;
  wakeupFd_ : Z;
  wakeupChannel_ : chan;
  activeChannels_ : list chan;
  pendingFunctors_ : list Functor;
  objs : X;
}.
Arguments mkReactor {P K X}.
Arguments this_loop {P K X}.
Arguments looping_ {P K X}.
Arguments quit_ {P K X}.
Arguments callingPendingFunctors_ {P K X}.
Arguments pollReturnTime_ {P K X}.
Arguments poller_ {P K X}.
Arguments timerQueue_ {P K X}.
Arguments timers {P K X}.
Arguments wakeupFd_ {P K X}.
Arguments wakeupChannel_ {P K X}.
Arguments activeChannels_ {P K X}.
Arguments pendingFunctors_ {P K X}.
Arguments objs {P K X}.

Section fields.
Context {P K X : Type}.
Implicit Types s : Reactor P K X.

Definition set_looping (b : bool) s : Reactor P K X :=
  mkReactor (this_loop s) b (quit_ s) (callingPendingFunctors_ s) (pollReturnTime_ s) (poller_ s)
    (timerQueue_ s) (timers s) (wakeupFd_ s) (wakeupChannel_ s) (activeChannels_ s)
    (pendingFunctors_ s) (objs s).
Definition set_quit (b : bool) s : Reactor P K X :=
  mkReactor (this_loop s) (looping_ s) b (callingPendingFunctors_ s) (pollReturnTime_ s) (poller_ s)
    (timerQueue_ s) (timers s) (wakeupFd_ s) (wakeupChannel_ s) (activeChannels_ s)
    (pendingFunctors_ s) (objs s).
Definition set_calling (b : bool) s : Reactor P K X :=
  mkReactor (this_loop s) (looping_ s) (quit_ s) b (pollReturnTime_ s) (poller_ s)
    (timerQueue_ s) (timers s) (wakeupFd_ s) (wakeupChannel_ s) (activeChannels_ s)
    (pendingFunctors_ s) (objs s).
Definition set_returned (t : Z) (active : list chan) s : Reactor P K X :=
  mkReactor (this_loop s) (looping_ s) (quit_ s) (callingPendingFunctors_ s) t (poller_ s)
    (timerQueue_ s) (timers s) (wakeupFd_ s) (wakeupChannel_ s) active
    (pendingFunctors_ s) (objs s).
Definition set_wakeup (fd : Z) (c : chan) s : Reactor P K X :=
  mkReactor (this_loop s) (looping_ s) (quit_ s) (callingPendingFunctors_ s) (pollReturnTime_ s)
    (poller_ s) (timerQueue_ s) (timers s) fd c (activeChannels_ s) (pendingFunctors_ s) (objs s).

Definition poller_lens : lens (Reactor P K X) (PollState P K) :=
  Lens poller_ (fun p s =>
    mkReactor (this_loop s) (looping_ s) (quit_ s) (callingPendingFunctors_ s) (pollReturnTime_ s) p
      (timerQueue_ s) (timers s) (wakeupFd_ s) (wakeupChannel_ s) (activeChannels_ s)
      (pendingFunctors_ s) (objs s)).
Definition timerQueue_lens : lens (Reactor P K X) TimerQueue :=
  Lens timerQueue_ (fun q s =>
    mkReactor (this_loop s) (looping_ s) (quit_ s) (callingPendingFunctors_ s) (pollReturnTime_ s)
      (poller_ s) q (timers s) (wakeupFd_ s) (wakeupChannel_ s) (activeChannels_ s)
      (pendingFunctors_ s) (objs s)).
Definition timers_lens : lens (Reactor P K X) (gmap timer Timer) :=
  Lens timers (fun h s =>
    mkReactor (this_loop s) (looping_ s) (quit_ s) (callingPendingFunctors_ s) (pollReturnTime_ s)
      (poller_ s) (timerQueue_ s) h (wakeupFd_ s) (wakeupChannel_ s) (activeChannels_ s)
      (pendingFunctors_ s) (objs s)).
Definition pending_lens : lens (Reactor P K X) (list Functor) :=
  Lens pendingFunctors_ (fun l s =>
    mkReactor (this_loop s) (looping_ s) (quit_ s) (callingPendingFunctors_ s) (pollReturnTime_ s)
      (poller_ s) (timerQueue_ s) (timers s) (wakeupFd_ s) (wakeupChannel_ s) (activeChannels_ s)
      l (objs s)).
Definition objs_lens : lens (Reactor P K X) X :=
  Lens objs (fun x s =>
    mkReactor (this_loop s) (looping_ s) (quit_ s) (callingPendingFunctors_ s) (pollReturnTime_ s)
      (poller_ s) (timerQueue_ s) (timers s) (wakeupFd_ s) (wakeupChannel_ s) (activeChannels_ s)
      (pendingFunctors_ s) x).

(** One of the objects. *)
Definition obj_lens {T} (l : lens X T) : lens (Reactor P K X) T :=
  Lens (fun s => lget l (objs s)) (fun t s => lset objs_lens (lset l t (objs s)) s).

(** The kernel, and the channels in memory. *)
Definition os_lens : lens (Reactor P K X) K :=
  Lens (fun s => kern (poller_ s))
       (fun k s => lset poller_lens (lset kern_lens k (poller_ s)) s).
Definition memory_lens : lens (Reactor P K X) (gmap chan Channel) :=
  Lens (fun s => chans (poller_ s))
       (fun h s => lset poller_lens (lset chans_lens h (poller_ s)) s).

#[export] Instance Reactor_heap : ChannelHeap (Reactor P K X) := {|
  statics s := sts (poller_ s);
  channels := memory_lens;
|}.

#[export] Instance Reactor_thread : InThread (Reactor P K X) := {|
  threadId_ s := ownerThread (poller_ s);
  this_thread s := runningThread (poller_ s);
|}.
End fields.

Section Reactor_ops.
Context {B : Build} {P K X : Type} `{PollerOps P K} `{SysCalls K}.

(** ** Channels *)
Definition owned_by_this (c : chan) : M (Reactor P K X) bool :=
  let! ch := ch_get c in
  let! s := get in
  ret (bool_decide (loop_ ch = this_loop s)).

Definition updateChannel (c : chan) : M (Reactor P K X) unit :=
  assert_of (owned_by_this c) ;;
  assertInLoopThread ;;
  zoom poller_lens (Poller_updateChannel c).

Definition removeChannel (c : chan) : M (Reactor P K X) unit :=
  assert_of (owned_by_this c) ;;
  assertInLoopThread ;;
  zoom poller_lens (Poller_removeChannel c).

#[export] Instance Reactor_host : ChannelHost (Reactor P K X) := {|
  EventLoop_updateChannel := updateChannel;
  EventLoop_removeChannel := removeChannel;
|}.

(** ** The wake-up descriptor *)

(** The eight bytes of [uint64_t one = 1], little endian. *)
Definition one_bytes : list byte := [x01; x00; x00; x00; x00; x00; x00; x00].

(** A short or failed transfer is only logged. *)
Definition wakeup : M (Reactor P K X) unit :=
  let! s := get in
  let! n := zoom os_lens (total (sys_write (wakeupFd_ s) one_bytes)) in
  ret tt.

Definition handleRead : M (Reactor P K X) unit :=
  let! s := get in
  let! n := zoom os_lens (total (sys_readv (wakeupFd_ s) 8)) in
  ret tt.

(** ** Tasks *)
Definition queueInLoop (cb : Functor) : M (Reactor P K X) unit :=
  zoom pending_lens (modify (fun l => l ++ [cb])) ;;
  let! s := get in
  whenb (negb (isInLoopThread s) || callingPendingFunctors_ s) wakeup.

(** [run] is what calling [cb] does. *)
Definition runInLoop (run : M (Reactor P K X) unit) (cb : Functor) : M (Reactor P K X) unit :=
  let! s := get in
  if isInLoopThread s then run else queueInLoop cb.

Definition doPendingFunctors (run : Functor -> M (Reactor P K X) unit) :
    M (Reactor P K X) unit :=
  modify (set_calling true) ;;
  let! functors := gets pendingFunctors_ in
  zoom pending_lens (modify (fun _ => [])) ;;
  for_each functors run ;;
  modify (set_calling false).

Definition quit : M (Reactor P K X) unit :=
  modify (set_quit true) ;;
  let! s := get in
  whenb (negb (isInLoopThread s)) wakeup.

End Reactor_ops.


#[export] Instance obj_lens_laws {P K X T} (l : lens X T) `{!LensLaws l} :
  LensLaws (obj_lens (P:=P) (K:=K) l).
Proof.
  split; intros; cbn.
  - apply lget_lset.
  - by rewrite lset_lset.
  - rewrite lset_lget. by destruct s.
Qed.

(** ** Lemmas on tasks *)
Section Reactor_tasks.
Context {P K X : Type} `{SysCalls K}.
Implicit Types s : Reactor P K X.

(** The state after [queueInLoop(cb)]: the task is at the end of the queue, and
    the wake-up descriptor is written when the loop may be asleep, or busy with
    the tasks it took before. *)
Definition queued (cb : Functor) s : Reactor P K X :=
  let s1 := lset pending_lens (pendingFunctors_ s ++ [cb]) s in
  if negb (isInLoopThread s) || callingPendingFunctors_ s
  then lset os_lens (sys_write (wakeupFd_ s) one_bytes (lget os_lens s)).2 s1
  else s1.

Lemma queueInLoop_ok cb s : queueInLoop cb s = Ok (tt, queued cb s).
Proof.
  unfold queueInLoop, queued, bind at 1. unfold zoom at 1, modify, bind at 1, get.
  change (isInLoopThread (lset pending_lens ?l s)) with (isInLoopThread s).
  change (callingPendingFunctors_ (lset pending_lens ?l s)) with (callingPendingFunctors_ s).
  destruct (negb (isInLoopThread s) || callingPendingFunctors_ s); [|done].
  cbn [whenb]. unfold wakeup, bind at 1, get. by rewrite bind_zoom_total.
Qed.

(** The tasks of the queue, one after the other. *)
Lemma wp_doPendingFunctors run (Q : unit -> Reactor P K X -> Prop) s :
  wp (for_each (pendingFunctors_ s) run) (fun _ s' => Q tt (set_calling false s'))
     (lset pending_lens [] (set_calling true s)) ->
  wp (doPendingFunctors run) Q s.
Proof.
  intros HQ. unfold doPendingFunctors. wp_simp. eapply wp_mono; [exact HQ|].
  intros [] s' HQ'. by wp_simp.
Qed.

Lemma wp_one_task run f (Q : unit -> Reactor P K X -> Prop) s :
  pendingFunctors_ s = [f] ->
  wp (run f) (fun _ s' => Q tt (set_calling false s')) (lset pending_lens [] (set_calling true s)) ->
  wp (doPendingFunctors run) Q s.
Proof.
  intros Hp HQ. apply wp_doPendingFunctors. rewrite Hp. cbn [for_each]. by wp_simp.
Qed.

Lemma wp_queueInLoop cb s (Q : unit -> Reactor P K X -> Prop) :
  Q tt (queued cb s) -> wp (queueInLoop cb) Q s.
Proof. intros HQ. eapply wp_ok; [apply queueInLoop_ok | done]. Qed.

(** [runInLoop] in the thread of the loop, and in another one. *)
Lemma wp_runInLoop_here (m : M (Reactor P K X) unit) cb s (Q : unit -> Reactor P K X -> Prop) :
  isInLoopThread s = true -> wp m Q s -> wp (runInLoop m cb) Q s.
Proof. intros Hin HQ. unfold runInLoop. wp_simp. by rewrite Hin. Qed.

Lemma wp_runInLoop_elsewhere (m : M (Reactor P K X) unit) cb s (Q : unit -> Reactor P K X -> Prop) :
  isInLoopThread s = false -> Q tt (queued cb s) -> wp (runInLoop m cb) Q s.
Proof. intros Hin HQ. unfold runInLoop. wp_simp. rewrite Hin. by apply wp_queueInLoop. Qed.

(** A system call, its outcome named. *)
Lemma wp_os {A} (f : K -> A * K) (Q : A -> Reactor P K X -> Prop) s :
  (forall r k, f (lget os_lens s) = (r, k) -> Q r (lset os_lens k s)) ->
  wp (zoom os_lens (total f)) Q s.
Proof. intros HQ. apply wp_zoom, wp_total. apply HQ. by destruct (f _). Qed.

Lemma queued_same cb s :
  objs (queued cb s) = objs s /\ pendingFunctors_ (queued cb s) = pendingFunctors_ s ++ [cb] /\
  lget memory_lens (queued cb s) = lget memory_lens s /\ statics (queued cb s) = statics s /\
  isInLoopThread (queued cb s) = isInLoopThread s /\ this_loop (queued cb s) = this_loop s.
Proof. unfold queued. by destruct (negb (isInLoopThread s) || callingPendingFunctors_ s). Qed.
End Reactor_tasks.

(** ** Channels of a loop whose poller meets its contract *)
Section Reactor_channels.
Context {B : Build} {P K X : Type} `{PollerContract P K} `{!SysCalls K, !Quiet K, !QuietPoller P K}.
Implicit Types s : Reactor P K X.

(** Channel [c] is alive, belongs to this loop and is known to its poller. *)
Definition registered s (c : chan) (ch : Channel) : Prop :=
  poller_inv (poller_ s) /\ isInLoopThread s = true /\ lget memory_lens s !! c = Some ch /\
  loop_ ch = this_loop s /\ 0 <= fd_ ch /\
  table (self (poller_ s)) !! fd_ ch = Some c /\
  Z.of_nat (size (table (self (poller_ s)))) < 2 ^ 31 - 1.

Lemma registered_poller s s' c ch :
  poller_ s' = poller_ s -> this_loop s' = this_loop s -> registered s c ch -> registered s' c ch.
Proof.
  unfold registered, isInLoopThread. cbn. intros -> ->. done.
Qed.

(** A quiet system call changes nothing of the above. *)
Lemma registered_kernel s c ch k :
  quiet (lget os_lens s) k -> registered s c ch ->
  registered (lset os_lens k s) c ch /\
  watched (poller_ (lset os_lens k s)) = watched (poller_ s).
Proof.
  intros Hq (HI & Hrest). destruct (quiet_law k (poller_ s) Hq HI) as [HI' Hw].
  split; [by split | done].
Qed.

Lemma wp_owned_by_this s c ch Q :
  lget memory_lens s !! c = Some ch -> loop_ ch = this_loop s -> Q tt s ->
  wp (assert_of (owned_by_this c)) Q s.
Proof.
  intros Hc Hl HQ. apply wp_assert_of; [|done]. unfold owned_by_this, bind at 1.
  rewrite (ch_get_ok _ _ ch) by done. unfold bind, get, ret. by rewrite bool_decide_eq_true_2.
Qed.

Lemma registered_queued cb s c ch :
  registered s c ch ->
  registered (queued cb s) c ch /\ watched (poller_ (queued cb s)) = watched (poller_ s).
Proof.
  intros Hr. unfold queued. destruct (negb (isInLoopThread s) || callingPendingFunctors_ s).
  - apply (registered_kernel (lset pending_lens (pendingFunctors_ s ++ [cb]) s));
      [apply quiet_write | by apply (registered_poller s)].
  - split; [by apply (registered_poller s) | done].
Qed.

(** The channel that [enableReading] and the like leave. *)
Definition interested (ev : Z) (ch : Channel) : Channel := set_addedToLoop true (set_events ev ch).

(** Channel [c] may be handed to the poller: it is alive, belongs to this loop
    and is either known to the poller or new to it. *)
Definition watchable s (c : chan) (ch : Channel) : Prop :=
  poller_inv (poller_ s) /\ isInLoopThread s = true /\ lget memory_lens s !! c = Some ch /\
  loop_ ch = this_loop s /\ 0 <= fd_ ch /\
  ((index_ ch = -1 /\ table (self (poller_ s)) !! fd_ ch = None) \/
   table (self (poller_ s)) !! fd_ ch = Some c) /\
  Z.of_nat (size (table (self (poller_ s)))) < 2 ^ 31 - 1.

(** [enableReading] and the like: the mask reaches the channel and the poller. *)
Lemma wp_set_interest_any f s c ch (Q : unit -> Reactor P K X -> Prop) :
  watchable s c ch ->
  let ev := f (statics s) (events_ ch) in
  (ev = kNoneEvent (statics s) -> is_Some (watched (poller_ s) !! fd_ ch)) ->
  (forall p' ch', let s' := lset poller_lens p' s in
     poller_inv p' -> lget memory_lens s' !! c = Some ch' -> isInLoopThread s' = true -> this_thread s' = this_thread s ->
     set_index 0 ch' = set_index 0 (interested ev ch) -> statics s' = statics s ->
     table (self p') = <[fd_ ch := c]> (table (self (poller_ s))) ->
     watched p' = spec_update encode (ev =? kNoneEvent (statics s)) (fd_ ch) c ev (watched (poller_ s)) ->
     Q tt s') ->
  wp (set_interest f c) Q s.
Proof.
  intros (HI & Hin & Hc & Hl & Hfd & Ht & Hsz) ev Hnone HQ. unfold set_interest. wp_simp.
  apply wp_ch_modify. exists ch. split; [done|]. unfold Channel.update. wp_simp.
  apply wp_ch_modify. eexists. split; [apply lookup_insert_eq|].
  cbn [EventLoop_updateChannel Reactor_host]. unfold updateChannel. wp_simp.
  eapply wp_owned_by_this; [apply lookup_insert_eq | done |]. wp_simp.
  apply wp_assertInLoopThread; [done|]. wp_simp.
  set (p1 := lget poller_lens _).
  assert (Hp1 : p1 = lset chans_lens (<[c := interested ev ch]> (chans (poller_ s))) (poller_ s)).
  { unfold p1, interested. destruct s as [? ? ? ? ? []]; cbn. by rewrite insert_insert_eq. }
  destruct (memory_law c ch (interested ev ch) (poller_ s) HI Hc eq_refl eq_refl) as [HI1 Hw1].
  rewrite <- Hp1 in HI1, Hw1.
  eapply wp_mono; [apply (update_law c (interested ev ch)); [done|]|].
  - rewrite Hw1, Hp1. split_and!; try done; [by apply lookup_insert_eq|].
    intros He. apply Hnone. by apply Z.eqb_eq in He.
  - intros [] p' (HI' & (Hf & Hst & Ho & Hr) & Ht' & Hw'). rewrite Hw1, Hp1 in *. cbn in *.
    specialize (Hf c) as Hfc. rewrite lookup_insert_eq in Hfc.
    destruct (chans p' !! c) as [ch'|] eqn:Hch'; [|done]. cbn in Hfc. apply (inj Some) in Hfc as Hch.
    apply (HQ p' ch'); try done. unfold isInLoopThread in *. cbn in *. by rewrite Ho, Hr.
Qed.

Lemma registered_interested p' s c ch ch' ev :
  let s' := lset poller_lens p' s in
  loop_ ch = this_loop s -> 0 <= fd_ ch -> Z.of_nat (size (table (self p'))) < 2 ^ 31 - 1 ->
  poller_inv p' -> lget memory_lens s' !! c = Some ch' -> isInLoopThread s' = true ->
  set_index 0 ch' = set_index 0 (interested ev ch) ->
  table (self p') = <[fd_ ch := c]> (table (self (poller_ s))) -> registered s' c ch'.
Proof.
  intros s' Hl Hfd Hsz HI Hc Hin Hch Ht. pose proof (f_equal fd_ Hch) as Hfd'.
  pose proof (f_equal loop_ Hch) as Hl'. cbn in Hfd', Hl'. unfold registered. cbn.
  rewrite Hfd', Hl'. split_and!; try done. rewrite Ht. apply lookup_insert_eq.
Qed.

(** A channel the poller knows already. *)
Lemma wp_set_interest_table f s c ch (Q : unit -> Reactor P K X -> Prop) :
  registered s c ch ->
  let ev := f (statics s) (events_ ch) in
  (ev = kNoneEvent (statics s) -> is_Some (watched (poller_ s) !! fd_ ch)) ->
  (forall p' ch', let s' := lset poller_lens p' s in
     registered s' c ch' -> set_index 0 ch' = set_index 0 (interested ev ch) ->
     statics s' = statics s -> this_thread s' = this_thread s ->
     table (self p') = table (self (poller_ s)) ->
     watched p' = spec_update encode (ev =? kNoneEvent (statics s)) (fd_ ch) c ev (watched (poller_ s)) ->
     Q tt s') ->
  wp (set_interest f c) Q s.
Proof.
  intros (HI & Hin & Hc & Hl & Hfd & Ht & Hsz) ev Hnone HQ.
  apply (wp_set_interest_any f s c ch); [by split_and!; try done; right | done |].
  intros p' ch' s' HI' Hc' Hin' Hth Hch Hst Ht' Hw'. assert (Ht'' := Ht').
  rewrite insert_id in Ht' by done. apply (HQ p' ch'); try done.
  apply (registered_interested p' s c ch ch' ev); try done. by rewrite Ht'.
Qed.

(** A new channel: the poller learns of it. *)
Lemma wp_set_interest_new f s c ch (Q : unit -> Reactor P K X -> Prop) :
  watchable s c ch -> table (self (poller_ s)) !! fd_ ch = None ->
  Z.of_nat (size (table (self (poller_ s)))) + 1 < 2 ^ 31 - 1 ->
  let ev := f (statics s) (events_ ch) in
  ev <> kNoneEvent (statics s) ->
  (forall p' ch', let s' := lset poller_lens p' s in
     registered s' c ch' -> set_index 0 ch' = set_index 0 (interested ev ch) ->
     statics s' = statics s -> this_thread s' = this_thread s ->
     watched p' = <[fd_ ch := (c, encode ev)]> (watched (poller_ s)) ->
     Q tt s') ->
  wp (set_interest f c) Q s.
Proof.
  intros Hw Hnew Hsz ev Hev HQ.
  apply (wp_set_interest_any f s c ch); [done | by intros |].
  intros p' ch' s' HI' Hc' Hin' Hth Hch Hst Ht' Hw'. fold ev in Hw', Hch.
  unfold spec_update in Hw'. rewrite (proj2 (Z.eqb_neq _ _) Hev) in Hw'.
  apply (HQ p' ch'); try done. destruct Hw as (_ & _ & _ & Hl & Hfd & _).
  apply (registered_interested p' s c ch ch' ev); try done.
  rewrite Ht', map_size_insert_None by done. lia.
Qed.

Lemma wp_set_interest f s c ch (Q : unit -> Reactor P K X -> Prop) :
  registered s c ch ->
  let ev := f (statics s) (events_ ch) in
  (ev = kNoneEvent (statics s) -> is_Some (watched (poller_ s) !! fd_ ch)) ->
  (forall p' ch', let s' := lset poller_lens p' s in
     registered s' c ch' -> set_index 0 ch' = set_index 0 (interested ev ch) ->
     statics s' = statics s ->
     watched p' = spec_update encode (ev =? kNoneEvent (statics s)) (fd_ ch) c ev (watched (poller_ s)) ->
     Q tt s') ->
  wp (set_interest f c) Q s.
Proof.
  intros Hr ev Hnone HQ. apply (wp_set_interest_table f s c ch Q Hr Hnone).
  intros p' ch' s' ? ? ? _ _ ?. by apply (HQ p' ch').
Qed.

(** [removeChannel] of a channel that waits for nothing. *)
Lemma wp_removeChannel s c ch (Q : unit -> Reactor P K X -> Prop) :
  registered s c ch -> isNoneEvent (statics s) ch = true ->
  watched (poller_ s) !! fd_ ch = None ->
  (forall p', poller_inv p' -> frame (poller_ s) p' ->
     table (self p') = delete (fd_ ch) (table (self (poller_ s))) ->
     watched p' = watched (poller_ s) -> Q tt (lset poller_lens p' s)) ->
  wp (removeChannel c) Q s.
Proof.
  intros (HI & Hin & Hc & Hl & Hfd & Ht & Hsz) Hnone Hw HQ. unfold removeChannel. wp_simp.
  eapply wp_owned_by_this; [done..|]. wp_simp. apply wp_assertInLoopThread; [done|]. wp_simp.
  eapply wp_mono; [by apply (remove_law c ch); [|split_and!]|].
  intros [] p' (HI' & Hf & Ht' & Hw'). by apply HQ.
Qed.

(** A channel that was removed is still in memory. *)
Lemma frame_lookup s p' c ch :
  frame (poller_ s) p' -> lget memory_lens s !! c = Some ch ->
  exists ch', lget memory_lens (lset poller_lens p' s) !! c = Some ch' /\ fd_ ch' = fd_ ch.
Proof.
  intros (Hf & _) Hc. specialize (Hf c). cbn in Hc |- *. rewrite Hc in Hf.
  destruct (chans p' !! c) as [ch'|]; [|done]. cbn in Hf. apply (inj Some) in Hf.
  exists ch'. split; [done|]. by apply (f_equal fd_) in Hf.
Qed.
(** *** Coming and going *)

(** Descriptor [sockfd] can be watched by the loop [r]. *)
Definition can_watch (r : Reactor P K X) (sockfd : Z) : Prop :=
  poller_inv (poller_ r) /\ 0 <= sockfd /\ table (self (poller_ r)) !! sockfd = None /\
  Z.of_nat (size (table (self (poller_ r)))) + 1 < 2 ^ 31 - 1.

Lemma can_watch_kernel (r r' : Reactor P K X) k sockfd :
  poller_ r' = lset kern_lens k (poller_ r) -> quiet (kern (poller_ r)) k ->
  can_watch r sockfd -> can_watch r' sockfd /\ watched (poller_ r') = watched (poller_ r).
Proof.
  intros Hp Hq (HI & ? & ? & ?). destruct (quiet_law k _ Hq HI) as [HI' Hw].
  unfold can_watch. rewrite Hp. by split_and!.
Qed.
(** Channel [cc], on descriptor [fd] of loop [r], no longer waits for anything; the
    loop has the table and the watched set given. *)
Definition unwatched (r : Reactor P K X) (cc : chan) (fd : Z) (t : gmap Z chan) (w : gmap Z (chan * Z)) :
    Prop :=
  exists ch, registered r cc ch /\ events_ ch = kNoneEvent (statics r) /\ fd_ ch = fd /\
    table (self (poller_ r)) = t /\ watched (poller_ r) = w.

Lemma unwatched_poller (r r' : Reactor P K X) cc fd t w :
  poller_ r' = poller_ r -> this_loop r' = this_loop r -> unwatched r cc fd t w ->
  unwatched r' cc fd t w.
Proof.
  intros Hp Hl (ch & Hr & Hrest). exists ch. split; [by eapply registered_poller|].
  cbn in *. by rewrite Hp.
Qed.

Lemma unwatched_kernel (r : Reactor P K X) cc fd t w k :
  quiet (lget os_lens r) k -> unwatched r cc fd t w -> unwatched (lset os_lens k r) cc fd t w.
Proof.
  intros Hq (ch & Hr & Hev & Hfd & Ht & Hw). exists ch.
  destruct (registered_kernel r cc ch k Hq Hr) as [Hr' Hw']. rewrite Hw'. by split_and!.
Qed.

End Reactor_channels.
