(* ===== verification/Acceptor.v ===== *)
(** * Acceptor.h, Acceptor.cc: the listening socket

    The acceptor is one of the objects of its loop ([acc]).  What the new
    connection callback does is a parameter. *)

From S2P Require Import Prelude Posix Process Callbacks Channel LoopThread Poller SocketsOps Reactor.

Inductive NewConnectonCallback : Type :=
| TcpServer_newConnection
| user_new_connection (n : nat).

Record Acceptor : Type := mkAcceptor {
  acceptSocket_ : Z;
  acceptChannel_ : chan;
  newConnectionCallback_ : option NewConnectonCallback;
  listenning_ : bool;
  idleFd_ : Z;
}.

Definition setNewConnectionCallback (cb : NewConnectonCallback) (a : Acceptor) : Acceptor :=
  mkAcceptor (acceptSocket_ a) (acceptChannel_ a) (Some cb) (listenning_ a) (idleFd_ a).
Definition set_listenning (b : bool) (a : Acceptor) : Acceptor :=
  mkAcceptor (acceptSocket_ a) (acceptChannel_ a) (newConnectionCallback_ a) b (idleFd_ a).
Definition set_idleFd (fd : Z) (a : Acceptor) : Acceptor :=
  mkAcceptor (acceptSocket_ a) (acceptChannel_ a) (newConnectionCallback_ a) (listenning_ a) fd.

Section Acceptor_ops.
Context {B : Build} {P K X : Type} `{PollerOps P K} `{SysCalls K, !NetSys K}.
Context (acc : lens X Acceptor).
Context (on_new_connection : NewConnectonCallback -> Z -> sockaddr -> M (Reactor P K X) unit).

Definition acceptor_lens : lens (Reactor P K X) Acceptor :=
  Lens (fun s => lget acc (objs s)) (fun a s => lset objs_lens (lset acc a (objs s)) s).

(** [ch] is the address of the member [acceptChannel_], whose memory it sets. *)
Definition Acceptor_ctor (ch : chan) (listenAddr : sockaddr) (reuseport : bool) :
    M (Reactor P K X) unit :=
  let! fd := zoom os_lens (createNonblockingOrDie (family listenAddr)) in
  let! s := get in
  zoom memory_lens (modify (fun h => <[ch := Channel_ctor (this_loop s) fd]> h)) ;;
  let! idle := zoom os_lens (total sys_open_null) in
  zoom acceptor_lens (modify (fun _ => mkAcceptor fd ch None false idle)) ;;
  zoom os_lens (setReuseAddr fd true) ;;
  zoom os_lens (setReusePort fd reuseport) ;;
  zoom os_lens (bindOrDie fd listenAddr) ;;
  ch_modify ch (setReadCallback Acceptor_handleRead).

Definition listen : M (Reactor P K X) unit :=
  assertInLoopThread ;;
  zoom acceptor_lens (modify (set_listenning true)) ;;
  let! a := gets (lget acceptor_lens) in
  zoom os_lens (listenOrDie (acceptSocket_ a)) ;;
  enableReading (acceptChannel_ a).

(** Out of descriptors: the idle one makes room to take one connection and drop
    it. *)
Definition drop_connection (a : Acceptor) : M (Reactor P K X) unit :=
  let! _ := zoom os_lens (total (sys_close (idleFd_ a))) in
  let! r := zoom os_lens (total (sys_accept (acceptSocket_ a))) in
  let idle := match r with inl (fd, _) => fd | inr _ => -1 end in
  zoom acceptor_lens (modify (set_idleFd idle)) ;;
  let! _ := zoom os_lens (total (sys_close idle)) in
  let! fd := zoom os_lens (total sys_open_null) in
  zoom acceptor_lens (modify (set_idleFd fd)).

(** One connection is taken per event.  The [errno] tested is the one of [accept]: the
    line that is logged before the test is taken not to change it. *)
Definition handleRead : M (Reactor P K X) unit :=
  assertInLoopThread ;;
  let! a := gets (lget acceptor_lens) in
  let! r := zoom os_lens (accept (acceptSocket_ a)) in
  match r with
  | inl (connfd, peerAddr) =>
      match newConnectionCallback_ a with
      | Some cb => on_new_connection cb connfd peerAddr
      | None => zoom os_lens (close connfd)
      end
  | inr errno =>
      whenb (errno =? EMFILE) (drop_connection a)
  end.

(** The members are destroyed, the last one first; [idleFd_] is a number. *)
Definition Acceptor_dtor : M (Reactor P K X) unit :=
  let! a := gets (lget acceptor_lens) in
  Channel_dtor (acceptChannel_ a) ;;
  zoom os_lens (close (acceptSocket_ a)).
End Acceptor_ops.

Section Acceptor_facts.
Context {B : Build} {P K X : Type} `{PollerOps P K} `{SysCalls K, !NetSys K, !FdLaws K, !AcceptLaws K}.
Context (acc : lens X Acceptor) `{!LensLaws acc}.
Context (on_new_connection : NewConnectonCallback -> Z -> sockaddr -> M (Reactor P K X) unit).
Implicit Types s : Reactor P K X.

Lemma wp_acceptor f (Q : unit -> Reactor P K X -> Prop) s :
  Q tt (lset (acceptor_lens acc) (f (lget acc (objs s))) s) ->
  wp (zoom (acceptor_lens acc) (modify f)) Q s.
Proof. intros HQ. by apply wp_zoom, wp_modify. Qed.

Lemma accept_spec fd s (Q : sysres (Z * sockaddr) -> Reactor P K X -> Prop) :
  match (sys_accept fd (lget os_lens s)).1 with
  | inr e => accept_transient e = true
  | inl _ => True
  end ->
  Q (sys_accept fd (lget os_lens s)).1 (lset os_lens (sys_accept fd (lget os_lens s)).2 s) ->
  wp (zoom os_lens (accept fd)) Q s.
Proof.
  intros He HQ. apply wp_zoom. unfold wp. rewrite accept_transient_ok by done.
  by destruct (sys_accept fd (lget os_lens s)).
Qed.

(** The acceptor has a new reserve in place of [idle], or none ([-1]), and no other
    descriptor has come or gone. *)
Definition reserved (idle idle' : Z) (o o' : gset Z) : Prop :=
  (idle' = -1 /\ o' = o ∖ {[idle]}) \/
  (0 <= idle' /\ (idle' ∉ o ∖ {[idle]}) /\ o' = {[idle']} ∪ o ∖ {[idle]}).

(** What the [accept] of a drop hands over. *)
Definition dropped (a : Acceptor) (k : K) : list (Z * sockaddr) :=
  match (sys_accept (acceptSocket_ a) (sys_close (idleFd_ a) k).2).1 with
  | inl conn => [conn]
  | inr _ => []
  end.

Lemma drop_connection_spec s a :
  lget acc (objs s) = a ->
  wp (drop_connection acc a)
     (fun _ s' => exists idle', objs s' = lset acc (set_idleFd idle' a) (objs s) /\
        taken (lget os_lens s') = taken (lget os_lens s) ++ dropped a (lget os_lens s) /\
        reserved (idleFd_ a) idle' (open_fds (lget os_lens s)) (open_fds (lget os_lens s'))) s.
Proof.
  intros Ha. set (o := open_fds (lget os_lens s)).
  assert (Hneg : -1 ∉ o) by (intros Hx; apply open_nonneg in Hx; lia).
  unfold drop_connection, dropped.
  apply wp_bind, wp_os. intros r1 k1 E1. apply wp_bind, wp_os. intros r k2 E2.
  apply wp_bind, wp_acceptor. apply wp_bind, wp_os. intros r3 k3 E3.
  apply wp_bind, wp_os. intros fd k4 E4. apply wp_acceptor. exists fd.
  change (lget os_lens (lset os_lens k1 s)) with k1 in E2.
  change (lget os_lens (lset (acceptor_lens acc) _ (lset os_lens k2 _))) with k2 in E3.
  change (lget os_lens (lset os_lens k3 _)) with k3 in E4.
  assert (H1 : open_fds k1 = o ∖ {[idleFd_ a]} /\ taken k1 = taken (lget os_lens s)).
  { pose proof (close_open (idleFd_ a) (lget os_lens s)) as Hc.
    pose proof (close_taken (idleFd_ a) (lget os_lens s)) as Ht. by rewrite E1 in Hc, Ht. }
  destruct H1 as [H1 Ht1]. pose proof (accept_taken _ _ _ _ E2) as Ht2. rewrite Ht1 in Ht2.
  set (c := match r with inl (fd, _) => fd | inr _ => -1 end) in *.
  assert (H3 : open_fds k3 = o ∖ {[idleFd_ a]} /\ taken k3 = taken k2).
  { pose proof (close_open c k2) as Hc. pose proof (close_taken c k2) as Ht.
    rewrite E3 in Hc, Ht. cbn [snd] in Hc, Ht. split; [rewrite Hc|exact Ht].
    unfold c. destruct r as [[c' addr]|e].
    - apply accept_open in E2 as (_ & Hn & ->). rewrite H1 in *. by apply open_close.
    - apply accept_fails in E2 as ->. rewrite H1. apply close_other.
      intros [Hx _]%elem_of_difference. by apply Hneg. }
  destruct H3 as [H3 Ht3]. rewrite E1. cbn [snd]. rewrite E2. cbn [fst]. split_and!.
  - cbn. rewrite !lget_lset, !lset_lset. cbn. by rewrite Ha.
  - change (taken k4 = taken (lget os_lens s) ++ match r with inl conn => [conn] | inr _ => [] end).
    by rewrite (null_taken _ _ _ E4), Ht3, Ht2.
  - change (reserved (idleFd_ a) fd o (open_fds k4)). unfold reserved.
    apply null_open in E4 as [[-> ->]|(Hpos & Hn & ->)]; rewrite H3 in *; [by left | by right].
Qed.

(** C37. One event on the listening socket, in the thread of its loop.  A connection
    that was accepted is handed, once and at once, to the new connection callback;
    without a callback its descriptor is closed and no descriptor leaks.  When the
    process is out of descriptors ([EMFILE]) the idle descriptor is closed and [accept]
    called once more: the connection it takes, if there is one to take, is taken off the
    listening socket and its descriptor closed; then [/dev/null] is opened again.  The
    new idle descriptor is open, or [-1] when that open failed; every other descriptor
    is as before, and of the objects only [idleFd_] changes.  After any other passing
    error nothing changes. *)
Theorem handleRead_accounts s a :
  isInLoopThread s = true -> lget acc (objs s) = a ->
  let r := sys_accept (acceptSocket_ a) (lget os_lens s) in
  let s1 := lset os_lens r.2 s in
  match r.1 with
  | inl (connfd, peer) =>
      taken r.2 = taken (lget os_lens s) ++ [(connfd, peer)] /\
      match newConnectionCallback_ a with
      | Some cb => handleRead acc on_new_connection s = on_new_connection cb connfd peer s1
      | None => wp (handleRead acc on_new_connection)
          (fun _ s' => objs s' = objs s /\ taken (lget os_lens s') = taken r.2 /\
             open_fds (lget os_lens s') = open_fds (lget os_lens s)) s
      end
  | inr e =>
      if e =? EMFILE then wp (handleRead acc on_new_connection)
        (fun _ s' => exists idle', objs s' = lset acc (set_idleFd idle' a) (objs s) /\
           taken (lget os_lens s') = taken (lget os_lens s) ++ dropped a r.2 /\
           reserved (idleFd_ a) idle' (open_fds (lget os_lens s)) (open_fds (lget os_lens s'))) s
      else accept_transient e = true ->
        handleRead acc on_new_connection s = Ok (tt, s1) /\ taken r.2 = taken (lget os_lens s)
  end.
Proof.
  intros Hin Ha r s1. unfold handleRead.
  assert (Hr : (match r.1 with inr e => accept_transient e = true | inl _ => True end) ->
    forall k : Acceptor -> sysres (Z * sockaddr) -> M (Reactor P K X) unit, bind assertInLoopThread (fun _ =>
      let! a := gets (lget (acceptor_lens acc)) in
      let! r := zoom os_lens (accept (acceptSocket_ a)) in k a r) s = k a r.1 s1).
  { intros He k. unfold bind at 1. rewrite assertInLoopThread_ok, bind_gets by done.
    cbn [acceptor_lens lget]. rewrite Ha. unfold bind, zoom. rewrite accept_transient_ok by done.
    fold r. unfold s1. by destruct r. }
  destruct r as [[[connfd peer]|e] k1] eqn:E; cbn [fst snd] in *; unfold wp; subst r.
  - split; [by rewrite (accept_taken _ _ _ _ E)|].
    rewrite Hr by done. destruct (newConnectionCallback_ a) as [cb|]; [done|].
    fold (wp (zoom os_lens (close connfd)) (fun _ s' => objs s' = objs s /\
             taken (lget os_lens s') = taken k1 /\
             open_fds (lget os_lens s') = open_fds (lget os_lens s)) s1).
    apply wp_zoom. unfold wp. rewrite close_ok. split; [done|]. split; [apply close_taken|].
    change (open_fds (sys_close connfd k1).2 = open_fds (lget os_lens s)).
    rewrite close_open. apply accept_open in E as (_ & Hn & ->). by apply open_close.
  - pose proof (accept_taken _ _ _ _ E) as Ht. rewrite app_nil_r in Ht.
    destruct (Z.eqb_spec e EMFILE) as [->|Hne].
    + rewrite Hr by done. cbn [whenb].
      change (EMFILE =? EMFILE) with true. cbn [whenb].
      pose proof (drop_connection_spec s1 a Ha) as Hd. apply accept_fails in E.
      change (lget os_lens s1) with k1 in Hd. by rewrite E, Ht in Hd.
    + intros He. rewrite Hr by done. destruct (Z.eqb_spec e EMFILE); done.
Qed.
(** The destructor frees the channel and leaves it in the table of the poller. *)
Lemma Acceptor_dtor_dangles s s' :
  Acceptor_dtor acc s = Ok (tt, s') ->
  table (self (poller_ s')) = table (self (poller_ s)) /\
  lget memory_lens s' !! acceptChannel_ (lget acc (objs s)) = None.
Proof.
  unfold Acceptor_dtor, Channel_dtor. intros Hrun.
  apply bind_ok in Hrun as (a & s1 & Hg & Hrun). injection Hg as <- <-.
  apply bind_ok in Hrun as ([] & s2 & Hd & Hrun).
  apply bind_ok in Hd as (ch & s3 & Hg & Hd). apply bind_ok in Hd as ([] & s4 & Ha & Hd).
  assert (s3 = s) as -> by (revert Hg; unfold ch_get, bind, get, of_option; destruct (_ !! _); by intros; simplify_eq).
  assert (s4 = s) as ->.
  { revert Ha. unfold assert_. destruct NDEBUG, (negb (eventHanding_ ch));
      intros Ha; (discriminate Ha || by injection Ha). }
  injection Hd as <-. unfold zoom in Hrun. rewrite close_ok in Hrun. injection Hrun as <-.
  split; [done|]. apply lookup_delete_eq.
Qed.
End Acceptor_facts.

(** A server out of descriptors, a client waiting; descriptor 5 is the idle one. *)
Definition full_process : proc :=
  Proc (Sim (Script [] [] ∅) (EpollScript ∅ [] 0) [] []) {[3; 4; 5]}
    [inr EMFILE; inl zero_sockaddr] [] [].

Definition sample_acceptor : Acceptor := mkAcceptor 4 1 (Some TcpServer_newConnection) true 5.

Definition sample_server : Reactor unit proc Acceptor :=
  mkReactor 1 true false false 0
    (mkPollState tt ∅ statics_zero full_process 7 7)
    (mkTimerQueue 10 2 []) ∅ 11 3 [] [] sample_acceptor.

#[local] Instance no_poller : PollerOps unit proc := {|
  table _ := ∅;
  Poller_poll t l := ret (0, l);
  Poller_updateChannel c := ret tt;
  Poller_removeChannel c := ret tt;
|}.

(** The waiting client is taken, as descriptor 5, and dropped. *)
Lemma handleRead_accounts_witness :
  wp (handleRead (B := release_build) (P := unit) (K := proc)
        id_lens (fun _ _ _ => ret tt))
     (fun _ s' => exists idle', objs s' = set_idleFd idle' sample_acceptor /\
        taken (lget os_lens s') = [(5, zero_sockaddr)] /\
        reserved 5 idle' (fds_of full_process) (open_fds (lget os_lens s'))) sample_server.
Proof.
  exact (handleRead_accounts (B := release_build) (P := unit) (K := proc)
    id_lens (fun _ _ _ => ret tt) sample_server sample_acceptor
    eq_refl eq_refl).
Defined.
