(* ===== verification/TimerQueue.v ===== *)
(** * TimerQueue.h, TimerQueue.cc: the timers of a loop

    The [Timer] objects live in the heap [timers] of the reactor; [timers_] is
    the ordered set of the pending ones.  A timer that has expired is out of the
    set while its callback runs. *)

From stdpp Require Import sorting.
From S2P Require Import Prelude Posix Callbacks Timer Channel LoopThread Poller EpollPoller Reactor.

Section TimerQueue_ops.
Context {B : Build} {A : Allocator} {P K X : Type} `{PollerOps P K} `{SysCalls K}.

(** ** Timer objects *)
Definition tm_get (t : timer) : M (Reactor P K X) Timer :=
  let! h := gets timers in of_option UseAfterFree (h !! t).

Definition tm_put (t : timer) (tm : Timer) : M (Reactor P K X) unit :=
  zoom timers_lens (modify (fun h => <[t := tm]> h)).

Definition tm_delete (t : timer) : M (Reactor P K X) unit :=
  let! _ := tm_get t in
  zoom timers_lens (modify (fun h => delete t h)).

(** [Timer::run]; [run] is what calling the callback does. *)
Definition tm_run (run : Functor -> M (Reactor P K X) unit) (tm : Timer) :
    M (Reactor P K X) unit :=
  match callback_ tm with Some cb => run cb | None => ret tt end.

Definition set_timers (l : list Entry) : M (Reactor P K X) unit :=
  zoom timerQueue_lens (modify (fun q => mkTimerQueue (timerfd_ q) (timerChannel_ q) l)).

(** ** The timer descriptor *)

(** [fd] is the result of [timerfd_create]. *)
Definition timerfdCreate (fd : Z) : M (Reactor P K X) Z :=
  whenb (fd =? -1) LOG_FATAL ;; ret fd.

Definition timerfdRead : M (Reactor P K X) unit :=
  let! q := gets timerQueue_ in
  let! n := zoom os_lens (total (sys_readv (timerfd_ q) 8)) in
  ret tt.

Definition timerfdSet (fd : Z) (when : Z) : M (Reactor P K X) unit :=
  let! now := zoom os_lens (total sys_now) in
  let! newtime := lift (durationFromNow when now) in
  let! r := zoom os_lens (total (sys_timerfd_settime fd newtime)) in
  match r with inl _ => ret tt | inr _ => LOG_FATAL end.

(** ** Operations *)
Definition addTimerInLoop (t : timer) (when : Z) : M (Reactor P K X) unit :=
  let! q := gets timerQueue_ in
  let r := set_insert (when, t) (timers_ q) in
  set_timers r.1 ;;
  assert_ r.2 ;;
  whenb (bool_decide (head r.1 = Some (when, t))) (timerfdSet (timerfd_ q) when).

Definition addTimer (cb : option Functor) (when interval : Z) : M (Reactor P K X) timer :=
  let! h := gets timers in
  let t := new_address (dom h) in
  tm_put t (Timer_ctor cb when interval) ;;
  runInLoop (addTimerInLoop t when) (TimerQueue_addTimerInLoop t when) ;;
  ret t.

Definition cancelTimerInLoop (t : timer) : M (Reactor P K X) unit :=
  let! tm := tm_get t in
  let! tm' := lift (cancel tm) in
  tm_put t tm' ;;
  let! q := gets timerQueue_ in
  set_timers (set_erase (when_ tm', t) (timers_ q)) ;;
  tm_delete t.

Definition cancelTimer (t : timer) : M (Reactor P K X) unit :=
  runInLoop (cancelTimerInLoop t) (TimerQueue_cancelTimerInLoop t).

Definition getExpired (now : Z) : M (Reactor P K X) (list Entry) :=
  let! en := lift (i64_checked (now + 1)) in
  let! q := gets timerQueue_ in
  let r := split_lower (en, 0) (timers_ q) in
  set_timers r.2 ;;
  ret r.1.

(** The body of the loop over the expired entries. *)
Definition expire (run : Functor -> M (Reactor P K X) unit) (now : Z) (e : Entry) :
    M (Reactor P K X) unit :=
  let t := e.2 in
  assert_of (let! tm := tm_get t in ret (expired now tm)) ;;
  let! tm := tm_get t in
  whenb (negb (canceled_ tm)) (tm_run run tm) ;;
  let! tm := tm_get t in
  if negb (canceled_ tm) && repeat_ tm then
    let! tm' := lift (restart tm) in
    tm_put t tm' ;;
    let! q := gets timerQueue_ in
    set_timers (set_insert (when_ tm', t) (timers_ q)).1
  else tm_delete t.

Definition handleRead (run : Functor -> M (Reactor P K X) unit) : M (Reactor P K X) unit :=
  assertInLoopThread ;;
  timerfdRead ;;
  let! now := zoom os_lens (total sys_now) in
  let! es := getExpired now in
  for_each es (expire run now) ;;
  let! q := gets timerQueue_ in
  match timers_ q with
  | [] => ret tt
  | e :: _ => timerfdSet (timerfd_ q) e.1
  end.

(** [TimerQueue(loop)]: [fd] is the result of [timerfd_create], [c] the address
    of the member [timerChannel_]. *)
Definition TimerQueue_ctor (fd : Z) (c : chan) : M (Reactor P K X) unit :=
  let! fd := timerfdCreate fd in
  let! s := get in
  zoom timerQueue_lens (modify (fun _ => mkTimerQueue fd c [])) ;;
  zoom memory_lens (modify (fun h => <[c := Channel_ctor (this_loop s) fd]> h)) ;;
  assertInLoopThread ;;
  ch_modify c (setReadCallback TimerQueue_handleRead) ;;
  enableReading c.

(** The timers are deleted, the descriptor is closed; then the member
    [timerChannel_] goes. *)
Definition TimerQueue_dtor : M (Reactor P K X) unit :=
  let! q := gets timerQueue_ in
  for_each (timers_ q) (fun e => tm_delete e.2) ;;
  let! r := zoom os_lens (total (sys_close (timerfd_ q))) in
  Channel_dtor (timerChannel_ q).

End TimerQueue_ops.

(** ** The invariant *)

(** Times and intervals below 2^62 ns: no addition overflows. *)
Definition tm_ok (tm : Timer) : Prop :=
  0 <= when_ tm < 2 ^ 63 /\ interval_ tm < 2 ^ 62 /\ repeat_ tm = (0 <? interval_ tm).

Section TimerQueue_spec.
Context {B : Build} {A : Allocator} {P K X : Type} `{PollerOps P K}.
Context `{SysCalls K, !TimerLaws K}.
Implicit Types s : Reactor P K X.

(** A pending entry: the timer is alive, armed for that time and not canceled. *)
Definition pending_entry (h : gmap timer Timer) (e : Entry) : Prop :=
  exists tm, h !! e.2 = Some tm /\ when_ tm = e.1 /\ canceled_ tm = false /\ tm_ok tm.

(** [batch] are expired entries whose turn has not come: they are out of the
    set, and still alive. *)
Definition timers_wf (batch : list Entry) s : Prop :=
  sorted (timers_ (timerQueue_ s)) /\
  Forall (pending_entry (timers s)) (timers_ (timerQueue_ s)) /\
  Forall (pending_entry (timers s)) batch /\
  NoDup (batch ++ timers_ (timerQueue_ s)) /\
  isInLoopThread s = true.

(** ** Lemmas *)

Lemma pending_entry_fun h e e' :
  pending_entry h e -> pending_entry h e' -> e.2 = e'.2 -> e = e'.
Proof.
  intros (tm & Hl & Hw & _) (tm' & Hl' & Hw' & _) He. rewrite He in Hl. simplify_eq.
  by apply injective_projections; [congruence|].
Qed.

Lemma pending_entry_insert h e t tm :
  pending_entry h e -> e.2 <> t -> pending_entry (<[t := tm]> h) e.
Proof. intros (tm' & ? & ?) Hne. exists tm'. by rewrite lookup_insert_ne. Qed.

Lemma pending_entry_delete h e t :
  pending_entry h e -> e.2 <> t -> pending_entry (delete t h) e.
Proof. intros (tm' & ? & ?) Hne. exists tm'. by rewrite lookup_delete_ne. Qed.

Lemma wp_timerfdRead Q s :
  Q tt (lset os_lens (sys_readv (timerfd_ (timerQueue_ s)) 8 (lget os_lens s)).2 s) ->
  wp timerfdRead Q s.
Proof. intros HQ. unfold timerfdRead. by wp_simp. Qed.

(** The kernel after [timerfdSet(fd, when)]. *)
Definition armed (fd when : Z) (k : K) : K :=
  let r := sys_now k in
  match durationFromNow when r.1 with
  | Ok d => (sys_timerfd_settime fd d r.2).2
  | Err _ => k
  end.

Lemma wp_timerfdSet fd when Q s :
  0 <= when < 2 ^ 63 -> Q tt (lset os_lens (armed fd when (lget os_lens s)) s) ->
  wp (timerfdSet fd when) Q s.
Proof.
  intros Hw. unfold timerfdSet, armed. wp_simp.
  pose proof (now_range (lget os_lens s)) as Hnow.
  destruct (sys_now (lget os_lens s)) as [now k1]. cbn [fst snd] in *.
  assert (Hr : in_i64 (when - now) = true).
  { unfold in_i64. apply andb_true_iff. rewrite Z.leb_le, Z.ltb_lt. lia. }
  destruct (durationFromNow_spec when now Hr) as (sec & nsec & -> & ? & ? & _). intros HQ.
  apply wp_lift. eexists. split; [done|]. wp_simp. change (lget os_lens _) with k1.
  pose proof (settime_law fd sec nsec k1 ltac:(lia) ltac:(unfold nano_den in *; lia)) as Hset.
  destruct (sys_timerfd_settime fd (sec, nsec) k1) as [r k2]. cbn in Hset |- *. by subst r.
Qed.

(** The timers do not see the kernel. *)
Lemma timers_wf_kernel batch k s : timers_wf batch s -> timers_wf batch (lset os_lens k s).
Proof. done. Qed.

(** Nor the poller, the tasks and the objects. *)
Lemma timers_wf_same batch s s' :
  timers_wf batch s -> timers s' = timers s -> timerQueue_ s' = timerQueue_ s ->
  isInLoopThread s' = isInLoopThread s -> timers_wf batch s'.
Proof. unfold timers_wf. intros (?&?&?&?&?) -> -> ->. by split_and!. Qed.

(** *** Adding *)

(** What [addTimerInLoop] leaves. *)
Definition with_timers (l : list Entry) s : Reactor P K X :=
  lset timerQueue_lens (mkTimerQueue (timerfd_ (timerQueue_ s)) (timerChannel_ (timerQueue_ s)) l) s.

(** The timer is armed when the new entry is the earliest. *)
Definition rearmed fd (e : Entry) (l : list Entry) (k : K) : K :=
  if bool_decide (head l = Some e) then armed fd e.1 k else k.

Lemma addTimerInLoop_spec (t : timer) when s (Q : unit -> Reactor P K X -> Prop) :
  0 <= when < 2 ^ 63 -> (when, t) ∉ timers_ (timerQueue_ s) ->
  let l := (set_insert (when, t) (timers_ (timerQueue_ s))).1 in
  Q tt (lset os_lens (rearmed (timerfd_ (timerQueue_ s)) (when, t) l (lget os_lens s))
          (with_timers l s)) ->
  wp (addTimerInLoop t when) Q s.
Proof.
  intros Hw Hn l HQ. unfold addTimerInLoop, set_timers, rearmed in *. wp_simp.
  apply wp_assert; [by apply set_insert_new|]. wp_simp. fold l.
  case_bool_decide; [by apply wp_timerfdSet|].
  destruct s as [? ? ? ? ? [] ? ? ? ? ? ? ?]. apply HQ.
Qed.

(** A new entry joins the set. *)
Lemma timers_wf_insert batch (t : timer) tm s :
  timers_wf batch s -> pending_entry (timers s) (when_ tm, t) ->
  (when_ tm, t) ∉ batch -> (when_ tm, t) ∉ timers_ (timerQueue_ s) ->
  timers_wf batch (with_timers (set_insert (when_ tm, t) (timers_ (timerQueue_ s))).1 s).
Proof.
  intros (Hs & Hset & Hb & Hnd & Hin) Hp Hnb Hns.
  unfold timers_wf. cbn. split_and!; try done.
  - by apply set_insert_sorted.
  - apply Forall_forall. intros e. rewrite set_insert_elem. intros [-> | He]; [done|].
    by eapply (Forall_forall _ (timers_ (timerQueue_ s))).
  - apply NoDup_app in Hnd as (Hnd1 & Hnd2 & Hnd3). apply NoDup_app. split_and!; try done.
    + intros e He. rewrite set_insert_elem. intros [-> | He']; [done|]. by eapply Hnd2.
    + by apply sorted_nodup, set_insert_sorted.
Qed.

Lemma timers_wf_erase batch e s :
  timers_wf batch s ->
  timers_wf batch (with_timers (set_erase e (timers_ (timerQueue_ s))) s).
Proof.
  intros (Hs & Hset & Hb & Hnd & Hin). unfold timers_wf. cbn. split_and!; try done.
  - by apply set_erase_sorted.
  - apply Forall_forall. intros x. rewrite set_erase_elem. intros [Hx _].
    by eapply (Forall_forall _ (timers_ (timerQueue_ s))).
  - apply NoDup_app in Hnd as (Hnd1 & Hnd2 & Hnd3). apply NoDup_app. split_and!; try done.
    + intros x Hx. rewrite set_erase_elem. intros [Hx' _]. by eapply Hnd2.
    + by apply sorted_nodup, set_erase_sorted.
Qed.

(** Timers other than [t] do not notice a change of [t]. *)
Lemma timers_wf_other batch (t : timer) (h : gmap timer Timer) s :
  timers_wf batch s -> (forall t', t' <> t -> h !! t' = timers s !! t') ->
  t ∉ (snd <$> batch ++ timers_ (timerQueue_ s)) ->
  timers_wf batch (lset timers_lens h s).
Proof.
  intros (Hs & Hset & Hb & Hnd & Hin) Hh Hn. rewrite fmap_app, not_elem_of_app in Hn.
  destruct Hn as [Hn1 Hn2].
  assert (Hk : forall l, Forall (pending_entry (timers s)) l -> t ∉ (snd <$> l) ->
            Forall (pending_entry h) l).
  { intros l Hl Hnl. apply Forall_forall. intros e He.
    destruct (proj1 (Forall_forall _ l) Hl e He) as (tm & Ht & ?).
    exists tm. rewrite Hh; [done|]. intros <-. apply Hnl. apply list_elem_of_fmap. by exists e. }
  unfold timers_wf. cbn. split_and!; [done | by apply Hk | by apply Hk | done | done].
Qed.

(** The timer of the entry whose turn it is occurs nowhere else. *)
Lemma batch_head_unique e batch s :
  timers_wf (e :: batch) s -> e.2 ∉ (snd <$> batch ++ timers_ (timerQueue_ s)).
Proof.
  intros (_ & Hset & Hb & Hnd & _) Hin. apply list_elem_of_fmap in Hin as (e' & He' & Hin).
  cbn in Hnd. apply NoDup_cons in Hnd as [Hnot _]. apply Hnot.
  apply Forall_cons in Hb as [He Hb].
  assert (Hp : pending_entry (timers s) e').
  { apply elem_of_app in Hin as [Hin|Hin]; by eapply Forall_forall; [|exact Hin]. }
  by rewrite (pending_entry_fun _ _ _ He Hp He').
Qed.

Lemma timers_wf_tail e batch s : timers_wf (e :: batch) s -> timers_wf batch s.
Proof.
  intros (Hs & Hset & Hb & Hnd & Hin). apply Forall_cons in Hb as [_ Hb].
  cbn in Hnd. apply NoDup_cons in Hnd as [_ Hnd]. by split_and!.
Qed.

Lemma wp_tm_get (t : timer) tm Q s : timers s !! t = Some tm -> Q tm s -> wp (tm_get t) Q s.
Proof. intros Ht HQ. unfold tm_get. wp_simp. apply wp_of_option. by exists tm. Qed.

Lemma wp_tm_delete (t : timer) tm Q s :
  timers s !! t = Some tm -> Q tt (lset timers_lens (delete t (timers s)) s) ->
  wp (tm_delete t) Q s.
Proof. intros Ht HQ. unfold tm_delete. wp_simp. eapply wp_tm_get; [exact Ht|]. by wp_simp. Qed.

(** The address of a pending timer is in use. *)
Lemma pending_live l h (t : timer) :
  Forall (pending_entry h) l -> t ∈ (snd <$> l) -> t ∈ dom h.
Proof.
  intros Hl Ht. apply list_elem_of_fmap in Ht as (e & -> & He).
  destruct (proj1 (Forall_forall _ _) Hl e He) as (tm & Hh & _). by apply elem_of_dom.
Qed.

Lemma addTimer_spec batch cb when interval s :
  timers_wf batch s -> 0 <= when < 2 ^ 63 -> interval < 2 ^ 62 ->
  wp (addTimer cb when interval)
     (fun t s' => timers_wf batch s' /\ timers s !! t = None /\
        timers s' = <[t := Timer_ctor cb when interval]> (timers s) /\
        (forall e, e ∈ timers_ (timerQueue_ s') <-> e = (when, t) \/ e ∈ timers_ (timerQueue_ s)) /\
        lget os_lens s' = rearmed (timerfd_ (timerQueue_ s)) (when, t)
                            (timers_ (timerQueue_ s')) (lget os_lens s) /\
        s' = lset os_lens (lget os_lens s')
               (with_timers (timers_ (timerQueue_ s')) (lset timers_lens (timers s') s))) s.
Proof.
  intros Hwf Hw Hi. pose proof Hwf as (_ & Hset & Hb & _ & Hin).
  unfold addTimer, tm_put, runInLoop. wp_simp.
  set (t := new_address (dom (timers s))).
  assert (Hnew : t ∉ dom (timers s)) by apply new_address_fresh.
  assert (Hnb : t ∉ (snd <$> batch)) by (intros Hx; apply Hnew; by apply (pending_live _ _ _ Hb)).
  assert (Hns : t ∉ (snd <$> timers_ (timerQueue_ s))) by (intros Hx; apply Hnew; by apply (pending_live _ _ _ Hset)).
  set (s1 := lset timers_lens _ s).
  change (isInLoopThread s1) with (isInLoopThread s). rewrite Hin.
  assert (Hwf1 : timers_wf batch s1).
  { apply (timers_wf_other _ t); [done| |by rewrite fmap_app, not_elem_of_app].
    intros t' Hne. by rewrite lookup_insert_ne. }
  assert (Hne : forall l : list Entry, t ∉ (snd <$> l) -> (when, t) ∉ l).
  { intros l Hl Hx. apply Hl. apply list_elem_of_fmap. by exists (when, t). }
  apply addTimerInLoop_spec; [done | by apply Hne |]. apply wp_ret. split_and!.
  - apply timers_wf_kernel.
    apply (timers_wf_insert batch t (Timer_ctor cb when interval) s1); [done| |by apply Hne..].
    exists (Timer_ctor cb when interval). cbn. rewrite lookup_insert_eq. by split_and!.
  - by apply not_elem_of_dom.
  - done.
  - intros e. apply set_insert_elem.
  - done.
  - done.
Qed.

Lemma cancelTimer_spec batch (t : timer) tm s :
  timers_wf batch s -> timers s !! t = Some tm -> (when_ tm, t) ∈ timers_ (timerQueue_ s) ->
  wp (cancelTimer t)
     (fun _ s' => timers_wf batch s' /\ timers s' = delete t (timers s) /\
        (forall e, e ∈ timers_ (timerQueue_ s') <-> e ∈ timers_ (timerQueue_ s) /\ e.2 <> t) /\
        lget os_lens s' = lget os_lens s) s.
Proof.
  intros (Hs & Hset & Hb & Hnd & Hin) Ht Hel.
  pose proof (proj1 (Forall_forall _ _) Hset _ Hel) as Hp.
  pose proof Hp as (tm' & Ht' & _ & Hcan & _). cbn in Ht'. rewrite Ht in Ht'. injection Ht' as <-.
  unfold cancelTimer, runInLoop. wp_simp. rewrite Hin. unfold cancelTimerInLoop. wp_simp.
  eapply wp_tm_get; [exact Ht|]. wp_simp. apply wp_lift. unfold cancel. rewrite Hcan, andb_false_r.
  eexists. split; [done|]. unfold tm_put, set_timers. wp_simp.
  eapply wp_tm_delete; [cbn; apply lookup_insert_eq|].
  assert (Hsame : forall e, e ∈ timers_ (timerQueue_ s) -> e.2 = t -> e = (when_ tm, t)).
  { intros e He Het. eapply (pending_entry_fun (timers s)); [|exact Hp|done].
    by apply (proj1 (Forall_forall _ _) Hset). }
  assert (Hbatch : t ∉ (snd <$> batch)).
  { intros Hx. apply list_elem_of_fmap in Hx as (e & -> & He).
    pose proof (proj1 (Forall_forall _ _) Hb e He) as Hpe.
    apply NoDup_app in Hnd as (_ & Hdis & _). apply (Hdis e He).
    by rewrite (pending_entry_fun (timers s) e _ Hpe Hp eq_refl). }
  split_and!.
  - cbn. rewrite delete_insert_eq.
    apply (timers_wf_other batch t (delete t (timers s))
             (with_timers (set_erase (when_ tm, t) (timers_ (timerQueue_ s))) s)).
    + by apply timers_wf_erase.
    + intros t' Hne. by rewrite lookup_delete_ne.
    + rewrite fmap_app, not_elem_of_app. split; [done|]. intros Hx.
      apply list_elem_of_fmap in Hx as (e & He' & He). cbn in He. apply set_erase_elem in He as [He Hne].
      apply Hne, Hsame; done.
  - cbn. by rewrite delete_insert_eq.
  - intros e. cbn. rewrite set_erase_elem. split; intros [He Hne]; split; try done.
    + intros Heq. apply Hne, Hsame; done.
    + intros ->. by apply Hne.
  - by destruct s as [? ? ? ? ? [] ? ? ? ? ? ? ?].
Qed.

(** ** Expiry *)

(** The callback an entry stands for. *)
Definition callback_of (h : gmap timer Timer) (e : Entry) : list Functor :=
  match h !! e.2 with
  | Some tm => match callback_ tm with Some cb => [cb] | None => [] end
  | None => []
  end.

Section expire.
Context (run : Functor -> M (Reactor P K X) unit) (history : X -> list Functor).
Context (called : Functor -> Prop).

(** The callbacks do what they like with the pending timers, but leave alone the
    expired ones whose turn it is or has yet to come; [history] records what ran. *)
Hypothesis run_keeps : forall f s batch,
  called f -> timers_wf batch s ->
  wp (run f) (fun _ s' => timers_wf batch s' /\
     Forall (fun e => timers s' !! e.2 = timers s !! e.2) batch /\
     history (objs s') = history (objs s) ++ [f]) s.

Lemma tm_run_spec e batch tm s :
  timers_wf (e :: batch) s -> timers s !! e.2 = Some tm -> Forall called (callback_of (timers s) e) ->
  wp (tm_run run tm) (fun _ s' => timers_wf (e :: batch) s' /\
     Forall (fun e => timers s' !! e.2 = timers s !! e.2) (e :: batch) /\
     history (objs s') = history (objs s) ++ callback_of (timers s) e) s.
Proof.
  intros Hwf Ht. unfold tm_run, callback_of. rewrite Ht.
  destruct (callback_ tm) as [cb|]; intros Hcalled;
    [exact (run_keeps cb s (e :: batch) (proj1 (Forall_singleton _ _) Hcalled) Hwf)|].
  apply wp_ret. rewrite app_nil_r. split_and!; try done. by apply Forall_forall.
Qed.

Lemma expire_spec now e batch s :
  e.1 <= now < 2 ^ 62 -> timers_wf (e :: batch) s -> Forall called (callback_of (timers s) e) ->
  wp (expire run now e) (fun _ s' => timers_wf batch s' /\
     Forall (fun e => timers s' !! e.2 = timers s !! e.2) batch /\
     history (objs s') = history (objs s) ++ callback_of (timers s) e) s.
Proof.
  intros Hnow Hwf Hcalled. pose proof Hwf as (_ & _ & Hb & _).
  apply Forall_cons in Hb as [(tm & Ht & Hwhen & Hcan & Hok) _].
  unfold expire. wp_simp. apply wp_assert_of.
  { unfold tm_get, bind, gets. rewrite Ht. cbn. unfold ret, expired. repeat f_equal. lia. }
  wp_simp. eapply wp_tm_get; [exact Ht|]. wp_simp. rewrite Hcan. cbn [negb].
  eapply wp_mono; [by apply tm_run_spec|]. intros [] s1 (Hwf1 & Hsame & Hhist).
  apply Forall_cons in Hsame as [Hsame Hrest]. rewrite Ht in Hsame. wp_simp.
  eapply wp_tm_get; [exact Hsame|]. wp_simp. rewrite Hcan. cbn [negb andb].
  pose proof (batch_head_unique _ _ _ Hwf1) as Hu.
  rewrite fmap_app, not_elem_of_app in Hu. destruct Hu as [Hu1 Hu2].
  assert (Hkeep : forall h : gmap timer Timer, (forall t', t' <> e.2 -> h !! t' = timers s1 !! t') ->
    Forall (fun e => h !! e.2 = timers s !! e.2) batch).
  { intros h Hh. apply Forall_forall. intros e' He'.
    rewrite Hh; [by apply (proj1 (Forall_forall _ _) Hrest)|].
    intros Heq. apply Hu1. apply list_elem_of_fmap. by exists e'. }
  apply timers_wf_tail in Hwf1 as Hwf2.
  assert (Hu : e.2 ∉ (snd <$> batch ++ timers_ (timerQueue_ s1)))
    by (rewrite fmap_app, not_elem_of_app; done).
  destruct (repeat_ tm) eqn:Hrep.
  - destruct Hok as (Hrange & Hint & Hr). rewrite Hrep in Hr. symmetry in Hr. apply Z.ltb_lt in Hr.
    wp_simp. apply wp_lift. unfold restart. rewrite Hrep, andb_false_r.
    rewrite i64_checked_ok by (unfold in_i64; apply andb_true_iff; rewrite Z.leb_le, Z.ltb_lt; lia).
    eexists. split; [done|]. unfold tm_put, set_timers. wp_simp.
    set (tm' := mkTimer _ _ _ _ _).
    set (s2 := lset timers_lens (<[e.2 := tm']> (timers s1)) s1).
    assert (Hwf3 : timers_wf batch s2).
    { apply (timers_wf_other _ e.2); [done| |done]. intros t' Hne. by rewrite lookup_insert_ne. }
    split; [apply (timers_wf_insert batch e.2 tm' s2)|split].
    + done.
    + exists tm'. cbn. rewrite lookup_insert_eq. split_and!; try done.
      unfold tm_ok, tm'. cbn. split_and!; lia.
    + intros Hin. apply Hu1. apply list_elem_of_fmap. by exists (when_ tm', e.2).
    + intros Hin. apply Hu2. apply list_elem_of_fmap. by exists (when_ tm', e.2).
    + apply (Hkeep (<[e.2 := tm']> (timers s1))). intros t' Hne. by rewrite lookup_insert_ne.
    + done.
  - eapply wp_tm_delete; [exact Hsame|]. split_and!.
    + apply (timers_wf_other _ e.2); [done| |done]. intros t' Hne. by rewrite lookup_delete_ne.
    + apply (Hkeep (delete e.2 (timers s1))). intros t' Hne. by rewrite lookup_delete_ne.
    + done.
Qed.

(** The callbacks of a batch run in order, each once. *)
Lemma expire_loop_spec now es : forall s,
  Forall (fun e => e.1 <= now) es -> now < 2 ^ 62 -> timers_wf es s ->
  Forall called (es ≫= callback_of (timers s)) ->
  wp (for_each es (expire run now)) (fun _ s' => timers_wf [] s' /\
     history (objs s') = history (objs s) ++ (es ≫= callback_of (timers s))) s.
Proof.
  induction es as [|e es IH]; intros s Hle Hnow Hwf Hcalled; cbn [for_each mbind list_bind].
  { apply wp_ret. by rewrite app_nil_r. }
  apply Forall_cons in Hle as [He Hle]. rewrite bind_cons, Forall_app in Hcalled.
  destruct Hcalled as [Hc1 Hc2]. wp_simp.
  eapply wp_mono; [apply (expire_spec now e es); [lia | done | done]|].
  intros [] s1 (Hwf1 & Hsame & Hh1).
  assert (Hcb : es ≫= callback_of (timers s1) = es ≫= callback_of (timers s)).
  { clear -Hsame. induction Hsame as [|e' es' Hs Hsame IH]; cbn; [done|].
    rewrite IH. unfold callback_of. by rewrite Hs. }
  eapply wp_mono; [apply IH; [done | done | done | by rewrite Hcb]|].
  intros [] s2 (Hwf2 & Hh2). split; [done|].
  by rewrite Hh2, Hh1, <- app_assoc, Hcb.
Qed.

(** Moving the expired entries out of the set. *)
Lemma timers_wf_expired now s :
  timers_wf [] s ->
  timers_wf (filter (fun e => e.1 <= now) (timers_ (timerQueue_ s)))
    (with_timers (filter (fun e => ~ e.1 <= now) (timers_ (timerQueue_ s))) s).
Proof.
  intros (Hs & Hset & _ & _ & Hin). pose proof (split_lower_filter now _ Hs) as Hf.
  pose proof (split_lower_app (now + 1, 0) (timers_ (timerQueue_ s))) as Happ.
  rewrite Hf in Happ. cbn [fst snd] in Happ. unfold timers_wf. cbn.
  rewrite <- Happ in Hs, Hset at 1. apply sorted_app in Hs as Hs'. rewrite Forall_app in Hset.
  rewrite Happ in Hs. split_and!; try tauto. by rewrite Happ; apply sorted_nodup.
Qed.

(** The time at which [handleRead] looks at the clock. *)
Definition read_time s : Z :=
  (sys_now (sys_readv (timerfd_ (timerQueue_ s)) 8 (lget os_lens s)).2).1.

(** The entries whose time has come. *)
Definition due s : list Entry :=
  filter (fun e => e.1 <= read_time s) (timers_ (timerQueue_ s)).

(** From [getExpired] to the end of [handleRead]. *)
Lemma expired_spec now s :
  0 <= now < 2 ^ 62 -> timers_wf [] s ->
  Forall called (filter (fun e => e.1 <= now) (timers_ (timerQueue_ s)) ≫= callback_of (timers s)) ->
  wp (let! es := getExpired now in
      for_each es (expire run now) ;;
      let! q := gets timerQueue_ in
      match timers_ q with [] => ret tt | e :: _ => timerfdSet (timerfd_ q) e.1 end)
     (fun _ s' => timers_wf [] s' /\ history (objs s') = history (objs s) ++
        (filter (fun e => e.1 <= now) (timers_ (timerQueue_ s)) ≫= callback_of (timers s))) s.
Proof.
  intros Hnow Hwf Hcalled. pose proof Hwf as (Hs & _). unfold getExpired, set_timers. wp_simp. apply wp_lift.
  rewrite i64_checked_ok by (unfold in_i64; apply andb_true_iff; rewrite Z.leb_le, Z.ltb_lt; lia).
  eexists. split; [done|]. wp_simp. rewrite split_lower_filter by done. cbn [fst snd].
  eapply wp_mono; [apply expire_loop_spec; [|lia|apply timers_wf_expired, Hwf|exact Hcalled]|].
  { apply Forall_forall. intros e He. by apply list_elem_of_filter in He as [? _]. }
  intros [] s1 (Hwf1 & Hh). wp_simp.
  destruct (timers_ (timerQueue_ s1)) as [|e l] eqn:Hl; [by apply wp_ret|].
  apply wp_timerfdSet; [|by split].
  pose proof Hwf1 as (_ & Hp & _). rewrite Hl in Hp. apply Forall_cons in Hp as [Hp _].
  destruct Hp as (tm & _ & <- & _ & Hok & _). lia.
Qed.

Lemma handleRead_spec s :
  timers_wf [] s -> Forall called (due s ≫= callback_of (timers s)) ->
  wp (handleRead run) (fun _ s' => timers_wf [] s' /\
     history (objs s') = history (objs s) ++ (due s ≫= callback_of (timers s))) s.
Proof.
  intros Hwf Hcalled. unfold handleRead. rewrite wp_bind. apply wp_assertInLoopThread; [apply Hwf|].
  rewrite wp_bind. apply wp_timerfdRead. rewrite wp_bind, wp_zoom, wp_total.
  apply (expired_spec (read_time s) (lset os_lens _ s)); [apply now_range | exact Hwf | exact Hcalled].
Qed.
End expire.

(** ** A callback that cancels its own timer *)

Lemma expire_self_cancel run now e tm f s :
  isInLoopThread s = true -> timers s !! e.2 = Some tm -> e.1 <= now -> when_ tm = e.1 ->
  canceled_ tm = false -> callback_ tm = Some f -> run f = cancelTimer e.2 ->
  expire run now e s = Err UseAfterFree.
Proof.
  intros Hin Ht Hle Hw Hcan Hcb Hrun.
  assert (Hget : tm_get e.2 s = Ok (tm, s)) by (unfold tm_get, bind, gets; by rewrite Ht).
  assert (Hassert : assert_of (let! tm := tm_get e.2 in ret (expired now tm)) s = Ok (tt, s)).
  { unfold assert_of, assert_. destruct NDEBUG; [done|]. unfold bind. rewrite Hget. cbn.
    unfold expired. by rewrite (proj2 (Z.leb_le _ _)) by lia. }
  unfold expire, bind at 1. rewrite Hassert. unfold bind at 1. rewrite Hget, Hcan. cbn [negb whenb].
  unfold tm_run. rewrite Hcb, Hrun. unfold cancelTimer, runInLoop, bind at 1 2, get. rewrite Hin.
  unfold cancelTimerInLoop, bind at 1. rewrite Hget. unfold cancel. rewrite Hcan, andb_false_r.
  unfold tm_put, tm_delete, tm_get, set_timers, bind, lift, zoom, modify, gets, of_option.
  cbn [timers lset lget timers_lens timerQueue_lens]. rewrite lookup_insert_eq.
  cbn [timers lset lget timers_lens]. by rewrite delete_insert_eq, lookup_delete_eq.
Qed.

Lemma expired_fails run now s e rest tm f :
  0 <= now < 2 ^ 62 -> timers_wf [] s ->
  filter (fun e => e.1 <= now) (timers_ (timerQueue_ s)) = e :: rest ->
  timers s !! e.2 = Some tm -> callback_ tm = Some f -> run f = cancelTimer e.2 ->
  bind (getExpired now) (fun es => for_each es (expire run now)) s = Err UseAfterFree.
Proof.
  intros Hnow (Hs & Hset & _ & _ & Hin) Hdue Ht Hcb Hrun.
  assert (He : e ∈ filter (fun e => e.1 <= now) (timers_ (timerQueue_ s))) by (rewrite Hdue; left).
  apply list_elem_of_filter in He as [Hle He].
  destruct (proj1 (Forall_forall _ _) Hset e He) as (tm' & Ht' & Hw & Hcan & _).
  rewrite Ht in Ht'. injection Ht' as <-.
  unfold getExpired, set_timers, bind, lift, gets, zoom, modify, ret.
  rewrite i64_checked_ok by (unfold in_i64; apply andb_true_iff; rewrite Z.leb_le, Z.ltb_lt; lia).
  rewrite split_lower_filter by done. cbn [fst snd]. rewrite Hdue. cbn [for_each]. unfold bind.
  by rewrite (expire_self_cancel run now e tm f).
Qed.

Lemma handleRead_fails run s e rest tm f :
  timers_wf [] s -> due s = e :: rest ->
  timers s !! e.2 = Some tm -> callback_ tm = Some f -> run f = cancelTimer e.2 ->
  handleRead run s = Err UseAfterFree.
Proof.
  intros Hwf Hdue Ht Hcb Hrun.
  set (k1 := (sys_readv (timerfd_ (timerQueue_ s)) 8 (lget os_lens s)).2).
  set (s1 := lset os_lens (sys_now k1).2 (lset os_lens k1 s)).
  assert (Heq : handleRead run s =
    bind (bind (getExpired (read_time s)) (fun es => for_each es (expire run (read_time s))))
      (fun _ => let! q := gets timerQueue_ in
        match timers_ q with [] => ret tt | e :: _ => timerfdSet (timerfd_ q) e.1 end) s1).
  { rewrite bind_assoc. unfold handleRead, bind at 1.
    rewrite assertInLoopThread_ok by apply Hwf. unfold timerfdRead.
    by rewrite bind_assoc, bind_gets, bind_assoc, bind_zoom_total, bind_ret_l, bind_zoom_total. }
  rewrite Heq. unfold bind at 1.
  by rewrite (expired_fails run (read_time s) s1 e rest tm f (now_range _) Hwf Hdue Ht Hcb Hrun).
Qed.
End TimerQueue_spec.

(** ** Properties *)
Section TimerQueue_properties.
Context {B : Build} {A : Allocator} {P K X : Type} `{PollerOps P K}.
Context `{SysCalls K, !TimerLaws K}.
Implicit Types s : Reactor P K X.

(** C32. When the timer descriptor fires, the callbacks of the timers whose time has
    come run in the order of their times, each exactly once, provided that each of them
    returns, leaves alone the expired timers whose turn it is or has yet to come (it
    cancels none of them, itself included) and keeps the set of timers consistent, as
    adding timers and cancelling others does; then no freed timer is touched, no
    arithmetic overflows, and the set is consistent again afterwards.  A callback that
    cancels its own timer is the subject of the last theorem of this file. *)
Theorem handleRead_runs_due (run : Functor -> M (Reactor P K X) unit)
    (history : X -> list Functor) s :
  (forall f s0 batch, f ∈ due s ≫= callback_of (timers s) -> timers_wf batch s0 ->
     wp (run f) (fun _ s' => timers_wf batch s' /\
        Forall (fun e => timers s' !! e.2 = timers s0 !! e.2) batch /\
        history (objs s') = history (objs s0) ++ [f]) s0) ->
  timers_wf [] s ->
  wp (handleRead run) (fun _ s' => timers_wf [] s' /\
     history (objs s') = history (objs s) ++ (due s ≫= callback_of (timers s))) s.
Proof.
  intros Hrun Hwf. apply (handleRead_spec run history _ Hrun); [done|]. by apply Forall_forall.
Qed.

(** [addTimer] in the loop thread: the new timer gets an address of its own
    and joins the set, the others are untouched, and the timer descriptor is
    armed again exactly when the new timer is the earliest. *)
Lemma addTimer_schedules cb when interval batch s :
  timers_wf batch s -> 0 <= when < 2 ^ 63 -> interval < 2 ^ 62 ->
  wp (addTimer cb when interval)
     (fun t s' => timers_wf batch s' /\ timers s !! t = None /\
        timers s' = <[t := Timer_ctor cb when interval]> (timers s) /\
        (forall e, e ∈ timers_ (timerQueue_ s') <-> e = (when, t) \/ e ∈ timers_ (timerQueue_ s)) /\
        lget os_lens s' = rearmed (timerfd_ (timerQueue_ s)) (when, t)
                            (timers_ (timerQueue_ s')) (lget os_lens s)) s.
Proof. intros. eapply wp_mono; [by apply addTimer_spec|]. intros t s' (? & ? & ? & ? & ? & _). by split_and!. Qed.

(** [cancelTimer] of a pending timer takes exactly that timer out of the set
    and frees it. *)
Lemma cancelTimer_forgets (t : timer) tm batch s :
  timers_wf batch s -> timers s !! t = Some tm -> (when_ tm, t) ∈ timers_ (timerQueue_ s) ->
  wp (cancelTimer t)
     (fun _ s' => timers_wf batch s' /\ timers s' = delete t (timers s) /\
        (forall e, e ∈ timers_ (timerQueue_ s') <-> e ∈ timers_ (timerQueue_ s) /\ e.2 <> t) /\
        lget os_lens s' = lget os_lens s) s.
Proof. apply cancelTimer_spec. Qed.

(** C40. A timer whose callback cancels it through [EventLoop::cancelTimer] is
    freed under [handleRead], which then reads the freed object: the run ends in
    a use after free, in debug and release builds alike. *)
Theorem self_cancel_use_after_free run s e rest tm f :
  timers_wf [] s -> due s = e :: rest ->
  timers s !! e.2 = Some tm -> callback_ tm = Some f -> run f = cancelTimer e.2 ->
  handleRead run s = Err UseAfterFree.
Proof. apply handleRead_fails. Qed.
End TimerQueue_properties.

(** ** Witnesses: a reactor over epoll whose callbacks are only recorded *)

#[local] Existing Instance debug_build.
#[local] Existing Instance fresh_allocator.

(** At time 100: timers 1 and 2 have expired, 2 is periodic, 3 is far away. *)
Definition sample_timers : gmap timer Timer :=
  {[1%positive := Timer_ctor (Some (user_task 1)) 50 0;
    2%positive := Timer_ctor (Some (user_task 2)) 60 40;
    3%positive := Timer_ctor (Some (user_task 3)) 5000 0]}.

Definition sample_reactor (h : gmap timer Timer) (l : list Entry) :
    Reactor EpollPoller sim (list Functor) :=
  mkReactor 1%positive true false false 0
    (mkPollState (mkEpollPoller 3 (replicate 16 zero_event) ∅) ∅ (initDefaultEvent LT)
       (Sim (Script [] [] ∅) (EpollScript ∅ [] 100) [] []) 1 1)
    (mkTimerQueue 4 1%positive l) h 5 2%positive [] [] [].

Definition sample_entries : list Entry :=
  [(50, 1%positive); (60, 2%positive); (5000, 3%positive)].

Definition record (f : Functor) : M (Reactor EpollPoller sim (list Functor)) unit :=
  zoom objs_lens (modify (fun l => l ++ [f])).

Lemma sample_wf : timers_wf [] (sample_reactor sample_timers sample_entries).
Proof.
  unfold timers_wf. cbn. split_and!; try done.
  - repeat constructor.
  - repeat constructor; (eexists; split; [reflexivity|]; by split_and!).
  - apply (bool_decide_unpack _). by vm_compute.
Qed.

Lemma log_keeps f s batch :
  timers_wf batch s ->
  wp (record f) (fun _ s' => timers_wf batch s' /\
     Forall (fun e => timers s' !! e.2 = timers s !! e.2) batch /\ objs s' = objs s ++ [f]) s.
Proof. intros Hwf. split_and!; [exact Hwf | by apply Forall_forall | done]. Qed.

Lemma handleRead_runs_due_witness :
  timers_wf [] (sample_reactor sample_timers sample_entries) /\
  wp (handleRead (B:=debug_build) record)
     (fun _ s' => timers_wf [] s' /\ objs s' = [user_task 1; user_task 2])
     (sample_reactor sample_timers sample_entries).
Proof.
  split; [exact sample_wf|].
  exact (handleRead_runs_due (B:=debug_build) record (fun x => x)
           (sample_reactor sample_timers sample_entries) (fun f s batch _ => log_keeps f s batch) sample_wf).
Defined.

Lemma addTimer_schedules_witness :
  timers_wf [] (sample_reactor sample_timers sample_entries) /\
  wp (addTimer (A:=fresh_allocator) (Some (user_task 9)) 40 0)
     (fun t s' => timers_wf [] s' /\ sample_timers !! t = None /\
        timers s' = <[t := Timer_ctor (Some (user_task 9)) 40 0]> sample_timers /\
        (forall e, e ∈ timers_ (timerQueue_ s') <-> e = (40, t) \/ e ∈ sample_entries) /\
        lget os_lens s' = rearmed 4 (40, t) (timers_ (timerQueue_ s'))
          (lget os_lens (sample_reactor sample_timers sample_entries)))
     (sample_reactor sample_timers sample_entries).
Proof.
  split; [exact sample_wf|].
  apply (addTimer_schedules (A:=fresh_allocator) (Some (user_task 9)) 40 0 []
           (sample_reactor sample_timers sample_entries) sample_wf); lia.
Defined.

Lemma cancelTimer_forgets_witness :
  timers_wf [] (sample_reactor sample_timers sample_entries) /\
  wp (cancelTimer 3%positive)
     (fun _ s' => timers_wf [] s' /\ timers s' = delete 3%positive sample_timers /\
        (forall e, e ∈ timers_ (timerQueue_ s') <-> e ∈ sample_entries /\ e.2 <> 3%positive) /\
        lget os_lens s' = lget os_lens (sample_reactor sample_timers sample_entries))
     (sample_reactor sample_timers sample_entries).
Proof.
  split; [exact sample_wf|].
  apply (cancelTimer_forgets 3%positive (Timer_ctor (Some (user_task 3)) 5000 0) []
           (sample_reactor sample_timers sample_entries) sample_wf).
  - reflexivity.
  - apply list_elem_of_In. cbn. tauto.
Defined.

(** Every callback cancels timer 1. *)
Definition cancel_first (f : Functor) : M (Reactor EpollPoller sim (list Functor)) unit :=
  cancelTimer (B:=release_build) 1%positive.

Lemma self_cancel_use_after_free_witness :
  timers_wf [] (sample_reactor sample_timers sample_entries) /\
  handleRead (B:=release_build) cancel_first (sample_reactor sample_timers sample_entries) =
    Err UseAfterFree.
Proof.
  split; [exact sample_wf|].
  apply (self_cancel_use_after_free (B:=release_build) cancel_first
           (sample_reactor sample_timers sample_entries) (50, 1%positive) [(60, 2%positive)]
           (Timer_ctor (Some (user_task 1)) 50 0) (user_task 1) sample_wf);
    reflexivity.
Defined.
