(* ===== verification/EventLoop.v ===== *)
(** * EventLoop.h, EventLoop.cc: construction, destruction, timers and the loop itself

    The operations on channels and tasks are in [Reactor.v].  [run_handler],
    [run_read] and [run_task] say what the callbacks of channels and the tasks
    do; [handleEvent] and [doPendingFunctors] take them as arguments, as the code
    takes [std::function] objects. *)

From S2P Require Import Prelude Posix Process Callbacks Timer Channel LoopThread Poller EpollPoller.
From S2P Require Import PollPoller Pollers Reactor TimerQueue.

Inductive Mode : Type := POLL | EPOLL.

#[global] Instance Mode_eq_dec : EqDecision Mode.
Proof. solve_decision. Defined.

Definition kPollTimeMs : Z := 10000.

(** ** Timers *)
Section EventLoop_timers.
Context {B : Build} {A : Allocator} {P K X : Type} `{PollerOps P K} `{SysCalls K}.

Definition runAt (when : Z) (cb : option Functor) : M (Reactor P K X) timer :=
  addTimer cb when 0.

Definition runAfter (interval : Z) (cb : option Functor) : M (Reactor P K X) timer :=
  let! now := zoom os_lens (total sys_now) in
  let! when := lift (i64_checked (now + interval)) in
  runAt when cb.

Definition runEvery (interval : Z) (cb : option Functor) : M (Reactor P K X) timer :=
  let! now := zoom os_lens (total sys_now) in
  let! when := lift (i64_checked (now + interval)) in
  addTimer cb when interval.

Definition cancelTimer (t : timer) : M (Reactor P K X) unit := TimerQueue.cancelTimer t.
End EventLoop_timers.

(** ** The loop *)
Section EventLoop_loop.
Context {B : Build} {P K X : Type} `{PollerOps P K}.
Context (run_handler : Handler -> M (Reactor P K X) unit).
Context (run_read : Z -> Handler -> M (Reactor P K X) unit).
Context (run_task : Functor -> M (Reactor P K X) unit).

(** The body of the [while] loop. *)
Definition iteration : M (Reactor P K X) unit :=
  let! (t, active) := zoom poller_lens (Poller_poll kPollTimeMs []) in
  modify (set_returned t active) ;;
  for_each active (fun c =>
    let! now := gets pollReturnTime_ in handleEvent run_handler run_read c now) ;;
  doPendingFunctors run_task.

(** [while (!quit_)], at most [fuel] times round. *)
Fixpoint while_not_quit (fuel : nat) : M (Reactor P K X) unit :=
  let! q := gets quit_ in
  if q then ret tt
  else match fuel with
       | O => throw OutOfFuel
       | S fuel' => iteration ;; while_not_quit fuel'
       end.

Definition loop (fuel : nat) : M (Reactor P K X) unit :=
  let! s := get in
  assert_ (negb (looping_ s)) ;;
  assertInLoopThread ;;
  modify (set_looping true) ;;
  modify (set_quit false) ;;
  while_not_quit fuel ;;
  modify (set_looping false).
End EventLoop_loop.

(** ** Construction and destruction *)
Section EventLoop_ctor.
Context {B : Build} {K X : Type} `{EpollSys K} `{PollSys K} `{SysCalls K}.

(** [threadId_(std::this_thread::get_id())] *)
Definition set_owner {P} (s : PollState P K) : PollState P K :=
  mkPollState (self s) (chans s) (sts s) (kern s) (runningThread s) (runningThread s).

Definition set_self {P} (p : P) (s : PollState P K) : PollState P K :=
  mkPollState p (chans s) (sts s) (kern s) (ownerThread s) (runningThread s).

Definition set_statics {P} (st : ChannelStatics) (s : PollState P K) : PollState P K :=
  mkPollState (self s) (chans s) st (kern s) (ownerThread s) (runningThread s).

(** [evtfd] is the result of [eventfd]. *)
Definition createEventfd {S} (evtfd : Z) : M S Z := whenb (evtfd <? 0) LOG_FATAL ;; ret evtfd.

(** [EventLoop(mode, emode)], on the memory of the object.  The descriptors are
    the results of [epoll_create1], [timerfd_create] and [eventfd]; [tc] and [wc]
    are the addresses of the two channels; [t_loopInThisThread] is the value of
    the thread-local pointer. *)
Definition EventLoop_ctor (md : Mode) (emode : Channel.mode) (epollfd timerfd evtfd : Z)
    (tc wc : chan) (t_loopInThisThread : option loop_id) : M (Reactor AnyPoller K X) unit :=
  modify (set_looping false) ;;
  modify (set_quit false) ;;
  modify (set_calling false) ;;
  zoom poller_lens (modify set_owner) ;;
  let! p := newDefaultPoller (bool_decide (md = EPOLL)) epollfd in
  zoom poller_lens (modify (set_self p)) ;;
  TimerQueue_ctor timerfd tc ;;
  let! evtfd := createEventfd evtfd in
  modify (set_wakeup evtfd wc) ;;
  let! s := get in
  zoom memory_lens (modify (fun h => <[wc := Channel_ctor (this_loop s) evtfd]> h)) ;;
  whenb (bool_decide (md = EPOLL))
    (zoom poller_lens (modify (set_statics (initDefaultEvent emode)))) ;;
  match t_loopInThisThread with Some _ => LOG_FATAL | None => ret tt end ;;
  ch_modify wc (setReadCallback EventLoop_handleRead) ;;
  enableReading wc.

(** The virtual destructor of the poller. *)
Definition Poller_dtor : M (PollState AnyPoller K) unit :=
  let! p := gets self in
  match p with
  | AnEpoll p => EpollPoller_dtor p
  | APoll p => ret tt
  end.

(** [~EventLoop()] and the destructors of the members, the last one first; the
    result is what [t_loopInThisThread] holds.  [wakeupFd_] is a number. *)
Definition EventLoop_dtor : M (Reactor AnyPoller K X) (option loop_id) :=
  let! s := get in
  assert_ (negb (looping_ s)) ;;
  Channel_dtor (wakeupChannel_ s) ;;
  TimerQueue_dtor ;;
  zoom poller_lens Poller_dtor ;;
  ret None.
End EventLoop_ctor.

(** ** Lemmas *)
Section EventLoop_lemmas.
Context {B : Build} {P K X : Type} `{PollerOps P K}.
Implicit Types s : Reactor P K X.

(** *** Tasks *)
Section tasks.
Context (run : Functor -> M (Reactor P K X) unit) (history : X -> list Functor).

(** A task may queue others, and does not touch those in the queue. *)
Definition task_ok : Prop := forall f s,
  wp (run f) (fun _ s' => history (objs s') = history (objs s) ++ [f] /\
     pendingFunctors_ s `prefix_of` pendingFunctors_ s' /\
     callingPendingFunctors_ s' = callingPendingFunctors_ s) s.

Lemma run_tasks (Hrun : task_ok) fs : forall s,
  wp (for_each fs run) (fun _ s' => history (objs s') = history (objs s) ++ fs /\
     pendingFunctors_ s `prefix_of` pendingFunctors_ s' /\
     callingPendingFunctors_ s' = callingPendingFunctors_ s) s.
Proof.
  induction fs as [|f fs IH]; intros s; cbn [for_each].
  { apply wp_ret. by rewrite app_nil_r. }
  wp_simp. eapply wp_mono; [apply Hrun|]. intros [] s1 (Hh1 & Hp1 & Hc1).
  eapply wp_mono; [apply IH|]. intros [] s2 (Hh2 & Hp2 & Hc2).
  rewrite Hh2, Hh1, <- app_assoc. split_and!; [done | by etransitivity | congruence].
Qed.
End tasks.

(** *** The loop *)
Section looping.
Context (run_handler : Handler -> M (Reactor P K X) unit).
Context (run_read : Z -> Handler -> M (Reactor P K X) unit).
Context (run_task : Functor -> M (Reactor P K X) unit).

(** [n] iterations, none of which but the last asks to quit. *)
Fixpoint iterations (n : nat) s : option (Reactor P K X) :=
  match n with
  | O => if quit_ s then Some s else None
  | S n' => if quit_ s then None
            else match iteration run_handler run_read run_task s with
                 | Ok (_, s') => iterations n' s'
                 | Err _ => None
                 end
  end.

Lemma while_iterations n : forall fuel s s', iterations n s = Some s' -> (n <= fuel)%nat ->
  while_not_quit run_handler run_read run_task fuel s = Ok (tt, s').
Proof.
  induction n as [|n IH]; intros fuel s s' Hit Hf; cbn in Hit.
  - destruct fuel; unfold while_not_quit, bind, gets; by destruct (quit_ s); simplify_eq.
  - destruct fuel as [|fuel]; [lia|]. cbn [while_not_quit]. unfold bind at 1, gets.
    destruct (quit_ s); [done|]. unfold bind.
    destruct (iteration run_handler run_read run_task s) as [[[] s1]|]; [|done].
    apply IH; [done | lia].
Qed.

(** [loop()] in the thread of the loop, up to the [while]. *)
Lemma loop_start fuel s :
  isInLoopThread s = true -> looping_ s = false ->
  loop run_handler run_read run_task fuel s =
  (while_not_quit run_handler run_read run_task fuel ;; modify (set_looping false))
    (set_quit false (set_looping true s)).
Proof.
  intros Hin Hl. unfold loop. unfold bind at 1, get.
  unfold bind at 1. replace (assert_ (negb (looping_ s)) s) with (@Ok (unit * Reactor P K X) (tt, s))
    by (unfold assert_; rewrite Hl; by destruct NDEBUG).
  unfold bind at 1. by rewrite assertInLoopThread_ok.
Qed.
End looping.
End EventLoop_lemmas.

(** ** Properties *)
Section EventLoop_properties.
Context {B : Build} {P K X : Type} `{PollerOps P K} `{SysCalls K}.
Implicit Types s : Reactor P K X.

(** [runInLoop] runs a task at once in the thread of the loop; from any
    other thread it appends the task to the queue and writes eight bytes to the
    wake-up descriptor.  It cannot fail on its own. *)
Lemma runInLoop_dispatch (run : M (Reactor P K X) unit) cb s :
  runInLoop run cb s =
    if isInLoopThread s then run s
    else Ok (tt, lset os_lens (sys_write (wakeupFd_ s) one_bytes (lget os_lens s)).2
                   (lset pending_lens (pendingFunctors_ s ++ [cb]) s)).
Proof.
  unfold runInLoop, bind, get. destruct (isInLoopThread s) eqn:Hin; [done|].
  rewrite queueInLoop_ok. unfold queued. by rewrite Hin.
Qed.

(** [doPendingFunctors] runs exactly the tasks queued before it started, in
    the order they were queued, each once; tasks queued meanwhile stay for the
    next round, and each of them has written the wake-up descriptor. *)
Lemma doPendingFunctors_fifo (run : Functor -> M (Reactor P K X) unit)
    (history : X -> list Functor) s :
  task_ok run history ->
  wp (doPendingFunctors run)
     (fun _ s' => history (objs s') = history (objs s) ++ pendingFunctors_ s /\
        callingPendingFunctors_ s' = false) s /\
  (forall f s0, callingPendingFunctors_ s0 = true ->
     queueInLoop f s0 = Ok (tt, lset os_lens (sys_write (wakeupFd_ s0) one_bytes (lget os_lens s0)).2
                                  (lset pending_lens (pendingFunctors_ s0 ++ [f]) s0))).
Proof.
  intros Hrun. split.
  - unfold doPendingFunctors. wp_simp. eapply wp_mono; [by apply run_tasks|].
    intros [] s1 (Hh & _ & _). by wp_simp.
  - intros f s0 Hc. rewrite queueInLoop_ok. unfold queued. by rewrite Hc, orb_true_r.
Qed.

(** [loop()] returns once an iteration ends with [quit_] set: after [n]
    iterations, with any fuel from [n] on, and with [looping_] cleared. *)
Lemma loop_returns run_handler run_read run_task n fuel s s' :
  looping_ s = false -> isInLoopThread s = true ->
  iterations run_handler run_read run_task n (set_quit false (set_looping true s)) = Some s' ->
  (n <= fuel)%nat ->
  loop run_handler run_read run_task fuel s = Ok (tt, set_looping false s').
Proof.
  intros Hl Hin Hit Hf. rewrite loop_start by done. unfold bind.
  by rewrite (while_iterations _ _ _ n fuel _ s').
Qed.

(** A [quit()] that comes before [loop()] has no effect: [loop()] clears
    [quit_] when it starts, and runs as if the call had not been made. *)
Lemma early_quit_lost run_handler run_read run_task fuel s :
  isInLoopThread s = true -> looping_ s = false ->
  (quit ;; loop run_handler run_read run_task fuel) s =
  loop run_handler run_read run_task fuel s.
Proof.
  intros Hin Hl. rewrite (loop_start _ _ _ _ s) by done.
  unfold quit. rewrite bind_assoc. unfold bind at 1, modify at 1.
  rewrite bind_assoc. unfold bind at 1, get at 1.
  change (isInLoopThread (set_quit true s)) with (isInLoopThread s). rewrite Hin.
  cbn [negb whenb]. rewrite bind_ret_l.
  exact (loop_start _ _ _ fuel (set_quit true s) Hin Hl).
Qed.
End EventLoop_properties.

(** ** Construction over epoll *)
Section EventLoop_ctor_properties.
Context {B : Build} {K X : Type} `{EpollSys K, !EpollLaws K} `{PollSys K} `{SysCalls K}.
Implicit Types s : Reactor AnyPoller K X.

(** A channel that asks for reading for the first time, on an epoll poller. *)
Lemma enableReading_new s p c ch Q :
  self (poller_ s) = AnEpoll p -> isInLoopThread s = true ->
  lget memory_lens s !! c = Some ch -> loop_ ch = this_loop s -> index_ ch = kNew ->
  ep_channels p !! fd_ ch = None -> interest (lget os_lens s) (epollfd_ p) !! fd_ ch = None ->
  (forall s' p', self (poller_ s') = AnEpoll p' -> epollfd_ p' = epollfd_ p ->
     ep_channels p' = <[fd_ ch := c]> (ep_channels p) ->
     interest (lget os_lens s') (epollfd_ p) =
       <[fd_ ch := mkEpollEvent (u32 (ev_enableReading (statics s) (events_ ch))) (Some c)]>
         (interest (lget os_lens s) (epollfd_ p)) ->
     statics s' = statics s -> isInLoopThread s' = true -> this_loop s' = this_loop s ->
     Q tt s') ->
  wp (enableReading c) Q s.
Proof.
  intros Hp Hin Hc Hl Hidx Hreg Hi HQ. unfold enableReading, set_interest. wp_simp.
  apply wp_ch_modify. exists ch. split; [done|]. unfold Channel.update. wp_simp.
  apply wp_ch_modify. eexists. split; [apply lookup_insert_eq|].
  cbn [EventLoop_updateChannel Reactor_host]. unfold Reactor.updateChannel. wp_simp.
  apply wp_assert_of.
  { unfold owned_by_this, bind at 1. rewrite (ch_get_ok _ _ (set_addedToLoop true
      (set_events (ev_enableReading (statics s) (events_ ch)) ch))) by apply lookup_insert_eq.
    unfold bind, get, ret. by rewrite bool_decide_eq_true_2. }
  wp_simp. apply wp_assertInLoopThread; [done|]. wp_simp.
  cbn [Poller_updateChannel AnyPoller_ops].
  eapply wp_virtual_epoll; [exact Hp|].
  eapply (ep_add_new _ c); [done | apply lookup_insert_eq | done..|].
  intros k' Hk'. eapply HQ; [reflexivity | reflexivity | reflexivity | exact Hk' | done..].
Qed.

(** The constructor of the first loop of a process, over epoll: the timer
    queue registers its descriptor before [initDefaultEvent] has given
    [kReadEvent] a value, so the mask the kernel gets for the timer descriptor is
    the old value of the static member, 0 in a fresh process; only the wake-up
    descriptor is watched for reading. *)
Lemma ctor_registers em epollfd tfd wfd (tc wc : chan) s :
  0 <= epollfd -> 0 <= tfd -> 0 <= wfd -> tfd <> wfd ->
  interest (lget os_lens s) epollfd !! tfd = None -> interest (lget os_lens s) epollfd !! wfd = None ->
  wp (EventLoop_ctor EPOLL em epollfd tfd wfd tc wc None)
     (fun _ s' => statics s' = initDefaultEvent em /\
        interest (lget os_lens s') epollfd !! tfd =
          Some (mkEpollEvent (u32 (kReadEvent (statics s))) (Some tc)) /\
        interest (lget os_lens s') epollfd !! wfd =
          Some (mkEpollEvent (u32 (kReadEvent (initDefaultEvent em))) (Some wc))) s.
Proof.
  intros He Ht Hw Hne Hit Hiw. unfold EventLoop_ctor, newDefaultPoller, EpollPoller_ctor.
  rewrite bool_decide_eq_true_2 by done. wp_simp. cbn [epollfd_].
  rewrite (proj2 (Z.ltb_ge epollfd 0)) by done. wp_simp.
  unfold TimerQueue_ctor, timerfdCreate. wp_simp. rewrite (proj2 (Z.eqb_neq tfd (-1))) by lia.
  wp_simp. apply wp_assertInLoopThread; [apply Z.eqb_refl|]. wp_simp.
  apply wp_ch_modify. eexists. split; [apply lookup_insert_eq|].
  eapply enableReading_new; [reflexivity | apply Z.eqb_refl | apply lookup_insert_eq
    | reflexivity | reflexivity | apply lookup_empty | exact Hit |].
  intros s1 p1 Hp1 He1 Hch1 Hi1 Hst1 Hin1 Hl1. unfold createEventfd. wp_simp.
  rewrite (proj2 (Z.ltb_ge wfd 0)) by done.
  wp_simp. apply wp_ch_modify. eexists. split; [apply lookup_insert_eq|].
  eapply enableReading_new; [exact Hp1 | exact Hin1 | apply lookup_insert_eq
    | exact (eq_sym eq_refl) | reflexivity | | |].
  - rewrite Hch1. cbn. rewrite lookup_insert_ne by done. apply lookup_empty.
  - rewrite He1. cbn in Hi1 |- *. rewrite Hi1. by rewrite lookup_insert_ne.
  - intros s2 p2 _ _ _ Hi2 Hst2 _ _. split; [exact Hst2|].
    rewrite He1 in Hi2. cbn in Hi1, Hi2 |- *. rewrite Hi2.
    split; [|by rewrite lookup_insert_eq].
    rewrite lookup_insert_ne by done. rewrite Hi1. by rewrite lookup_insert_eq.
Qed.
End EventLoop_ctor_properties.

(** ** Destruction *)
Section EventLoop_dtor_properties.
Context {B : Build} {K X : Type} `{SysCalls K, !NetSys K, !FdLaws K}.
Implicit Types s : Reactor AnyPoller K X.

(** The pending timers are deleted one by one. *)
Lemma wp_delete_timers {P : Type} (l : list Entry) (s : Reactor P K X) Q :
  NoDup (snd <$> l) -> Forall (fun e => is_Some (timers s !! e.2)) l ->
  (forall h, Q tt (lset timers_lens h s)) ->
  wp (for_each l (fun e => tm_delete e.2)) Q s.
Proof.
  revert s. induction l as [|[w t] l IH]; intros s Hnd Hal HQ; cbn [for_each].
  { apply wp_ret. specialize (HQ (timers s)). by destruct s. }
  apply Forall_cons in Hal as [[tm Htm] Hal]. apply NoDup_cons in Hnd as [Hnew Hnd].
  unfold tm_delete, tm_get. cbn [snd] in *. wp_simp. rewrite Htm. wp_simp.
  apply IH; [done | | intros h; apply HQ].
  rewrite Forall_forall in Hal |- *. intros e He. cbn. rewrite lookup_delete_ne; [by apply Hal|].
  intros ->. apply Hnew, list_elem_of_fmap. by exists e.
Qed.

(** The destructor of a loop over epoll deletes the pending timers, and closes
    the timer descriptor and the epoll instance; the wake-up descriptor stays
    open. *)
Lemma EventLoop_dtor_leaks s p wch tch :
  looping_ s = false -> self (poller_ s) = AnEpoll p ->
  wakeupChannel_ s <> timerChannel_ (timerQueue_ s) ->
  lget memory_lens s !! wakeupChannel_ s = Some wch -> eventHanding_ wch = false ->
  lget memory_lens s !! timerChannel_ (timerQueue_ s) = Some tch -> eventHanding_ tch = false ->
  NoDup (snd <$> timers_ (timerQueue_ s)) ->
  Forall (fun e => is_Some (timers s !! e.2)) (timers_ (timerQueue_ s)) ->
  wakeupFd_ s <> timerfd_ (timerQueue_ s) -> wakeupFd_ s <> epollfd_ p ->
  wakeupFd_ s ∈ open_fds (lget os_lens s) ->
  wp EventLoop_dtor (fun t_loopInThisThread s' => t_loopInThisThread = None /\
     open_fds (lget os_lens s') =
       open_fds (lget os_lens s) ∖ {[timerfd_ (timerQueue_ s)]} ∖ {[epollfd_ p]} /\
     wakeupFd_ s ∈ open_fds (lget os_lens s')) s.
Proof.
  intros Hlo Hp Hne Hw Hwe Ht Hte Hnd Hal Hf1 Hf2 Hopen. unfold EventLoop_dtor. wp_simp.
  rewrite Hlo. apply wp_assert; [done|]. wp_simp. eapply wp_Channel_dtor; [done..|].
  wp_simp. unfold TimerQueue_dtor. wp_simp.
  apply wp_delete_timers; [done | done |]. intros h. wp_simp.
  eapply wp_Channel_dtor; [|exact Hte|].
  { cbn in Ht |- *. by rewrite lookup_delete_ne. }
  wp_simp. unfold Poller_dtor. wp_simp. cbn [poller_lens lget]. cbn in Hp |- *. rewrite Hp.
  unfold EpollPoller_dtor. wp_simp. cbn. rewrite !close_open. split_and!; [done..|].
  rewrite !elem_of_difference, !elem_of_singleton. by split_and!.
Qed.
End EventLoop_dtor_properties.

(** ** Witnesses *)

#[local] Existing Instance debug_build.

(** A loop over epoll with one channel that never fires and one task queued. *)
Definition idle_reactor : Reactor AnyPoller sim (list Functor) :=
  mkReactor 1%positive false false false 0
    (mkPollState (AnEpoll (mkEpollPoller 3 (replicate 16 zero_event) ∅)) ∅ (initDefaultEvent LT)
       (Sim (Script [] [] ∅) (EpollScript ∅ [] 100) [] []) 1 1)
    (mkTimerQueue 4 1%positive []) ∅ 5 2%positive [] [user_task 1; user_task 2] [].

Definition log_task (f : Functor) : M (Reactor AnyPoller sim (list Functor)) unit :=
  zoom objs_lens (modify (fun l => l ++ [f])).

(** Task 2 asks the loop to quit. *)
Definition quit_task (f : Functor) : M (Reactor AnyPoller sim (list Functor)) unit :=
  log_task f ;; if decide (f = user_task 2) then quit else ret tt.

Lemma log_task_ok : task_ok log_task (fun l => l).
Proof. intros f s. by split_and!. Qed.

Lemma doPendingFunctors_fifo_witness :
  task_ok log_task (fun l => l) /\
  wp (doPendingFunctors log_task)
     (fun _ s' => objs s' = [user_task 1; user_task 2] /\ callingPendingFunctors_ s' = false)
     idle_reactor.
Proof.
  split; [exact log_task_ok|].
  exact (proj1 (doPendingFunctors_fifo log_task (fun l => l) idle_reactor log_task_ok)).
Defined.

Definition no_handler (h : Handler) : M (Reactor AnyPoller sim (list Functor)) unit := ret tt.

Lemma loop_returns_witness : exists s',
  iterations no_handler (fun _ => no_handler) quit_task 1
    (set_quit false (set_looping true idle_reactor)) = Some s' /\
  objs s' = [user_task 1; user_task 2] /\
  loop no_handler (fun _ => no_handler) quit_task 5 idle_reactor = Ok (tt, set_looping false s').
Proof.
  eexists. split; [vm_compute; reflexivity|]. split; [reflexivity|].
  apply (loop_returns no_handler (fun _ => no_handler) quit_task 1 5 idle_reactor);
    [reflexivity | reflexivity | vm_compute; reflexivity | lia].
Defined.

Lemma early_quit_lost_witness :
  isInLoopThread idle_reactor = true /\ looping_ idle_reactor = false /\
  (quit ;; loop no_handler (fun _ => no_handler) log_task 3) idle_reactor =
  loop no_handler (fun _ => no_handler) log_task 3 idle_reactor.
Proof.
  split; [reflexivity|]. split; [reflexivity|].
  exact (early_quit_lost no_handler (fun _ => no_handler) log_task 3 idle_reactor eq_refl eq_refl).
Defined.

(** In a fresh process the mask of the timer descriptor is empty. *)
Definition fresh_process : Reactor AnyPoller sim (list Functor) :=
  mkReactor 1%positive false false false 0
    (mkPollState (APoll PollPoller_ctor) ∅ statics_zero
       (Sim (Script [] [] ∅) (EpollScript ∅ [] 100) [] []) 0 1)
    (mkTimerQueue 0 1%positive []) ∅ 0 1%positive [] [] [].

Lemma ctor_registers_witness :
  wp (EventLoop_ctor (B:=debug_build) EPOLL LT 3 4 5 1%positive 2%positive None)
     (fun _ s' => statics s' = initDefaultEvent LT /\
        interest (lget os_lens s') 3 !! 4 = Some (mkEpollEvent 0 (Some 1%positive)) /\
        interest (lget os_lens s') 3 !! 5 = Some (mkEpollEvent 3 (Some 2%positive))) fresh_process.
Proof.
  exact (ctor_registers (B:=debug_build) LT 3 4 5 1%positive 2%positive fresh_process
           ltac:(lia) ltac:(lia) ltac:(lia) ltac:(lia) eq_refl eq_refl).
Defined.
