(* ===== verification/Connector.v ===== *)
(** * Connector.h, Connector.cc: opening a connection, again and again

    The connector is one of the objects of its loop ([con]).  The member
    [timer_], which the constructor leaves alone, is [None] until the first
    retry; reading it before is a fault.  What the new connection callback does
    is a parameter. *)

From S2P Require Import Prelude Posix Process Callbacks Timer Channel LoopThread Poller EpollPoller SocketsOps Reactor TimerQueue EventLoop.

Inductive States : Type := kDisconnected | kConnecting | kConnected.

#[global] Instance States_eq_dec : EqDecision States.
Proof. solve_decision. Defined.

Inductive NewConnectionCallback : Type :=
| TcpClient_newConnection
| user_new_connection (n : nat).

Definition kMaxRetryDelayMs : Z := 30 * 1000.
Definition kInitRetryDelayMs : Z := 50.

Record Connector : Type := mkConnector {
  serverAddr_ : sockaddr;
  connect_ : bool;
  state_ : States;
  channel_ : option chan;
  newConnectionCallback_ : option NewConnectionCallback;
  retryDelayMs_ : Z;
  timer_ : option timer;
}.

Definition set_connect (b : bool) (c : Connector) : Connector :=
  mkConnector (serverAddr_ c) b (state_ c) (channel_ c) (newConnectionCallback_ c)
    (retryDelayMs_ c) (timer_ c).
Definition setState (st : States) (c : Connector) : Connector :=
  mkConnector (serverAddr_ c) (connect_ c) st (channel_ c) (newConnectionCallback_ c)
    (retryDelayMs_ c) (timer_ c).
Definition set_channel (ch : option chan) (c : Connector) : Connector :=
  mkConnector (serverAddr_ c) (connect_ c) (state_ c) ch (newConnectionCallback_ c)
    (retryDelayMs_ c) (timer_ c).
Definition setNewConnectionCallback (cb : NewConnectionCallback) (c : Connector) : Connector :=
  mkConnector (serverAddr_ c) (connect_ c) (state_ c) (channel_ c) (Some cb)
    (retryDelayMs_ c) (timer_ c).
Definition set_retryDelayMs (d : Z) (c : Connector) : Connector :=
  mkConnector (serverAddr_ c) (connect_ c) (state_ c) (channel_ c) (newConnectionCallback_ c)
    d (timer_ c).
Definition set_timer (t : timer) (c : Connector) : Connector :=
  mkConnector (serverAddr_ c) (connect_ c) (state_ c) (channel_ c) (newConnectionCallback_ c)
    (retryDelayMs_ c) (Some t).

(** [Millisecond(ms)] in nanoseconds. *)
Definition Millisecond (ms : Z) : Z := ms * 10 ^ 6.

Definition Connector_ctor (serverAddr : sockaddr) : Connector :=
  mkConnector serverAddr false kDisconnected None None kInitRetryDelayMs None.

(** What [connect()] does with the value of [errno] ([0] for success). *)
Inductive outcome : Type := Connecting | Retry | GiveUp.

Definition connect_outcome (savedErrno : Z) : outcome :=
  if (savedErrno =? 0) || (savedErrno =? EINPROGRESS) || (savedErrno =? EINTR) ||
     (savedErrno =? EISCONN) then Connecting
  else if (savedErrno =? EAGAIN) || (savedErrno =? EADDRINUSE) || (savedErrno =? EADDRNOTAVAIL) ||
     (savedErrno =? ECONNREFUSED) || (savedErrno =? ENETUNREACH) then Retry
  else GiveUp.

Section Connector_ops.
Context {B : Build} {A : Allocator} {P K X : Type} `{PollerOps P K} `{SysCalls K, !NetSys K}.
Context (con : lens X Connector).
Context (on_new_connection : NewConnectionCallback -> Z -> M (Reactor P K X) unit).

Definition connector_lens : lens (Reactor P K X) Connector :=
  Lens (fun s => lget con (objs s)) (fun c s => lset objs_lens (lset con c (objs s)) s).

Definition con_modify (f : Connector -> Connector) : M (Reactor P K X) unit :=
  zoom connector_lens (modify f).

(** ** The channel *)

(** [channel_->...]: the pointer must not be null. *)
Definition the_channel : M (Reactor P K X) chan :=
  let! c := gets (lget connector_lens) in of_option NullDeref (channel_ c).

(** [channel_.reset(p)] destroys the channel it held. *)
Definition channel_reset (p : option chan) : M (Reactor P K X) unit :=
  let! c := gets (lget connector_lens) in
  con_modify (set_channel p) ;;
  match channel_ c with Some old => Channel_dtor old | None => ret tt end.

Definition connecting (sockfd : Z) : M (Reactor P K X) unit :=
  con_modify (setState kConnecting) ;;
  let! c := gets (lget connector_lens) in
  assert_ (bool_decide (channel_ c = None)) ;;
  let! s := get in
  let ch := new_address (dom (lget memory_lens s)) in
  zoom memory_lens (modify (fun h => <[ch := Channel_ctor (this_loop s) sockfd]> h)) ;;
  channel_reset (Some ch) ;;
  ch_modify ch (setWriteCallback Connector_handleWrite) ;;
  ch_modify ch (setErrorCallback Connector_handleError) ;;
  enableWriting ch.

Definition removeAndResetChannel : M (Reactor P K X) Z :=
  let! ch := the_channel in
  disableAll ch ;;
  removeChannel ch ;;
  let! c := ch_get ch in
  queueInLoop Connector_resetChannel ;;
  ret (fd_ c).

Definition resetChannel : M (Reactor P K X) unit := channel_reset None.

(** ** Attempts *)
Definition retry (sockfd : Z) : M (Reactor P K X) unit :=
  zoom os_lens (close sockfd) ;;
  con_modify (setState kDisconnected) ;;
  let! c := gets (lget connector_lens) in
  whenb (connect_ c)
    (let! t := runAfter (Millisecond (retryDelayMs_ c)) (Some Connector_startInLoop) in
     con_modify (set_timer t) ;;
     con_modify (set_retryDelayMs (Z.min (retryDelayMs_ c * 2) kMaxRetryDelayMs))).

Definition do_connect : M (Reactor P K X) unit :=
  let! c := gets (lget connector_lens) in
  let! sockfd := zoom os_lens (createNonblockingOrDie (family (serverAddr_ c))) in
  let! r := zoom os_lens (connect sockfd (serverAddr_ c)) in
  let savedErrno := match r with inl _ => 0 | inr errno => errno end in
  match connect_outcome savedErrno with
  | Connecting => connecting sockfd
  | Retry => retry sockfd
  | GiveUp => zoom os_lens (close sockfd)
  end.

Definition startInLoop : M (Reactor P K X) unit :=
  assertInLoopThread ;;
  let! c := gets (lget connector_lens) in
  assert_ (bool_decide (state_ c = kDisconnected)) ;;
  whenb (connect_ c) do_connect.

Definition start : M (Reactor P K X) unit :=
  con_modify (set_connect true) ;;
  runInLoop startInLoop Connector_startInLoop.

Definition restart : M (Reactor P K X) unit :=
  assertInLoopThread ;;
  con_modify (setState kDisconnected) ;;
  con_modify (set_retryDelayMs kInitRetryDelayMs) ;;
  con_modify (set_connect true) ;;
  startInLoop.

Definition stop : M (Reactor P K X) unit :=
  con_modify (set_connect false) ;;
  let! c := gets (lget connector_lens) in
  let! t := of_option Uninitialised (timer_ c) in
  cancelTimer t.

Definition Connector_dtor : M (Reactor P K X) unit :=
  let! c := gets (lget connector_lens) in
  let! t := of_option Uninitialised (timer_ c) in
  cancelTimer t ;;
  let! c := gets (lget connector_lens) in
  assert_ (bool_decide (channel_ c = None)).

(** ** Events *)
Definition handleWrite : M (Reactor P K X) unit :=
  let! c := gets (lget connector_lens) in
  if bool_decide (state_ c = kConnecting) then
    let! sockfd := removeAndResetChannel in
    let! err := zoom os_lens (getSocketError sockfd) in
    if negb (err =? 0) then retry sockfd
    else
      let! self := zoom os_lens (isSelfConnect sockfd) in
      if self then retry sockfd
      else
        con_modify (setState kConnected) ;;
        let! c := gets (lget connector_lens) in
        if connect_ c then
          match newConnectionCallback_ c with
          | Some cb => on_new_connection cb sockfd
          | None => throw BadFunctionCall
          end
        else zoom os_lens (close sockfd)
  else assert_ (bool_decide (state_ c = kDisconnected)).

Definition handleError : M (Reactor P K X) unit :=
  let! c := gets (lget connector_lens) in
  assert_ (bool_decide (state_ c = kConnecting)) ;;
  let! sockfd := removeAndResetChannel in
  let! err := zoom os_lens (getSocketError sockfd) in
  retry sockfd.
End Connector_ops.

(** ** Specifications *)
Section Connector_spec.
Context {B : Build} {A : Allocator} {P K X : Type} `{PollerContract P K}.
Context `{!SysCalls K, !Quiet K, !QuietPoller P K, !TimerLaws K, !NetSys K, !QuietClose P K, !QuietNet K}.
Context (con : lens X Connector) `{!LensLaws con}.
Context (on_new_connection : NewConnectionCallback -> Z -> M (Reactor P K X) unit).
Implicit Types s : Reactor P K X.

(** The connector of the loop. *)
Definition connector_of s : Connector := lget con (objs s).

(** The delay of the attempt after one that waited [d] ms. *)
Definition next_delay (d : Z) : Z := Z.min (d * 2) kMaxRetryDelayMs.

(** The delays stay in range, so that [retryDelayMs_ * 2] does not overflow. *)
Definition delay_ok (c : Connector) : Prop :=
  kInitRetryDelayMs <= retryDelayMs_ c <= kMaxRetryDelayMs.

Lemma next_delay_ok c t :
  delay_ok c -> delay_ok (set_retryDelayMs (next_delay (retryDelayMs_ c)) (set_timer t c)).
Proof. unfold delay_ok, next_delay, kInitRetryDelayMs, kMaxRetryDelayMs. cbn. lia. Qed.

Lemma wp_con_modify f (Q : unit -> Reactor P K X -> Prop) s :
  Q tt (lset objs_lens (lset con (f (connector_of s)) (objs s)) s) ->
  wp (con_modify con f) Q s.
Proof. intros HQ. by apply wp_zoom, wp_modify. Qed.

Lemma connector_set c s : connector_of (lset objs_lens (lset con c (objs s)) s) = c.
Proof. unfold connector_of. cbn. apply lget_lset. Qed.

(** What a retry leaves: the socket is closed; [k0] is the kernel after the
    close, [t] the timer of the next attempt. *)
Definition retried s fd (t : timer) s' : Prop :=
  let c := connector_of s in
  let k0 := (sys_close fd (lget os_lens s)).2 in
  let when := (sys_now k0).1 + Millisecond (retryDelayMs_ c) in
  connector_of s' =
    set_retryDelayMs (next_delay (retryDelayMs_ c)) (set_timer t (setState kDisconnected c)) /\
  timers s !! t = None /\
  timers s' = <[t := Timer_ctor (Some Connector_startInLoop) when 0]> (timers s) /\
  (forall e, e ∈ timers_ (timerQueue_ s') <-> e = (when, t) \/ e ∈ timers_ (timerQueue_ s)) /\
  lget os_lens s' = rearmed (timerfd_ (timerQueue_ s)) (when, t) (timers_ (timerQueue_ s'))
                      (sys_now k0).2 /\
  timers_wf [] s' /\
  pendingFunctors_ s' = pendingFunctors_ s /\
  poller_ s' = lset kern_lens (lget os_lens s') (poller_ s).

Lemma retry_spec s fd :
  timers_wf [] s -> connect_ (connector_of s) = true -> delay_ok (connector_of s) ->
  wp (retry con fd) (fun _ s' => exists t, retried s fd t s') s.
Proof.
  intros Hwf Hcon Hd. set (c := connector_of s) in *. unfold retry.
  apply wp_bind, wp_zoom. eapply wp_ok; [apply close_ok|]. set (k0 := (sys_close fd _).2).
  apply wp_bind, wp_con_modify. apply wp_bind, wp_gets.
  set (s1 := lset objs_lens _ _).
  assert (Hc1 : lget (connector_lens con) s1 = setState kDisconnected c).
  { unfold s1. apply connector_set. }
  rewrite Hc1. apply wp_when. cbn [connect_ setState]. rewrite Hcon. cbn [retryDelayMs_ setState].
  apply wp_bind. unfold runAfter. apply wp_bind, wp_os. intros now k1 Enow.
  change (lget os_lens s1) with k0 in Enow.
  pose proof (now_range k0) as Hnow. rewrite Enow in Hnow. cbn [fst] in Hnow.
  set (when := now + Millisecond (retryDelayMs_ c)).
  assert (Hwhen : 0 <= when < 2 ^ 63).
  { unfold when, Millisecond, delay_ok, kInitRetryDelayMs, kMaxRetryDelayMs in *. lia. }
  apply wp_bind, wp_lift. exists when.
  split; [apply i64_checked_ok; unfold in_i64; apply andb_true_iff; rewrite Z.leb_le, Z.ltb_lt; lia|].
  eapply wp_mono; [apply (addTimer_spec []); [|done|lia]|].
  { by apply (timers_wf_same _ s). }
  intros t s2 (Hwf2 & Hnew & Ht2 & Hset & Hk2 & Hs2).
  apply wp_bind, wp_con_modify, wp_con_modify. exists t.
  assert (Hc2 : connector_of s2 = setState kDisconnected c) by (rewrite Hs2; exact Hc1).
  unfold retried. fold c k0. rewrite Enow. cbn [fst snd]. fold when.
  rewrite connector_set, connector_set, Hc2.
  split_and!; try done; rewrite Hs2; done.
Qed.

(** The channel leaves the poller at once, and is destroyed by a task: it is
    still handling an event. *)
Definition detached s (c : chan) fd s' : Prop :=
  exists p, s' = queued Connector_resetChannel (lset poller_lens p s) /\
    poller_inv p /\ table (self p) = delete fd (table (self (poller_ s))) /\
    watched p = delete fd (watched (poller_ s)) /\ is_Some (chans p !! c) /\
    isInLoopThread (lset poller_lens p s) = isInLoopThread s /\ sts p = sts (poller_ s).

Lemma removeAndReset_spec s c ch :
  registered s c ch -> channel_ (connector_of s) = Some c ->
  is_Some (watched (poller_ s) !! fd_ ch) ->
  wp (removeAndResetChannel con) (fun fd s' => fd = fd_ ch /\ detached s c fd s') s.
Proof.
  intros Hreg Hch Hw. unfold removeAndResetChannel, the_channel.
  apply wp_bind, wp_bind, wp_gets, wp_of_option. exists c. split; [exact Hch|].
  apply wp_bind. unfold disableAll. eapply wp_set_interest_table; [exact Hreg | by intros _|].
  intros p1 ch1 s1 Hreg1 Hch1 Hst1 _ Ht1 Hw1. unfold ev_disableAll in Hw1. rewrite Z.eqb_refl in Hw1.
  apply (f_equal events_) in Hch1 as Hev. apply (f_equal fd_) in Hch1 as Hfd. cbn in Hev, Hfd.
  apply wp_bind. eapply wp_removeChannel; [exact Hreg1| | |].
  { unfold isNoneEvent. rewrite Hst1, Hev. unfold ev_disableAll. apply Z.eqb_refl. }
  { rewrite Hfd. unfold s1. cbn. rewrite Hw1. apply lookup_delete_eq. }
  intros p2 HI2 Hf2 Ht2 Hw2.
  destruct (frame_lookup s1 p2 c ch1) as (ch2 & Hc2 & Hfd2); [done | by apply Hreg1|].
  apply wp_bind, wp_ch_get. exists ch2. split; [done|].
  rewrite Hfd2, Hfd. apply wp_bind, wp_queueInLoop, wp_ret. split; [done|]. exists p2.
  change (lset poller_lens p2 s1) with (lset poller_lens p2 s).
  split; [done|]. split; [done|].
  split; [by rewrite Ht2, Hfd; cbn [poller_ lset poller_lens s1]; rewrite Ht1|].
  split; [by rewrite Hw2; cbn; rewrite Hw1|]. split; [by exists ch2|].
  destruct Hf2 as (_ & Hst2 & Ho & Hr). destruct Hreg1 as (_ & Hin1 & _), Hreg as (_ & Hin & _).
  unfold isInLoopThread in *. cbn in *. split; congruence.
Qed.

Lemma quiet_rearmed fd e l (k : K) : quiet k (rearmed fd e l k).
Proof.
  unfold rearmed. case_bool_decide; [|apply quiet_refl]. unfold armed.
  destruct (durationFromNow _ _); [|apply quiet_refl].
  eapply quiet_trans; [apply quiet_now | apply quiet_settime].
Qed.

(** The poller does not notice a retry of a socket it does not know. *)
Lemma retried_poller s fd t s' :
  retried s fd t s' -> poller_inv (poller_ s) -> table (self (poller_ s)) !! fd = None ->
  poller_inv (poller_ s') /\ watched (poller_ s') = watched (poller_ s).
Proof.
  intros (_ & _ & _ & _ & Hk & _ & _ & Hp) HI Hn. rewrite Hp.
  destruct (close_law fd (poller_ s) HI Hn) as [HI1 Hw1].
  set (k0 := (sys_close fd (kern (poller_ s))).2) in *.
  set (k1 := lget os_lens s') in *.
  assert (Hq : quiet (kern (lset kern_lens k0 (poller_ s))) k1).
  { rewrite Hk. change (kern _) with k0. eapply quiet_trans; [apply quiet_now | apply quiet_rearmed]. }
  destruct (quiet_law k1 _ Hq HI1) as [HI2 Hw2].
  change (lset kern_lens k1 (lset kern_lens k0 (poller_ s))) with (lset kern_lens k1 (poller_ s)) in *.
  split; [done | congruence].
Qed.

(** A kernel step the poller does not notice. *)
Lemma poller_kernel s k :
  quiet (lget os_lens s) k -> poller_inv (poller_ s) ->
  poller_inv (poller_ (lset os_lens k s)) /\
  watched (poller_ (lset os_lens k s)) = watched (poller_ s) /\
  table (self (poller_ (lset os_lens k s))) = table (self (poller_ s)).
Proof. intros Hq HI. destruct (quiet_law k (poller_ s) Hq HI). by split_and!. Qed.

Lemma detached_facts s c fd s' :
  detached s c fd s' -> isInLoopThread s = true ->
  objs s' = objs s /\ timers s' = timers s /\ timerQueue_ s' = timerQueue_ s /\
  isInLoopThread s' = true /\
  pendingFunctors_ s' = pendingFunctors_ s ++ [Connector_resetChannel] /\
  is_Some (lget memory_lens s' !! c) /\
  poller_inv (poller_ s') /\ table (self (poller_ s')) = delete fd (table (self (poller_ s))) /\
  watched (poller_ s') = delete fd (watched (poller_ s)).
Proof.
  intros (p & -> & HI & Ht & Hw & Hc & Hin & _) Hs. rewrite <- Hin in Hs.
  unfold queued. case_match; [|by split_and!].
  destruct (poller_kernel (lset pending_lens (pendingFunctors_ s ++ [Connector_resetChannel])
    (lset poller_lens p s)) _ (quiet_write (wakeupFd_ s) one_bytes _) HI) as (HI' & Hw' & Ht').
  rewrite <- Hw, <- Ht. by split_and!.
Qed.

Lemma detached_same s c fd s' :
  detached s c fd s' -> statics s' = statics s /\ this_loop s' = this_loop s.
Proof.
  intros (p & -> & _ & _ & _ & _ & _ & Hst).
  destruct (queued_same Connector_resetChannel (lset poller_lens p s))
    as (_ & _ & _ & Hs & _ & Hl). split; [by rewrite Hs | by rewrite Hl].
Qed.

(** The verdict of [isSelfConnect], and the kernel after it. *)
Definition self_connect fd (k : K) : bool * K :=
  match isSelfConnect fd k with Ok r => r | Err _ => (false, k) end.

Lemma self_connect_ok fd (k : K) :
  isSelfConnect fd k = Ok (self_connect fd k) /\ quiet k (self_connect fd k).2.
Proof.
  unfold self_connect, isSelfConnect, getLocalAddr, getPeerAddr, bind, total, ret.
  pose proof (quiet_getsockname fd k) as Hq1.
  destruct (sys_getsockname fd k) as [r1 k1]. cbn in Hq1.
  pose proof (quiet_getpeername fd k1) as Hq2.
  destruct (sys_getpeername fd k1) as [r2 k2]. cbn in Hq2.
  split; [done|]. cbn. by eapply quiet_trans.
Qed.

(** A failed attempt: the channel is off the poller and about to be destroyed,
    the socket is closed and the next attempt is a timer away. *)
Definition attempt_failed s fd s' : Prop :=
  let c := connector_of s in
  exists (t : timer) (k : K),
    let when := (sys_now (sys_close fd k).2).1 + Millisecond (retryDelayMs_ c) in
    connector_of s' =
      set_retryDelayMs (next_delay (retryDelayMs_ c)) (set_timer t (setState kDisconnected c)) /\
    timers s !! t = None /\
    timers s' = <[t := Timer_ctor (Some Connector_startInLoop) when 0]> (timers s) /\
    (forall e, e ∈ timers_ (timerQueue_ s') <-> e = (when, t) \/ e ∈ timers_ (timerQueue_ s)) /\
    timers_wf [] s' /\
    pendingFunctors_ s' = pendingFunctors_ s ++ [Connector_resetChannel] /\
    poller_inv (poller_ s') /\ table (self (poller_ s')) = delete fd (table (self (poller_ s))) /\
    watched (poller_ s') = delete fd (watched (poller_ s)).

Lemma retry_detached s c fd s0 k :
  detached s c fd s0 -> isInLoopThread s = true -> quiet (lget os_lens s0) k ->
  timers_wf [] s -> connect_ (connector_of s) = true -> delay_ok (connector_of s) ->
  wp (retry con fd) (fun _ => attempt_failed s fd) (lset os_lens k s0).
Proof.
  intros Hdet Hin Hq Hwf Hcon Hd.
  destruct (detached_facts _ _ _ _ Hdet Hin) as (Ho & Ht & Hq0 & Hin0 & Hp & _ & HI & Htab & Hw).
  destruct (poller_kernel s0 k Hq HI) as (HI1 & Hw1 & Htab1).
  assert (Hc : connector_of (lset os_lens k s0) = connector_of s)
    by (unfold connector_of; cbn; by rewrite Ho).
  eapply wp_mono; [apply retry_spec|].
  - apply (timers_wf_same _ s); try done. cbn. unfold isInLoopThread in *. cbn in *. congruence.
  - by rewrite Hc.
  - by rewrite Hc.
  - intros [] s' (t & Hr). assert (Hr0 := Hr).
    destruct Hr as (Hc' & Hn & Ht' & Hset & Hk & Hwf' & Hp' & _). rewrite Hc in *.
    destruct (retried_poller _ _ _ _ Hr0 HI1) as [HI' Hw'].
    { rewrite Htab1, Htab. apply lookup_delete_eq. }
    exists t, k. cbv zeta. change (lget os_lens (lset os_lens k s0)) with k in *.
    destruct Hr0 as (_ & _ & _ & _ & _ & _ & _ & Hpol).
    split_and!; try done.
    + by rewrite <- Ht.
    + by rewrite <- Ht.
    + intros e. rewrite Hset. cbn. by rewrite Hq0.
    + rewrite Hp'. exact Hp.
    + rewrite Hpol. cbn. by rewrite <- Htab.
    + congruence.
Qed.

(** An attempt is under way on channel [c]. *)
Definition attempting s (c : chan) (ch : Channel) : Prop :=
  registered s c ch /\ is_Some (watched (poller_ s) !! fd_ ch) /\ timers_wf [] s /\
  state_ (connector_of s) = kConnecting /\ channel_ (connector_of s) = Some c /\
  connect_ (connector_of s) = true /\ delay_ok (connector_of s).

Lemma attempting_thread s c ch : attempting s c ch -> isInLoopThread s = true.
Proof. intros ((_ & Hin & _) & _). exact Hin. Qed.


(** Writability of the socket of an attempt.  The channel is taken off the
    poller, and then [SO_ERROR] and the two addresses decide: with an error, or
    when the socket is connected to itself, the attempt fails as above; otherwise
    the connector is [kConnected] and hands the open socket, once, to the new
    connection callback. *)
Lemma handleWrite_decides s c ch cb :
  attempting s c ch -> newConnectionCallback_ (connector_of s) = Some cb ->
  exists s0, detached s c (fd_ ch) s0 /\
    let r := sys_getSocketError (fd_ ch) (lget os_lens s0) in
    let self := self_connect (fd_ ch) r.2 in
    if negb (r.1 =? 0) || self.1
    then wp (handleWrite con on_new_connection) (fun _ => attempt_failed s (fd_ ch)) s
    else
      let s1 := lset (connector_lens con) (setState kConnected (connector_of s))
                  (lset os_lens self.2 s0) in
      connector_of s1 = setState kConnected (connector_of s) /\
      handleWrite con on_new_connection s = on_new_connection cb (fd_ ch) s1.
Proof.
  intros Hatt Hcb. pose proof (attempting_thread _ _ _ Hatt) as Hin.
  destruct Hatt as (Hreg & Hw & Hwf & Hst & Hch & Hcon & Hd).
  destruct (wp_inv _ _ _ (removeAndReset_spec s c ch Hreg Hch Hw)) as (fd & s0 & Hrun & -> & Hdet).
  exists s0. split; [done|]. destruct (sys_getSocketError (fd_ ch) (lget os_lens s0)) as [err k] eqn:Ek.
  cbn [fst snd]. destruct (self_connect (fd_ ch) k) as [self k2] eqn:Eself. cbn [fst snd].
  pose proof (quiet_sockerr (fd_ ch) (lget os_lens s0)) as Hq1. rewrite Ek in Hq1. cbn in Hq1.
  destruct (self_connect_ok (fd_ ch) k) as [Hself Hq2]. rewrite Eself in Hself, Hq2. cbn in Hq2.
  destruct (detached_facts _ _ _ _ Hdet Hin) as (Ho & _).
  assert (Hrw : handleWrite con on_new_connection s =
    (if negb (err =? 0) then retry con (fd_ ch)
     else let! self := zoom os_lens (isSelfConnect (fd_ ch)) in
       if self then retry con (fd_ ch)
       else con_modify con (setState kConnected) ;;
            let! c := gets (lget (connector_lens con)) in
            if connect_ c then
              match newConnectionCallback_ c with
              | Some cb => on_new_connection cb (fd_ ch)
              | None => throw BadFunctionCall
              end
            else zoom os_lens (close (fd_ ch))) (lset os_lens k s0)).
  { unfold handleWrite. rewrite bind_gets. change (lget (connector_lens con) s) with (connector_of s).
    rewrite bool_decide_eq_true_2 by done. unfold bind at 1. rewrite Hrun.
    unfold getSocketError. rewrite bind_zoom_total. by rewrite Ek. }
  unfold wp. rewrite Hrw. destruct (negb (err =? 0)); cbn [orb].
  { apply (retry_detached s c _ s0); try done. }
  assert (Hz : forall {R} (f : bool -> M (Reactor P K X) R),
    bind (zoom os_lens (isSelfConnect (fd_ ch))) f (lset os_lens k s0) =
    f self (lset os_lens k2 s0)).
  { intros R f. unfold bind, zoom. change (lget os_lens (lset os_lens k s0)) with k. by rewrite Hself. }
  rewrite Hz. destruct self.
  { apply (retry_detached s c _ s0); try done. by eapply quiet_trans. }
  split; [apply connector_set|].
  unfold bind at 1, con_modify, zoom, modify. rewrite bind_gets.
  change (lget (connector_lens con) (lset os_lens k2 s0)) with (lget con (objs s0)).
  rewrite Ho. change (lget con (objs s)) with (connector_of s).
  set (s1 := lset (connector_lens con) _ _).
  assert (Hc1 : lget (connector_lens con) s1 = setState kConnected (connector_of s))
    by apply connector_set.
  rewrite Hc1. cbn [connect_ setState newConnectionCallback_]. by rewrite Hcon, Hcb.
Qed.

(** ** Properties *)

(** C33. An error on the socket of an attempt: whatever the error, the attempt ends
    cleanly.  The channel leaves the poller at once (the other registrations
    stay) and is destroyed by a task; the socket is closed before exactly one
    timer is set for the next attempt, [retryDelayMs_] after the time read then;
    the state is [kDisconnected] again and the next delay is twice as long, at
    most thirty seconds. *)
Theorem handleError_retries s c ch :
  attempting s c ch -> wp (handleError con) (fun _ => attempt_failed s (fd_ ch)) s.
Proof.
  intros Hatt. pose proof (attempting_thread _ _ _ Hatt) as Hin.
  destruct Hatt as (Hreg & Hw & Hwf & Hst & Hch & Hcon & Hd). unfold handleError.
  apply wp_bind, wp_gets, wp_bind, wp_assert; [by apply bool_decide_eq_true_2|].
  apply wp_bind. eapply wp_mono; [by eapply removeAndReset_spec|].
  intros fd s0 [-> Hdet]. apply wp_bind, wp_os. intros err k Ek.
  apply (retry_detached s c _ s0); try done.
  pose proof (quiet_sockerr (fd_ ch) (lget os_lens s0)) as Hq. by rewrite Ek in Hq.
Qed.

End Connector_spec.

(** *** [stop()] and the destructor need a pending timer *)
Section Connector_stop.
Context {B : Build} {P K X : Type} `{PollerOps P K} `{SysCalls K, !NetSys K}.
Context (con : lens X Connector) `{!LensLaws con}.

Lemma stop_faults (s : Reactor P K X) :
  isInLoopThread s = true ->
  match timer_ (connector_of con s) with
  | None => stop con s = Err Uninitialised
  | Some t => timers s !! t = None -> stop con s = Err UseAfterFree
  end.
Proof.
  intros Hin. set (s1 := lset (connector_lens con) (set_connect false (connector_of con s)) s).
  assert (Hs : stop con s =
    (let! t := of_option Uninitialised (timer_ (connector_of con s)) in cancelTimer t) s1).
  { unfold stop, bind at 1, con_modify, zoom, modify. rewrite bind_gets.
    assert (Hc : lget (connector_lens con) s1 = set_connect false (connector_of con s))
      by exact (lget_lset (l := con) _ _).
    change (lset _ _ s) with s1. by rewrite Hc. }
  rewrite Hs. destruct (timer_ (connector_of con s)) as [t|]; [|done]. intros Ht.
  unfold bind at 1, of_option, EventLoop.cancelTimer, TimerQueue.cancelTimer, runInLoop, bind, get.
  change (isInLoopThread s1) with (isInLoopThread s).
  rewrite Hin. unfold cancelTimerInLoop, tm_get, bind, gets, of_option.
  change (timers s1) with (timers s). by rewrite Ht.
Qed.
End Connector_stop.

(** ** Witnesses

    Channel 1 watches the socket 6 of an attempt that waited 400 ms. *)
#[local] Existing Instances debug_build fresh_allocator.

Definition sample_channel : Channel :=
  set_index EpollPoller.kAdded (set_addedToLoop true (set_events EPOLLOUT
    (setErrorCallback Connector_handleError (setWriteCallback Connector_handleWrite
      (Channel_ctor 1%positive 6))))).

Definition sample_connector : Connector :=
  mkConnector zero_sockaddr true kConnecting (Some 1%positive) (Some (user_new_connection 0)) 400 None.

Definition sample_loop (errors : list Z) : Reactor EpollPoller proc Connector :=
  mkReactor 1%positive true false false 0
    (mkPollState (mkEpollPoller 3 (replicate 16 zero_event) {[6 := 1%positive]})
       {[1%positive := sample_channel]} (initDefaultEvent LT)
       (Proc (Sim (Script [] [] ∅)
                (EpollScript {[3 := {[6 := mkEpollEvent EPOLLOUT (Some 1%positive)]}]} [] 100) [] [])
          {[3; 4; 5; 6]} [] [] errors) 1 1)
    (mkTimerQueue 4 3%positive []) ∅ 5 2%positive [] [] sample_connector.

Lemma sample_attempting errors : attempting id_lens (sample_loop errors) 1%positive sample_channel.
Proof.
  split_and!; try done.
  - split_and!; try done. split; [|split; [|by vm_compute]]; intros fd.
    + intros c Hc. cbn in Hc. apply lookup_singleton_Some in Hc as [<- <-].
      exists sample_channel. split_and!; try done. left. split; [done|]. exists EPOLLOUT.
      apply lookup_singleton_eq.
    + cbn. intros [e He]. rewrite es_list_singleton in He.
    apply lookup_singleton_Some in He as [<- _]. exists 1%positive.
      apply lookup_singleton_eq.
  - split_and!; try done; constructor.
Qed.

Lemma handleError_retries_witness :
  wp (handleError (H0 := proc_calls) id_lens)
     (fun _ s' => exists t, retryDelayMs_ (objs s') = 800 /\ state_ (objs s') = kDisconnected /\
        timer_ (objs s') = Some t /\ dom (timers s') = {[t]} /\
        pendingFunctors_ s' = [Connector_resetChannel]) (sample_loop [ECONNREFUSED]).
Proof.
  refine (wp_mono _ _ _ _ (handleError_retries (SysCalls0 := proc_calls) id_lens
    (sample_loop [ECONNREFUSED]) 1%positive sample_channel (sample_attempting _)) _).
  intros [] s' (t & k & Hc & _ & Ht & _ & _ & Hp & _).
  change (objs s' = set_retryDelayMs 800 (set_timer t (setState kDisconnected sample_connector))) in Hc.
  exists t. rewrite Hc. split; [reflexivity|]. split; [reflexivity|]. split; [reflexivity|].
  split; [|exact Hp]. rewrite Ht.
  change (timers (sample_loop [ECONNREFUSED])) with (∅ : gmap timer Timer).
  by rewrite dom_insert_L, dom_empty_L, union_empty_r_L.
Defined.

Definition take_socket (cb : NewConnectionCallback) (fd : Z) :
    M (Reactor EpollPoller proc Connector) unit := ret tt.

Lemma handleWrite_decides_witness :
  exists s0, detached (sample_loop []) 1%positive 6 s0 /\
    let r := sys_getSocketError 6 (lget os_lens s0) in
    let self := self_connect 6 r.2 in
    if negb (r.1 =? 0) || self.1
    then wp (handleWrite (H0 := proc_calls) id_lens take_socket)
           (fun _ => attempt_failed id_lens (sample_loop []) 6) (sample_loop [])
    else
      let s1 := lset (connector_lens id_lens) (setState kConnected sample_connector)
                  (lset os_lens self.2 s0) in
      connector_of id_lens s1 = setState kConnected sample_connector /\
      handleWrite (H0 := proc_calls) id_lens take_socket (sample_loop []) =
        take_socket (user_new_connection 0) 6 s1.
Proof.
  exact (handleWrite_decides (SysCalls0 := proc_calls) id_lens take_socket (sample_loop [])
    1%positive sample_channel (user_new_connection 0) (sample_attempting []) eq_refl).
Defined.

(** With no pending error the run ends connected. *)
Example handleWrite_connects :
  match handleWrite (H0 := proc_calls) id_lens take_socket (sample_loop []) with
  | Ok (_, s') => state_ (objs s') = kConnected
  | Err _ => False
  end.
Proof. vm_compute. reflexivity. Qed.
