(* ===== verification/TcpConnection.v ===== *)
(** * TcpConnection.h, TcpConnection.cc: one connection

    Connections live in a heap inside the objects of the reactor.  The callbacks
    of the user are the class [Callbacks]; they may run any operation.  The
    context of a connection is the user's and is left out.  Connections stay in the
    heap here until [TcpConnection_dtor]; when it runs is the subject of
    [Lifetime.v]. *)

From S2P Require Import Prelude Posix SocketsOps Socket Callbacks Buffer Timer Channel LoopThread Poller EpollPoller Reactor.

Inductive StateE : Type := kConnecting | kConnected | kDisconnected | kDisconnecting.

#[global] Instance StateE_eq_dec : EqDecision StateE.
Proof. solve_decision. Defined.

Record TcpConnection : Type := mkConn {
  getLoop : loop_id;
  name : list byte;
  localAddress : sockaddr;
  peerAddress : sockaddr;
  state_ : StateE;
  reading_ : bool;
  socket_ : Z;
  channel_ : chan;
  connectionCallback_ : option ConnectionCallback;
  messageCallback_ : option MessageCallback;
  writeCompleteCallback_ : option WriteCompleteCallback;
  highWaterMarkCallback_ : option HighWaterMarkCallback;
  closeCallback_ : option CloseCallback;
  highWaterMark_ : Z;
  inputBuffer_ : Buffer;
  outputBuffer_ : Buffer;
}.

Definition setState (st : StateE) (cn : TcpConnection) : TcpConnection :=
  mkConn (getLoop cn) (name cn) (localAddress cn) (peerAddress cn)
    st (reading_ cn) (socket_ cn) (channel_ cn) (connectionCallback_ cn) (messageCallback_ cn)
    (writeCompleteCallback_ cn) (highWaterMarkCallback_ cn) (closeCallback_ cn) (highWaterMark_ cn)
    (inputBuffer_ cn) (outputBuffer_ cn).
Definition set_reading (b : bool) (cn : TcpConnection) : TcpConnection :=
  mkConn (getLoop cn) (name cn) (localAddress cn) (peerAddress cn)
    (state_ cn) b (socket_ cn) (channel_ cn) (connectionCallback_ cn) (messageCallback_ cn)
    (writeCompleteCallback_ cn) (highWaterMarkCallback_ cn) (closeCallback_ cn) (highWaterMark_ cn)
    (inputBuffer_ cn) (outputBuffer_ cn).
Definition setConnectionCallback (cb : option ConnectionCallback) (cn : TcpConnection) : TcpConnection :=
  mkConn (getLoop cn) (name cn) (localAddress cn) (peerAddress cn)
    (state_ cn) (reading_ cn) (socket_ cn) (channel_ cn) cb (messageCallback_ cn)
    (writeCompleteCallback_ cn) (highWaterMarkCallback_ cn) (closeCallback_ cn) (highWaterMark_ cn)
    (inputBuffer_ cn) (outputBuffer_ cn).
Definition setMessageCallback (cb : option MessageCallback) (cn : TcpConnection) : TcpConnection :=
  mkConn (getLoop cn) (name cn) (localAddress cn) (peerAddress cn)
    (state_ cn) (reading_ cn) (socket_ cn) (channel_ cn) (connectionCallback_ cn) cb
    (writeCompleteCallback_ cn) (highWaterMarkCallback_ cn) (closeCallback_ cn) (highWaterMark_ cn)
    (inputBuffer_ cn) (outputBuffer_ cn).
Definition setWriteCompleteCallback (cb : option WriteCompleteCallback) (cn : TcpConnection) : TcpConnection :=
  mkConn (getLoop cn) (name cn) (localAddress cn) (peerAddress cn)
    (state_ cn) (reading_ cn) (socket_ cn) (channel_ cn) (connectionCallback_ cn)
    (messageCallback_ cn) cb (highWaterMarkCallback_ cn) (closeCallback_ cn) (highWaterMark_ cn)
    (inputBuffer_ cn) (outputBuffer_ cn).
Definition setConnCloseCallback (cb : option CloseCallback) (cn : TcpConnection) : TcpConnection :=
  mkConn (getLoop cn) (name cn) (localAddress cn) (peerAddress cn)
    (state_ cn) (reading_ cn) (socket_ cn) (channel_ cn) (connectionCallback_ cn)
    (messageCallback_ cn) (writeCompleteCallback_ cn) (highWaterMarkCallback_ cn) cb
    (highWaterMark_ cn) (inputBuffer_ cn) (outputBuffer_ cn).
Definition setHighWaterMarkCallback (cb : option HighWaterMarkCallback) (mark : Z) (cn : TcpConnection) :
    TcpConnection :=
  mkConn (getLoop cn) (name cn) (localAddress cn) (peerAddress cn)
    (state_ cn) (reading_ cn) (socket_ cn) (channel_ cn) (connectionCallback_ cn)
    (messageCallback_ cn) (writeCompleteCallback_ cn) cb (closeCallback_ cn) mark
    (inputBuffer_ cn) (outputBuffer_ cn).
Definition set_input (b : Buffer) (cn : TcpConnection) : TcpConnection :=
  mkConn (getLoop cn) (name cn) (localAddress cn) (peerAddress cn)
    (state_ cn) (reading_ cn) (socket_ cn) (channel_ cn) (connectionCallback_ cn)
    (messageCallback_ cn) (writeCompleteCallback_ cn) (highWaterMarkCallback_ cn) (closeCallback_ cn)
    (highWaterMark_ cn) b (outputBuffer_ cn).
Definition set_output (b : Buffer) (cn : TcpConnection) : TcpConnection :=
  mkConn (getLoop cn) (name cn) (localAddress cn) (peerAddress cn)
    (state_ cn) (reading_ cn) (socket_ cn) (channel_ cn) (connectionCallback_ cn)
    (messageCallback_ cn) (writeCompleteCallback_ cn) (highWaterMarkCallback_ cn) (closeCallback_ cn)
    (highWaterMark_ cn) (inputBuffer_ cn) b.

Definition connected (cn : TcpConnection) : bool := bool_decide (state_ cn = kConnected).
Definition disconnected (cn : TcpConnection) : bool := bool_decide (state_ cn = kDisconnected).

(** The connections, and the memory of the user that [send] points into. *)
Class ConnHeap (X : Type) : Type := {
  conns : lens X (gmap conn TcpConnection);
  memory : X -> gmap positive (list byte);
  conns_laws :: LensLaws conns;
  memory_conns h x : memory (lset conns h x) = memory x;
}.

(** The callbacks of the user. *)
Class Callbacks (P K X : Type) : Type := {
  on_connection : nat -> conn -> M (Reactor P K X) unit;
  on_message : nat -> conn -> Z -> M (Reactor P K X) unit;
  on_close : CloseCallback -> conn -> M (Reactor P K X) unit;
}.

Section TcpConnection_ops.
Context {B : Build} {P K X : Type} `{PollerOps P K} `{SysCalls K} `{ConnHeap X} `{Callbacks P K X}.

Definition conn_get (c : conn) : M (Reactor P K X) TcpConnection :=
  let! x := gets objs in of_option UseAfterFree (lget conns x !! c).

Definition conn_put (c : conn) (cn : TcpConnection) : M (Reactor P K X) unit :=
  zoom objs_lens (zoom conns (modify (fun h => <[c := cn]> h))).

Definition conn_modify (c : conn) (f : TcpConnection -> TcpConnection) : M (Reactor P K X) unit :=
  let! cn := conn_get c in conn_put c (f cn).

(** An operation of one of the two buffers, with the kernel. *)
Definition on_input {R} (c : conn) (m : M (Buffer * K) R) : M (Reactor P K X) R :=
  let! cn := conn_get c in
  let! k := gets (lget os_lens) in
  let! (r, (b, k')) := lift (m (inputBuffer_ cn, k)) in
  zoom os_lens (modify (fun _ => k')) ;;
  conn_put c (set_input b cn) ;;
  ret r.

Definition on_output {R} (c : conn) (m : M (Buffer * K) R) : M (Reactor P K X) R :=
  let! cn := conn_get c in
  let! k := gets (lget os_lens) in
  let! (r, (b, k')) := lift (m (outputBuffer_ cn, k)) in
  zoom os_lens (modify (fun _ => k')) ;;
  conn_put c (set_output b cn) ;;
  ret r.

(** ** Callbacks *)

(** Calling an empty [std::function] throws. *)
Definition call_connection (c : conn) (cb : option ConnectionCallback) : M (Reactor P K X) unit :=
  match cb with
  | None => throw BadFunctionCall
  | Some defaultConnectionCallback => ret tt
  | Some (user_connection n) => on_connection n c
  end.

Definition call_message (c : conn) (t : Z) (cb : option MessageCallback) : M (Reactor P K X) unit :=
  match cb with
  | None => throw BadFunctionCall
  | Some defaultMessageCallback => on_input c (zoom buf retrieveAll)
  | Some (user_message n) => on_message n c t
  end.

Definition call_close (c : conn) (cb : option CloseCallback) : M (Reactor P K X) unit :=
  match cb with None => throw BadFunctionCall | Some cb => on_close cb c end.

(** ** Construction *)

(** The memory of a connection after its constructor: [c] is its address, [chan]
    that of its channel. *)
Definition TcpConnection_ctor (c : conn) (ch : chan) (loop : loop_id) (nameArg : list byte)
    (sockfd : Z) (localAddr peerAddr : sockaddr) : M (Reactor P K X) unit :=
  let! input := Buffer_ctor kInitialSize in
  let! output := Buffer_ctor kInitialSize in
  zoom memory_lens (modify (fun h => <[ch := Channel_ctor loop sockfd]> h)) ;;
  conn_put c (mkConn loop nameArg localAddr peerAddr kConnecting true sockfd ch None None None None None (64 * 1024 * 1024)
                input output) ;;
  ch_modify ch (setReadCallback (TcpConnection_handleRead c)) ;;
  ch_modify ch (setWriteCallback (TcpConnection_handleWrite c)) ;;
  ch_modify ch (setCloseCallback (TcpConnection_handleClose c)) ;;
  ch_modify ch (setErrorCallback (TcpConnection_handleError c)) ;;
  let! r := zoom os_lens (total (sys_setsockopt sockfd SO_KEEPALIVE true)) in
  ret tt.

(** ** Closing *)
Definition shutdownInLoop (c : conn) : M (Reactor P K X) unit :=
  assertInLoopThread ;;
  let! cn := conn_get c in
  let! ch := ch_get (channel_ cn) in
  let! st := gets statics in
  whenb (negb (isWriting st ch))
    (let! r := zoom os_lens (total (sys_shutdown_write (socket_ cn))) in ret tt).

Definition shutdown (c : conn) : M (Reactor P K X) unit :=
  let! cn := conn_get c in
  whenb (bool_decide (state_ cn = kConnected))
    (conn_modify c (setState kDisconnecting) ;;
     runInLoop (shutdownInLoop c) (TcpConnection_shutdownInLoop c)).

Definition handleClose (c : conn) : M (Reactor P K X) unit :=
  assertInLoopThread ;;
  let! cn := conn_get c in
  assert_ (bool_decide (state_ cn = kConnected) || bool_decide (state_ cn = kDisconnecting)) ;;
  conn_modify c (setState kDisconnected) ;;
  disableAll (channel_ cn) ;;
  let! cn := conn_get c in
  call_connection c (connectionCallback_ cn) ;;
  let! cn := conn_get c in
  call_close c (closeCallback_ cn).

Definition forceCloseInLoop (c : conn) : M (Reactor P K X) unit :=
  assertInLoopThread ;;
  let! cn := conn_get c in
  whenb (bool_decide (state_ cn = kDisconnecting) || bool_decide (state_ cn = kConnected))
    (handleClose c).

Definition forceClose (c : conn) : M (Reactor P K X) unit :=
  let! cn := conn_get c in
  whenb (bool_decide (state_ cn = kConnected) || bool_decide (state_ cn = kDisconnecting))
    (conn_modify c (setState kDisconnecting) ;;
     queueInLoop (TcpConnection_forceCloseInLoop c)).

(** ** Coming and going *)
Definition connectEstablished (c : conn) : M (Reactor P K X) unit :=
  assertInLoopThread ;;
  let! cn := conn_get c in
  assert_ (bool_decide (state_ cn = kConnecting)) ;;
  conn_modify c (setState kConnected) ;;
  enableReading (channel_ cn) ;;
  let! cn := conn_get c in
  call_connection c (connectionCallback_ cn).

Definition connectDestroyed (c : conn) : M (Reactor P K X) unit :=
  assertInLoopThread ;;
  let! cn := conn_get c in
  whenb (bool_decide (state_ cn = kConnected))
    (conn_modify c (setState kDisconnected) ;;
     disableAll (channel_ cn) ;;
     let! cn := conn_get c in
     call_connection c (connectionCallback_ cn)) ;;
  let! cn := conn_get c in
  Channel.remove (channel_ cn).

(** [~TcpConnection()]: the log line reads the channel; then the members
    [channel_] and [socket_] are destroyed and the storage is released. *)
Definition TcpConnection_dtor (c : conn) : M (Reactor P K X) unit :=
  let! cn := conn_get c in
  whenb (level_num g_logLevel <=? level_num DEBUG) (let! ch := ch_get (channel_ cn) in ret tt) ;;
  Channel_dtor (channel_ cn) ;;
  zoom os_lens (Socket_dtor (socket_ cn)) ;;
  zoom objs_lens (zoom conns (modify (delete c))).

Definition setTcpNoDelay (c : conn) (on : bool) : M (Reactor P K X) unit :=
  let! cn := conn_get c in
  let! r := zoom os_lens (total (sys_setsockopt (socket_ cn) TCP_NODELAY on)) in
  ret tt.

(** ** Reading on and off *)
Definition startReadInLoop (c : conn) : M (Reactor P K X) unit :=
  assertInLoopThread ;;
  let! cn := conn_get c in
  let! ch := ch_get (channel_ cn) in
  let! st := gets statics in
  whenb (negb (reading_ cn) || negb (isReading st ch))
    (enableReading (channel_ cn) ;; conn_modify c (set_reading true)).

Definition startRead (c : conn) : M (Reactor P K X) unit :=
  runInLoop (startReadInLoop c) (TcpConnection_startReadInLoop c).

Definition stopReadInLoop (c : conn) : M (Reactor P K X) unit :=
  assertInLoopThread ;;
  let! cn := conn_get c in
  let! ch := ch_get (channel_ cn) in
  let! st := gets statics in
  whenb (reading_ cn || isReading st ch)
    (disableReading (channel_ cn) ;; conn_modify c (set_reading false)).

Definition stopRead (c : conn) : M (Reactor P K X) unit :=
  runInLoop (stopReadInLoop c) (TcpConnection_stopReadInLoop c).

(** ** Sending *)

(** The direct write of [sendInLoop]: what [nwrote], [remaining] and
    [faultError] hold afterwards. *)
Definition write_now (c : conn) (cn : TcpConnection) (fd : Z) (data : list byte) (len : Z) :
    M (Reactor P K X) (Z * Z * bool) :=
  let! r := zoom os_lens (total (sys_write fd data)) in
  match r with
  | inl nwrote =>
      let remaining := u64 (len - nwrote) in
      match writeCompleteCallback_ cn with
      | Some cb => whenb (remaining =? 0) (queueInLoop (writeCompleteCallback cb c))
      | None => ret tt
      end ;;
      ret (nwrote, remaining, false)
  | inr errno =>
      ret (0, len, negb (errno =? EWOULDBLOCK) && ((errno =? EPIPE) || (errno =? ECONNRESET)))
  end.

(** The rest of the data goes to the output buffer. *)
Definition buffer_rest (c : conn) (rest : list byte) (remaining : Z) : M (Reactor P K X) unit :=
  let! cn := conn_get c in
  let oldLen := readableBytes (outputBuffer_ cn) in
  match highWaterMarkCallback_ cn with
  | Some cb =>
      whenb ((highWaterMark_ cn <=? u64 (oldLen + remaining)) && (oldLen <? highWaterMark_ cn))
        (queueInLoop (highWaterMarkCallback cb c (u64 (oldLen + remaining))))
  | None => ret tt
  end ;;
  on_output c (zoom buf (append rest)) ;;
  let! ch := ch_get (channel_ cn) in
  let! st := gets statics in
  whenb (negb (isWriting st ch)) (enableWriting (channel_ cn)).

(** [src] reads the [len] bytes the pointer [data] points to. *)
Definition sendInLoop (c : conn) (src : M (Reactor P K X) (list byte)) (len : Z) :
    M (Reactor P K X) unit :=
  assertInLoopThread ;;
  let! cn := conn_get c in
  if bool_decide (state_ cn = kDisconnected) then ret tt else
  let! ch := ch_get (channel_ cn) in
  let! st := gets statics in
  whenb (negb (isWriting st ch) && (readableBytes (outputBuffer_ cn) =? 0))
    (let! data := src in
     let! (nwrote, remaining, faultError) := write_now c cn (fd_ ch) data len in
     assert_ (remaining <=? len) ;;
     whenb (negb faultError && (0 <? remaining))
       (buffer_rest c (drop (Z.to_nat nwrote) data) remaining)).

(** [len] bytes of the user's memory at [data]. *)
Definition read_memory (data : positive) (len : Z) : M (Reactor P K X) (list byte) :=
  let! x := gets objs in
  let! block := of_option UseAfterFree (memory x !! data) in
  lift (vec_read block 0 len).

(** [send(const void*, size_t)], also behind [send(std::string_view)]: the bound
    task holds the pointer, not the bytes. *)
Definition send (c : conn) (data : positive) (len : Z) : M (Reactor P K X) unit :=
  let! cn := conn_get c in
  whenb (bool_decide (state_ cn = kConnected))
    (runInLoop (sendInLoop c (read_memory data len) len) (TcpConnection_sendInLoop c data len)).

(** [send] of a buffer; [l] is the buffer pointed to. *)
Definition send_buffer (c : conn) (l : lens (Reactor P K X) Buffer) : M (Reactor P K X) unit :=
  let! b := gets (lget l) in
  sendInLoop c (let! b := gets (lget l) in lift (vec_read (buffer_ b) (peek b) (readableBytes b)))
    (readableBytes b) ;;
  zoom l retrieveAll.

(** ** Events *)
Definition handleError (c : conn) : M (Reactor P K X) unit :=
  let! cn := conn_get c in
  let! ch := ch_get (channel_ cn) in
  let! err := zoom os_lens (total (sys_getSocketError (fd_ ch))) in
  ret tt.

(** [fuel] bounds the loop of [readFdET]. *)
Definition handleRead (fuel : nat) (c : conn) (receiveTime : Z) : M (Reactor P K X) unit :=
  let! cn := conn_get c in
  let! ch := ch_get (channel_ cn) in
  let! st := gets statics in
  let! (n, savedErrno) := on_input c (if isET st then readFdET fuel (fd_ ch) 0
                                      else readFd (fd_ ch) 0) in
  if 0 <? n then
    let! cn := conn_get c in call_message c receiveTime (messageCallback_ cn)
  else if n =? 0 then handleClose c
  else handleError c.

Definition handleWrite (fuel : nat) (c : conn) : M (Reactor P K X) unit :=
  assertInLoopThread ;;
  let! cn := conn_get c in
  let! ch := ch_get (channel_ cn) in
  let! st := gets statics in
  whenb (isWriting st ch)
    (let! (n, savedErrno) := on_output c (if isET st then writeFdET fuel (fd_ ch) 0
                                          else writeFd (fd_ ch) 0) in
     whenb (0 <? n)
       (let! cn := conn_get c in
        whenb (readableBytes (outputBuffer_ cn) =? 0)
          (disableWriting (channel_ cn) ;;
           match writeCompleteCallback_ cn with
           | Some cb => queueInLoop (writeCompleteCallback cb c)
           | None => ret tt
           end ;;
           let! cn := conn_get c in
           whenb (bool_decide (state_ cn = kDisconnecting)) (shutdownInLoop c)))).

(** ** Tasks and events

    What the tasks and the channels of connections run; [other] is the rest. *)
Definition run_conn_task (other : Functor -> M (Reactor P K X) unit) (f : Functor) :
    M (Reactor P K X) unit :=
  match f with
  | TcpConnection_sendInLoop c data len => sendInLoop c (read_memory data len) len
  | TcpConnection_shutdownInLoop c => shutdownInLoop c
  | TcpConnection_forceCloseInLoop c => forceCloseInLoop c
  | TcpConnection_startReadInLoop c => startReadInLoop c
  | TcpConnection_stopReadInLoop c => stopReadInLoop c
  | TcpConnection_connectEstablished c => connectEstablished c
  | TcpConnection_connectDestroyed c => connectDestroyed c
  | TcpConnection_setCloseCallback c cb => conn_modify c (setConnCloseCallback (Some cb))
  | f => other f
  end.

Definition run_conn_handler (fuel : nat) (other : Handler -> M (Reactor P K X) unit) (h : Handler) :
    M (Reactor P K X) unit :=
  match h with
  | TcpConnection_handleWrite c => handleWrite fuel c
  | TcpConnection_handleClose c => handleClose c
  | TcpConnection_handleError c => handleError c
  | h => other h
  end.

Definition run_conn_read (fuel : nat) (other : Z -> Handler -> M (Reactor P K X) unit) (t : Z)
    (h : Handler) : M (Reactor P K X) unit :=
  match h with
  | TcpConnection_handleRead c => handleRead fuel c t
  | h => other t h
  end.
End TcpConnection_ops.

(** ** Specifications *)
Section TcpConnection_spec.
Context {B : Build} {P K X : Type} `{PollerContract P K} `{!SysCalls K, !Quiet K, !QuietPoller P K}.
Context `{!SocketIOLaws K} `{ConnHeap X} `{!Callbacks P K X}.
Implicit Types s : Reactor P K X.

Definition conn_at s (c : conn) (cn : TcpConnection) : Prop := lget conns (objs s) !! c = Some cn.

Definition with_conn (c : conn) (cn : TcpConnection) s : Reactor P K X :=
  lset objs_lens (lset conns (<[c := cn]> (lget conns (objs s))) (objs s)) s.

(** An error that means the peer is gone. *)
Definition fatal (e : Z) : bool := negb (e =? EWOULDBLOCK) && ((e =? EPIPE) || (e =? ECONNRESET)).

(** What is left to send after a write with result [r]. *)
Definition unsent (r : sysres Z) (data : list byte) : list byte :=
  match r with
  | inl n => drop (Z.to_nat n) data
  | inr e => if fatal e then [] else data
  end.

(** The callbacks a direct write asks the loop to run, in order. *)
Definition complete_notice (c : conn) (cn : TcpConnection) (r : sysres Z) (data : list byte) :
    list Functor :=
  match r, writeCompleteCallback_ cn with
  | inl n, Some cb => if n =? zlen data then [writeCompleteCallback cb c] else []
  | _, _ => []
  end.

Definition mark_notice (c : conn) (cn : TcpConnection) (rest : list byte) : list Functor :=
  match highWaterMarkCallback_ cn with
  | Some cb => if (highWaterMark_ cn <=? zlen rest) && (0 <? highWaterMark_ cn)
               then [highWaterMarkCallback cb c (zlen rest)] else []
  | None => []
  end.

(** ** Lemmas *)

Lemma wp_conn_get c cn Q s : conn_at s c cn -> Q cn s -> wp (conn_get c) Q s.
Proof. intros Hc HQ. unfold conn_get. wp_simp. apply wp_of_option. by exists cn. Qed.

Lemma wp_conn_put c cn (Q : unit -> Reactor P K X -> Prop) s :
  Q tt (with_conn c cn s) -> wp (conn_put c cn) Q s.
Proof. intros HQ. unfold conn_put. by wp_simp. Qed.

Lemma wp_conn_modify c f cn (Q : unit -> Reactor P K X -> Prop) s :
  conn_at s c cn -> Q tt (with_conn c (f cn) s) -> wp (conn_modify c f) Q s.
Proof.
  intros Hc HQ. unfold conn_modify. wp_simp. eapply wp_conn_get; [done|]. by apply wp_conn_put.
Qed.

Lemma conn_at_with c cn s : conn_at (with_conn c cn s) c cn.
Proof. unfold conn_at. cbn. rewrite lget_lset. apply lookup_insert_eq. Qed.

Lemma registered_with c cn s cc ch : registered s cc ch -> registered (with_conn c cn s) cc ch.
Proof. by apply registered_poller. Qed.

(** Running an operation on one of the buffers. *)
Lemma wp_on_output {R} c cn (m : M (Buffer * K) R) r b k s (Q : R -> Reactor P K X -> Prop) :
  conn_at s c cn -> m (outputBuffer_ cn, lget os_lens s) = Ok (r, (b, k)) ->
  Q r (with_conn c (set_output b cn) (lset os_lens k s)) -> wp (on_output c m) Q s.
Proof.
  intros Hc Hm HQ. unfold on_output. wp_simp. eapply wp_conn_get; [done|]. wp_simp.
  apply wp_lift. eexists. split; [exact Hm|]. wp_simp. apply wp_conn_put. by wp_simp.
Qed.

Lemma wp_on_input {R} c cn (m : M (Buffer * K) R) r b k s (Q : R -> Reactor P K X -> Prop) :
  conn_at s c cn -> m (inputBuffer_ cn, lget os_lens s) = Ok (r, (b, k)) ->
  Q r (with_conn c (set_input b cn) (lset os_lens k s)) -> wp (on_input c m) Q s.
Proof.
  intros Hc Hm HQ. unfold on_input. wp_simp. eapply wp_conn_get; [done|]. wp_simp.
  apply wp_lift. eexists. split; [exact Hm|]. wp_simp. apply wp_conn_put. by wp_simp.
Qed.

Lemma enableWriting_some st ev : kNoneEvent st = 0 -> kWriteEvent st = EPOLLOUT ->
  ev_enableWriting st ev <> kNoneEvent st.
Proof. intros Hn Hw. unfold ev_enableWriting. rewrite Hn, Hw, Z.lor_eq_0_iff. by intros [_ ?]. Qed.

(** The state after the callbacks [fs] have been queued. *)
Definition queued_all (fs : list Functor) s : Reactor P K X := foldl (fun s f => queued f s) s fs.

Lemma queued_all_same fs : forall s,
  objs (queued_all fs s) = objs s /\ pendingFunctors_ (queued_all fs s) = pendingFunctors_ s ++ fs /\
  lget memory_lens (queued_all fs s) = lget memory_lens s /\
  statics (queued_all fs s) = statics s.
Proof.
  induction fs as [|f fs IH]; intros s; [by rewrite app_nil_r|].
  change (queued_all (f :: fs) s) with (queued_all fs (queued f s)).
  destruct (IH (queued f s)) as (Ho & Hp & Hm & Hst).
  destruct (queued_same f s) as (Ho' & Hp' & Hm' & Hst' & _ & _).
  rewrite Ho, Hp, Hm, Hst, Ho', Hp', Hm', Hst', <- app_assoc. done.
Qed.

Lemma registered_queued_all fs : forall s cc ch,
  registered s cc ch ->
  registered (queued_all fs s) cc ch /\ watched (poller_ (queued_all fs s)) = watched (poller_ s).
Proof.
  induction fs as [|f fs IH]; intros s cc ch Hr; [done|].
  change (queued_all (f :: fs) s) with (queued_all fs (queued f s)).
  destruct (registered_queued f s cc ch Hr) as [Hr' Hw].
  destruct (IH _ _ _ Hr') as [Hr'' Hw']. by rewrite Hw', Hw.
Qed.

(** *** Sending *)

(** The notification of [write_now] is queued when nothing remains. *)
Lemma wp_write_now c cn fd data r k1 s (Q : Z * Z * bool -> Reactor P K X -> Prop) :
  sys_write fd data (lget os_lens s) = (r, k1) -> zlen data <= vector_max ->
  Q (match r with
     | inl n => (n, zlen data - n, false)
     | inr e => (0, zlen data, fatal e)
     end) (queued_all (complete_notice c cn r data) (lset os_lens k1 s)) ->
  wp (write_now c cn fd data (zlen data)) Q s.
Proof.
  intros Hw Hmax HQ. unfold write_now. wp_simp. rewrite Hw. cbn [fst snd].
  unfold complete_notice in HQ. destruct r as [n|e]; [|by wp_simp].
  pose proof (write_le _ _ _ _ _ Hw) as Hn. unfold vector_max in Hmax.
  rewrite u64_small by lia. wp_simp.
  destruct (writeCompleteCallback_ cn) as [cb|]; [|by wp_simp].
  destruct (Z.eqb_spec (zlen data - n) 0) as [Hz|Hz]; wp_simp.
  - rewrite (proj2 (Z.eqb_eq n (zlen data))) in HQ by lia. by apply wp_queueInLoop.
  - by rewrite (proj2 (Z.eqb_neq n (zlen data))) in HQ by lia.
Qed.

(** Output is waiting in the buffer, and the channel waits for room in the socket. *)
Definition waiting s (c : conn) (cn : TcpConnection) (ch : Channel) (rest : list byte)
    (w : gmap Z (chan * Z)) (s' : Reactor P K X) : Prop :=
  exists out ch', conn_at s' c (set_output out cn) /\ Inv out /\ content out = rest /\
    registered s' (channel_ cn) ch' /\
    set_index 0 ch' = set_index 0 (interested (Z.lor (events_ ch) EPOLLOUT) ch) /\
    pendingFunctors_ s' = pendingFunctors_ s /\ statics s' = statics s /\
    objs s' = objs (with_conn c (set_output out cn) s) /\
    watched (poller_ s') = <[fd_ ch := (channel_ cn, encode (Z.lor (events_ ch) EPOLLOUT))]> w.

Lemma append_and_watch c cn ch rest s :
  conn_at s c cn -> registered s (channel_ cn) ch -> statics s = initDefaultEvent LT ->
  isWriting (statics s) ch = false ->
  Inv (outputBuffer_ cn) -> content (outputBuffer_ cn) = [] ->
  fits (outputBuffer_ cn) (zlen rest) -> writerIndex_ (outputBuffer_ cn) + zlen rest <= vector_max ->
  wp (on_output c (zoom buf (append rest)) ;;
      let! ch := ch_get (channel_ cn) in
      let! st := gets statics in
      whenb (negb (isWriting st ch)) (enableWriting (channel_ cn)))
     (fun _ => waiting s c cn ch rest (watched (poller_ s))) s.
Proof.
  intros Hc Hreg Hst Hnw HI Hcont Hfit Hroom.
  destruct (wp_inv _ _ _ (append_spec _ rest HI Hfit Hroom)) as ([] & b' & Happ & HI' & Hc' & _).
  rewrite Hcont in Hc'. cbn in Hc'. wp_simp.
  eapply wp_on_output; [done | unfold zoom; cbn [lget buf fst_lens fst]; by rewrite Happ|].
  cbn [lset buf fst_lens snd]. set (s2 := with_conn c _ _). change (statics s2) with (statics s).
  destruct (registered_kernel s (channel_ cn) ch (lget os_lens s) (quiet_refl _) Hreg) as [Hreg1 Hw1].
  assert (Hreg2 : registered s2 (channel_ cn) ch) by (by apply registered_with).
  wp_simp. apply wp_ch_get. exists ch. split; [apply Hreg2|]. wp_simp.
  change (statics s2) with (statics s). rewrite Hnw. cbn [negb].
  assert (Hne : ev_enableWriting (statics s) (events_ ch) <> kNoneEvent (statics s))
    by (apply enableWriting_some; by rewrite Hst).
  unfold enableWriting. eapply wp_set_interest; [exact Hreg2 | by intros He; destruct (Hne He) |].
  intros p' ch' s' Hreg' Hch' Hst' Hw'. exists b', ch'.
  change (statics s2) with (statics s) in *.
  change (watched (poller_ s2)) with (watched (poller_ (lset os_lens (lget os_lens s) s))) in Hw'.
  rewrite (proj2 (Z.eqb_neq _ _) Hne), Hw1, Hst in Hw'. rewrite Hst in Hch'.
  split_and!; try done. apply conn_at_with.
Qed.

(** The rest of a write joins the empty output buffer. *)
Lemma buffer_rest_spec c cn ch rest s :
  conn_at s c cn -> registered s (channel_ cn) ch -> statics s = initDefaultEvent LT ->
  isWriting (statics s) ch = false ->
  Inv (outputBuffer_ cn) -> content (outputBuffer_ cn) = [] ->
  fits (outputBuffer_ cn) (zlen rest) -> writerIndex_ (outputBuffer_ cn) + zlen rest <= vector_max ->
  wp (buffer_rest c rest (zlen rest))
     (fun _ => waiting (queued_all (mark_notice c cn rest) s) c cn ch rest (watched (poller_ s))) s.
Proof.
  intros Hc Hreg Hst Hnw HI Hcont Hfit Hroom.
  assert (Hold : readableBytes (outputBuffer_ cn) = 0).
  { rewrite readable_inv, <- zlen_content by done. by rewrite Hcont. }
  pose proof (zlen_nonneg rest) as Hpos. pose proof HI as [HI1 HI2]. unfold vector_max in *.
  unfold buffer_rest. wp_simp. eapply wp_conn_get; [done|]. wp_simp.
  rewrite Hold, Z.add_0_l, u64_small by lia.
  assert (Hnext : forall s1, s1 = queued_all (mark_notice c cn rest) s ->
    wp (on_output c (zoom buf (append rest)) ;;
        let! ch := ch_get (channel_ cn) in
        let! st := gets statics in
        whenb (negb (isWriting st ch)) (enableWriting (channel_ cn)))
       (fun _ => waiting s1 c cn ch rest (watched (poller_ s))) s1).
  { intros s1 ->. destruct (queued_all_same (mark_notice c cn rest) s) as (Ho & Hp & Hm & Hs1).
    destruct (registered_queued_all (mark_notice c cn rest) s _ _ Hreg) as [Hreg1 Hw1].
    rewrite <- Hw1. apply append_and_watch; try done; [by unfold conn_at; rewrite Ho|..];
      by rewrite Hs1. }
  unfold mark_notice in *. destruct (highWaterMarkCallback_ cn) as [cb|]; [|wp_simp; apply (proj1 (wp_bind _ _ _ _)); by apply Hnext].
  destruct ((highWaterMark_ cn <=? zlen rest) && (0 <? highWaterMark_ cn)); wp_simp;
    [apply wp_queueInLoop|]; wp_simp; apply (proj1 (wp_bind _ _ _ _)); by apply Hnext.
Qed.

Lemma unsent_fits r fd data (k k1 : K) :
  sys_write fd data k = (r, k1) ->
  zlen (unsent r data) <= zlen data /\
  match r with
  | inl n => drop (Z.to_nat n) data = unsent r data /\ zlen data - n = zlen (unsent r data)
  | inr _ => True
  end.
Proof.
  intros Hw. unfold unsent, zlen. pose proof (zlen_nonneg data). unfold zlen in *.
  destruct r as [n|e]; [pose proof (write_le _ _ _ _ _ Hw)|]; cbn.
  - unfold zlen in *. rewrite length_drop. split; [lia|]. split; [done | lia].
  - destruct (fatal e); cbn; lia.
Qed.

Lemma sendInLoop_spec c cn ch src data r k1 s :
  conn_at s c cn -> registered s (channel_ cn) ch -> statics s = initDefaultEvent LT ->
  state_ cn <> kDisconnected -> isWriting (statics s) ch = false ->
  Inv (outputBuffer_ cn) -> content (outputBuffer_ cn) = [] ->
  src s = Ok (data, s) -> sys_write (fd_ ch) data (lget os_lens s) = (r, k1) ->
  writerIndex_ (outputBuffer_ cn) + zlen data <= vector_max ->
  let s1 := queued_all (complete_notice c cn r data) (lset os_lens k1 s) in
  wp (sendInLoop c src (zlen data))
     (fun _ s' => match unsent r data with
                  | [] => s' = s1
                  | rest => waiting (queued_all (mark_notice c cn rest) s1) c cn ch rest
                              (watched (poller_ s)) s'
                  end) s.
Proof.
  intros Hc Hreg Hst Hs Hnw HI Hcont Hsrc Hw Hroom s1.
  assert (Hfit : forall n, fits (outputBuffer_ cn) n) by (intros; by apply empty_fits).
  pose proof (unsent_fits _ _ _ _ _ Hw) as [Hle Hr]. pose proof HI as [HI1 HI2].
  pose proof (zlen_nonneg data) as Hpos.
  assert (Hold : readableBytes (outputBuffer_ cn) = 0).
  { rewrite readable_inv, <- zlen_content by done. by rewrite Hcont. }
  unfold sendInLoop. wp_simp. apply wp_assertInLoopThread; [apply Hreg|]. wp_simp.
  eapply wp_conn_get; [done|]. rewrite bool_decide_eq_false_2 by done. wp_simp.
  apply wp_ch_get. exists ch. split; [apply Hreg|]. wp_simp. rewrite Hnw, Hold. cbn [negb andb Z.eqb].
  wp_simp. eapply wp_ok; [exact Hsrc|]. wp_simp. eapply wp_write_now; [exact Hw | lia|].
  fold s1. set (post := fun (_ : unit) (s' : Reactor P K X) => _).
  assert (Hbuf : forall rest, rest <> [] -> rest = unsent r data ->
            wp (buffer_rest c rest (zlen rest)) post s1).
  { intros rest Hne ->. unfold post. destruct (unsent r data) as [|x rest]; [done|].
    destruct (queued_all_same (complete_notice c cn r data) (lset os_lens k1 s)) as (Ho & _ & _ & Hs1).
    destruct (registered_kernel s _ ch k1 ltac:(pose proof (quiet_write (fd_ ch) data (lget os_lens s)) as Hq;
      by rewrite Hw in Hq) Hreg) as [Hreg1 Hw1].
    destruct (registered_queued_all (complete_notice c cn r data) _ _ _ Hreg1) as [Hreg2 Hw2].
    fold s1 in Ho, Hs1, Hreg2, Hw2. rewrite <- Hw1, <- Hw2.
    apply buffer_rest_spec; try done; [by unfold conn_at; rewrite Ho | by rewrite Hs1 | by rewrite Hs1|].
    cbn in Hle |- *. lia. }
  destruct r as [n|e]; wp_simp.
  - destruct Hr as [Hd Hl]. apply wp_assert; [apply Z.leb_le; lia|]. wp_simp. rewrite Hl, Hd.
    destruct (unsent (inl n) data) as [|x rest] eqn:Hu; [by wp_simp|].
    cbn [negb andb]. rewrite (proj2 (Z.ltb_lt _ _)) by (unfold zlen; cbn; lia). by apply Hbuf.
  - apply wp_assert; [apply Z.leb_le; lia|]. wp_simp. unfold post in *. cbn [unsent] in *.
    destruct (fatal e); cbn [negb andb]; wp_simp; [done|].
    destruct (Z.ltb_spec 0 (zlen data)) as [Hp|Hp].
    + change (drop (Z.to_nat 0) data) with data. apply Hbuf; [|done]. by intros ->.
    + destruct data; [by wp_simp | unfold zlen in Hp; cbn in Hp; lia].
Qed.

(** A send on a connection that is gone does nothing at all. *)
Lemma sendInLoop_gone c cn src len s :
  conn_at s c cn -> isInLoopThread s = true -> state_ cn = kDisconnected ->
  sendInLoop c src len s = Ok (tt, s).
Proof.
  intros Hc Hin Hst. unfold sendInLoop. erewrite bind_run by by apply assertInLoopThread_ok.
  erewrite bind_run by (unfold conn_get; rewrite bind_gets; unfold of_option; by rewrite Hc).
  by rewrite bool_decide_eq_true_2.
Qed.

(** A send while output is pending, or while the channel waits for room, does
    nothing at all. *)
Lemma sendInLoop_busy c cn ch src len s :
  conn_at s c cn -> isInLoopThread s = true -> lget memory_lens s !! channel_ cn = Some ch ->
  isWriting (statics s) ch = true \/ readableBytes (outputBuffer_ cn) <> 0 ->
  sendInLoop c src len s = Ok (tt, s).
Proof.
  intros Hc Hin Hch Hbusy. unfold sendInLoop, bind at 1. rewrite assertInLoopThread_ok by done.
  unfold bind at 1, conn_get, bind at 1, gets. rewrite Hc. cbn [of_option].
  case_bool_decide; [done|]. unfold bind at 1. rewrite (ch_get_ok _ _ ch) by done.
  unfold bind at 1. cbn beta iota.
  replace (negb (isWriting (statics s) ch) && (readableBytes (outputBuffer_ cn) =? 0)) with false; [done|].
  symmetry. apply andb_false_iff. destruct Hbusy as [-> | Hb]; [by left|]. right. by apply Z.eqb_neq.
Qed.

(** *** Flushing *)

Lemma isWriting_disabled ev ch st :
  st = initDefaultEvent LT -> events_ ch = ev_disableWriting st ev -> isWriting st ch = false.
Proof.
  intros -> Hev. unfold isWriting. rewrite Hev. by apply has_clear.
Qed.

(** What [handleWrite] does once the buffer is empty. *)
Definition flushed (c : conn) (cn : TcpConnection) (ch : Channel) s (s' : Reactor P K X) : Prop :=
  exists s1 ch1, registered s1 (channel_ cn) ch1 /\
    events_ ch1 = ev_disableWriting (statics s) (events_ ch) /\
    conn_at s1 c cn /\
    pendingFunctors_ s1 = pendingFunctors_ s ++
      match writeCompleteCallback_ cn with Some cb => [writeCompleteCallback cb c] | None => [] end /\
    s' = if bool_decide (state_ cn = kDisconnecting)
         then lset os_lens (sys_shutdown_write (socket_ cn) (lget os_lens s1)).2 s1 else s1.

Lemma wp_shutdownInLoop c cn ch s (Q : unit -> Reactor P K X -> Prop) :
  conn_at s c cn -> isInLoopThread s = true -> lget memory_lens s !! channel_ cn = Some ch ->
  Q tt (if isWriting (statics s) ch then s
        else lset os_lens (sys_shutdown_write (socket_ cn) (lget os_lens s)).2 s) ->
  wp (shutdownInLoop c) Q s.
Proof.
  intros Hc Hin Hch HQ. unfold shutdownInLoop. wp_simp. apply wp_assertInLoopThread; [done|].
  wp_simp. eapply wp_conn_get; [done|]. wp_simp. apply wp_ch_get. exists ch. split; [done|]. wp_simp.
  destruct (isWriting (statics s) ch); cbn [negb]; by wp_simp.
Qed.

Lemma after_flush c cn ch s :
  conn_at s c cn -> registered s (channel_ cn) ch -> statics s = initDefaultEvent LT ->
  is_Some (watched (poller_ s) !! fd_ ch) ->
  wp (disableWriting (channel_ cn) ;;
      match writeCompleteCallback_ cn with
      | Some cb => queueInLoop (writeCompleteCallback cb c)
      | None => ret tt
      end ;;
      let! cn := conn_get c in
      whenb (bool_decide (state_ cn = kDisconnecting)) (shutdownInLoop c))
     (fun _ => flushed c cn ch s) s.
Proof.
  intros Hc Hreg Hst Hw. wp_simp. unfold disableWriting. eapply wp_set_interest; [exact Hreg | by intros _ |].
  intros p' ch' s' Hreg' Hch' Hst' _.
  apply (f_equal events_) in Hch' as Hev. cbn [events_ set_index interested set_addedToLoop set_events] in Hev.
  set (fs := match writeCompleteCallback_ cn with
             | Some cb => [writeCompleteCallback cb c] | None => [] end).
  destruct (queued_all_same fs s') as (Ho & Hp & Hm & Hs1).
  destruct (registered_queued_all fs s' _ _ Hreg') as [Hreg1 Hw1].
  assert (Hend : wp (let! cn := conn_get c in
      whenb (bool_decide (state_ cn = kDisconnecting)) (shutdownInLoop c))
      (fun _ => flushed c cn ch s) (queued_all fs s')).
  { wp_simp. assert (Hc1 : conn_at (queued_all fs s') c cn) by (by unfold conn_at; rewrite Ho).
    eapply wp_conn_get; [done|]. wp_simp.
    assert (Hf : flushed c cn ch s (if bool_decide (state_ cn = kDisconnecting)
         then lset os_lens (sys_shutdown_write (socket_ cn) (lget os_lens (queued_all fs s'))).2
                (queued_all fs s') else queued_all fs s')).
    { exists (queued_all fs s'), ch'. by split_and!. }
    case_bool_decide; [|done]. eapply wp_shutdownInLoop; [done | apply Hreg1 | apply Hreg1 |].
    rewrite Hs1, (isWriting_disabled (events_ ch)); [done | by rewrite Hst' | by rewrite Hst']. }
  subst fs. destruct (writeCompleteCallback_ cn) as [cb|]; wp_simp;
    [apply wp_queueInLoop; wp_simp|]; apply (proj1 (wp_bind _ _ _ _)); exact Hend.
Qed.

(** [handleWrite] in level-triggered mode, by the result of the write. *)
Lemma handleWrite_spec fuel c cn ch r k1 s :
  conn_at s c cn -> registered s (channel_ cn) ch -> statics s = initDefaultEvent LT ->
  isWriting (statics s) ch = true -> Inv (outputBuffer_ cn) ->
  is_Some (watched (poller_ s) !! fd_ ch) ->
  sys_write (fd_ ch) (content (outputBuffer_ cn)) (lget os_lens s) = (r, k1) ->
  wp (handleWrite fuel c)
     (fun _ s' => match r with
        | inr _ => s' = with_conn c (set_output (outputBuffer_ cn) cn) (lset os_lens k1 s)
        | inl n =>
            exists b', Inv b' /\ content b' = drop (Z.to_nat n) (content (outputBuffer_ cn)) /\
            let s1 := with_conn c (set_output b' cn) (lset os_lens k1 s) in
            if (0 <? n) && bool_decide (content b' = [])
            then flushed c (set_output b' cn) ch s1 s' else s' = s1
        end) s.
Proof.
  intros Hc Hreg Hst Hwr HI Hwat Hw. pose proof HI as [HI1 HI2].
  unfold handleWrite. wp_simp. apply wp_assertInLoopThread; [apply Hreg|]. wp_simp.
  eapply wp_conn_get; [done|]. wp_simp. apply wp_ch_get. exists ch. split; [apply Hreg|].
  wp_simp. rewrite Hwr. wp_simp.
  assert (HET : isET (statics s) = false) by (by rewrite Hst).
  rewrite HET. pose proof (writeFd_eq (fd_ ch) 0 _ (lget os_lens s) HI) as Heq. rewrite Hw in Heq.
  destruct r as [n|e]; (eapply wp_on_output; [done | exact Heq|]); wp_simp; [|done].
  pose proof (write_le _ _ _ _ _ Hw) as Hn.
  set (b' := set_readerIndex_ _ _).
  pose proof (content_drop _ n HI Hn) as Hcd. fold b' in Hcd.
  assert (HI' : Inv b').
  { pose proof (zlen_content _ HI). split; cbn; lia. }
  set (s1 := with_conn c (set_output b' cn) (lset os_lens k1 s)).
  assert (Hq : quiet (lget os_lens s) k1).
  { pose proof (quiet_write (fd_ ch) (content (outputBuffer_ cn)) (lget os_lens s)) as Hq.
    by rewrite Hw in Hq. }
  destruct (registered_kernel s _ ch k1 Hq Hreg) as [Hreg1 Hw1].
  assert (Hempty : (readableBytes b' =? 0) = bool_decide (content b' = [])).
  { rewrite readable_inv, <- zlen_content by done. unfold zlen.
    by destruct (content b') as [|x l]; [|rewrite bool_decide_eq_false_2]. }
  destruct (Z.ltb_spec 0 n) as [Hpos|Hpos]; cbn [andb]; wp_simp.
  - eapply wp_conn_get; [apply conn_at_with|]. wp_simp.
    change (outputBuffer_ (set_output b' cn)) with b'. rewrite Hempty.
    case_bool_decide as He; wp_simp.
    + apply (proj1 (wp_bind _ _ _ _)).
      eapply wp_mono; [apply (after_flush c (set_output b' cn) ch s1)|].
      * apply conn_at_with.
      * by apply registered_with.
      * done.
      * change (watched (poller_ s1)) with (watched (poller_ (lset os_lens k1 s))). by rewrite Hw1.
      * intros [] s' Hf. exists b'. rewrite bool_decide_eq_true_2 by done. by split_and!.
    + exists b'. rewrite bool_decide_eq_false_2 by done. by split_and!.
  - exists b'. by split_and!.
Qed.

(** *** Closing *)

(** [handleClose] marks the connection disconnected and unwatches its channel,
    then runs the two callbacks. *)
Lemma handleClose_spec c cn ch s :
  conn_at s c cn -> registered s (channel_ cn) ch ->
  state_ cn = kConnected \/ state_ cn = kDisconnecting ->
  is_Some (watched (poller_ s) !! fd_ ch) ->
  exists s2 ch2,
    handleClose c s =
      (call_connection c (connectionCallback_ cn) ;;
       let! cn := conn_get c in call_close c (closeCallback_ cn)) s2 /\
    conn_at s2 c (setState kDisconnected cn) /\ registered s2 (channel_ cn) ch2 /\
    events_ ch2 = kNoneEvent (statics s) /\ statics s2 = statics s /\
    pendingFunctors_ s2 = pendingFunctors_ s /\
    watched (poller_ s2) = delete (fd_ ch) (watched (poller_ s)) /\
    objs s2 = objs (with_conn c (setState kDisconnected cn) s) /\ this_loop s2 = this_loop s /\
    fd_ ch2 = fd_ ch /\ this_thread s2 = this_thread s /\
    table (self (poller_ s2)) = table (self (poller_ s)).
Proof.
  intros Hc Hreg Hstate Hw. set (s1 := with_conn c (setState kDisconnected cn) s).
  assert (Hdis : wp (disableAll (channel_ cn)) (fun _ s2 => exists ch2,
    conn_at s2 c (setState kDisconnected cn) /\ registered s2 (channel_ cn) ch2 /\
    events_ ch2 = kNoneEvent (statics s) /\ statics s2 = statics s /\
    pendingFunctors_ s2 = pendingFunctors_ s /\
    watched (poller_ s2) = delete (fd_ ch) (watched (poller_ s)) /\
    objs s2 = objs (with_conn c (setState kDisconnected cn) s) /\ this_loop s2 = this_loop s /\
    fd_ ch2 = fd_ ch /\ this_thread s2 = this_thread s /\
    table (self (poller_ s2)) = table (self (poller_ s))) s1).
  { unfold disableAll. eapply wp_set_interest_table; [by apply registered_with | by intros _|].
    intros p' ch' s' Hreg' Hch' Hst' Hth' Ht' Hw'. apply (f_equal fd_) in Hch' as Hfd.
    apply (f_equal events_) in Hch' as Hev. cbn [events_ set_index interested set_addedToLoop set_events] in Hev.
    exists ch'. unfold ev_disableAll in *. rewrite Z.eqb_refl in Hw'.
    split_and!; try done. apply conn_at_with. }
  destruct (wp_inv _ _ _ Hdis) as ([] & s2 & Hrun & ch2 & Hc2 & Hrest).
  exists s2, ch2. split; [|by split].
  assert (Hget : forall s cn, conn_at s c cn -> conn_get c s = Ok (cn, s)).
  { intros s0 cn0 Hc0. unfold conn_get, bind, gets. by rewrite Hc0. }
  unfold handleClose, bind at 1. rewrite assertInLoopThread_ok by apply Hreg.
  unfold bind at 1. rewrite (Hget _ _ Hc). unfold bind at 1.
  assert (Ha : assert_ (bool_decide (state_ cn = kConnected) || bool_decide (state_ cn = kDisconnecting)) s
             = Ok (tt, s)).
  { unfold assert_. destruct NDEBUG; [done|]. by destruct Hstate as [-> | ->]. }
  rewrite Ha. unfold bind at 1, conn_modify, bind at 1. rewrite (Hget _ _ Hc).
  change (conn_put c (setState kDisconnected cn) s) with (@Ok (unit * Reactor P K X) (tt, s1)).
  cbn beta iota. unfold bind at 1. rewrite Hrun. unfold bind at 1. by rewrite (Hget _ _ Hc2).
Qed.

(** *** Coming and going *)

(** A connection and its channel as the constructor leaves them. *)
Definition new_channel (c : conn) (loop : loop_id) (sockfd : Z) : Channel :=
  setErrorCallback (TcpConnection_handleError c) (setCloseCallback (TcpConnection_handleClose c)
    (setWriteCallback (TcpConnection_handleWrite c) (setReadCallback (TcpConnection_handleRead c)
      (Channel_ctor loop sockfd)))).

Definition new_conn (ch : chan) (loop : loop_id) (nameArg : list byte) (sockfd : Z)
    (localAddr peerAddr : sockaddr) : TcpConnection :=
  let b := mkBuffer (replicate (Z.to_nat kInitialSize) x00) 0 0 in
  mkConn loop nameArg localAddr peerAddr kConnecting true sockfd ch None None None None None
    (64 * 1024 * 1024) b b.

Definition constructed (c : conn) (ch : chan) (loop : loop_id) (nameArg : list byte) (sockfd : Z)
    (localAddr peerAddr : sockaddr) s : Reactor P K X :=
  let s1 := lset memory_lens (<[ch := new_channel c loop sockfd]> (lget memory_lens s))
              (with_conn c (new_conn ch loop nameArg sockfd localAddr peerAddr) s) in
  lset os_lens (sys_setsockopt sockfd SO_KEEPALIVE true (lget os_lens s)).2 s1.

Lemma TcpConnection_ctor_ok c ch loop nameArg sockfd localAddr peerAddr s :
  TcpConnection_ctor c ch loop nameArg sockfd localAddr peerAddr s =
  Ok (tt, constructed c ch loop nameArg sockfd localAddr peerAddr s).
Proof.
  assert (Hb : Buffer_ctor kInitialSize s =
    Ok (mkBuffer (replicate (Z.to_nat kInitialSize) x00) 0 0, s)).
  { unfold Buffer_ctor, bind, assert_. destruct NDEBUG; reflexivity. }
  assert (Hok : wp (TcpConnection_ctor c ch loop nameArg sockfd localAddr peerAddr)
    (fun _ s' => s' = constructed c ch loop nameArg sockfd localAddr peerAddr s) s).
  { unfold TcpConnection_ctor. apply wp_bind. eapply wp_ok; [exact Hb|].
    apply wp_bind. eapply wp_ok; [exact Hb|]. wp_simp. apply wp_conn_put. wp_simp.
    apply wp_ch_modify. eexists. split; [apply lookup_insert_eq|]. wp_simp.
    apply wp_ch_modify. eexists. split; [apply lookup_insert_eq|]. wp_simp.
    apply wp_ch_modify. eexists. split; [apply lookup_insert_eq|]. wp_simp.
    apply wp_ch_modify. eexists. split; [apply lookup_insert_eq|]. wp_simp.
    unfold constructed. destruct s as [? ? ? ? ? []]; cbn. by rewrite !insert_insert_eq. }
  destruct (wp_inv _ _ _ Hok) as ([] & s' & Hrun & ->). exact Hrun.
Qed.

(** The channel of a new connection can be watched as its descriptor could. *)
Lemma constructed_watch c ch nameArg sockfd localAddr peerAddr s :
  can_watch s sockfd -> lget memory_lens s !! ch = None ->
  let s' := constructed c ch (this_loop s) nameArg sockfd localAddr peerAddr s in
  can_watch s' sockfd /\ watched (poller_ s') = watched (poller_ s).
Proof.
  intros (HI & Hfd & Ht & Hsz) Hch s'.
  destruct (new_law ch (new_channel c (this_loop s) sockfd) (poller_ s) HI Hch) as [HI1 Hw1].
  set (p1 := lset chans_lens _ _) in *.
  destruct (quiet_law (sys_setsockopt sockfd SO_KEEPALIVE true (lget os_lens s)).2 p1
    (quiet_setsockopt _ _ _ _) HI1) as [HI2 Hw2].
  split; [by split_and! | by etransitivity].
Qed.

(** [connectEstablished] of a new connection: its channel is watched for reading
    and it is connected when the connection callback runs. *)
Lemma connectEstablished_spec c cn ch s :
  conn_at s c cn -> state_ cn = kConnecting -> watchable s (channel_ cn) ch ->
  table (self (poller_ s)) !! fd_ ch = None ->
  Z.of_nat (size (table (self (poller_ s)))) + 1 < 2 ^ 31 - 1 ->
  let ev := ev_enableReading (statics s) (events_ ch) in
  ev <> kNoneEvent (statics s) ->
  exists s2 ch2,
    connectEstablished c s = call_connection c (connectionCallback_ cn) s2 /\
    conn_at s2 c (setState kConnected cn) /\ registered s2 (channel_ cn) ch2 /\
    set_index 0 ch2 = set_index 0 (interested ev ch) /\ statics s2 = statics s /\
    pendingFunctors_ s2 = pendingFunctors_ s /\
    watched (poller_ s2) = <[fd_ ch := (channel_ cn, encode ev)]> (watched (poller_ s)) /\
    objs s2 = objs (with_conn c (setState kConnected cn) s) /\ this_loop s2 = this_loop s /\
    this_thread s2 = this_thread s.
Proof.
  intros Hc Hstate Hw Hnew Hsz ev Hev. set (s1 := with_conn c (setState kConnected cn) s).
  assert (Hen : wp (enableReading (channel_ cn)) (fun _ s2 => exists ch2,
    conn_at s2 c (setState kConnected cn) /\ registered s2 (channel_ cn) ch2 /\
    set_index 0 ch2 = set_index 0 (interested ev ch) /\ statics s2 = statics s /\
    pendingFunctors_ s2 = pendingFunctors_ s /\
    watched (poller_ s2) = <[fd_ ch := (channel_ cn, encode ev)]> (watched (poller_ s)) /\
    objs s2 = objs (with_conn c (setState kConnected cn) s) /\ this_loop s2 = this_loop s /\
    this_thread s2 = this_thread s) s1).
  { unfold enableReading.
    apply (wp_set_interest_new ev_enableReading s1 (channel_ cn) ch); [exact Hw | done..|].
    intros p' ch' s' Hreg' Hch' Hst' Hth' Hw'. exists ch'.
    split_and!; try done. apply conn_at_with. }
  destruct (wp_inv _ _ _ Hen) as ([] & s2 & Hrun & ch2 & Hc2 & Hrest).
  exists s2, ch2. split; [|by split].
  assert (Hget : forall s cn, conn_at s c cn -> conn_get c s = Ok (cn, s)).
  { intros s0 cn0 Hc0. unfold conn_get, bind, gets. by rewrite Hc0. }
  unfold connectEstablished, bind at 1. rewrite assertInLoopThread_ok by apply Hw.
  unfold bind at 1. rewrite (Hget _ _ Hc). unfold bind at 1.
  assert (assert_ (bool_decide (state_ cn = kConnecting)) s = Ok (tt, s)) as ->
    by (unfold assert_; destruct NDEBUG; [done | by rewrite Hstate]).
  unfold bind at 1, conn_modify, bind at 1. rewrite (Hget _ _ Hc).
  change (conn_put c (setState kConnected cn) s) with (@Ok (unit * Reactor P K X) (tt, s1)).
  cbn beta iota. unfold bind at 1. rewrite Hrun. unfold bind at 1. by rewrite (Hget _ _ Hc2).
Qed.

(** [connectDestroyed] of a connection that has been closed: the poller forgets
    its channel, and nothing else happens. *)
Lemma connectDestroyed_spec c cn ch s (Q : unit -> Reactor P K X -> Prop) :
  conn_at s c cn -> state_ cn = kDisconnected -> registered s (channel_ cn) ch ->
  events_ ch = kNoneEvent (statics s) -> watched (poller_ s) !! fd_ ch = None ->
  (forall p', poller_inv p' -> table (self p') = delete (fd_ ch) (table (self (poller_ s))) ->
     watched p' = watched (poller_ s) -> isInLoopThread (lset poller_lens p' s) = true ->
     Q tt (lset poller_lens p' s)) ->
  wp (connectDestroyed c) Q s.
Proof.
  intros Hc Hstate Hreg Hev Hw HQ. pose proof Hreg as (HI & Hin & Hch & Hl & Hfd & Ht & Hsz).
  unfold connectDestroyed. wp_simp. apply wp_assertInLoopThread; [done|]. wp_simp.
  eapply wp_conn_get; [done|]. rewrite bool_decide_eq_false_2 by (by rewrite Hstate). wp_simp.
  eapply wp_conn_get; [done|]. unfold Channel.remove. wp_simp. apply wp_ch_get. exists ch.
  split; [done|]. wp_simp. apply wp_assert; [unfold isNoneEvent; by apply Z.eqb_eq|]. wp_simp.
  apply wp_ch_modify. exists ch. split; [done|].
  destruct (memory_law (channel_ cn) ch (set_addedToLoop false ch) (poller_ s) HI Hch eq_refl eq_refl)
    as [HI1 Hw1].
  set (s1 := lset channels _ s). change (poller_ s1) with
    (lset chans_lens (<[channel_ cn := set_addedToLoop false ch]> (chans (poller_ s))) (poller_ s)) in *.
  eapply (wp_removeChannel s1 (channel_ cn) (set_addedToLoop false ch)).
  - split_and!; try done. apply lookup_insert_eq.
  - unfold isNoneEvent. by apply Z.eqb_eq.
  - change (watched (poller_ s1) !! fd_ ch = None). unfold s1. cbn. cbn in Hw1. by rewrite Hw1.
  - intros p' HI' (_ & _ & Ho & Hr) Ht' Hw'. apply (HQ p'); [done | exact Ht' | by rewrite Hw' |].
    unfold isInLoopThread in *. cbn in *. congruence.
Qed.

(** *** Reading *)

(** [handleRead] after the transfer. *)
Lemma handleRead_transfer fuel c cn ch t n se b' k1 s :
  conn_at s c cn -> lget memory_lens s !! channel_ cn = Some ch ->
  (if isET (statics s) then readFdET fuel (fd_ ch) 0 else readFd (fd_ ch) 0)
    (inputBuffer_ cn, lget os_lens s) = Ok ((n, se), (b', k1)) ->
  handleRead fuel c t s =
    (if 0 <? n then let! cn := conn_get c in call_message c t (messageCallback_ cn)
     else if n =? 0 then handleClose c else handleError c)
    (with_conn c (set_input b' cn) (lset os_lens k1 s)).
Proof.
  intros Hc Hch Hm.
  assert (Hin : on_input c (if isET (statics s) then readFdET fuel (fd_ ch) 0 else readFd (fd_ ch) 0) s
            = Ok ((n, se), with_conn c (set_input b' cn) (lset os_lens k1 s))).
  { unfold on_input, conn_get, bind at 1 2, gets. rewrite Hc. cbn [of_option].
    unfold bind at 1. unfold bind at 1, lift. by rewrite Hm. }
  unfold handleRead, bind at 1, conn_get at 1, bind at 1, gets. rewrite Hc. cbn [of_option].
  unfold bind at 1. rewrite (ch_get_ok _ _ ch) by done. unfold bind at 1. cbn beta iota.
  unfold bind at 1. by rewrite Hin.
Qed.
End TcpConnection_spec.

(** ** The state machine *)
(** kConnecting, kConnected, kDisconnecting, kDisconnected. *)
Definition rank (st : StateE) : nat :=
  match st with kConnecting => 0 | kConnected => 1 | kDisconnecting => 2 | kDisconnected => 3 end.

(** A connection later on: it is the same one, and its state has not gone back. *)
Definition later (cn cn' : TcpConnection) : Prop :=
  name cn' = name cn /\ getLoop cn' = getLoop cn /\
  (rank (state_ cn) <= rank (state_ cn'))%nat.

(** An order on the objects of the process that the code of a connection follows. *)
Class ConnOrder {X : Type} `{ConnHeap X} (R : X -> X -> Prop) : Prop := {
  order_preorder :: PreOrder R;
  order_put x c cn cn' :
    lget conns x !! c = Some cn -> later cn cn' -> R x (lset conns (<[c := cn']> (lget conns x)) x);
}.

Section TcpConnection_along.
Context {B : Build} {P K X : Type} `{PollerOps P K} `{!SysCalls K} `{ConnHeap X}.
Implicit Types s : Reactor P K X.

Context (R : X -> X -> Prop).

(** A run of [m] goes forward in the order [R]. *)
Definition along {T} (m : M (Reactor P K X) T) : Prop :=
  forall s r s', m s = Ok (r, s') -> R (objs s) (objs s').

Definition keeps_objs {T} (m : M (Reactor P K X) T) : Prop :=
  forall s r s', m s = Ok (r, s') -> objs s' = objs s.

Section preorder.
Context `{!PreOrder R}.

Lemma along_keeps {T} (m : M (Reactor P K X) T) : keeps_objs m -> along m.
Proof. intros Hk s r s' Hm. by rewrite (Hk _ _ _ Hm). Qed.

Lemma along_bind {U T} (m : M (Reactor P K X) U) (k : U -> M (Reactor P K X) T) :
  along m -> (forall r, along (k r)) -> along (bind m k).
Proof.
  intros Hm Hk s t s' Hrun. apply bind_ok in Hrun as (r & s1 & Hr & Ht).
  etransitivity; [by eapply Hm | by eapply Hk].
Qed.

Lemma along_ret {T} (r : T) : along (ret r).
Proof. by intros s r' s' [= <- <-]. Qed.

Lemma along_throw {T} f : along (T:=T) (throw f).
Proof. by intros s r' s' [=]. Qed.

Lemma along_when b m : along m -> along (whenb b m).
Proof. intros Hm. destruct b; [done | apply along_ret]. Qed.

Lemma along_get : along get.
Proof. by intros s r s' [= <- <-]. Qed.

Lemma along_gets {T} (f : Reactor P K X -> T) : along (gets f).
Proof. by intros s r s' [= <- <-]. Qed.

Lemma along_lift {T} (r : res T) : along (lift r).
Proof. intros s x s'. unfold lift. by destruct r; intros [= <- <-]. Qed.

Lemma along_of_option {T} f (o : option T) : along (of_option f o).
Proof. intros s x s'. unfold of_option. by destruct o; intros [= <- <-]. Qed.

Lemma along_assert b : along (assert_ b).
Proof. unfold assert_. destruct NDEBUG, b; [apply along_ret..|apply along_throw]. Qed.

Lemma along_assert_of m : along m -> along (assert_of m).
Proof.
  intros Hm. unfold assert_of. destruct NDEBUG; [apply along_ret|].
  apply along_bind; [done | intros; apply along_assert].
Qed.

(** A part of the reactor other than the objects. *)
Lemma along_zoom {T U} (l : lens (Reactor P K X) T) (m : M T U) :
  (forall t s, objs (lset l t s) = objs s) -> along (zoom l m).
Proof.
  intros Hl. apply along_keeps. intros s r s'. unfold zoom.
  destruct (m (lget l s)) as [[r' t]|]; intros [= <- <-]. apply Hl.
Qed.

Lemma along_modify f : (forall s, objs (f s) = objs s) -> along (modify f).
Proof. intros Hf. apply along_keeps. intros s r s' [= <- <-]. apply Hf. Qed.

End preorder.

Context `{!ConnOrder R}.

(** An update of a connection. *)
Lemma along_conn_put s c cn cn' s' :
  lget conns (objs s) !! c = Some cn -> later cn cn' -> conn_put c cn' s = Ok (tt, s') ->
  R (objs s) (objs s').
Proof.
  intros Hc Hl. unfold conn_put, zoom, modify. intros [= <-]. cbn. by apply (order_put _ c cn).
Qed.

Lemma conn_get_inv c s cn s' :
  conn_get (P:=P) (K:=K) c s = Ok (cn, s') -> s' = s /\ lget conns (objs s) !! c = Some cn.
Proof.
  unfold conn_get. intros Hg. apply bind_ok in Hg as (x & s2 & Hx & Hg). injection Hx as <- <-.
  unfold of_option in Hg. destruct (lget conns (objs s) !! c) as [cn'|]; [|done].
  by injection Hg as <- <-.
Qed.

Lemma along_conn_modify c f :
  (forall cn, later cn (f cn)) -> along (conn_modify c f).
Proof.
  intros Hf s [] s' Hrun. apply bind_ok in Hrun as (cn & s1 & Hg & Hp).
  apply conn_get_inv in Hg as [-> Hc]. by eapply along_conn_put.
Qed.

(** A guarded change of state. *)
Lemma along_guarded c (p : TcpConnection -> bool) f k :
  (forall cn, p cn = true -> later cn (f cn)) -> along k ->
  along (let! cn := conn_get c in whenb (p cn) (conn_modify c f ;; k)).
Proof.
  intros Hf Hk s [] s' Hrun. apply bind_ok in Hrun as (cn & s1 & Hg & Hrun).
  apply conn_get_inv in Hg as [-> Hc].
  destruct (p cn) eqn:Hp; cbn [whenb] in Hrun; [|injection Hrun as <-; reflexivity].
  apply bind_ok in Hrun as ([] & s3 & Hm & Hrun).
  apply bind_ok in Hm as (cn2 & s4 & Hg & Hput). apply conn_get_inv in Hg as [-> Hc2].
  rewrite Hc in Hc2. injection Hc2 as <-.
  etransitivity; [|by eapply Hk]. eapply along_conn_put; [done | by apply Hf | exact Hput].
Qed.
End TcpConnection_along.

Create HintDb along.

(** Splits a computation and closes the steps that leave the connections alone. *)
Ltac along_step :=
  lazymatch goal with
  | |- along _ (bind _ _) => apply along_bind; [exact _| |intros]
  | |- along _ (ret _) => apply along_ret; exact _
  | |- along _ (throw _) => apply along_throw; exact _
  | |- along _ (whenb _ _) => apply along_when; [exact _|]
  | |- along _ get => apply along_get; exact _
  | |- along _ (gets _) => apply along_gets; exact _
  | |- along _ (lift _) => apply along_lift; exact _
  | |- along _ (of_option _ _) => apply along_of_option; exact _
  | |- along _ (assert_ _) => apply along_assert; exact _
  | |- along _ (assert_of _) => apply along_assert_of; [exact _|]
  | |- along _ (zoom _ _) => apply along_zoom; [exact _ | by intros]
  | |- along _ (modify _) => apply along_modify; [exact _ | by intros]
  | |- along _ (if ?b then _ else _) => destruct b
  | |- along _ (match ?x with _ => _ end) => destruct x
  end.
Ltac along_tac := repeat (along_step || (progress auto with along)).

Section TcpConnection_along.
Context {B : Build} {P K X : Type} `{PollerOps P K} `{!SysCalls K} `{ConnHeap X} `{!Callbacks P K X}.
Context (R : X -> X -> Prop) `{!ConnOrder R}.
Implicit Types s : Reactor P K X.

(** The user's callbacks follow the order. *)
Hypothesis connection_along : forall n c, along R (on_connection n c).
Hypothesis message_along : forall n c t, along R (on_message n c t).
Hypothesis close_along : forall cb c, along R (on_close cb c).

Lemma along_thread : along R (assertInLoopThread (S:=Reactor P K X)).
Proof. unfold assertInLoopThread, abortNotInLoopThread, LOG_FATAL. along_tac. Qed.

Lemma along_ch_get ch : along R (ch_get (S:=Reactor P K X) ch).
Proof. unfold ch_get. along_tac. Qed.

Lemma along_ch_modify ch f : along R (ch_modify (S:=Reactor P K X) ch f).
Proof. unfold ch_modify. along_tac. apply along_ch_get. Qed.

Local Hint Resolve along_thread along_ch_get along_ch_modify : along.

Lemma along_set_interest f ch : along R (set_interest (S:=Reactor P K X) f ch).
Proof.
  unfold set_interest, Channel.update. cbn [EventLoop_updateChannel Reactor_host].
  unfold Reactor.updateChannel, owned_by_this. along_tac.
Qed.

Lemma along_remove ch : along R (Channel.remove (S:=Reactor P K X) ch).
Proof.
  unfold Channel.remove. cbn [EventLoop_removeChannel Reactor_host].
  unfold Reactor.removeChannel, owned_by_this. along_tac.
Qed.

Lemma along_queueInLoop cb : along R (queueInLoop (P:=P) (K:=K) (X:=X) cb).
Proof. unfold queueInLoop, wakeup. along_tac. Qed.

Local Hint Resolve along_set_interest along_remove along_queueInLoop : along.

Lemma along_runInLoop m cb : along R m -> along R (runInLoop (P:=P) (K:=K) (X:=X) m cb).
Proof. intros Hm. unfold runInLoop. along_tac. Qed.

Lemma along_conn_get c' : along R (conn_get (P:=P) (K:=K) c').
Proof. unfold conn_get. along_tac. Qed.

Local Hint Resolve along_conn_get : along.

(** Replacing a buffer of the connection. *)
Lemma along_on_input {T} c (m : M (Buffer * K) T) : along R (on_input (P:=P) (X:=X) c m).
Proof.
  intros s r s' Hrun. unfold on_input in Hrun. apply bind_ok in Hrun as (cn & s1 & Hg & Hrun).
  apply conn_get_inv in Hg as [-> Hc]. unfold bind, gets, lift in Hrun.
  destruct (m (inputBuffer_ cn, lget os_lens s)) as [[r' [b k']]|]; [|done].
  unfold conn_put, zoom, modify, ret in Hrun. injection Hrun as <- <-. by apply (order_put _ c cn).
Qed.

Lemma along_on_output {T} c (m : M (Buffer * K) T) : along R (on_output (P:=P) (X:=X) c m).
Proof.
  intros s r s' Hrun. unfold on_output in Hrun. apply bind_ok in Hrun as (cn & s1 & Hg & Hrun).
  apply conn_get_inv in Hg as [-> Hc]. unfold bind, gets, lift in Hrun.
  destruct (m (outputBuffer_ cn, lget os_lens s)) as [[r' [b k']]|]; [|done].
  unfold conn_put, zoom, modify, ret in Hrun. injection Hrun as <- <-. by apply (order_put _ c cn).
Qed.

Local Hint Resolve along_runInLoop along_on_input along_on_output : along.

Lemma along_call_connection c cb : along R (call_connection (P:=P) (K:=K) c cb).
Proof. unfold call_connection. along_tac. Qed.

Lemma along_call_message c t cb : along R (call_message (P:=P) (K:=K) c t cb).
Proof. unfold call_message. along_tac. Qed.

Lemma along_call_close c cb : along R (call_close (P:=P) (K:=K) c cb).
Proof. unfold call_close. along_tac. Qed.

Local Hint Resolve along_call_connection along_call_message along_call_close : along.

Lemma along_shutdownInLoop c : along R (shutdownInLoop (P:=P) (K:=K) c).
Proof. unfold shutdownInLoop. along_tac. Qed.

Local Hint Resolve along_shutdownInLoop : along.

Lemma along_shutdown c : along R (shutdown (P:=P) (K:=K) c).
Proof.
  unfold shutdown.
  apply (along_guarded R c (fun cn => bool_decide (state_ cn = kConnected))); [|along_tac].
  intros cn Hp. apply bool_decide_eq_true in Hp. unfold later. rewrite Hp. split_and!; [done..|].
  cbn. lia.
Qed.

Lemma later_disconnected cn : later cn (setState kDisconnected cn).
Proof. unfold later. destruct (state_ cn); cbn; split_and!; done || lia. Qed.

Lemma along_handleClose c : along R (handleClose (P:=P) (K:=K) c).
Proof.
  unfold handleClose, disableAll. along_tac. apply along_conn_modify; [exact _ | apply later_disconnected].
Qed.

Local Hint Resolve along_handleClose : along.

Lemma along_forceCloseInLoop c : along R (forceCloseInLoop (P:=P) (K:=K) c).
Proof. unfold forceCloseInLoop. along_tac. Qed.

Lemma along_forceClose c : along R (forceClose (P:=P) (K:=K) c).
Proof.
  unfold forceClose.
  apply (along_guarded R c (fun cn => bool_decide (state_ cn = kConnected) ||
                                      bool_decide (state_ cn = kDisconnecting))); [|along_tac].
  intros cn Hp. unfold later.
  apply orb_true_iff in Hp as [Hp|Hp]; apply bool_decide_eq_true in Hp; rewrite Hp; cbn;
    split_and!; done || lia.
Qed.

Lemma along_connectDestroyed c : along R (connectDestroyed (P:=P) (K:=K) c).
Proof.
  unfold connectDestroyed, disableAll. along_tac. apply along_conn_modify; [exact _ | apply later_disconnected].
Qed.

(** [connectEstablished] does not look at the state it replaces. *)
Lemma along_connectEstablished c :
  along R (conn_modify (P:=P) (K:=K) c (setState kConnected)) ->
  along R (connectEstablished (P:=P) (K:=K) c).
Proof. intros Hset. unfold connectEstablished, enableReading. along_tac. Qed.

Lemma along_reading c (on : bool) : along R (if on then startReadInLoop (P:=P) (K:=K) c else stopReadInLoop c).
Proof.
  destruct on; unfold startReadInLoop, stopReadInLoop, enableReading, disableReading; along_tac;
    by (apply along_conn_modify; [exact _|]).
Qed.

Lemma along_sendInLoop c src len : along R src -> along R (sendInLoop (P:=P) (K:=K) c src len).
Proof.
  intros Hsrc. unfold sendInLoop, write_now, buffer_rest, enableWriting. along_tac.
Qed.

Lemma along_send c data len : along R (send (P:=P) (K:=K) c data len).
Proof.
  unfold send. along_tac. apply along_runInLoop, along_sendInLoop.
  unfold read_memory. along_tac.
Qed.

Lemma along_handleError c : along R (handleError (P:=P) (K:=K) c).
Proof. unfold handleError. along_tac. Qed.

Local Hint Resolve along_handleError : along.

Lemma along_handleRead fuel c t : along R (handleRead (P:=P) (K:=K) fuel c t).
Proof. unfold handleRead. along_tac. Qed.

Lemma along_handleWrite fuel c : along R (handleWrite (P:=P) (K:=K) fuel c).
Proof. unfold handleWrite, disableWriting. along_tac. Qed.
End TcpConnection_along.

(** ** Properties *)
Section TcpConnection_properties.
Context {B : Build} {P K X : Type} `{PollerContract P K} `{!SysCalls K, !Quiet K, !QuietPoller P K}.
Context `{!SocketIOLaws K} `{ConnHeap X} `{!Callbacks P K X}.
Implicit Types s : Reactor P K X.

(** What [handleRead] does with what the read delivered and the way it ended. *)
Definition dispatch_read (c : conn) (cn : TcpConnection) (t n : Z) : M (Reactor P K X) unit :=
  if 0 <? n then call_message c t (messageCallback_ cn)
  else if n =? 0 then handleClose c else handleError c.

Lemma handleRead_dispatch fuel c cn ch t n se b' k1 s :
  conn_at s c cn -> lget memory_lens s !! channel_ cn = Some ch ->
  (if isET (statics s) then readFdET fuel (fd_ ch) 0 else readFd (fd_ ch) 0)
    (inputBuffer_ cn, lget os_lens s) = Ok ((n, se), (b', k1)) ->
  handleRead fuel c t s =
    dispatch_read c cn t n (with_conn c (set_input b' cn) (lset os_lens k1 s)).
Proof.
  intros Hc Hch Hm. rewrite (handleRead_transfer fuel c cn ch t n se b' k1) by done.
  unfold dispatch_read. destruct (0 <? n); [|done].
  unfold bind, conn_get, bind, gets. by rewrite conn_at_with.
Qed.

Lemma handleRead_fault fuel c cn ch t f s :
  conn_at s c cn -> lget memory_lens s !! channel_ cn = Some ch ->
  (if isET (statics s) then readFdET fuel (fd_ ch) 0 else readFd (fd_ ch) 0)
    (inputBuffer_ cn, lget os_lens s) = Err f ->
  handleRead fuel c t s = Err f.
Proof.
  intros Hc Hch Hm. unfold handleRead.
  erewrite bind_run by (unfold conn_get; rewrite bind_gets; unfold of_option; by rewrite Hc).
  erewrite bind_run by by apply ch_get_ok. erewrite bind_run by reflexivity.
  unfold on_input. unfold bind at 1 2. unfold conn_get at 1. rewrite bind_gets. unfold of_option at 1.
  rewrite Hc. unfold bind at 1 2, gets. unfold bind at 1, lift. by rewrite Hm.
Qed.

(** In level-triggered mode, for every result of the read. *)
Lemma reading_spec fuel c cn ch t r k1 s :
  conn_at s c cn -> lget memory_lens s !! channel_ cn = Some ch -> isET (statics s) = false ->
  Inv (inputBuffer_ cn) -> zlen (buffer_ (inputBuffer_ cn)) + extrabuf_size <= vector_max ->
  sys_readv (fd_ ch) (writableBytes (inputBuffer_ cn) + extrabuf_size) (lget os_lens s) = (r, k1) ->
  match grow (match r with inl d => zlen d | inr _ => 0 end) (shape (inputBuffer_ cn)) with
  | Some _ => exists b', Inv b' /\
      content b' = content (inputBuffer_ cn) ++ match r with inl d => d | inr _ => [] end /\
      handleRead fuel c t s =
        match r with
        | inl [] => handleClose c
        | inl _ => call_message c t (messageCallback_ cn)
        | inr _ => handleError c
        end (with_conn c (set_input b' cn) (lset os_lens k1 s))
  | None => handleRead fuel c t s = Err no_room
  end.
Proof.
  intros Hc Hch HET HI Hmax Hsys. destruct r as [d|e].
  - pose proof (readFd_grow (fd_ ch) 0 _ _ _ _ HI Hmax Hsys) as Hg.
    destruct (grow _ _) as [sh|].
    + destruct Hg as (b' & Hrun & HI' & Hcont & _). exists b'. split; [done|]. split; [done|].
      rewrite (handleRead_dispatch fuel c cn ch t (zlen d) 0 b' k1) by (rewrite ?HET; done).
      unfold dispatch_read. destruct d as [|x d]; [done|].
      by rewrite (proj2 (Z.ltb_lt _ _)) by (unfold zlen; cbn; lia).
    + apply (handleRead_fault fuel c cn ch); [done..|]. by rewrite HET.
  - pose proof HI as [? ?]. unfold grow, shape. rewrite (proj2 (Z.leb_le _ _)) by lia.
    exists (inputBuffer_ cn). split; [done|]. split; [by rewrite app_nil_r|].
    apply (handleRead_dispatch fuel c cn ch t (-1) e); [done..|]. rewrite HET. by apply readFd_fails.
Qed.

(** Nothing waits to be sent, so a send goes to the kernel. *)
Definition can_send s (cn : TcpConnection) (ch : Channel) : bool :=
  bool_decide (state_ cn <> kDisconnected) && negb (isWriting (statics s) ch) &&
  bool_decide (content (outputBuffer_ cn) = []).

(** C20. [sendInLoop] in level-triggered mode.  On a disconnected connection, and while
    output is pending or the channel waits for room, nothing at all happens: the bytes
    are neither written nor buffered nor reported.  Otherwise the kernel is given the
    bytes once, and for every result [r] of that write: what it did not take, all of it
    after an error other than [EPIPE] or [ECONNRESET], is in the output buffer, in
    order, and the channel waits for room; after those two errors, which mean that the
    peer is gone ([fatal]), and after a complete write nothing is buffered and the
    channel stays as it was.  A complete write queues the write-complete callback, a
    backlog over the mark the high-water callback, and nothing else is queued. *)
Theorem sendInLoop_outcome c cn ch src data r k1 s :
  conn_at s c cn -> registered s (channel_ cn) ch -> statics s = initDefaultEvent LT ->
  Inv (outputBuffer_ cn) -> writerIndex_ (outputBuffer_ cn) + zlen data <= vector_max ->
  src s = Ok (data, s) -> sys_write (fd_ ch) data (lget os_lens s) = (r, k1) ->
  if can_send s cn ch then
    let s1 := queued_all (complete_notice c cn r data) (lset os_lens k1 s) in
    wp (sendInLoop c src (zlen data))
       (fun _ s' => match unsent r data with
                    | [] => s' = s1
                    | rest => waiting (queued_all (mark_notice c cn rest) s1) c cn ch rest
                                (watched (poller_ s)) s'
                    end) s
  else sendInLoop c src (zlen data) s = Ok (tt, s).
Proof.
  intros Hc Hreg Hst HI Hroom Hsrc Hw. unfold can_send.
  destruct (decide (state_ cn = kDisconnected)) as [Hd|Hd].
  { rewrite bool_decide_eq_false_2 by tauto. apply (sendInLoop_gone c cn); [done | apply Hreg | done]. }
  rewrite bool_decide_eq_true_2 by done.
  destruct (isWriting (statics s) ch) eqn:Hwr; cbn [negb andb].
  { apply (sendInLoop_busy c cn ch); [done | apply Hreg | apply Hreg | by left]. }
  case_bool_decide as Hcont; [by apply sendInLoop_spec|].
  apply (sendInLoop_busy c cn ch); [done | apply Hreg | apply Hreg | right].
  rewrite readable_inv, <- zlen_content by done. destruct (content _); [done | unfold zlen; cbn; lia].
Qed.

(** A send while output is pending, or while the channel waits for room, is
    dropped without a trace: no byte is written or buffered, no callback is
    queued and no error is reported. *)
Lemma sendInLoop_drops c cn ch src len s :
  conn_at s c cn -> isInLoopThread s = true -> lget memory_lens s !! channel_ cn = Some ch ->
  isWriting (statics s) ch = true \/ readableBytes (outputBuffer_ cn) <> 0 ->
  sendInLoop c src len s = Ok (tt, s).
Proof. apply sendInLoop_busy. Qed.

(** [handleWrite] in level-triggered mode hands the kernel a prefix of the
    output and keeps the rest; when that empties the buffer the channel stops
    waiting for room, the write-complete callback is queued, and a connection
    that is shutting down closes its write side then and only then. *)
Lemma handleWrite_flushes fuel c cn ch r k1 s :
  conn_at s c cn -> registered s (channel_ cn) ch -> statics s = initDefaultEvent LT ->
  isWriting (statics s) ch = true -> Inv (outputBuffer_ cn) ->
  is_Some (watched (poller_ s) !! fd_ ch) ->
  sys_write (fd_ ch) (content (outputBuffer_ cn)) (lget os_lens s) = (r, k1) ->
  wp (handleWrite fuel c)
     (fun _ s' => match r with
        | inr _ => s' = with_conn c (set_output (outputBuffer_ cn) cn) (lset os_lens k1 s)
        | inl n =>
            exists b', Inv b' /\ content b' = drop (Z.to_nat n) (content (outputBuffer_ cn)) /\
            let s1 := with_conn c (set_output b' cn) (lset os_lens k1 s) in
            if (0 <? n) && bool_decide (content b' = [])
            then flushed c (set_output b' cn) ch s1 s' else s' = s1
        end) s.
Proof. apply handleWrite_spec. Qed.

(** [handleClose] marks the connection disconnected, takes its channel out of
    the watched set, and runs the connection callback and then the close
    callback, in that state. *)
Lemma handleClose_closes c cn ch s :
  conn_at s c cn -> registered s (channel_ cn) ch ->
  state_ cn = kConnected \/ state_ cn = kDisconnecting ->
  is_Some (watched (poller_ s) !! fd_ ch) ->
  exists s2 ch2,
    handleClose c s =
      (call_connection c (connectionCallback_ cn) ;;
       let! cn := conn_get c in call_close c (closeCallback_ cn)) s2 /\
    conn_at s2 c (setState kDisconnected cn) /\ registered s2 (channel_ cn) ch2 /\
    events_ ch2 = kNoneEvent (statics s) /\ statics s2 = statics s /\
    pendingFunctors_ s2 = pendingFunctors_ s /\
    watched (poller_ s2) = delete (fd_ ch) (watched (poller_ s)).
Proof.
  intros Hc Hr Hs Hw. destruct (handleClose_spec c cn ch s Hc Hr Hs Hw) as (s2 & ch2 & Hspec).
  exists s2, ch2. destruct Hspec as (? & ? & ? & ? & ? & ? & ? & _). by split_and!.
Qed.

(** C27. [handleRead] in both modes.  In level-triggered mode, for every result of the
    one read: bytes that have room ([Buffer.grow]) are appended to the input buffer and
    the message callback runs; the end of the stream closes the connection; after an
    error it is only looked up; bytes that have no room fault.  In edge-triggered mode
    the loop reads segments up to a read that delivers nothing: when one has no room
    it faults; else they are all appended, in order, and what follows depends on the
    last read only: after [EAGAIN] the message callback runs if there were bytes, and
    the connection closes if there were none; the end of the stream closes it and any
    other error is looked up, so that in these two cases the callback never sees the
    bytes just appended. *)
Theorem handleRead_outcome fuel c cn ch t s :
  conn_at s c cn -> lget memory_lens s !! channel_ cn = Some ch -> Inv (inputBuffer_ cn) ->
  let sh := shape (inputBuffer_ cn) in
  let run m b' k1 := m (with_conn c (set_input b' cn) (lset os_lens k1 s)) in
  (isET (statics s) = false -> forall r k1,
     zlen (buffer_ (inputBuffer_ cn)) + extrabuf_size <= vector_max ->
     sys_readv (fd_ ch) (writableBytes (inputBuffer_ cn) + extrabuf_size) (lget os_lens s) = (r, k1) ->
     match grow (match r with inl d => zlen d | inr _ => 0 end) sh with
     | Some _ => exists b', Inv b' /\
         content b' = content (inputBuffer_ cn) ++ match r with inl d => d | inr _ => [] end /\
         handleRead fuel c t s =
           run match r with
               | inl [] => handleClose c
               | inl _ => call_message c t (messageCallback_ cn)
               | inr _ => handleError c
               end b' k1
     | None => handleRead fuel c t s = Err no_room
     end) /\
  (isET (statics s) = true -> forall ds r k1,
     zlen (buffer_ (inputBuffer_ cn)) + zlen (concat ds) + extrabuf_size <= vector_max ->
     delivers (fd_ ch) sh (lget os_lens s) ds r k1 -> r = inl [] \/ (exists e, r = inr e) ->
     (length ds < fuel)%nat ->
     match grow_all ds sh with
     | Some _ => exists b', Inv b' /\
         content b' = content (inputBuffer_ cn) ++ concat ds /\
         handleRead fuel c t s =
           run match r with
               | inl _ => handleClose c
               | inr e => if e =? EAGAIN then match concat ds with
                                              | [] => handleClose c
                                              | _ => call_message c t (messageCallback_ cn)
                                              end
                          else handleError c
               end b' k1
     | None => handleRead fuel c t s = Err no_room
     end).
Proof.
  intros Hc Hch HI sh run. split; intros HET.
  - intros r k1 Hmax Hsys. by apply (reading_spec fuel c cn ch).
  - intros ds r k1 Hmax Hd Hr Hfuel.
    pose proof (readFdET_loop_spec (fd_ ch) 0 ds r k1 fuel _ _ 0 HI Hmax Hd Hr Hfuel) as Hg.
    fold sh in Hg. destruct (grow_all ds sh) as [sh'|].
    + destruct Hg as (b' & HI' & Hcont & _ & Hrun). exists b'. split; [done|]. split; [done|].
      unfold run. destruct (readFdET_result (0 + zlen (concat ds)) 0 r) as [n se] eqn:Eres.
      rewrite (handleRead_dispatch fuel c cn ch t n se b' k1) by (rewrite ?HET; done).
      unfold dispatch_read, readFdET_result in *. rewrite Z.add_0_l in Eres.
      destruct r as [d|e]; [by injection Eres as <- _|]. destruct (e =? EAGAIN);
        injection Eres as <- _; [|done].
      destruct (concat ds) as [|x l]; [done|]. by rewrite (proj2 (Z.ltb_lt _ _)) by (unfold zlen; cbn; lia).
    + apply (handleRead_fault fuel c cn ch); [done..|]. by rewrite HET.
Qed.

(** [send] from another thread queues the pointer, not the bytes: whatever
    the memory holds then, the task reads it when the loop runs it, and if the
    caller has released it in between the read is a use after free. *)
Lemma send_keeps_pointer c cn data len s :
  conn_at s c cn -> state_ cn = kConnected -> isInLoopThread s = false ->
  send c data len s = Ok (tt, queued (TcpConnection_sendInLoop c data len) s) /\
  (forall s1 cn1 ch1, conn_at s1 c cn1 -> isInLoopThread s1 = true -> state_ cn1 <> kDisconnected ->
     lget memory_lens s1 !! channel_ cn1 = Some ch1 -> isWriting (statics s1) ch1 = false ->
     readableBytes (outputBuffer_ cn1) = 0 -> memory (objs s1) !! data = None ->
     sendInLoop c (read_memory data len) len s1 = Err UseAfterFree).
Proof.
  intros Hc Hs Hin. split.
  - unfold send, bind at 1, conn_get, bind at 1, gets. rewrite Hc. cbn [of_option].
    rewrite bool_decide_eq_true_2 by done. cbn [whenb]. unfold runInLoop, bind, get. rewrite Hin.
    apply queueInLoop_ok.
  - intros s1 cn1 ch1 Hc1 Hin1 Hs1 Hch1 Hw1 Hr1 Hm1. unfold sendInLoop, bind at 1.
    rewrite assertInLoopThread_ok by done. unfold bind at 1, conn_get, bind at 1, gets at 1.
    rewrite Hc1. cbn [of_option]. rewrite bool_decide_eq_false_2 by done.
    unfold bind at 1. rewrite (ch_get_ok _ _ ch1) by done. rewrite bind_gets.
    rewrite Hw1, Hr1. cbn [negb andb Z.eqb whenb]. unfold bind at 1.
    unfold read_memory, bind at 1, gets, bind. by rewrite Hm1.
Qed.

(** In a debug build [connectDestroyed] of a connection that is shutting
    down stops at an assertion: only [kConnected] is disabled before the channel
    is removed. *)
Lemma connectDestroyed_asserts c cn ch s :
  NDEBUG = false -> conn_at s c cn -> isInLoopThread s = true ->
  lget memory_lens s !! channel_ cn = Some ch -> state_ cn = kDisconnecting ->
  isNoneEvent (statics s) ch = false ->
  connectDestroyed c s = Err AssertFailed.
Proof.
  intros Hdbg Hc Hin Hch Hs Hn. unfold connectDestroyed, bind at 1.
  rewrite assertInLoopThread_ok by done. unfold bind at 1, conn_get at 1, bind at 1, gets at 1.
  rewrite Hc. cbn [of_option]. rewrite bool_decide_eq_false_2 by (by rewrite Hs). cbn [whenb].
  rewrite bind_ret_l. unfold bind at 1, conn_get, bind at 1, gets at 1. rewrite Hc. cbn [of_option].
  unfold Channel.remove. rewrite bind_gets. unfold bind at 1. rewrite (ch_get_ok _ _ ch) by done.
  unfold bind at 1, assert_. by rewrite Hdbg, Hn.
Qed.
End TcpConnection_properties.

(** What can happen to a connection. *)
Inductive conn_call : Type :=
| CallEstablished | CallShutdown | CallShutdownInLoop | CallForceClose | CallForceCloseInLoop
| CallRead (on : bool) | CallSend (data : positive) (len : Z) | CallDestroyed
| EventRead (t : Z) | EventWrite | EventClose | EventError.

Section TcpConnection_lifecycle.
Context {B : Build} {P K X : Type} `{PollerOps P K} `{!SysCalls K} `{ConnHeap X} `{!Callbacks P K X}.
Implicit Types s : Reactor P K X.

(** The order in which connection [c] only moves forward; a connection that is gone
    does not come back. *)
Definition stage (c : conn) (x : X) : nat :=
  match lget conns x !! c with Some cn => rank (state_ cn) | None => 4 end.

Definition stage_le (c : conn) (x x' : X) : Prop := (stage c x <= stage c x')%nat.

#[export] Instance stage_order c : ConnOrder (stage_le c).
Proof.
  split.
  - split; intros x; unfold stage_le; [lia | intros y z; lia].
  - intros x c' cn cn' Hc (_ & _ & Hl). unfold stage_le, stage. rewrite lget_lset, lookup_insert.
    case_decide; [subst; by rewrite Hc | done].
Qed.

(** A run of [m] does not take connection [c] back to an earlier state. *)
Definition forward (c : conn) {T} (m : M (Reactor P K X) T) : Prop := along (stage_le c) m.

Definition run_conn_call (fuel : nat) (c : conn) (cl : conn_call) : M (Reactor P K X) unit :=
  match cl with
  | CallEstablished => connectEstablished c
  | CallShutdown => shutdown c
  | CallShutdownInLoop => shutdownInLoop c
  | CallForceClose => forceClose c
  | CallForceCloseInLoop => forceCloseInLoop c
  | CallRead on => if on then startReadInLoop c else stopReadInLoop c
  | CallSend data len => send c data len
  | CallDestroyed => connectDestroyed c
  | EventRead t => handleRead fuel c t
  | EventWrite => handleWrite fuel c
  | EventClose => handleClose c
  | EventError => handleError c
  end.

(** Every call follows the orders of a connection that the user's code follows. *)
Lemma along_conn_call (R : X -> X -> Prop) `{!ConnOrder R} fuel c cl :
  (forall n c, along R (on_connection (P:=P) (K:=K) n c)) ->
  (forall n c t, along R (on_message (P:=P) (K:=K) n c t)) ->
  (forall cb c, along R (on_close (P:=P) (K:=K) cb c)) ->
  (cl = CallEstablished -> along R (connectEstablished c)) ->
  along R (run_conn_call fuel c cl).
Proof.
  intros H1' H2 H3 H4. destruct cl; cbn.
  - by apply H4.
  - by apply along_shutdown.
  - by apply along_shutdownInLoop.
  - by apply along_forceClose.
  - by apply along_forceCloseInLoop.
  - by apply along_reading.
  - by apply along_send.
  - by apply along_connectDestroyed.
  - by apply along_handleRead.
  - by apply along_handleWrite.
  - by apply along_handleClose.
  - by apply along_handleError.
Qed.

(** Where assertions are on, [connectEstablished] only follows the constructor. *)
Lemma forward_connectEstablished c :
  NDEBUG = false -> (forall n c', forward c (on_connection (P:=P) (K:=K) n c')) ->
  forward c (connectEstablished (P:=P) (K:=K) c).
Proof.
  intros Hdbg Hcb s [] s' Hrun. unfold connectEstablished in Hrun.
  apply bind_ok in Hrun as ([] & s1 & Ht & Hrun).
  apply (along_thread (stage_le c)) in Ht. apply bind_ok in Hrun as (cn & s2 & Hg & Hrun).
  apply conn_get_inv in Hg as [-> Hc]. apply bind_ok in Hrun as ([] & s3 & Ha & Hrun).
  unfold assert_ in Ha. rewrite Hdbg in Ha. case_bool_decide as Hst; [|done]. injection Ha as <-.
  apply bind_ok in Hrun as ([] & s4 & Hm & Hrun). apply bind_ok in Hm as (cn' & s5 & Hg & Hm).
  apply conn_get_inv in Hg as [-> Hc']. rewrite Hc in Hc'. injection Hc' as <-.
  apply (along_conn_put (stage_le c) _ _ cn) in Hm; [|done|split_and!; try done; rewrite Hst; cbn; lia].
  assert (Hrest : forward c (enableReading (channel_ cn) ;;
    let! cn := conn_get c in call_connection c (connectionCallback_ cn))).
  { apply along_bind; [exact _ | apply along_set_interest | intros _]; [exact _|].
    apply along_bind; [exact _ | apply along_conn_get | intros cn1]; [exact _|].
    apply along_call_connection; [exact _ | exact Hcb]. }
  apply Hrest in Hrun. etransitivity; [exact Ht|]. etransitivity; [exact Hm | exact Hrun].
Qed.

(** C21. A connection only moves forward: kConnecting, kConnected, kDisconnecting,
    kDisconnected.  In any sequence of calls and events, each run to its end before the
    next (a call of another thread that a close overtakes after it has tested the state
    is not one of them, see [Lifetime.shutdown_race]), as long as the callbacks of the
    user do not take the connection back themselves and [connectEstablished] either is
    not called or has its assertion on, a later state never precedes an earlier one; a
    disconnected connection stays disconnected. *)
Theorem conn_states_forward fuel c (cls : list conn_call) s s' cn cn' :
  (forall n c', forward c (on_connection (P:=P) (K:=K) n c')) ->
  (forall n c' t, forward c (on_message (P:=P) (K:=K) n c' t)) ->
  (forall cb c', forward c (on_close (P:=P) (K:=K) cb c')) ->
  NDEBUG = false \/ CallEstablished ∉ cls ->
  for_each cls (run_conn_call fuel c) s = Ok (tt, s') ->
  conn_at s c cn -> conn_at s' c cn' ->
  (rank (state_ cn) <= rank (state_ cn'))%nat.
Proof.
  intros H1' H2 H3 Hest Hrun Hc Hc'.
  assert (Hf : along (stage_le c) (for_each cls (run_conn_call fuel c))).
  { clear Hrun. induction cls as [|cl cls IH]; cbn [for_each]; [apply along_ret; exact _|].
    rewrite not_elem_of_cons in Hest.
    apply along_bind; [exact _ | apply (along_conn_call (stage_le c)); [done..|] | intros _; tauto].
    intros ->. apply forward_connectEstablished; [|done]. by destruct Hest as [? | []]. }
  specialize (Hf _ _ _ Hrun). unfold stage_le, stage in Hf. by rewrite Hc, Hc' in Hf.
Qed.
End TcpConnection_lifecycle.

(** ** Witnesses: an established connection over epoll *)

#[local] Existing Instance debug_build.

Definition world : Type := gmap conn TcpConnection * gmap positive (list byte).

#[local] Instance world_heap : ConnHeap world.
Proof. refine {| conns := fst_lens; memory := snd |}. by intros h [? ?]. Defined.

#[local] Instance world_callbacks : Callbacks EpollPoller sim world := {|
  on_connection n c := ret tt;
  on_message n c t := ret tt;
  on_close cb c := ret tt;
|}.

(** Connection 1 owns channel 7 on descriptor 9; [ev] are the events it asks for,
    [out] is its output. *)
Definition sample_channel (ev : Z) : Channel :=
  set_index kAdded (set_events ev (Channel_ctor 1%positive 9)).

Definition sample_buffer (d : list byte) : Buffer :=
  mkBuffer (d ++ replicate 64 x00) 0 (zlen d).

Definition sample_conn (st : StateE) (out : list byte) : TcpConnection :=
  mkConn 1%positive [] zero_sockaddr zero_sockaddr st true 9 7%positive (Some defaultConnectionCallback) (Some (user_message 1)) (Some 5%nat)
    (Some 6%nat) (Some (user_close 1)) 4 (sample_buffer []) (sample_buffer out).

Definition sample_world (em : Channel.mode) (st : StateE) (ev : Z) (out : list byte) (io : script)
    (thread : Z) : Reactor EpollPoller sim world :=
  mkReactor 1%positive true false false 0
    (mkPollState (mkEpollPoller 3 (replicate 16 zero_event) {[9 := 7%positive]})
       {[7%positive := sample_channel ev]} (initDefaultEvent em)
       (Sim io (EpollScript {[3 := {[9 := mkEpollEvent ev (Some 7%positive)]}]} [] 100) [] []) 1 thread)
    (mkTimerQueue 4 3%positive []) ∅ 5 2%positive [] [] ({[1%positive := sample_conn st out]}, ∅).

Lemma sample_at em st ev out io th : conn_at (sample_world em st ev out io th) 1%positive (sample_conn st out).
Proof. apply lookup_singleton_eq. Qed.

Lemma sample_registered em st ev out io :
  registered (sample_world em st ev out io 1) 7%positive (sample_channel ev).
Proof.
  split_and!; try done.
  split; [|split; [|by vm_compute]]; intros fd.
  - intros c Hc. cbn in Hc. apply lookup_singleton_Some in Hc as [<- <-].
    exists (sample_channel ev). split_and!; try done.
    left. split; [done|]. exists ev. apply lookup_singleton_eq.
  - cbn. intros [e He]. rewrite es_list_singleton in He.
    apply lookup_singleton_Some in He as [<- _]. exists 7%positive.
    apply lookup_singleton_eq.
Qed.

Lemma sample_buffer_ok d : zlen d < 1000 -> Inv (sample_buffer d) /\ content (sample_buffer d) = d.
Proof.
  intros Hd. pose proof (zlen_nonneg d). split.
  - unfold Inv, sample_buffer, vector_max, zlen in *. cbn [readerIndex_ writerIndex_ buffer_].
    rewrite length_app, length_replicate. lia.
  - change (take (Z.to_nat (zlen d - 0)) (d ++ replicate 64 x00) = d).
    unfold zlen. by rewrite Z.sub_0_r, Nat2Z.id, take_app_length.
Qed.

(** Ten bytes, of which the socket takes three. *)
Definition ten : list byte := replicate 10 x61.

(** The socket takes three of ten bytes; the peer is gone; output is pending. *)
Definition sending (st : StateE) (ev : Z) (out : list byte) (r : sysres Z) :
    Reactor EpollPoller sim world :=
  sample_world LT st ev out (Script [] [r] ∅) 1.

Lemma sendInLoop_outcome_witness :
  wp (sendInLoop (B:=debug_build) 1%positive (ret ten) (zlen ten))
     (fun _ s' => exists cn' ch', conn_at s' 1%positive cn' /\ content (outputBuffer_ cn') = drop 3 ten /\
        registered s' 7%positive ch' /\ events_ ch' = 7 /\
        pendingFunctors_ s' = [highWaterMarkCallback 6 1%positive 7])
     (sending kConnected 3 [] (inl 3)) /\
  wp (sendInLoop (B:=debug_build) 1%positive (ret ten) (zlen ten))
     (fun _ s' => conn_at s' 1%positive (sample_conn kConnected []) /\ pendingFunctors_ s' = [])
     (sending kConnected 3 [] (inr EPIPE)) /\
  sendInLoop (B:=debug_build) 1%positive (ret ten) (zlen ten) (sending kConnected 7 ten (inl 3)) =
    Ok (tt, sending kConnected 7 ten (inl 3)).
Proof.
  assert (H : forall out ev r, zlen out < 1000 -> Inv (outputBuffer_ (sample_conn kConnected out)) ->
    writerIndex_ (outputBuffer_ (sample_conn kConnected out)) + zlen ten <= vector_max -> _ = _ -> _)
    by (intros out ev r _ HI Hroom; exact (sendInLoop_outcome (B:=debug_build) (SysCalls0:=sim_calls)
      1%positive (sample_conn kConnected out) (sample_channel ev) (ret ten) ten r
      (sys_write 9 ten (lget os_lens (sending kConnected ev out r))).2 (sending kConnected ev out r)
      (sample_at _ _ _ _ _ _) (sample_registered _ _ _ _ _) eq_refl HI Hroom eq_refl)).
  split_and!.
  - refine (wp_mono _ _ _ _ (H [] 3 (inl 3) eq_refl (proj1 (sample_buffer_ok [] eq_refl))
      ltac:(by vm_compute) ltac:(vm_compute; reflexivity)) _).
    intros [] s' (out & ch' & Hc & _ & Hout & Hreg & Hch & Hp & _).
    exists (set_output out (sample_conn kConnected [])), ch'. apply (f_equal events_) in Hch.
    by split_and!.
  - refine (wp_mono _ _ _ _ (H [] 3 (inr EPIPE) eq_refl (proj1 (sample_buffer_ok [] eq_refl))
      ltac:(by vm_compute) ltac:(vm_compute; reflexivity)) _).
    intros [] s' ->. by split.
  - exact (H ten 7 (inl 3) eq_refl (proj1 (sample_buffer_ok ten eq_refl))
      ltac:(by vm_compute) ltac:(vm_compute; reflexivity)).
Defined.

Lemma sendInLoop_drops_witness :
  sendInLoop (B:=debug_build) 1%positive (ret ten) 10
    (sample_world LT kConnected 7 ten (Script [] [] ∅) 1) =
  Ok (tt, sample_world LT kConnected 7 ten (Script [] [] ∅) 1).
Proof.
  apply (sendInLoop_drops (B:=debug_build) (SysCalls0:=sim_calls) 1%positive (sample_conn kConnected ten) (sample_channel 7));
    [apply sample_at | reflexivity | reflexivity | left; reflexivity].
Defined.

Lemma handleWrite_flushes_witness :
  wp (handleWrite (B:=debug_build) 0 1%positive)
     (fun _ s' => exists b' ch1 s1, content b' = [] /\
        registered s1 7%positive ch1 /\ events_ ch1 = 3 /\
        pendingFunctors_ s1 = [writeCompleteCallback 5 1%positive] /\
        s' = lset os_lens (sys_shutdown_write 9 (lget os_lens s1)).2 s1)
     (sample_world LT kDisconnecting 7 ten (Script [] [] ∅) 1).
Proof.
  destruct (sample_buffer_ok ten eq_refl) as [HI Hcont].
  eapply wp_mono; [eapply (handleWrite_flushes (B:=debug_build) (SysCalls0:=sim_calls) 0 1%positive
    (sample_conn kDisconnecting ten) (sample_channel 7) (inl 10) _
    (sample_world LT kDisconnecting 7 ten (Script [] [] ∅) 1)
    (sample_at _ _ _ _ _ _) (sample_registered _ _ _ _ _) eq_refl eq_refl HI);
    [by eexists | cbn [sample_conn outputBuffer_]; rewrite Hcont; reflexivity]|].
  intros [] s' (b' & HI' & Hc' & Hf). cbn [sample_conn outputBuffer_] in Hc'. rewrite Hcont in Hc'.
  cbn zeta in Hf. rewrite Hc' in Hf. destruct Hf as (s1 & ch1 & Hreg & Hev & Hc1 & Hp & Hs').
  exists b', ch1, s1. by split_and!.
Defined.

Lemma handleClose_closes_witness : exists s2 ch2,
  handleClose (B:=debug_build) 1%positive (sample_world LT kConnected 3 [] (Script [] [] ∅) 1) =
    (call_connection 1%positive (Some defaultConnectionCallback) ;;
     let! cn := conn_get 1%positive in call_close 1%positive (closeCallback_ cn)) s2 /\
  conn_at s2 1%positive (sample_conn kDisconnected []) /\ events_ ch2 = 0 /\
  watched (poller_ s2) = delete 9 (epoll_watched (poller_ (sample_world LT kConnected 3 [] (Script [] [] ∅) 1))).
Proof.
  destruct (handleClose_closes (B:=debug_build) 1%positive (sample_conn kConnected []) (sample_channel 3)
    (sample_world LT kConnected 3 [] (Script [] [] ∅) 1) (sample_at _ _ _ _ _ _)
    (sample_registered _ _ _ _ _) ltac:(by left) ltac:(by eexists))
    as (s2 & ch2 & Hrun & Hc & Hreg & Hev & _ & _ & Hw).
  exists s2, ch2. by split_and!.
Defined.

(** The connection has been told of bytes; [Script] says what its reads give. *)
Definition told_to_read (em : Channel.mode) (reads : list (sysres (list byte))) :
    Reactor EpollPoller sim world :=
  sample_world em kConnected 3 [] (Script reads [] ∅) 1.

(** The process after the reads. *)
Definition has_read (em : Channel.mode) (reads : list (sysres (list byte))) (b : Buffer) :=
  with_conn 1%positive (set_input b (sample_conn kConnected []))
    (lset os_lens (lget os_lens (told_to_read em [])) (told_to_read em reads)).

(** Two bytes arrive; in edge-triggered mode the peer has closed behind them. *)
Lemma handleRead_outcome_witness :
  (exists b', content b' = [x62; x63] /\
     handleRead (B:=debug_build) 0 1%positive 100 (told_to_read LT [inl [x62; x63]]) =
     call_message 1%positive 100 (Some (user_message 1)) (has_read LT [inl [x62; x63]] b')) /\
  (exists b', content b' = [x62; x63] /\
     handleRead (B:=debug_build) 2 1%positive 100 (told_to_read ET [inl [x62; x63]; inl []]) =
     handleClose 1%positive (has_read ET [inl [x62; x63]; inl []] b')) /\
  handleRead (B:=debug_build) 0 1%positive 100 (told_to_read LT [inl (replicate 65 x62)]) =
    Err AssertFailed.
Proof.
  destruct (sample_buffer_ok [] eq_refl) as [HI Hcont].
  assert (H : forall em fuel reads, _)
    by (intros em fuel reads; exact (handleRead_outcome (B:=debug_build) (SysCalls0:=sim_calls) fuel
      1%positive (sample_conn kConnected []) (sample_channel 3) 100 (told_to_read em reads)
      (sample_at _ _ _ _ _ _) eq_refl HI)).
  split_and!.
  - destruct (proj1 (H LT 0%nat [inl [x62; x63]]) eq_refl (inl [x62; x63]) (lget os_lens (told_to_read LT []))
      ltac:(by vm_compute) ltac:(vm_compute; reflexivity)) as (b' & _ & Hc' & Hrun).
    cbn [sample_conn inputBuffer_] in Hc'. rewrite Hcont in Hc'. by exists b'.
  - destruct (proj2 (H ET 2%nat [inl [x62; x63]; inl []]) eq_refl [[x62; x63]] (inl [])
      (lget os_lens (told_to_read ET [])) ltac:(by vm_compute)
      ltac:(split; [done|]; eexists; split; [vm_compute; reflexivity | vm_compute; reflexivity])
      ltac:(by left) ltac:(cbn; lia)) as (b' & _ & Hc' & Hrun).
    cbn [sample_conn inputBuffer_] in Hc'. rewrite Hcont in Hc'. by exists b'.
  - exact (proj1 (H LT 0%nat [inl (replicate 65 x62)]) eq_refl (inl (replicate 65 x62))
      (lget os_lens (told_to_read LT [])) ltac:(by vm_compute) ltac:(vm_compute; reflexivity)).
Defined.

Lemma send_keeps_pointer_witness :
  send (B:=debug_build) 1%positive 8%positive 10 (sample_world LT kConnected 3 [] (Script [] [] ∅) 2) =
    Ok (tt, queued (TcpConnection_sendInLoop 1%positive 8%positive 10)
              (sample_world LT kConnected 3 [] (Script [] [] ∅) 2)) /\
  sendInLoop (B:=debug_build) 1%positive (read_memory 8%positive 10) 10
    (sample_world LT kConnected 3 [] (Script [] [] ∅) 1) = Err UseAfterFree.
Proof.
  destruct (send_keeps_pointer (B:=debug_build) (SysCalls0:=sim_calls) 1%positive (sample_conn kConnected []) 8%positive 10
    (sample_world LT kConnected 3 [] (Script [] [] ∅) 2) (sample_at _ _ _ _ _ _) eq_refl eq_refl)
    as [Hq Hu].
  split; [exact Hq|].
  by apply (Hu _ (sample_conn kConnected []) (sample_channel 3)); [apply sample_at|..].
Defined.

Lemma connectDestroyed_asserts_witness :
  connectDestroyed (B:=debug_build) 1%positive
    (sample_world LT kDisconnecting 3 [] (Script [] [] ∅) 1) = Err AssertFailed.
Proof.
  apply (connectDestroyed_asserts (B:=debug_build) 1%positive (sample_conn kDisconnecting [])
    (sample_channel 3)); [reflexivity | apply sample_at | reflexivity..].
Defined.

Definition late_calls : list conn_call :=
  [EventRead 100; CallShutdown; CallForceClose; EventClose].

Lemma conn_states_forward_witness : exists s',
  for_each late_calls (run_conn_call (B:=debug_build) 0 1%positive)
    (sample_world LT kConnected 3 [] (Script [inl [x62]] [] ∅) 1) = Ok (tt, s') /\
  forall cn', conn_at s' 1%positive cn' -> (1 <= rank (state_ cn'))%nat.
Proof.
  eexists. split; [vm_compute; reflexivity|]. intros cn' Hcn'.
  eapply (conn_states_forward (B:=debug_build) (SysCalls0:=sim_calls) 0 1%positive late_calls
    (sample_world LT kConnected 3 [] (Script [inl [x62]] [] ∅) 1) _ (sample_conn kConnected []) cn');
    [intros; apply along_ret; exact _ | intros; apply along_ret; exact _
    | intros; apply along_ret; exact _ | by left
    | vm_compute; reflexivity | apply sample_at | exact Hcn'].
Defined.
