(* ===== verification/Lifetime.v ===== *)
(** * TcpConnection.cc, TcpServer.cc, TcpClient.cc, EventLoop.cc: who keeps a
    connection alive

    A connection is owned by the shared pointers to it: the one of its owner (the
    entry of [connections_] of a server, [connection_] of a client), those in the
    tasks that bind a [TcpConnectionPtr], and the copies the user keeps.  It is
    deleted when the last one goes, in the thread that drops it.  Some tasks and
    the callbacks of its channel hold only a raw [this].

    The model has one connection, the thread of its loop, the thread of the loop
    of its server and any number of threads of the user.  A server without a
    thread pool, and a client, live on the loop of the connection.  A task, an event of the channel, the
    erasure of the server and a destructor of the owner are one step each; a call
    from a thread of the user is the test of [state_] and then the rest, which
    other steps may separate.  A loop runs its tasks in the order they were
    queued ([Wakeup.v]) and holds a batch until all of it has run.  The channel
    is watched by an epoll poller. *)

From S2P Require Import Prelude Callbacks TcpConnection.

(** ** State *)

(** The tasks of a loop: those queued, and of the batch [doPendingFunctors] has
    taken those to run and those that have run. *)
Record Queue : Type := mkQueue {
  pending : list Functor;
  batch : list Functor;
  ran : list Functor;
}.

(** [events_] of the channel, whether the poller may report it, and [reading_]. *)
Record Watch : Type := mkWatch {
  reading : bool;
  writing : bool;
  armed : bool;
  reading_ : bool;
}.

(** The calls of other threads. *)
Inductive call : Type :=
| KSend (data : positive) (len : Z)
| KShutdown
| KForceClose
| KStartRead
| KStopRead.

(** [owner]: the server or the client is alive; [in_map]: its pointer is set;
    [one_loop]: it lives on the loop of the connection.
    [users] are the shared pointers the user holds; [inflight] are the calls of
    other threads that have tested [state_] and done no more. *)
Record Life : Type := mkLife {
  state : StateE;
  alive : bool;
  in_map : bool;
  owner : bool;
  closeCallback : CloseCallback;
  one_loop : bool;
  watch : Watch;
  io : Queue;
  base : Queue;
  users : nat;
  inflight : list call;
}.

Definition set_state (x : StateE) (s : Life) : Life :=
  mkLife x (alive s) (in_map s) (owner s) (closeCallback s) (one_loop s) (watch s) (io s) (base s) (users
    s) (inflight s).
Definition set_alive (x : bool) (s : Life) : Life :=
  mkLife (state s) x (in_map s) (owner s) (closeCallback s) (one_loop s) (watch s) (io s) (base s) (users
    s) (inflight s).
Definition set_in_map (x : bool) (s : Life) : Life :=
  mkLife (state s) (alive s) x (owner s) (closeCallback s) (one_loop s) (watch s) (io s) (base s) (users s)
    (inflight s).
Definition set_owner (x : bool) (s : Life) : Life :=
  mkLife (state s) (alive s) (in_map s) x (closeCallback s) (one_loop s) (watch s) (io s) (base s) (users
    s) (inflight s).
Definition set_closeCallback (x : CloseCallback) (s : Life) : Life :=
  mkLife (state s) (alive s) (in_map s) (owner s) x (one_loop s) (watch s) (io s) (base s) (users s)
    (inflight s).
Definition set_watch (x : Watch) (s : Life) : Life :=
  mkLife (state s) (alive s) (in_map s) (owner s) (closeCallback s) (one_loop s) x (io s) (base s) (users
    s) (inflight s).
Definition set_io (x : Queue) (s : Life) : Life :=
  mkLife (state s) (alive s) (in_map s) (owner s) (closeCallback s) (one_loop s) (watch s) x (base s)
    (users s) (inflight s).
Definition set_base (x : Queue) (s : Life) : Life :=
  mkLife (state s) (alive s) (in_map s) (owner s) (closeCallback s) (one_loop s) (watch s) (io s) x (users
    s) (inflight s).
Definition set_users (x : nat) (s : Life) : Life :=
  mkLife (state s) (alive s) (in_map s) (owner s) (closeCallback s) (one_loop s) (watch s) (io s) (base s)
    x (inflight s).
Definition set_inflight (x : list call) (s : Life) : Life :=
  mkLife (state s) (alive s) (in_map s) (owner s) (closeCallback s) (one_loop s) (watch s) (io s) (base s)
    (users s) x.

(** ** Ownership *)

(** The tasks that bind a [TcpConnectionPtr]; the others bind [this]. *)
Definition owns (f : Functor) : bool :=
  match f with
  | TcpConnection_forceCloseInLoop _ | TcpConnection_connectEstablished _
  | TcpConnection_connectDestroyed _ | TcpConnection_setCloseCallback _ _
  | writeCompleteCallback _ _ | highWaterMarkCallback _ _ _
  | TcpServer_removeConnectionInLoop _ => true
  | _ => false
  end.

Definition owners (l : list Functor) : nat := length (filter (fun f => owns f = true) l).

Definition held (q : Queue) : nat := (owners (pending q) + owners (batch q) + owners (ran q))%nat.

(** [use_count()] *)
Definition use_count (s : Life) : nat :=
  ((if in_map s then 1 else 0) + users s + held (io s) + held (base s))%nat.

(** A shared pointer has gone: the last one deletes the connection. *)
Definition release (s : Life) : Life :=
  if bool_decide (use_count s = 0%nat) then set_alive false s else s.

Definition push (f : Functor) (q : Queue) : Queue := mkQueue (pending q ++ [f]) (batch q) (ran q).

Section Lifetime.
Context {B : Build} (c : conn).
Implicit Types s : Life.

Definition queue_io (f : Functor) s : Life := set_io (push f (io s)) s.
Definition queue_base (f : Functor) s : Life := set_base (push f (base s)) s.

(** ** The channel *)

(** [EpollPoller::updateChannel]: a descriptor that is not in the interest list
    is added, whatever its mask. *)
Definition update (w : Watch) : Watch :=
  mkWatch (reading w) (writing w) (if armed w then reading w || writing w else true) (reading_ w).

Definition enableReading (w : Watch) : Watch := update (mkWatch true (writing w) (armed w) (reading_ w)).
Definition disableReading (w : Watch) : Watch := update (mkWatch false (writing w) (armed w) (reading_ w)).
Definition enableWriting (w : Watch) : Watch := update (mkWatch (reading w) true (armed w) (reading_ w)).
Definition disableWriting (w : Watch) : Watch := update (mkWatch (reading w) false (armed w) (reading_ w)).
Definition disableAll (w : Watch) : Watch := update (mkWatch false false (armed w) (reading_ w)).

(** ** What the code of the user does in a callback, in the thread of the loop *)

(** The outcome of the write of [sendInLoop]; [notify]: a callback of the user is
    queued, for the completed write or for the high-water mark. *)
Inductive outcome : Type :=
| OAll (notify : bool)
| OLeft (notify : bool)
| OFault.

Inductive act : Type :=
| ASend (o : outcome)
| AShutdown
| AForceClose
| AStartRead
| AStopRead
| ATake
| ADrop.

Definition sendInLoop (o : outcome) s : Life :=
  if bool_decide (state s = kDisconnected) then s
  else if writing (watch s) then s
  else match o with
       | OAll notify => if notify then queue_io (writeCompleteCallback 0 c) s else s
       | OLeft notify =>
           let s := if notify then queue_io (highWaterMarkCallback 0 c 0) s else s in
           set_watch (enableWriting (watch s)) s
       | OFault => s
       end.

Definition set_reading (b : bool) (w : Watch) : Watch := mkWatch (reading w) (writing w) (armed w) b.

Definition startReadInLoop s : Life :=
  if negb (reading_ (watch s)) || negb (reading (watch s))
  then set_watch (set_reading true (enableReading (watch s))) s else s.

Definition stopReadInLoop s : Life :=
  if reading_ (watch s) || reading (watch s)
  then set_watch (set_reading false (disableReading (watch s))) s else s.

Definition forceClose s : Life :=
  if bool_decide (state s = kConnected \/ state s = kDisconnecting)
  then queue_io (TcpConnection_forceCloseInLoop c) (set_state kDisconnecting s) else s.

(** A copy can only be dropped by who has one; the callback's argument keeps the
    connection meanwhile. *)
Definition act_step s (a : act) : Life :=
  match a with
  | ASend o => if bool_decide (state s = kConnected) then sendInLoop o s else s
  | AShutdown => if bool_decide (state s = kConnected) then set_state kDisconnecting s else s
  | AForceClose => forceClose s
  | AStartRead => startReadInLoop s
  | AStopRead => stopReadInLoop s
  | ATake => set_users (S (users s)) s
  | ADrop => if bool_decide (length (inflight s) < users s)%nat then set_users (pred (users s)) s else s
  end.

Definition callback (acts : list act) s : Life := foldl act_step s acts.

(** ** Closing *)
Definition assertion (b : bool) s : res Life := if negb NDEBUG && negb b then Err AssertFailed else Ok s.

(** [TcpServer::removeConnectionInLoop]: [erase], and the next task. *)
Definition removeConnectionInLoop s : Life :=
  queue_io (TcpConnection_connectDestroyed c) (set_in_map false s).

(** [TcpServer::removeConnection], through the [this] the close callback binds. *)
Definition server_removeConnection s : res Life :=
  if negb (owner s) then Err UseAfterFree
  else if one_loop s then Ok (removeConnectionInLoop s)
  else Ok (queue_base (TcpServer_removeConnectionInLoop c) s).

(** [TcpClient::removeConnection], as far as the connection goes: a client that
    retries starts its connector over. *)
Definition client_removeConnection s : res Life :=
  if negb (owner s) then Err UseAfterFree else
  match assertion (in_map s) s with
  | Ok s => Ok (queue_io (TcpConnection_connectDestroyed c) (set_in_map false s))
  | Err f => Err f
  end.

(** [closeCallback_(guardThis)]; the third is the free function of TcpClient.cc. *)
Definition call_close s : res Life :=
  match closeCallback s with
  | TcpServer_removeConnection => server_removeConnection s
  | TcpClient_removeConnection => client_removeConnection s
  | queue_connectDestroyed => Ok (queue_io (TcpConnection_connectDestroyed c) s)
  | user_close _ => Ok s
  end.

Definition handleClose (acts : list act) s : res Life :=
  match assertion (bool_decide (state s = kConnected \/ state s = kDisconnecting)) s with
  | Ok s =>
      call_close
        (callback acts (set_watch (disableAll (watch s)) (set_state kDisconnected s)))
  | Err f => Err f
  end.

Definition connectEstablished (acts : list act) s : res Life :=
  match assertion (bool_decide (state s = kConnecting)) s with
  | Ok s => Ok (callback acts (set_watch (enableReading (watch s)) (set_state kConnected s)))
  | Err f => Err f
  end.

(** The channel leaves the poller. *)
Definition connectDestroyed (acts : list act) s : res Life :=
  let s := if bool_decide (state s = kConnected)
           then callback acts (set_watch (disableAll (watch s)) (set_state kDisconnected s)) else s in
  match assertion (negb (reading (watch s) || writing (watch s))) s with
  | Ok s => Ok (set_watch (mkWatch (reading (watch s)) (writing (watch s)) false (reading_ (watch s))) s)
  | Err f => Err f
  end.

(** ** Tasks *)

(** A task of the loop of the connection.  [acts] is what its callback does, [o]
    the outcome of its write. *)
Definition run_io (f : Functor) (acts : list act) (o : outcome) s : res Life :=
  if negb (alive s) then Err UseAfterFree else
  match f with
  | TcpConnection_sendInLoop _ _ _ => Ok (sendInLoop o s)
  | TcpConnection_startReadInLoop _ => Ok (startReadInLoop s)
  | TcpConnection_stopReadInLoop _ => Ok (stopReadInLoop s)
  | TcpConnection_forceCloseInLoop _ =>
      if bool_decide (state s = kDisconnecting \/ state s = kConnected) then handleClose acts s else Ok s
  | TcpConnection_connectEstablished _ => connectEstablished acts s
  | TcpConnection_connectDestroyed _ => connectDestroyed acts s
  | TcpConnection_setCloseCallback _ cb => Ok (set_closeCallback cb s)
  | writeCompleteCallback _ _ | highWaterMarkCallback _ _ _ => Ok (callback acts s)
  | _ => Ok s
  end.

(** A task of the loop of the server; it reads [conn->name()]. *)
Definition run_base (f : Functor) s : res Life :=
  match f with
  | TcpServer_removeConnectionInLoop _ =>
      if negb (owner s) || negb (alive s) then Err UseAfterFree
      else Ok (removeConnectionInLoop s)
  | _ => Ok s
  end.

(** ** Events of the channel *)

(** What [handleEvent] comes down to: a message, a close, or a write after which
    the buffer is [drained]. *)
Inductive io_event : Type :=
| EMessage (acts : list act)
| EClose (acts : list act)
| EWrite (drained notify : bool)
| EError.

Definition possible (e : io_event) s : bool :=
  armed (watch s) && match e with EMessage _ => reading (watch s) | _ => true end.

Definition handleWrite (drained notify : bool) s : Life :=
  if writing (watch s) && drained
  then let s := set_watch (disableWriting (watch s)) s in
       if notify then queue_io (writeCompleteCallback 0 c) s else s
  else s.

(** The callback is on the [this] of the channel's owner; [handleEvent] touches
    the channel again afterwards. *)
Definition run_event (e : io_event) s : res Life :=
  if negb (alive s) then Err UseAfterFree else
  let r := match e with
           | EMessage acts => Ok (callback acts s)
           | EClose acts => handleClose acts s
           | EWrite drained notify => Ok (handleWrite drained notify s)
           | EError => Ok s
           end in
  match r with
  | Ok s => if bool_decide (use_count s = 0%nat) then Err UseAfterFree else Ok s
  | Err f => Err f
  end.

(** ** Calls of other threads *)

(** The test of [state_]. *)
Definition admitted (k : call) s : bool :=
  match k with
  | KSend _ _ | KShutdown => bool_decide (state s = kConnected)
  | KForceClose => bool_decide (state s = kConnected \/ state s = kDisconnecting)
  | KStartRead | KStopRead => true
  end.

(** And the rest. *)
Definition commit (k : call) s : Life :=
  match k with
  | KSend data len => queue_io (TcpConnection_sendInLoop c data len) s
  | KShutdown => queue_io (TcpConnection_shutdownInLoop c) (set_state kDisconnecting s)
  | KForceClose => queue_io (TcpConnection_forceCloseInLoop c) (set_state kDisconnecting s)
  | KStartRead => queue_io (TcpConnection_startReadInLoop c) s
  | KStopRead => queue_io (TcpConnection_stopReadInLoop c) s
  end.

(** ** Steps *)

Inductive event : Type :=
| Io_swap                                   (** [functors.swap(pendingFunctors_)] *)
| Io_task (acts : list act) (o : outcome)   (** the next task of the batch *)
| Io_end                                    (** the batch goes *)
| Io_event (e : io_event)
| Base_swap
| Base_task
| Base_end
| Call (k : call)                           (** a whole call of another thread *)
| Test (k : call)                           (** or its two halves *)
| Commit
| Drop                                      (** the user drops a pointer *)
| Server_dtor (acts : list act)
| Client_dtor                               (** in the thread of the loop *)
| Client_dtor_elsewhere
| Client_disconnect.                        (** [TcpClient::disconnect] of another thread *)

Definition swap (q : Queue) : option Queue :=
  match batch q, ran q, pending q with
  | [], [], _ :: _ => Some (mkQueue [] (pending q) [])
  | _, _, _ => None
  end.

Definition next (q : Queue) : option (Functor * Queue) :=
  match batch q with
  | f :: l => Some (f, mkQueue (pending q) l (ran q ++ [f]))
  | [] => None
  end.

Definition finish (q : Queue) : option Queue :=
  match batch q, ran q with
  | [], _ :: _ => Some (mkQueue (pending q) [] [])
  | _, _ => None
  end.

Definition of_server s : bool := bool_decide (closeCallback s = TcpServer_removeConnection).
Definition of_client s : bool := bool_decide (closeCallback s = TcpClient_removeConnection).

(** [~TcpServer]: [runInLoop] of [connectDestroyed], which runs at once on the
    same loop. *)
Definition TcpServer_dtor (acts : list act) s : res Life :=
  let s := set_owner false s in
  if in_map s then
    let s := set_in_map false s in
    if one_loop s
    then match connectDestroyed acts s with Ok s => Ok (release s) | Err f => Err f end
    else Ok (queue_io (TcpConnection_connectDestroyed c) s)
  else Ok s.

(** [~TcpClient]: [runInLoop] runs [setCloseCallback] at once in the thread of the
    loop, and queues it in another one.  Then the copy and [connection_] go. *)
Definition TcpClient_dtor (inLoopThread : bool) s : Life :=
  let s := set_owner false s in
  if in_map s then
    let s := if inLoopThread then set_closeCallback queue_connectDestroyed s
             else queue_io (TcpConnection_setCloseCallback c queue_connectDestroyed) s in
    release (set_in_map false s)
  else s.

(** [TcpClient::disconnect] shuts [connection_] down under the mutex. *)
Definition TcpClient_disconnect s : Life :=
  if in_map s && admitted KShutdown s then commit KShutdown s else s.

(** A step that cannot be taken is [None]. *)
Definition step (e : event) s : option (res Life) :=
  match e with
  | Io_swap => (fun q => Ok (set_io q s)) <$> swap (io s)
  | Io_task acts o => (fun x => run_io x.1 acts o (set_io x.2 s)) <$> next (io s)
  | Io_end => (fun q => Ok (release (set_io q s))) <$> finish (io s)
  | Io_event e => if possible e s then Some (run_event e s) else None
  | Base_swap => (fun q => Ok (set_base q s)) <$> swap (base s)
  | Base_task => (fun x => run_base x.1 (set_base x.2 s)) <$> next (base s)
  | Base_end => (fun q => Ok (release (set_base q s))) <$> finish (base s)
  | Call k =>
      if bool_decide (length (inflight s) < users s)%nat
      then Some (Ok (if admitted k s then commit k s else s)) else None
  | Test k =>
      if bool_decide (length (inflight s) < users s)%nat && admitted k s
      then Some (Ok (set_inflight (inflight s ++ [k]) s)) else None
  | Commit =>
      match inflight s with
      | k :: l => Some (Ok (commit k (set_inflight l s)))
      | [] => None
      end
  | Drop =>
      if bool_decide (length (inflight s) < users s)%nat
      then Some (Ok (release (set_users (pred (users s)) s))) else None
  | Server_dtor acts => if owner s && of_server s then Some (TcpServer_dtor acts s) else None
  | Client_dtor => if owner s && of_client s then Some (Ok (TcpClient_dtor true s)) else None
  | Client_dtor_elsewhere => if owner s && of_client s then Some (Ok (TcpClient_dtor false s)) else None
  | Client_disconnect => if owner s && of_client s then Some (Ok (TcpClient_disconnect s)) else None
  end.

Fixpoint run (es : list event) s : option (res Life) :=
  match es with
  | [] => Some (Ok s)
  | e :: es' => match step e s with
                | Some (Ok s') => run es' s'
                | r => r
                end
  end.

(** After [TcpServer::newConnection] with a thread pool: the connection is in the
    map and its task is queued. *)
Definition init : Life :=
  mkLife kConnecting true true true TcpServer_removeConnection false (mkWatch false false false true)
    (mkQueue [TcpConnection_connectEstablished c] [] []) (mkQueue [] [] []) 0 [].

(** [TcpClient::newConnection], and that of a server without threads, establish
    the connection at once. *)
Definition init_here (cb : CloseCallback) : Life :=
  mkLife kConnecting true true true cb true (mkWatch false false false true)
    (mkQueue [] [] []) (mkQueue [] [] []) 0 [].

Definition newConnection_here (cb : CloseCallback) (acts : list act) : res Life :=
  connectEstablished acts (init_here cb).
End Lifetime.

(** ** The invariant *)

(** Steps that keep away from the races: calls of other threads run as a whole,
    nobody calls [startRead] or [stopRead], a server stays, and a client is
    destroyed in the thread of the loop. *)
Definition polite_act (a : act) : bool :=
  match a with AStartRead | AStopRead => false | _ => true end.

Definition polite (e : event) : bool :=
  match e with
  | Io_task acts _ | Io_event (EMessage acts) | Io_event (EClose acts) => forallb polite_act acts
  | Call (KStartRead | KStopRead) | Test _ | Commit | Server_dtor _ | Client_dtor_elsewhere => false
  | _ => true
  end.

Definition is_open (s : Life) : bool := bool_decide (state s = kConnected \/ state s = kDisconnecting).

(** The pointers a callback drops. *)
Fixpoint drops (acts : list act) : nat :=
  match acts with
  | [] => 0
  | ADrop :: acts => S (drops acts)
  | _ :: acts => drops acts
  end.

(** The user keeps a pointer; a callback of [forceCloseInLoop] or of a close runs
    when the connection is closed already. *)
Definition keeps_one (e : event) (s : Life) : bool :=
  match e with
  | Client_dtor => bool_decide (0 < users s)%nat
  | Drop => bool_decide (1 < users s)%nat
  | Io_event (EMessage acts) => bool_decide (drops acts < users s)%nat
  | Io_task acts _ =>
      match batch (io s) with
      | TcpConnection_forceCloseInLoop _ :: _ => true
      | _ => bool_decide (drops acts < users s)%nat
      end
  | _ => true
  end.

(** The tasks that have not run, in order. *)
Definition todo (q : Queue) : list Functor := batch q ++ pending q.

(** An open connection whose client is destroyed stays with the user.  A server is
    destroyed when the connection has left it, or on the loop of the connection
    when that is connected and no task waits. *)
Definition considerate (e : event) (s : Life) : bool :=
  match e with
  | Server_dtor acts =>
      forallb polite_act acts &&
      (negb (in_map s) ||
       one_loop s && bool_decide (state s = kConnected) && bool_decide (todo (io s) = []))
  | _ =>
      polite e &&
      (negb (is_open s) ||
       match closeCallback s, e with
       | queue_connectDestroyed, _ | TcpClient_removeConnection, Client_dtor => keeps_one e s
       | _, _ => true
       end)
  end.

Fixpoint all_considerate {B : Build} (c : conn) (es : list event) (s : Life) : bool :=
  match es with
  | [] => true
  | e :: es' => considerate e s &&
                match step c e s with Some (Ok s') => all_considerate c es' s' | _ => true end
  end.

Section invariant.
Context {B : Build} (c : conn).
Implicit Types s : Life.

(** The tasks of an established connection. *)
Definition working (f : Functor) : Prop :=
  match f with
  | TcpConnection_sendInLoop _ _ _ | TcpConnection_shutdownInLoop _
  | TcpConnection_forceCloseInLoop _ | writeCompleteCallback _ _
  | highWaterMarkCallback _ _ _ => True
  | _ => False
  end.

(** The life of a connection. *)
Inductive stage : Type := Arriving | Open | Closing | Leaving | Gone.

(** Whose connection it is until it closes. *)
Definition served s : Prop :=
  closeCallback s = TcpServer_removeConnection /\ owner s = true /\ in_map s = true.

Definition answers s : Prop :=
  match closeCallback s with
  | TcpServer_removeConnection | TcpClient_removeConnection => owner s = true /\ in_map s = true
  | queue_connectDestroyed => in_map s = false
  | user_close _ => False
  end.

(** When the owner is gone the user has more than [n] copies. *)
Definition spare (n : nat) s : Prop := closeCallback s = queue_connectDestroyed -> (n < users s)%nat.

Definition owned s : Prop := answers s /\ spare 0 s.

Definition stage_inv (g : stage) s : Prop :=
  match g with
  | Arriving =>
      state s = kConnecting /\ served s /\ watch s = mkWatch false false false true /\
      todo (io s) = [TcpConnection_connectEstablished c] /\ todo (base s) = []
  | Open =>
      (state s = kConnected \/ state s = kDisconnecting) /\ owned s /\
      (exists w, watch s = mkWatch true w true true) /\
      Forall working (todo (io s)) /\ todo (base s) = []
  | Closing =>
      state s = kDisconnected /\ served s /\ watch s = mkWatch false false false true /\
      Forall working (todo (io s)) /\ todo (base s) = [TcpServer_removeConnectionInLoop c]
  | Leaving =>
      state s = kDisconnected /\ in_map s = false /\ watch s = mkWatch false false false true /\
      (exists l, Forall working l /\ todo (io s) = l ++ [TcpConnection_connectDestroyed c]) /\
      todo (base s) = []
  | Gone =>
      state s = kDisconnected /\ in_map s = false /\ watch s = mkWatch false false false true /\
      todo (io s) = [] /\ todo (base s) = []
  end.

Definition alive_ok s : Prop := alive s = bool_decide (use_count s <> 0%nat).

Definition inv s : Prop :=
  inflight s = [] /\ alive_ok s /\ exists g, stage_inv g s.

(** *** Queues *)
Lemma owners_app l1 l2 : owners (l1 ++ l2) = (owners l1 + owners l2)%nat.
Proof. unfold owners. by rewrite filter_app, length_app. Qed.

Lemma swap_same q q' : swap q = Some q' -> todo q' = todo q /\ held q' = held q.
Proof.
  destruct q as [p [|] [|]]; destruct p; cbn -[held]; intros; simplify_eq.
  split; [apply app_nil_r|]. unfold held. cbn. lia.
Qed.

Lemma next_same q f q' : next q = Some (f, q') -> todo q = f :: todo q' /\ held q' = held q.
Proof.
  destruct q as [p [|g b] r]; cbn -[held]; intros; simplify_eq. split; [done|].
  unfold held. cbn [pending batch ran]. rewrite owners_app.
  pose proof (owners_app [f] b) as Hfb. cbn [app] in Hfb. lia.
Qed.

Lemma finish_same q q' : finish q = Some q' -> todo q' = todo q /\ (held q' <= held q)%nat.
Proof.
  destruct q as [p [|] [|]]; cbn -[held]; intros; simplify_eq. split; [done|]. unfold held. cbn. lia.
Qed.

Lemma todo_push f q : todo (push f q) = todo q ++ [f].
Proof. unfold todo. cbn. by rewrite app_assoc. Qed.

(** A task in a queue keeps what it owns. *)
Lemma held_todo f q : owns f = true -> f ∈ todo q -> held q <> 0%nat.
Proof.
  intros Ho Hin. unfold held. cut (0 < owners (todo q))%nat.
  { unfold todo. rewrite owners_app. lia. }
  destruct (list_elem_of_split _ _ Hin) as (l1 & l2 & ->). rewrite !owners_app.
  unfold owners at 2. cbn. rewrite decide_True by done. cbn. lia.
Qed.

(** Before it is gone the connection is owned. *)
Lemma stage_owned g s : stage_inv g s -> g <> Gone -> use_count s <> 0%nat.
Proof.
  unfold use_count. destruct g; try done; cbn.
  - intros (_ & (_ & _ & ->) & _). lia.
  - intros (_ & [Ho Hsp] & _) _. unfold answers, spare in *.
    destruct (closeCallback s); [destruct Ho as [_ ->]; lia | destruct Ho as [_ ->]; lia | | done].
    specialize (Hsp eq_refl). lia.
  - intros (_ & (_ & _ & ->) & _). lia.
  - intros (_ & _ & _ & (l & _ & Hl) & _) _.
    assert (held (io s) <> 0%nat); [|lia].
    eapply (held_todo (TcpConnection_connectDestroyed c)); [done|]. rewrite Hl.
    apply elem_of_app. right. by apply list_elem_of_singleton.
Qed.

Lemma alive_ok_true s : use_count s <> 0%nat -> alive s = true -> alive_ok s.
Proof. intros Hu Ha. unfold alive_ok. by rewrite Ha, bool_decide_eq_true_2. Qed.

Lemma stage_alive g s : alive_ok s -> stage_inv g s -> g <> Gone -> alive s = true.
Proof. intros -> Hg Hne. apply bool_decide_eq_true_2. by eapply stage_owned. Qed.

(** What a step leaves alone. *)
Definition kept s s' : Prop :=
  closeCallback s' = closeCallback s /\ inflight s' = inflight s /\ alive s' = alive s.

(** What a step that is not [Client_dtor] leads to. *)
Definition preserved s s' : Prop := inv s' /\ closeCallback s' = closeCallback s.

(** A step that keeps the connection owned keeps the invariant. *)
Lemma inv_kept g s s' :
  inflight s = [] -> alive s = true -> kept s s' -> stage_inv g s' -> g <> Gone -> preserved s s'.
Proof.
  intros Hi Ha (Hc' & Hi' & Ha') Hg Hne. split; [|done]. split_and!; [congruence| |by exists g].
  apply alive_ok_true; [by eapply stage_owned | congruence].
Qed.

(** *** Callbacks *)
Lemma callback_closed acts s :
  state s = kDisconnected -> forallb polite_act acts = true ->
  exists n, callback c acts s = set_users n s.
Proof.
  revert s. induction acts as [|a acts IH]; intros s Hs Hp.
  { exists (users s). by destruct s. }
  change (callback c (a :: acts) s) with (callback c acts (act_step c s a)). cbn [forallb] in Hp.
  apply andb_true_iff in Hp as [Ha Hp].
  assert (exists n, act_step c s a = set_users n s) as [n Hn].
  { destruct a; cbn; unfold forceClose; rewrite ?Hs; cbn; try done;
      try (exists (users s); by destruct s).
    - by eexists.
    - case_bool_decide; [by eexists | exists (users s); by destruct s]. }
  rewrite Hn. destruct (IH (set_users n s)) as [m Hm]; [done | done |]. exists m. by rewrite Hm.
Qed.

Lemma open_queue f s : working f -> stage_inv Open s -> stage_inv Open (queue_io f s).
Proof.
  intros Hf (Hst & Hm & Hw & Ht & Hb). split_and!; try done.
  change (io (queue_io f s)) with (push f (io s)). rewrite todo_push.
  apply Forall_app. split; [done | by repeat constructor].
Qed.

Lemma open_writing w s :
  stage_inv Open s -> stage_inv Open (set_watch (mkWatch true w true true) s).
Proof. intros (? & ? & _ & ? & ?). split_and!; try done. by exists w. Qed.

Lemma sendInLoop_users o s :
  users (sendInLoop c o s) = users s /\ closeCallback (sendInLoop c o s) = closeCallback s.
Proof.
  unfold sendInLoop. case_bool_decide; [done|]. destruct (writing (watch s)); [done|].
  by destruct o as [[]|[]|].
Qed.

Lemma send_open o s : stage_inv Open s -> stage_inv Open (sendInLoop c o s) /\ kept s (sendInLoop c o s).
Proof.
  intros Hg. unfold sendInLoop. case_bool_decide; [done|]. destruct (writing (watch s)); [done|].
  assert (Hw := Hg). destruct Hw as (_ & _ & [w Hw] & _).
  destruct o as [[]|[]|]; cbn -[stage_inv]; try done; rewrite ?Hw; cbn -[stage_inv].
  - split; [by apply open_queue | done].
  - split; [by apply open_writing, open_queue | done].
  - split; [by apply open_writing | done].
Qed.

Lemma open_state st s :
  st = kConnected \/ st = kDisconnecting -> stage_inv Open s -> stage_inv Open (set_state st s).
Proof. intros Hst (_ & ? & ? & ? & ?). by split_and!. Qed.

(** Copies come and go. *)
Lemma spare_le m n s : (m <= n)%nat -> spare n s -> spare m s.
Proof. intros Hle Hn Hc. specialize (Hn Hc). lia. Qed.

Lemma open_users n s : stage_inv Open s -> spare 0 (set_users n s) -> stage_inv Open (set_users n s).
Proof.
  intros (? & [Ho _] & ? & ? & ?) Hn. by repeat split.
Qed.

Lemma act_open a acts s :
  stage_inv Open s -> polite_act a = true -> spare (drops (a :: acts)) s ->
  stage_inv Open (act_step c s a) /\ kept s (act_step c s a) /\ spare (drops acts) (act_step c s a).
Proof.
  intros Hg Ha Hsp. assert (Hst := Hg). destruct Hst as [Hst _].
  assert (Hqueue : forall f, working f -> stage_inv Open (queue_io f s)) by (intros; by apply open_queue).
  destruct a; try done; cbn -[stage_inv].
  - case_bool_decide; [|done]. destruct (send_open o s Hg) as [? Hk]. split_and!; try done.
    unfold spare. destruct (sendInLoop_users o s) as [-> ->]. exact Hsp.
  - case_bool_decide; [|done]. split_and!; try done. apply open_state; [by right | done].
  - unfold forceClose. case_bool_decide; [|done]. split_and!; try done.
    apply open_queue; [done|]. apply open_state; [by right | done].
  - split_and!; try done; [apply open_users; [done|]|]; intros Hc; specialize (Hsp Hc); cbn in *; lia.
  - case_bool_decide; [|].
    + split_and!; try done; [apply open_users; [done|]|]; intros Hc; specialize (Hsp Hc); cbn in *; lia.
    + split_and!; try done. eapply spare_le; [|exact Hsp]. cbn. lia.
Qed.

Lemma callback_open acts s :
  stage_inv Open s -> forallb polite_act acts = true -> spare (drops acts) s ->
  stage_inv Open (callback c acts s) /\ kept s (callback c acts s).
Proof.
  revert s. induction acts as [|a acts IH]; intros s Hg Hp Hsp; [done|].
  change (callback c (a :: acts) s) with (callback c acts (act_step c s a)). cbn [forallb] in Hp.
  apply andb_true_iff in Hp as [Ha Hp].
  destruct (act_open a acts s Hg Ha Hsp) as (Hg1 & (? & ? & ?) & Hsp1).
  destruct (IH _ Hg1 Hp Hsp1) as [Hg2 (? & ? & ?)]. split; [done|]. split_and!; congruence.
Qed.

(** *** Closing, tasks and events *)
Lemma assertion_ok b s : b = true -> assertion b s = Ok s.
Proof. intros ->. unfold assertion. by destruct NDEBUG. Qed.

Lemma kept_trans s1 s2 s3 : kept s1 s2 -> kept s2 s3 -> kept s1 s3.
Proof. intros (? & ? & ?) (? & ? & ?). split_and!; congruence. Qed.

(** A server hears of the close in its own loop, a client at once. *)
Lemma call_close_ok s :
  state s = kDisconnected -> watch s = mkWatch false false false true -> answers s ->
  Forall working (todo (io s)) -> todo (base s) = [] ->
  exists g s', call_close c s = Ok s' /\ stage_inv g s' /\ g <> Gone /\ kept s s'.
Proof.
  intros Hst Hw Ho Ht Hb. unfold call_close, server_removeConnection, client_removeConnection.
  assert (Hleave : stage_inv Leaving (queue_io (TcpConnection_connectDestroyed c) (set_in_map false s))).
  { split_and!; try done. exists (todo (io s)). split; [done|].
    cbn [queue_io io set_io set_in_map]. by rewrite todo_push. }
  unfold answers in Ho. destruct (closeCallback s) eqn:Hc; [| | |done].
  - destruct Ho as [Hs Hm]. rewrite Hs. cbn [negb].
    destruct (one_loop s); [by eexists Leaving, _|]. eexists Closing, _. split; [done|]. split; [|done].
    split_and!; try done. cbn [queue_base base set_base]. by rewrite todo_push, Hb.
  - destruct Ho as [Hs Hm]. rewrite Hs, assertion_ok by done. by eexists Leaving, _.
  - exists Leaving. eexists. split; [done|]. split; [|done].
    by replace s with (set_in_map false s) by (destruct s; cbn in Ho; by rewrite Ho).
Qed.

Lemma close_open acts s :
  stage_inv Open s -> forallb polite_act acts = true ->
  exists g s', handleClose c acts s = Ok s' /\ stage_inv g s' /\ g <> Gone /\ kept s s'.
Proof.
  intros (Hst & [Ho _] & [w Hw] & Ht & Hb) Hp. unfold handleClose.
  rewrite assertion_ok by (apply bool_decide_eq_true_2; exact Hst).
  destruct (callback_closed acts (set_watch (disableAll (watch s)) (set_state kDisconnected s)))
    as [n ->]; [done | done |]. rewrite Hw. set (s1 := set_users n _).
  destruct (call_close_ok s1) as (g & s' & Hrun & Hg & Hne & Hk); try done. by exists g, s'.
Qed.

(** A task that works, at a connection that is closed, at most runs a callback. *)
Lemma working_quiet f acts o s :
  working f -> state s = kDisconnected -> alive s = true ->
  run_io c f acts o s = Ok s \/ run_io c f acts o s = Ok (callback c acts s).
Proof.
  intros Hf Hs Ha. unfold run_io. rewrite Ha. cbn [negb].
  destruct f; try done; unfold sendInLoop; rewrite ?Hs; by first [by left | by right].
Qed.

Lemma working_closed f acts o s :
  working f -> state s = kDisconnected -> alive s = true -> forallb polite_act acts = true ->
  exists n, run_io c f acts o s = Ok (set_users n s).
Proof.
  intros Hf Hs Ha Hp. destruct (working_quiet f acts o s Hf Hs Ha) as [-> | ->].
  - exists (users s). by destruct s.
  - destruct (callback_closed acts s Hs Hp) as [n ->]. by exists n.
Qed.

(** [forceCloseInLoop] may drop any copy. *)
Definition spare_in (f : Functor) (acts : list act) s : Prop :=
  match f with TcpConnection_forceCloseInLoop _ => True | _ => spare (drops acts) s end.

Lemma working_open f acts o s :
  working f -> stage_inv Open s -> alive s = true -> forallb polite_act acts = true ->
  spare_in f acts s ->
  exists g s', run_io c f acts o s = Ok s' /\ stage_inv g s' /\ g <> Gone /\ kept s s'.
Proof.
  intros Hf Hg Ha Hp Hsp. unfold run_io. rewrite Ha. cbn [negb]. destruct f; try done.
  - destruct (send_open o s Hg). by exists Open, (sendInLoop c o s).
  - by exists Open, s.
  - rewrite bool_decide_eq_true_2 by (destruct Hg as ([|] & _); tauto). by apply close_open.
  - destruct (callback_open acts s Hg Hp Hsp). by exists Open, (callback c acts s).
  - destruct (callback_open acts s Hg Hp Hsp). by exists Open, (callback c acts s).
Qed.

Lemma arriving acts s :
  state s = kConnecting -> answers s -> closeCallback s <> queue_connectDestroyed ->
  watch s = mkWatch false false false true ->
  todo (io s) = [] -> todo (base s) = [] -> forallb polite_act acts = true ->
  exists s', connectEstablished c acts s = Ok s' /\ stage_inv Open s' /\ kept s s'.
Proof.
  intros Hst Ho Hc Hw Ht Hb Hp. unfold connectEstablished.
  rewrite assertion_ok by (apply bool_decide_eq_true_2; exact Hst). rewrite Hw.
  destruct (callback_open acts (set_watch (enableReading (mkWatch false false false true))
    (set_state kConnected s))) as [Hg Hk]; [|done|by intros ?|].
  - repeat split; try done; [by left | by intros ? | by exists false | by cbn; rewrite Ht].
  - eexists. by split_and!.
Qed.

Lemma leaving acts s :
  state s = kDisconnected -> watch s = mkWatch false false false true ->
  connectDestroyed c acts s = Ok s.
Proof.
  intros Hst Hw. unfold connectDestroyed. rewrite Hst. cbn [bool_decide].
  rewrite bool_decide_eq_false_2 by done. rewrite assertion_ok by by rewrite Hw.
  rewrite Hw. cbn. rewrite <- Hw. by destruct s.
Qed.

(** The state after the next task was taken. *)
Lemma use_count_io q s : held q = held (io s) -> use_count (set_io q s) = use_count s.
Proof. unfold use_count. cbn. lia. Qed.

Lemma use_count_base q s : held q = held (base s) -> use_count (set_base q s) = use_count s.
Proof. unfold use_count. cbn. lia. Qed.

Lemma io_task_ok f q acts o s :
  inv s -> next (io s) = Some (f, q) -> forallb polite_act acts = true ->
  (is_open s = true -> spare_in f acts s) ->
  exists s', run_io c f acts o (set_io q s) = Ok s' /\ preserved s s'.
Proof.
  intros Hinv Hn Hp Hsp. apply next_same in Hn as [Ht Hh].
  destruct Hinv as (Hi & Ha & g & Hg). set (s1 := set_io q s).
  assert (Hu : use_count s1 = use_count s) by by apply use_count_io.
  assert (Hne : g <> Gone) by (intros ->; destruct Hg as (_ & _ & _ & Hg & _); congruence).
  assert (Hal : alive s1 = true) by exact (stage_alive g s Ha Hg Hne).
  destruct g; try done; destruct Hg as (Hst & Hm & Hw & Hio & Hb).
  - rewrite Hio in Ht. injection Ht as <- Ht. unfold run_io. rewrite Hal. cbn [negb].
    destruct Hm as (Hc & Hs & Hm).
    destruct (arriving acts s1) as (s' & Hrun & Hg' & Hk); try done.
    { unfold answers. cbn. by rewrite Hc. } { cbn. by rewrite Hc. }
    exists s'. split; [exact Hrun|]. by apply (inv_kept Open s1).
  - rewrite Ht in Hio. apply Forall_cons in Hio as [Hf Hio].
    assert (Hg1 : stage_inv Open s1) by by split_and!.
    destruct (working_open f acts o s1 Hf Hg1 Hal Hp) as (g' & s' & Hrun & Hg' & Hne' & Hk).
    { apply Hsp, bool_decide_eq_true_2, Hst. }
    exists s'. split; [exact Hrun|]. by apply (inv_kept g' s1).
  - rewrite Ht in Hio. apply Forall_cons in Hio as [Hf Hio].
    assert (Hg1 : stage_inv Closing s1) by by split_and!.
    destruct (working_closed f acts o s1 Hf Hst Hal Hp) as [n Hrun].
    exists (set_users n s1). split; [exact Hrun|].
    by apply (inv_kept Closing s1).
  - destruct Hio as (l & Hl & Hio). rewrite Ht in Hio.
    destruct l as [|f' l]; injection Hio as -> Hio.
    + exists s1. unfold run_io. rewrite Hal. cbn [negb]. split; [by apply leaving|]. split; [|done].
      split_and!; [done | unfold alive_ok; by rewrite Hu | by exists Gone].
    + apply Forall_cons in Hl as [Hf Hl].
      assert (Hg1 : stage_inv Leaving s1) by (split_and!; try done; by exists l).
      destruct (working_closed f' acts o s1 Hf Hst Hal Hp) as [n Hrun].
      exists (set_users n s1). split; [exact Hrun|].
      by apply (inv_kept Leaving s1).
Qed.

Lemma stage_io g q s : todo q = todo (io s) -> stage_inv g s -> stage_inv g (set_io q s).
Proof. intros Ht. destruct g; cbn; by rewrite Ht. Qed.

Lemma stage_base g q s : todo q = todo (base s) -> stage_inv g s -> stage_inv g (set_base q s).
Proof. intros Ht. destruct g; cbn; by rewrite Ht. Qed.

Lemma base_task_ok f q s :
  inv s -> next (base s) = Some (f, q) ->
  exists s', run_base c f (set_base q s) = Ok s' /\ preserved s s'.
Proof.
  intros (Hi & Ha & g & Hg) Hn. apply next_same in Hn as [Ht _].
  destruct g; destruct Hg as (Hst & Hm & Hw & Hio & Hb); try congruence.
  assert (Hal : alive s = true) by by apply (stage_alive Closing).
  rewrite Hb in Ht. injection Ht as <- Ht. unfold run_base. cbn [set_base owner alive].
  destruct Hm as (Hc & Hs & Hm).
  rewrite Hs, Hal. cbn [negb orb]. eexists. split; [done|].
  apply (inv_kept Leaving s); try done. split_and!; try done.
  exists (todo (io s)). split; [done|]. unfold removeConnectionInLoop, queue_io. cbn [set_io io set_in_map set_base].
  by rewrite todo_push.
Qed.

(** Dropping pointers. *)
Lemma release_callback s : closeCallback (release s) = closeCallback s.
Proof. unfold release. by case_bool_decide. Qed.

Lemma inv_release_alive g s :
  inflight s = [] -> (use_count s <> 0%nat -> alive s = true) -> stage_inv g s -> inv (release s).
Proof.
  intros Hi Hal Hg. unfold release. case_bool_decide as H0.
  - split_and!; try done; [|by exists g]. unfold alive_ok. rewrite bool_decide_eq_false_2; [done|].
    change (use_count (set_alive false s)) with (use_count s). lia.
  - split_and!; try done; [|by exists g]. apply alive_ok_true; [done|]. by apply Hal.
Qed.

Lemma inv_release g s0 s :
  alive_ok s0 -> inflight s = [] -> alive s = alive s0 ->
  (use_count s <= use_count s0)%nat -> stage_inv g s -> inv (release s).
Proof.
  intros Ha Hi Hal Hu Hg. apply (inv_release_alive g); [done | | done].
  intros H0. rewrite Hal, Ha. apply bool_decide_eq_true_2. lia.
Qed.

Lemma write_open drained notify s :
  stage_inv Open s -> stage_inv Open (handleWrite c drained notify s) /\
    kept s (handleWrite c drained notify s).
Proof.
  intros Hg. unfold handleWrite. destruct (writing (watch s) && drained); [|done].
  assert (Hg1 : stage_inv Open (set_watch (disableWriting (watch s)) s)).
  { assert (Hw := Hg). destruct Hw as (_ & _ & [w ->] & _). by apply open_writing. }
  destruct notify; [|done]. split; [by apply open_queue | done].
Qed.

(** The condition of [considerate] on an open connection. *)
Definition spared (e : event) s : Prop := is_open s = true -> closeCallback s = queue_connectDestroyed ->
  keeps_one e s = true.

Lemma considerate_spared e s :
  considerate e s = true -> (exists acts, e = Server_dtor acts) \/ polite e = true /\ spared e s.
Proof.
  intros Hc. destruct e; try (right; apply andb_true_iff in Hc as [Hp Hc]; split; [exact Hp|]; intros Ho Hcb;
    by rewrite Ho, Hcb in Hc). left. by eexists.
Qed.

(** Only an open connection has events. *)
Lemma event_ok e s :
  inv s -> considerate (Io_event e) s = true -> possible e s = true ->
  exists s', run_event c e s = Ok s' /\ preserved s s'.
Proof.
  intros (Hi & Ha & g & Hg) [[? ?]|[Hp Hsp]]%considerate_spared Hpos; [done|]. assert (g = Open) as ->.
  { unfold possible in Hpos. apply andb_true_iff in Hpos as [Hpos _].
    destruct g; [| done | | |]; destruct Hg as (_ & _ & Hw & _); by rewrite Hw in Hpos. }
  assert (Hal : alive s = true) by by apply (stage_alive Open).
  unfold run_event. rewrite Hal. cbn [negb].
  assert (exists g s', match e with
    | EMessage acts => Ok (callback c acts s) | EClose acts => handleClose c acts s
    | EWrite drained notify => Ok (handleWrite c drained notify s) | EError => Ok s
    end = Ok s' /\ stage_inv g s' /\ g <> Gone /\ kept s s') as (g & s' & -> & Hg' & Hne & Hk).
  { destruct e as [acts|acts|drained notify|].
    - destruct (callback_open acts s Hg Hp); [|by exists Open, (callback c acts s)].
      intros Hc. apply (bool_decide_eq_true_1 (drops acts < users s)%nat), Hsp, Hc.
      apply bool_decide_eq_true_2. by destruct Hg.
    - by apply close_open.
    - destruct (write_open drained notify s Hg). by exists Open, (handleWrite c drained notify s).
    - by exists Open, s. }
  rewrite bool_decide_eq_false_2 by by eapply stage_owned.
  exists s'. split; [done|]. by apply (inv_kept g s).
Qed.

Lemma call_ok k s :
  inv s -> polite (Call k) = true -> admitted k s = true -> preserved s (commit c k s).
Proof.
  intros (Hi & Ha & g & Hg) Hp Had.
  assert (Hopen : state s = kConnected \/ state s = kDisconnecting).
  { destruct k; cbn in Had; try done; apply bool_decide_eq_true_1 in Had; tauto. }
  assert (g = Open) as ->.
  { destruct g; [| done | | |]; destruct Hg as (Hst & _); rewrite Hst in Hopen; by destruct Hopen. }
  assert (Hal : alive s = true) by by apply (stage_alive Open).
  assert (Hd : stage_inv Open (set_state kDisconnecting s)) by (apply open_state; [by right | done]).
  apply (inv_kept Open s); try done; destruct k; try done; by apply open_queue.
Qed.

(** The user drops a copy. *)
Lemma drop_ok s :
  inv s -> spared Drop s -> preserved s (release (set_users (pred (users s)) s)).
Proof.
  intros (Hi & Ha & g & Hg) Hsp.
  split; [|unfold release; by case_bool_decide].
  apply (inv_release g s); try done; [unfold use_count; cbn; lia|].
  destruct g; try done. apply open_users; [done|]. intros Hc. cbn.
  assert (1 < users s)%nat; [|lia].
  apply (bool_decide_eq_true_1 (1 < users s)%nat), Hsp; [|done]. apply bool_decide_eq_true_2. by destruct Hg.
Qed.

(** The destructor of the client, in the thread of the loop. *)
Lemma client_dtor_ok s :
  inv s -> of_client s = true -> considerate Client_dtor s = true -> inv (TcpClient_dtor c true s).
Proof.
  intros (Hi & Ha & g & Hg) Hc%bool_decide_eq_true_1 Hcon. unfold TcpClient_dtor.
  destruct (in_map (set_owner false s)) eqn:Hm; cbn [set_owner in_map] in Hm.
  - assert (g = Open) as ->.
    { destruct g; [| done | | |]; destruct Hg as (_ & Hg & _); try congruence; destruct Hg; congruence. }
    assert (Hu : (0 < users s)%nat).
    { cbn in Hcon. unfold is_open in Hcon. rewrite bool_decide_eq_true_2 in Hcon by by destruct Hg.
      rewrite Hc in Hcon. by apply bool_decide_eq_true_1 in Hcon. }
    apply (inv_release Open s); try done; [unfold use_count; cbn; lia|].
    destruct Hg as (? & _ & ? & ? & ?). split_and!; [done| |done..]. split; [done | by intros ?].
  - split_and!; [done | exact Ha|]. exists g.
    destruct g; destruct Hg as (Hst & Hg & Hrest); [by destruct Hg; congruence | | by destruct Hg; congruence | done | done].
    destruct Hg as [Hg _]. unfold answers in Hg. rewrite Hc in Hg. destruct Hg. congruence.
Qed.

(** The destructor of a server that lives on the loop of an idle connection, or
    that the connection has left. *)
Lemma server_dtor_ok acts s :
  inv s -> of_server s = true -> considerate (Server_dtor acts) s = true ->
  exists s', TcpServer_dtor c acts s = Ok s' /\ preserved s s'.
Proof.
  intros (Hi & Ha & g & Hg) Hc%bool_decide_eq_true_1 [Hp Hcon]%andb_true_iff. unfold TcpServer_dtor.
  cbn [in_map set_owner one_loop set_in_map]. destruct (in_map s) eqn:Hm; cbn [negb orb] in Hcon.
  - apply andb_true_iff in Hcon as [[Hone Hst]%andb_true_iff Hio].
    apply bool_decide_eq_true_1 in Hst, Hio.
    assert (g = Open) as -> by (destruct g; [| done | | |]; destruct Hg as (Hg & _); congruence).
    assert (Hal : alive s = true) by by apply (stage_alive Open).
    destruct Hg as (_ & _ & [w Hw] & _ & Hb). rewrite Hone. unfold connectDestroyed.
    cbn [state set_in_map set_owner]. rewrite bool_decide_eq_true_2 by done. cbn [watch set_in_map set_owner].
    rewrite Hw. destruct (callback_closed acts (set_watch (disableAll (mkWatch true w true true))
      (set_state kDisconnected (set_in_map false (set_owner false s))))) as [n ->]; [done | done |].
    rewrite assertion_ok by done. eexists. split; [done|]. split; [|by rewrite release_callback].
    apply (inv_release_alive Gone); [done | by intros _ | by split_and!].
  - eexists. split; [done|]. split; [|done]. split_and!; [done | exact Ha|]. exists g.
    destruct g; destruct Hg as (Hst & Hg & Hrest);
      [by destruct Hg as (? & ? & ?); congruence | | by destruct Hg as (? & ? & ?); congruence | done | done].
    destruct Hg as [Hg _]. unfold answers in Hg. rewrite Hc in Hg. destruct Hg. congruence.
Qed.

Lemma io_swap_ok q s : inv s -> swap (io s) = Some q -> preserved s (set_io q s).
Proof.
  intros (Hi & Ha & g & Hg) [Ht Hh]%swap_same. split; [|done]. split_and!; try done.
  - unfold alive_ok. by rewrite use_count_io.
  - exists g. by apply stage_io.
Qed.

Lemma base_swap_ok q s : inv s -> swap (base s) = Some q -> preserved s (set_base q s).
Proof.
  intros (Hi & Ha & g & Hg) [Ht Hh]%swap_same. split; [|done]. split_and!; try done.
  - unfold alive_ok. by rewrite use_count_base.
  - exists g. by apply stage_base.
Qed.

Lemma io_end_ok q s : inv s -> finish (io s) = Some q -> preserved s (release (set_io q s)).
Proof.
  intros (Hi & Ha & g & Hg) [Ht Hh]%finish_same. split; [|by rewrite release_callback].
  apply (inv_release g s); try done; [unfold use_count; cbn; lia | by apply stage_io].
Qed.

Lemma base_end_ok q s : inv s -> finish (base s) = Some q -> preserved s (release (set_base q s)).
Proof.
  intros (Hi & Ha & g & Hg) [Ht Hh]%finish_same. split; [|by rewrite release_callback].
  apply (inv_release g s); try done; [unfold use_count; cbn; lia | by apply stage_base].
Qed.

(** What the task of an [Io_task] may drop. *)
Lemma task_spare f q acts o s :
  next (io s) = Some (f, q) -> spared (Io_task acts o) s -> is_open s = true -> spare_in f acts s.
Proof.
  intros Hn Hsp Ho. unfold spared, keeps_one in Hsp. unfold next in Hn.
  destruct (batch (io s)) as [|f' l]; [done|]. injection Hn as -> _.
  destruct f; try done; intros Hc; by apply (bool_decide_eq_true_1 (drops acts < users s)%nat), Hsp.
Qed.

Lemma step_ok e s r :
  inv s -> considerate e s = true -> step c e s = Some r ->
  exists s', r = Ok s' /\ inv s' /\ (e <> Client_dtor -> closeCallback s' = closeCallback s).
Proof.
  intros Hinv Hcon Hr.
  cut ((exists s', r = Ok s' /\ preserved s s') \/ (exists s', r = Ok s' /\ inv s' /\ e = Client_dtor)).
  { intros [(s' & ? & ? & ?)|(s' & ? & ? & ?)]; by exists s'. }
  destruct (considerate_spared e s Hcon) as [[acts ->]|[Hp Hsp]].
  { left. cbn [step] in Hr. destruct (owner s && of_server s) eqn:Hc; [|done]. injection Hr as <-.
    apply andb_true_iff in Hc as [_ Hc]. by apply server_dtor_ok. }
  destruct e as [|acts o| |e| | | |k|k| | | | | |]; try done; cbn [step] in Hr; [left..|right|left].
  - destruct (swap (io s)) as [q|] eqn:Hq; [|done]. injection Hr as <-. eexists. split; [done|]. by apply io_swap_ok.
  - destruct (next (io s)) as [[f q]|] eqn:Hq; [|done]. injection Hr as <-. apply io_task_ok; try done.
    by eapply task_spare.
  - destruct (finish (io s)) as [q|] eqn:Hq; [|done]. injection Hr as <-. eexists. split; [done|]. by apply io_end_ok.
  - destruct (possible e s) eqn:Hpos; [|done]. injection Hr as <-. by apply event_ok.
  - destruct (swap (base s)) as [q|] eqn:Hq; [|done]. injection Hr as <-. eexists. split; [done|]. by apply base_swap_ok.
  - destruct (next (base s)) as [[f q]|] eqn:Hq; [|done]. injection Hr as <-. by apply base_task_ok.
  - destruct (finish (base s)) as [q|] eqn:Hq; [|done]. injection Hr as <-. eexists. split; [done|]. by apply base_end_ok.
  - case_bool_decide; [|done]. injection Hr as <-. eexists. split; [done|].
    destruct (admitted k s) eqn:Had; [by apply call_ok | split; [exact Hinv | done]].
  - case_bool_decide; [|done]. injection Hr as <-. eexists. split; [done|]. by apply drop_ok.
  - destruct (owner s && of_client s) eqn:Hc; [|done]. injection Hr as <-.
    apply andb_true_iff in Hc as [_ Hc]. eexists. split; [done|]. split; [|done]. by apply client_dtor_ok.
  - destruct (owner s && of_client s); [|done]. injection Hr as <-. eexists. split; [done|].
    unfold TcpClient_disconnect. destruct (in_map s && admitted KShutdown s) eqn:Had; [|split; [exact Hinv | done]].
    apply andb_true_iff in Had as [_ Had]. by apply call_ok.
Qed.

Lemma life_init_inv : inv (init c).
Proof. split_and!; try done. by exists Arriving. Qed.

(** A connection on the loop of its owner is open from the start. *)
Lemma here_init_inv cb acts :
  cb = TcpServer_removeConnection \/ cb = TcpClient_removeConnection -> forallb polite_act acts = true ->
  exists s, newConnection_here c cb acts = Ok s /\ inv s.
Proof.
  intros Hcb Hp. unfold newConnection_here. set (s0 := init_here cb).
  destruct (arriving acts s0) as (s & -> & Hg & Hk); try done; try by destruct Hcb as [-> | ->].
  exists s. split; [done|]. by destruct (inv_kept Open s0 s).
Qed.

Lemma run_ok es s r :
  inv s -> all_considerate c es s = true -> run c es s = Some r -> exists s', r = Ok s' /\ inv s'.
Proof.
  revert s. induction es as [|e es IH]; intros s Hinv Hp Hr; cbn in Hp, Hr.
  { injection Hr as <-. by eexists. }
  apply andb_true_iff in Hp as [He Hp].
  destruct (step c e s) as [r'|] eqn:Hs; [|done].
  destruct (step_ok e s r' Hinv He Hs) as (s' & -> & Hinv' & _). by apply (IH s').
Qed.

(** At the connection of a server every polite step is considerate. *)
Lemma server_considerate es s :
  inv s -> closeCallback s = TcpServer_removeConnection -> forallb polite es = true ->
  all_considerate c es s = true.
Proof.
  revert s. induction es as [|e es IH]; intros s Hinv Hc Hp; [done|]. cbn in Hp |- *.
  apply andb_true_iff in Hp as [He Hp].
  assert (Hcon : considerate e s = true)
    by (destruct e; try done; cbn in He |- *; by rewrite ?He, Hc, orb_true_r).
  rewrite Hcon. cbn [andb]. destruct (step c e s) as [r|] eqn:Hs; [|done].
  destruct (step_ok e s r Hinv Hcon Hs) as (s' & -> & Hinv' & Hk). apply IH; try done.
  rewrite Hk; [done|]. intros ->. cbn [step] in Hs. unfold of_client in Hs.
  rewrite Hc, andb_false_r in Hs. done.
Qed.

Lemma server_run_ok es r :
  forallb polite es = true -> run c es (init c) = Some r -> exists s, r = Ok s /\ inv s.
Proof.
  intros Hp. apply run_ok; [exact life_init_inv|]. by apply server_considerate; [exact life_init_inv | |].
Qed.

(** *** Progress *)

(** A callback that neither copies nor drops pointers. *)
Definition idle_act (a : act) : bool :=
  match a with ATake | ADrop | AStartRead | AStopRead => false | _ => true end.

(** The steps that need nobody's goodwill, but that the user lets go. *)
Definition internal (e : event) : bool :=
  match e with
  | Io_swap | Io_end | Base_swap | Base_task | Base_end | Drop => true
  | Io_task acts _ => forallb idle_act acts
  | _ => false
  end.

Definition internal_step s s' : Prop :=
  exists e, internal e = true /\ step c e s = Some (Ok s').

Lemma idle_polite acts : forallb idle_act acts = true -> forallb polite_act acts = true.
Proof. rewrite !forallb_forall. intros H a Ha. specialize (H a Ha). by destruct a. Qed.

Lemma internal_considerate e s :
  internal e = true -> state s = kDisconnected -> considerate e s = true.
Proof.
  intros He Hst. assert (Ho : is_open s = false).
  { apply bool_decide_eq_false_2. rewrite Hst. by intros [|]. }
  destruct e; try done; cbn -[is_open]; rewrite ?Ho; try done. rewrite andb_true_r. by apply idle_polite.
Qed.

Lemma callback_idle acts s :
  state s = kDisconnected -> forallb idle_act acts = true -> callback c acts s = s.
Proof.
  intros Hs. induction acts as [|a acts IH]; intros Hp; [done|]. cbn [forallb] in Hp.
  apply andb_true_iff in Hp as [Ha Hp].
  change (callback c (a :: acts) s) with (callback c acts (act_step c s a)).
  replace (act_step c s a) with s; [by apply IH|].
  destruct a; try done; cbn; unfold forceClose; by rewrite ?Hs.
Qed.

(** What is left to do. *)
Definition load (q : Queue) : Z := 3 * zlen (pending q) + 2 * zlen (batch q) + zlen (ran q).

Definition measure s : Z :=
  load (io s) + load (base s) + 4 * zlen (todo (base s)) + Z.of_nat (users s).

Lemma swap_load q q' : swap q = Some q' -> load q' < load q.
Proof.
  destruct q as [p [|] [|]]; destruct p; cbn; intros; simplify_eq. unfold load, zlen. cbn. lia.
Qed.

Lemma next_load q f q' : next q = Some (f, q') -> load q' = load q - 1.
Proof.
  destruct q as [p [|g b] r]; cbn; intros; simplify_eq. unfold load, zlen. cbn.
  rewrite length_app. cbn. lia.
Qed.

Lemma finish_load q q' : finish q = Some q' -> load q' < load q.
Proof. destruct q as [p [|] [|]]; cbn; intros; simplify_eq. unfold load, zlen. cbn. lia. Qed.

Lemma push_load f q : load (push f q) = load q + 3.
Proof. unfold load, zlen. cbn. rewrite length_app. cbn. lia. Qed.

Lemma life_measure_nonneg s : 0 <= measure s.
Proof. unfold measure, load, zlen. lia. Qed.

Lemma release_same s : measure (release s) = measure s /\ state (release s) = state s.
Proof. unfold release. by case_bool_decide. Qed.

Definition closed s : Prop := inv s /\ state s = kDisconnected.

(** A task of a closed connection changes nothing. *)
Lemma io_task_closed f q acts o s :
  closed s -> next (io s) = Some (f, q) -> forallb idle_act acts = true ->
  run_io c f acts o (set_io q s) = Ok (set_io q s).
Proof.
  intros [(Hi & Ha & g & Hg) Hst] Hn Hp. apply next_same in Hn as [Ht _].
  assert (Hne : g <> Gone) by (intros ->; destruct Hg as (_ & _ & _ & Hg & _); congruence).
  assert (Hal : alive (set_io q s) = true) by exact (stage_alive g s Ha Hg Hne).
  assert (Hw : working f -> run_io c f acts o (set_io q s) = Ok (set_io q s)).
  { intros Hf. destruct (working_quiet f acts o (set_io q s) Hf Hst Hal) as [-> | ->]; [done|].
    by rewrite callback_idle. }
  destruct g; try done.
  - destruct Hg as (Hg & _). congruence.
  - destruct Hg as ([|] & _); congruence.
  - destruct Hg as (_ & _ & _ & Hio & _). rewrite Ht in Hio. apply Forall_cons in Hio as [Hf _]. by apply Hw.
  - destruct Hg as (_ & _ & Hwt & (l & Hl & Hio) & _). rewrite Ht in Hio.
    destruct l as [|f' l]; injection Hio as -> _.
    + unfold run_io. rewrite Hal. by apply leaving.
    + apply Forall_cons in Hl as [Hf _]. by apply Hw.
Qed.

(** The task of the server's loop. *)
Lemma base_task_closed f q s s' :
  closed s -> next (base s) = Some (f, q) -> run_base c f (set_base q s) = Ok s' ->
  state s' = kDisconnected /\ measure s' = measure s - 2.
Proof.
  intros [(Hi & Ha & g & Hg) Hst] Hn Hrun. pose proof (next_load _ _ _ Hn) as Hl.
  apply next_same in Hn as [Ht _].
  destruct g; destruct Hg as (Hst' & _ & _ & _ & Hb); try congruence.
  assert (Htq : todo q = []) by congruence.
  assert (f = TcpServer_removeConnectionInLoop c) as -> by congruence.
  unfold run_base in Hrun. destruct (negb _ || negb _); [done|]. injection Hrun as <-.
  split; [done|]. unfold measure, removeConnectionInLoop, queue_io. cbn -[load push todo].
  rewrite push_load, Hl, Htq, Hb. unfold zlen. cbn. lia.
Qed.

Lemma internal_closed s s' :
  closed s -> internal_step s s' -> closed s' /\ 0 <= measure s' < measure s.
Proof.
  intros Hc (e & He & Hstep). assert (Hc' := Hc). destruct Hc' as [Hinv Hst].
  destruct (step_ok e s _ Hinv (internal_considerate e s He Hst) Hstep) as (s2 & [= <-] & Hinv' & _).
  cut (state s' = kDisconnected /\ measure s' < measure s).
  { intros [Hst' Hm]. pose proof (life_measure_nonneg s'). by split. }
  destruct e as [|acts o| |e| | | |k|k| | | | | |]; try done; cbn [step] in Hstep.
  - destruct (swap (io s)) as [q|] eqn:Hq; [|done]. injection Hstep as <-.
    apply swap_load in Hq. split; [done|]. unfold measure. cbn -[load]. lia.
  - destruct (next (io s)) as [[f q]|] eqn:Hq; [|done]. injection Hstep as Hrun.
    change (run_io c f acts o (set_io q s) = Ok s') in Hrun.
    rewrite (io_task_closed f q acts o s Hc Hq He) in Hrun. injection Hrun as <-.
    apply next_load in Hq. split; [done|]. unfold measure. cbn -[load]. lia.
  - destruct (finish (io s)) as [q|] eqn:Hq; [|done]. injection Hstep as <-.
    destruct (release_same (set_io q s)) as [-> ->]. apply finish_load in Hq.
    split; [done|]. unfold measure. cbn -[load]. lia.
  - destruct (swap (base s)) as [q|] eqn:Hq; [|done]. injection Hstep as <-.
    destruct (swap_same _ _ Hq) as [Ht _]. apply swap_load in Hq. split; [done|].
    unfold measure. cbn -[load todo]. rewrite Ht. lia.
  - destruct (next (base s)) as [[f q]|] eqn:Hq; [|done]. injection Hstep as Hrun.
    destruct (base_task_closed f q s s' Hc Hq Hrun). split; [done | lia].
  - destruct (finish (base s)) as [q|] eqn:Hq; [|done]. injection Hstep as <-.
    destruct (release_same (set_base q s)) as [-> ->]. destruct (finish_same _ _ Hq) as [Ht _].
    apply finish_load in Hq. split; [done|]. unfold measure. cbn -[load todo]. rewrite Ht. lia.
  - case_bool_decide; [|done]. injection Hstep as <-.
    destruct (release_same (set_users (pred (users s)) s)) as [-> ->].
    split; [done|]. unfold measure. cbn -[load]. lia.
Qed.

(** A loop that holds something moves. *)
Lemma queue_moves q :
  todo q <> [] \/ held q <> 0%nat ->
  (exists x, next q = Some x) \/ (exists q', swap q = Some q') \/ (exists q', finish q = Some q').
Proof.
  destruct q as [p [|f b] [|g r]]; unfold next, swap, finish; cbn; eauto.
  destruct p; cbn; eauto. by intros [|].
Qed.

Lemma closed_moves s : closed s -> alive s = true -> exists s', internal_step s s'.
Proof.
  intros [Hinv Hst] Hal. assert (Hinv' := Hinv). destruct Hinv' as (Hi & Ha & g & Hg).
  assert (Hgo : forall e, internal e = true -> is_Some (step c e s) -> exists s', internal_step s s').
  { intros e He [r Hr]. destruct (step_ok e s r Hinv (internal_considerate e s He Hst) Hr) as (s' & -> & _).
    by exists s', e. }
  rewrite Ha in Hal. apply bool_decide_eq_true_1 in Hal.
  destruct (decide (users s = 0%nat)) as [Hu|Hu].
  2:{ apply (Hgo Drop); [done|]. cbn. rewrite Hi. cbn. rewrite bool_decide_eq_true_2 by lia. by eexists. }
  assert (Hq : (todo (io s) <> [] \/ held (io s) <> 0%nat) \/
               (todo (base s) <> [] \/ held (base s) <> 0%nat)).
  { destruct (in_map s) eqn:Hm.
    - destruct g; destruct Hg as (? & Hm' & _ & _ & Hb); try congruence; [|].
      + by destruct H; congruence.
      + right. left. by rewrite Hb.
    - unfold use_count in Hal. rewrite Hm, Hu in Hal. destruct (decide (held (io s) = 0%nat)).
      + right. right. lia.
      + by left; right. }
  destruct Hq as [Hq|Hq]; apply queue_moves in Hq as [[[f q] Hq]|[[q Hq]|[q Hq]]].
  - apply (Hgo (Io_task [] OFault)); [done|]. cbn. rewrite Hq. by eexists.
  - apply (Hgo Io_swap); [done|]. cbn. rewrite Hq. by eexists.
  - apply (Hgo Io_end); [done|]. cbn. rewrite Hq. by eexists.
  - apply (Hgo Base_task); [done|]. cbn. rewrite Hq. by eexists.
  - apply (Hgo Base_swap); [done|]. cbn. rewrite Hq. by eexists.
  - apply (Hgo Base_end); [done|]. cbn. rewrite Hq. by eexists.
Qed.

(** *** What the invariant means *)

(** The last pointer goes with everything that used the connection. *)
Definition deleted_last s : Prop :=
  (alive s = true <-> use_count s <> 0%nat) /\
  (alive s = false ->
     state s = kDisconnected /\ in_map s = false /\ users s = 0%nat /\
     armed (watch s) = false /\ todo (io s) = [] /\ todo (base s) = []).

Lemma inv_deleted_last s : inv s -> deleted_last s.
Proof.
  intros (_ & Ha & g & Hg). split; [rewrite Ha; apply bool_decide_eq_true|]. intros Hd.
  rewrite Ha in Hd. apply bool_decide_eq_false_1 in Hd.
  assert (H0 : use_count s = 0%nat) by lia.
  destruct g; try (by destruct Hd; eapply stage_owned).
  destruct Hg as (? & ? & Hw & ? & ?). rewrite Hw. split_and!; try done.
  unfold use_count in H0. lia.
Qed.

Lemma closed_inevitable s : closed s -> inevitable internal_step (fun s' => alive s' = false) s.
Proof.
  apply (inevitable_measure _ _ closed measure).
  intros a Ha. destruct (alive a) eqn:Hal; [right | by left].
  split; [by apply closed_moves | intros b]. by apply internal_closed.
Qed.
End invariant.

(** ** Properties *)
Section properties.
Context {B : Build} (c : conn).
Implicit Types s : Life.

(** C1. In every interleaving of the two loops and of the threads of the user, as
    long as calls of other threads are not split, nobody calls [startRead] or
    [stopRead] and the server lives: no task, no event and no call touches a
    deleted connection, although the tasks of [send] and [shutdown] and the
    channel hold a raw [this].  The connection is deleted exactly when its last
    shared pointer goes; by then it is closed, out of the map and of the poller,
    and no task waits for it. *)
Theorem connection_outlives_its_uses es r :
  forallb polite es = true -> run c es (init c) = Some r ->
  exists s, r = Ok s /\ deleted_last s.
Proof.
  intros Hp Hr. destruct (server_run_ok c es r Hp Hr) as (s & -> & Hinv).
  exists s. split; [done|]. by apply inv_deleted_last with c.
Qed.

(** C2. A connection that has been closed is deleted in the end: whatever the
    order of the steps of the two loops, and whatever callbacks run, provided the
    user drops its copies, the last pointer goes. *)
Theorem closed_connection_deleted es s :
  forallb polite es = true -> run c es (init c) = Some (Ok s) -> state s = kDisconnected ->
  inevitable (internal_step c) (fun s' => alive s' = false) s.
Proof.
  intros Hp Hr Hst. destruct (server_run_ok c es _ Hp Hr) as (s' & [= <-] & Hinv).
  by apply closed_inevitable.
Qed.

(** C3. A connection on the loop of its owner, a client or a server without
    threads, is safe too, in every interleaving of the loop and of the threads of
    the user from [newConnection] on.  The owner may be destroyed: a client in the
    thread of the loop if the user keeps a copy of an open connection, a server
    when the connection has left it or is connected with no task waiting.  No step
    touches a deleted connection or a deleted owner, no assertion fails, the last
    pointer goes when nothing else is left of the connection, and once it is closed
    the last pointer goes in the end. *)
Theorem local_connection_outlives_its_uses cb acts es r :
  cb = TcpServer_removeConnection \/ cb = TcpClient_removeConnection -> forallb polite_act acts = true ->
  exists s0, newConnection_here c cb acts = Ok s0 /\
    (all_considerate c es s0 = true -> run c es s0 = Some r ->
     exists s, r = Ok s /\ deleted_last s /\
       (state s = kDisconnected ->
          inevitable (internal_step c) (fun s' => alive s' = false) s)).
Proof.
  intros Hcb Hp. destruct (here_init_inv c cb acts Hcb Hp) as (s0 & Hs0 & Hinv0).
  exists s0. split; [exact Hs0|]. intros Hcon Hr.
  destruct (run_ok c es s0 r Hinv0 Hcon Hr) as (s & -> & Hinv). exists s. split; [done|].
  split; [by apply inv_deleted_last with c | intros Hst; by apply closed_inevitable].
Qed.
End properties.

(** ** What the assumptions are for *)

(** The connection is established and the user copies the pointer. *)
Definition up : list event := [Io_swap; Io_task [ATake] OFault; Io_end].

(** The peer closes, and both loops do what follows. *)
Definition peer_closes : list event :=
  [Io_event (EClose []); Base_swap; Base_task; Base_end; Io_swap; Io_task [] OFault; Io_end].

Section races.
Context (c : conn).
#[local] Existing Instance release_build.

(** A thread tests [state_] in [send]; the connection closes; the thread queues
    its task and drops its pointer, the last one: the task runs on a deleted
    connection. *)
Lemma send_race :
  run c (up ++ [Test (KSend 1 4)] ++ peer_closes ++ [Commit; Drop; Io_swap; Io_task [] OFault]) (init c) =
    Some (Err UseAfterFree).
Proof. reflexivity. Qed.

(** [shutdown] of another thread writes [kDisconnecting] over [kDisconnected]:
    the connection can be closed a second time, and the server is told twice. *)
Lemma shutdown_race :
  exists s, run c (up ++ [Test KShutdown; Io_event (EClose []); Commit; Call KForceClose; Io_swap;
                          Io_task [] OFault; Io_task [] OFault]) (init c) = Some (Ok s) /\
    todo (base s) = [TcpServer_removeConnectionInLoop c; TcpServer_removeConnectionInLoop c].
Proof. eexists. split; [vm_compute; reflexivity | done]. Qed.

(** [startRead] of another thread, on a connection that is closed before the task
    runs, watches the channel again; the next event closes it a second time. *)
Lemma startRead_race :
  exists s, run c (up ++ [Call KStartRead; Io_event (EClose []); Io_swap; Io_task [] OFault]) (init c) =
      Some (Ok s) /\ state s = kDisconnected /\ armed (watch s) = true /\
    run (B:=debug_build) c [Io_event (EClose [])] s = Some (Err AssertFailed).
Proof. eexists. split; [vm_compute; reflexivity|]. by split_and!. Qed.

(** On a connection that has left the poller, [startRead] puts its channel back:
    when the pointer goes the poller is left with a deleted channel. *)
Lemma startRead_dangles :
  run c (up ++ peer_closes ++ [Call KStartRead; Io_swap; Io_task [] OFault; Io_end; Drop;
                               Io_event EError]) (init c) = Some (Err UseAfterFree).
Proof. reflexivity. Qed.

(** [stopRead] disarms the channel; closing it then arms it with an empty mask,
    and a hang-up closes the connection a second time. *)
Lemma stopRead_rearms :
  exists s, run c (up ++ [Call KStopRead; Io_swap; Io_task [] OFault; Io_end; Call KForceClose;
                          Io_swap; Io_task [] OFault]) (init c) = Some (Ok s) /\
    watch s = mkWatch false false true false /\
    run (B:=debug_build) c [Io_event (EClose [])] s = Some (Err AssertFailed).
Proof. eexists. split; [vm_compute; reflexivity|]. by split_and!. Qed.

(** The destructor of the server queues [connectDestroyed] of an open connection:
    a [send] queued behind it runs after the deletion. *)
Lemma dtor_then_send :
  run c (up ++ [Server_dtor []; Call (KSend 1 4); Drop; Io_swap; Io_task [] OFault; Io_task [] OFault; Io_end])
    (init c) = Some (Ok (mkLife kDisconnected false false false TcpServer_removeConnection false
                           (mkWatch false false false true)
                           (mkQueue [] [] []) (mkQueue [] [] []) 0 [])) /\
  run c (up ++ [Server_dtor []; Io_swap; Call (KSend 1 4); Drop; Io_task [] OFault; Io_end; Io_swap;
                Io_task [] OFault]) (init c) = Some (Err UseAfterFree).
Proof. by split. Qed.

(** A close after the destructor of the server calls it. *)
Lemma dtor_then_close :
  run c (up ++ [Server_dtor []; Io_event (EClose [])]) (init c) = Some (Err UseAfterFree).
Proof. reflexivity. Qed.

(** The destructor of a client leaves an open connection to the copies of the
    user: it is deleted with the last one, at once or later, and the poller is left
    with its channel. *)
Lemma client_dtor_dangles :
  exists s0 s, newConnection_here c TcpClient_removeConnection [] = Ok s0 /\ run c [Client_dtor] s0 = Some (Ok s) /\
    alive s = false /\ state s = kConnected /\ armed (watch s) = true /\
    run c [Io_event (EClose [])] s = Some (Err UseAfterFree).
Proof. do 2 eexists. split; [reflexivity|]. split; [vm_compute; reflexivity|]. by split_and!. Qed.

Lemma client_drop_dangles :
  exists s0 s, newConnection_here c TcpClient_removeConnection [ATake] = Ok s0 /\ run c [Client_dtor; Drop] s0 = Some (Ok s) /\
    alive s = false /\ state s = kConnected /\ armed (watch s) = true.
Proof. do 2 eexists. split; [reflexivity|]. split; [vm_compute; reflexivity|]. by split_and!. Qed.

(** In another thread it queues [setCloseCallback]: a close before that task calls
    the client that is gone. *)
Lemma client_dtor_race :
  exists s0, newConnection_here c TcpClient_removeConnection [] = Ok s0 /\
    run c [Client_dtor_elsewhere; Io_event (EClose [])] s0 = Some (Err UseAfterFree).
Proof. eexists. by split. Qed.

(** A server on the loop of the connection destroys it at once: a task that waits
    runs on the deleted connection, and one that is shutting down fails the
    assertion of [Channel::remove]. *)
Lemma here_dtor_then_send :
  exists s0, newConnection_here c TcpServer_removeConnection [ATake] = Ok s0 /\
    run c [Call (KSend 1 4); Server_dtor []; Drop; Io_swap; Io_task [] OFault] s0 = Some (Err UseAfterFree).
Proof. eexists. by split. Qed.

Lemma here_dtor_disconnecting :
  exists s0, newConnection_here c TcpServer_removeConnection [ATake] = Ok s0 /\
    run (B:=debug_build) c [Call KShutdown; Server_dtor []] s0 = Some (Err AssertFailed).
Proof. eexists. by split. Qed.
End races.

(** ** Witnesses *)

(** A whole life: two sends and a close. *)
Definition whole_life : list event :=
  up ++ [Call (KSend 1 4); Io_event (EMessage [ASend (OAll true)]); Io_event (EClose [ADrop]); Io_swap;
         Io_task [] OFault; Io_task [] OFault; Io_end; Base_swap; Base_task; Base_end; Io_swap;
         Io_task [] OFault].

(** The end of it, with the last task still holding a pointer or not. *)
Definition life_end (last : list Functor) : Life :=
  mkLife kDisconnected (bool_decide (last <> [])) false true TcpServer_removeConnection false (mkWatch false false false true)
    (mkQueue [] [] last) (mkQueue [] [] []) 0 [].

Lemma whole_life_ends :
  run (B:=debug_build) 1%positive whole_life (init 1%positive) =
    Some (Ok (life_end [TcpConnection_connectDestroyed 1])) /\
  run (B:=debug_build) 1%positive (whole_life ++ [Io_end]) (init 1%positive) = Some (Ok (life_end [])).
Proof. split; by vm_compute. Qed.

Lemma connection_outlives_its_uses_witness :
  forallb polite (whole_life ++ [Io_end]) = true /\
  exists s, Ok (life_end []) = Ok s /\ deleted_last s.
Proof.
  split; [by vm_compute|].
  exact (connection_outlives_its_uses (B:=debug_build) 1%positive (whole_life ++ [Io_end])
    (Ok (life_end [])) ltac:(by vm_compute) (proj2 whole_life_ends)).
Defined.

Lemma closed_connection_deleted_witness :
  inevitable (internal_step (B:=debug_build) 1%positive) (fun s' => alive s' = false)
    (life_end [TcpConnection_connectDestroyed 1]).
Proof.
  exact (closed_connection_deleted (B:=debug_build) 1%positive whole_life _ ltac:(by vm_compute)
    (proj1 whole_life_ends) eq_refl).
Defined.

(** A client is destroyed while the user holds the connection, which then closes
    and is let go. *)
Definition client_life : list event :=
  [Call (KSend 1 4); Client_disconnect; Client_dtor; Io_event (EMessage [AForceClose]); Io_event (EClose [ADrop])].

Definition client_end : Life :=
  mkLife kDisconnected true false false queue_connectDestroyed true (mkWatch false false false true)
    (mkQueue [TcpConnection_sendInLoop 1 1 4; TcpConnection_shutdownInLoop 1; TcpConnection_forceCloseInLoop 1;
              TcpConnection_connectDestroyed 1]
       [] []) (mkQueue [] [] []) 0 [].

Lemma local_connection_outlives_its_uses_witness :
  exists s0, newConnection_here (B:=debug_build) 1%positive TcpClient_removeConnection [ATake] = Ok s0 /\
    all_considerate (B:=debug_build) 1%positive client_life s0 = true /\
    run (B:=debug_build) 1%positive client_life s0 = Some (Ok client_end) /\
    inevitable (internal_step (B:=debug_build) 1%positive) (fun s' => alive s' = false) client_end.
Proof.
  destruct (local_connection_outlives_its_uses (B:=debug_build) 1%positive
    TcpClient_removeConnection [ATake] client_life (Ok client_end) (or_intror eq_refl) eq_refl) as (s0 & Hs0 & Hrun).
  exists s0. split; [exact Hs0|]. vm_compute in Hs0. injection Hs0 as <-.
  assert (Hcon : all_considerate (B:=debug_build) 1%positive client_life
    (mkLife kConnected true true true TcpClient_removeConnection true (mkWatch true false true true)
      (mkQueue [] [] []) (mkQueue [] [] []) 1 []) = true) by by vm_compute.
  split; [exact Hcon|]. split; [by vm_compute|].
  destruct (Hrun Hcon) as (s & [= <-] & _ & Hin); [by vm_compute|]. by apply Hin.
Defined.
