(* ===== verification/Ownership.v ===== *)
(** * Lifetime.v against TcpConnection.v

    The steps of [Lifetime.v] are those of the functions of [TcpConnection.v]:
    [reflects l s c] says that [l] has the state, the close callback, the channel
    and the tasks the connection [c] has in the reactor [s].  Calls of other
    threads, and what the loop does before it runs a callback of the user, preserve
    it. *)

From S2P Require Import Prelude Posix Callbacks Timer Buffer Channel LoopThread Poller EpollPoller Reactor TcpConnection Lifetime.

(** The tasks of connection [c]. *)
Definition about (c : conn) (f : Functor) : bool :=
  match f with
  | TcpConnection_sendInLoop x _ _ | TcpConnection_shutdownInLoop x
  | TcpConnection_forceCloseInLoop x | TcpConnection_startReadInLoop x
  | TcpConnection_stopReadInLoop x | TcpConnection_connectEstablished x
  | TcpConnection_connectDestroyed x | TcpConnection_setCloseCallback x _
  | writeCompleteCallback _ x | highWaterMarkCallback _ x _
  | TcpServer_removeConnectionInLoop x => bool_decide (x = c)
  | _ => false
  end.

(** [Lifetime.v] does not say which callback of the user a task runs. *)
Definition plain (f : Functor) : Functor :=
  match f with
  | writeCompleteCallback _ x => writeCompleteCallback 0 x
  | highWaterMarkCallback _ x _ => highWaterMarkCallback 0 x 0
  | f => f
  end.

Definition tasks_of (c : conn) (l : list Functor) : list Functor :=
  plain <$> filter (fun f => about c f = true) l.

Lemma tasks_of_app c l1 l2 : tasks_of c (l1 ++ l2) = tasks_of c l1 ++ tasks_of c l2.
Proof. unfold tasks_of. by rewrite filter_app, fmap_app. Qed.

Lemma tasks_of_snoc c l f : about c f = true -> tasks_of c (l ++ [f]) = tasks_of c l ++ [plain f].
Proof.
  intros Hf. rewrite tasks_of_app. f_equal. unfold tasks_of. by rewrite filter_cons_True.
Qed.

Lemma about_destroyed c : about c (TcpConnection_connectDestroyed c) = true.
Proof. by apply bool_decide_eq_true_2. Qed.

Lemma about_removal c : about c (TcpServer_removeConnectionInLoop c) = true.
Proof. by apply bool_decide_eq_true_2. Qed.

#[export] Hint Resolve about_destroyed about_removal : core.

Section Ownership.
Context {B : Build} {P K X : Type} `{PollerContract P K} `{!SysCalls K, !Quiet K, !QuietPoller P K}.
Context `{!SocketIOLaws K} `{ConnHeap X} `{!Callbacks P K X}.
Implicit Types s : Reactor P K X.
Implicit Types l : Life.

(** The channel of [cn], on the loop of [s]. *)
Definition reflects_watch (w : Watch) s (cn : TcpConnection) : Prop :=
  exists ch, lget memory_lens s !! channel_ cn = Some ch /\
    reading w = isReading (statics s) ch /\ writing w = isWriting (statics s) ch /\
    armed w = bool_decide (is_Some (watched (poller_ s) !! fd_ ch)) /\
    Lifetime.reading_ w = TcpConnection.reading_ cn.

Definition reflects l s (c : conn) : Prop :=
  exists cn, conn_at s c cn /\ state l = state_ cn /\
    closeCallback_ cn = Some (closeCallback l) /\ reflects_watch (watch l) s cn /\
    pending (io l) = tasks_of c (pendingFunctors_ s).

(** A call of another thread. *)
Definition call_run (c : conn) (k : call) : M (Reactor P K X) unit :=
  match k with
  | KSend data len => send c data len
  | KShutdown => shutdown c
  | KForceClose => TcpConnection.forceClose c
  | KStartRead => startRead c
  | KStopRead => stopRead c
  end.

Lemma reflects_queue l s c f :
  about c f = true -> plain f = f -> poller_inv (poller_ s) -> reflects l s c ->
  reflects (queue_io f l) (queued f s) c.
Proof.
  intros Hf Hplain HI (cn & Hc & Hst & Hcb & (ch & Hch & Hr & Hw & Ha & Hrd) & Hp).
  destruct (queued_same f s) as (Ho & Hpend & Hmem & Hstat & _).
  exists cn. split; [unfold conn_at in *; by rewrite Ho|]. split; [done|]. split; [done|]. split.
  - exists ch. rewrite Hmem, Hstat. split_and!; try done.
    unfold queued. destruct (negb (isInLoopThread s) || callingPendingFunctors_ s); [|done].
    destruct (quiet_law (sys_write (wakeupFd_ s) one_bytes (lget os_lens s)).2 (poller_ s)
      (quiet_write _ _ _) HI) as [_ Hwt].
    change (watched (poller_ (lset os_lens ?k (lset pending_lens ?x s)))) with
      (watched (lset kern_lens k (poller_ s))). by rewrite Hwt.
  - rewrite Hpend, tasks_of_snoc, Hplain by done. cbn. by rewrite Hp.
Qed.

(** What [reflects] depends on. *)
Lemma reflects_moved l s s' c :
  reflects l s c -> lget conns (objs s') = lget conns (objs s) ->
  lget memory_lens s' = lget memory_lens s -> statics s' = statics s ->
  watched (poller_ s') = watched (poller_ s) -> pendingFunctors_ s' = pendingFunctors_ s ->
  reflects l s' c.
Proof.
  intros (cn & Hc & Hst & Hcb & (ch & Hch & Hw) & Hp) Ho Hm Hs Hwt Hpend. exists cn.
  split; [unfold conn_at in *; by rewrite Ho|]. split; [done|]. split; [done|].
  split; [|by rewrite Hpend]. exists ch. by rewrite Hm, Hs, Hwt.
Qed.

(** A connection that has just been built. *)
Lemma reflects_new l s c cn ch :
  conn_at s c cn -> state_ cn = kConnecting -> TcpConnection.reading_ cn = true ->
  lget memory_lens s !! channel_ cn = Some ch -> events_ ch = 0 ->
  watched (poller_ s) !! fd_ ch = None ->
  state l = kConnecting -> watch l = mkWatch false false false true ->
  closeCallback_ cn = Some (closeCallback l) -> pending (io l) = tasks_of c (pendingFunctors_ s) ->
  reflects l s c.
Proof.
  intros Hc Hst Hrd Hch Hev Hwt Hsl Hw Hcb Hp. exists cn. split; [done|]. split; [congruence|].
  split; [done|]. split; [|done]. exists ch. split; [done|]. rewrite Hw, Hwt. unfold isReading, isWriting, has.
  by rewrite Hev.
Qed.

(** Writing [state_] of the connection. *)
Lemma reflects_state l s c cn st :
  conn_at s c cn -> reflects l s c ->
  reflects (set_state st l) (with_conn c (setState st cn) s) c.
Proof.
  intros Hc (cn' & Hc' & _ & Hcb & Hw & Hp). assert (cn' = cn) as -> by (unfold conn_at in *; congruence).
  exists (setState st cn). split; [apply conn_at_with|]. by split_and!.
Qed.

Lemma conn_fun s c cn cn' : conn_at s c cn -> conn_at s c cn' -> cn' = cn.
Proof. unfold conn_at. congruence. Qed.

(** A call of another thread that [state_] admits. *)
Lemma call_admitted c k l s cn :
  isInLoopThread s = false -> poller_inv (poller_ s) -> conn_at s c cn -> reflects l s c ->
  admitted k l = true -> wp (call_run c k) (fun _ s' => reflects (commit c k l) s' c) s.
Proof.
  intros Hin HI Hc Hl Had. assert (Hst : state l = state_ cn).
  { destruct Hl as (cn' & Hc' & Hst & _). by rewrite <- (conn_fun s c cn cn'). }
  assert (Hab : forall f, about c f = true -> plain f = f -> reflects (queue_io f l) (queued f s) c)
    by (intros f Hf Hpl; by apply reflects_queue).
  assert (Hself : bool_decide (c = c) = true) by by apply bool_decide_eq_true_2.
  destruct k; cbn [admitted] in Had; rewrite ?Hst in Had; cbn [call_run commit].
  - unfold send. wp_simp. eapply wp_conn_get; [done|]. rewrite Had. wp_simp.
    apply wp_runInLoop_elsewhere; [done|]. by apply Hab.
  - unfold shutdown. wp_simp. eapply wp_conn_get; [done|]. rewrite Had. wp_simp.
    eapply wp_conn_modify; [done|]. apply wp_runInLoop_elsewhere; [done|].
    apply reflects_queue; [done | done | done | by apply reflects_state].
  - unfold TcpConnection.forceClose. wp_simp. eapply wp_conn_get; [done|].
    replace (bool_decide (state_ cn = kConnected) || bool_decide (state_ cn = kDisconnecting)) with true
      by (symmetry; apply bool_decide_eq_true_1 in Had; apply orb_true_iff; rewrite !bool_decide_eq_true; exact Had).
    wp_simp. eapply wp_conn_modify; [done|]. apply wp_queueInLoop.
    apply reflects_queue; [done | done | done | by apply reflects_state].
  - apply wp_runInLoop_elsewhere; [done|]. by apply Hab.
  - apply wp_runInLoop_elsewhere; [done|]. by apply Hab.
Qed.

(** And one it does not. *)
Lemma call_refused c k l s cn :
  conn_at s c cn -> reflects l s c -> admitted k l = false ->
  wp (call_run c k) (fun _ s' => s' = s) s.
Proof.
  intros Hc (cn' & Hc' & Hst & _) Had. assert (cn' = cn) as -> by by apply (conn_fun s c).
  destruct k; cbn [admitted] in Had; rewrite ?Hst in Had; try done; cbn [call_run].
  - unfold send. wp_simp. eapply wp_conn_get; [done|]. rewrite Had. by wp_simp.
  - unfold shutdown. wp_simp. eapply wp_conn_get; [done|]. rewrite Had. by wp_simp.
  - unfold TcpConnection.forceClose. wp_simp. eapply wp_conn_get; [done|].
    apply bool_decide_eq_false_1 in Had.
    rewrite !bool_decide_eq_false_2 by tauto. by wp_simp.
Qed.

(** ** In the thread of the loop, up to the callback of the user *)

(** A channel that waits for nothing. *)
Lemma reading_none st ch : kNoneEvent st = 0 -> events_ ch = kNoneEvent st ->
  isReading st ch = false /\ isWriting st ch = false.
Proof. intros Hn Hev. unfold isReading, isWriting, has. by rewrite Hev, Hn. Qed.

(** [handleClose] of an armed channel. *)
Lemma close_refines c l s cn ch :
  conn_at s c cn -> registered s (channel_ cn) ch -> kNoneEvent (statics s) = 0 ->
  reflects l s c -> armed (watch l) = true -> state l = kConnected \/ state l = kDisconnecting ->
  exists s2,
    TcpConnection.handleClose c s =
      (call_connection c (connectionCallback_ cn) ;;
       let! cn := conn_get c in TcpConnection.call_close c (closeCallback_ cn)) s2 /\
    reflects (set_watch (Lifetime.disableAll (watch l)) (set_state kDisconnected l)) s2 c.
Proof.
  intros Hc Hreg Hn (cn' & Hc' & Hst & Hcb & (ch' & Hch' & Hr & Hw & Ha & Hrd) & Hp) Harm Hopen.
  assert (cn' = cn) as -> by by apply (conn_fun s c).
  assert (Hch : lget memory_lens s !! channel_ cn = Some ch) by apply Hreg.
  rewrite Hch in Hch'. injection Hch' as <-.
  rewrite Harm in Ha. symmetry in Ha. apply bool_decide_eq_true_1 in Ha. rewrite Hst in Hopen.
  destruct (handleClose_spec c cn ch s Hc Hreg Hopen Ha) as (s2 & ch2 & Hrun & Hc2 & Hreg2 & Hev &
    Hst2 & Hpend & Hwt & _ & _ & Hfd & _ & _).
  exists s2. split; [exact Hrun|]. exists (setState kDisconnected cn).
  split; [done|]. split; [done|]. split; [done|]. split; [|by rewrite Hpend].
  exists ch2. rewrite <- Hst2 in Hev, Hn. destruct (reading_none _ _ Hn Hev) as [-> ->].
  split; [apply Hreg2|]. cbn. rewrite Harm, Hwt, Hfd, lookup_delete_eq. split_and!; try done.
Qed.

(** [connectEstablished] of a channel that is new to the poller. *)
Lemma establish_refines c l s cn ch :
  conn_at s c cn -> watchable s (channel_ cn) ch -> statics s = initDefaultEvent LT ->
  table (self (poller_ s)) !! fd_ ch = None ->
  Z.of_nat (size (table (self (poller_ s)))) + 1 < 2 ^ 31 - 1 -> events_ ch = 0 ->
  reflects l s c -> armed (watch l) = false -> state l = kConnecting ->
  exists s2,
    TcpConnection.connectEstablished c s = call_connection c (connectionCallback_ cn) s2 /\
    reflects (set_watch (Lifetime.enableReading (watch l)) (set_state kConnected l)) s2 c.
Proof.
  intros Hc Hwb HLT Hnew Hsz Hev0 (cn' & Hc' & Hst & Hcb & (ch' & Hch' & Hr & Hw & Ha & Hrd) & Hp) Harm Hcg.
  assert (cn' = cn) as -> by by apply (conn_fun s c).
  assert (Hch : lget memory_lens s !! channel_ cn = Some ch) by apply Hwb.
  rewrite Hch in Hch'. injection Hch' as <-.
  assert (Hev : ev_enableReading (statics s) (events_ ch) = 3) by by rewrite HLT, Hev0.
  destruct (connectEstablished_spec c cn ch s Hc ltac:(congruence) Hwb Hnew Hsz) as (s2 & ch2 & Hrun &
    Hc2 & Hreg2 & Hch2 & Hst2 & Hpend & Hwt & _ & _ & _); [by rewrite Hev, HLT|].
  exists s2. split; [exact Hrun|]. exists (setState kConnected cn).
  split; [done|]. split; [done|]. split; [done|]. split; [|by rewrite Hpend].
  apply (f_equal fd_) in Hch2 as Hfd2. apply (f_equal events_) in Hch2 as Hev2.
  cbn [fd_ events_ set_index interested set_addedToLoop set_events] in Hfd2, Hev2.
  exists ch2. split; [apply Hreg2|]. unfold isReading, isWriting. rewrite Hst2, HLT, Hev2, Hev. cbn.
  rewrite Hw, Harm, Hwt, Hfd2, lookup_insert_eq. unfold isWriting. rewrite HLT, Hev0.
  split_and!; try done.
Qed.

(** C4. The interleaving model is what the code does: in a state that agrees with
    it on the state, the channel and the tasks of a connection, every call of
    another thread ([send], [shutdown], [forceClose], [startRead], [stopRead])
    ends without a fault in a state that agrees with the model after the same
    call, whether [state_] admits the call or not. *)
Theorem calls_refine c k l s cn :
  isInLoopThread s = false -> poller_inv (poller_ s) -> conn_at s c cn -> reflects l s c ->
  wp (call_run c k)
     (fun _ s' => reflects (if admitted k l then commit c k l else l) s' c) s.
Proof.
  intros Hin HI Hc Hl. destruct (admitted k l) eqn:Had; [by eapply call_admitted|].
  eapply wp_mono; [by eapply call_refused|]. by intros [] s' ->.
Qed.
End Ownership.

(** ** Witness: another thread shuts an open connection down *)

#[local] Existing Instances debug_build world_heap world_callbacks.

Definition open_life : Life :=
  mkLife kConnected true true true (user_close 1) false (mkWatch true false true true) (mkQueue [] [] []) (mkQueue [] [] [])
    1 [].

Definition open_world : Reactor EpollPoller sim world := sample_world LT kConnected 3 [] (Script [] [] ∅) 2.

Lemma open_reflects : reflects open_life open_world 1%positive.
Proof.
  exists (sample_conn kConnected []). split; [apply sample_at|]. split; [done|]. split; [done|]. split; [|done].
  exists (sample_channel 3). by split_and!.
Qed.

Lemma calls_refine_witness :
  wp (call_run (B:=debug_build) 1%positive KShutdown)
     (fun _ s' => reflects (commit 1%positive KShutdown open_life) s' 1%positive) open_world.
Proof.
  exact (calls_refine (B:=debug_build) (SysCalls0:=sim_calls) 1%positive KShutdown open_life open_world
    (sample_conn kConnected []) eq_refl
    (proj1 (sample_registered LT kConnected 3 [] (Script [] [] ∅))) (sample_at _ _ _ _ _ _) open_reflects).
Defined.
