(* ===== verification/LoopOwnership.v ===== *)
(** * Lifetime.v against TcpConnection.v, in the thread of the loop

    What callbacks of the user call on their connection, what the tasks of a
    connection do, and its write events, in level-triggered mode: each is a step of
    [Lifetime.v].  [settled] is [reflects] of a channel the poller knows, with what
    a call of the loop needs besides. *)

From S2P Require Import Prelude Posix Callbacks Timer Buffer Channel LoopThread Poller EpollPoller Reactor TcpConnection Lifetime Ownership.

Section LoopOwnership.
Context {B : Build} {P K X : Type} `{PollerContract P K} `{!SysCalls K, !Quiet K, !QuietPoller P K}.
Context `{!SocketIOLaws K} `{ConnHeap X} `{!Callbacks P K X}.
Implicit Types s : Reactor P K X.
Implicit Types l : Life.

Local Abbreviation levels := (initDefaultEvent LT) (only parsing).

(** The masks of a channel in level-triggered mode. *)
Definition masks : list Z := [0; 3; 4; 7].

Definition settled l s (c : conn) (cn : TcpConnection) (ch : Channel) : Prop :=
  conn_at s c cn /\ registered s (channel_ cn) ch /\ statics s = levels /\ events_ ch ∈ masks /\
  state l = state_ cn /\ closeCallback_ cn = Some (closeCallback l) /\
  watch l = mkWatch (isReading levels ch) (isWriting levels ch)
    (bool_decide (is_Some (watched (poller_ s) !! fd_ ch))) (TcpConnection.reading_ cn) /\
  pending (io l) = tasks_of c (pendingFunctors_ s).

Lemma settled_reflects l s c cn ch : settled l s c cn ch -> reflects l s c.
Proof.
  intros (Hc & Hreg & HLT & _ & Hst & Hcb & Hw & Hp). exists cn. split; [done|]. split; [done|].
  split; [done|]. split; [|done]. exists ch. split; [apply Hreg|]. rewrite Hw, HLT. by split_and!.
Qed.


(** *** What keeps it *)



(** A store to the connection. *)
Lemma settled_store l l' s c cn cn' ch :
  settled l s c cn ch -> channel_ cn' = channel_ cn -> state l' = state_ cn' ->
  closeCallback_ cn' = Some (closeCallback l') -> io l' = io l ->
  watch l' = Lifetime.set_reading (TcpConnection.reading_ cn') (watch l) ->
  settled l' (with_conn c cn' s) c cn' ch.
Proof.
  intros (Hc & Hreg & HLT & Hev & Hst & Hcb & Hw & Hp) Hch Hst' Hcb' Hio Hw'.
  split; [apply conn_at_with|]. rewrite Hch. split; [by apply registered_with|].
  rewrite Hio, Hw', Hw. by split_and!.
Qed.


(** *** The channel *)






Definition settles l (c : conn) s : Prop := exists cn ch, settled l s c cn ch.







(** [forceCloseInLoop] of a connection that is closed. *)
Lemma forceCloseInLoop_idle l s c cn ch :
  settled l s c cn ch -> state l <> kConnected -> state l <> kDisconnecting ->
  TcpConnection.forceCloseInLoop c s = Ok (tt, s).
Proof.
  intros (Hc & Hreg & _ & _ & Hst & _) H1' H2'. rewrite Hst in H1', H2'. unfold forceCloseInLoop.
  erewrite bind_run by (apply assertInLoopThread_ok, Hreg).
  erewrite bind_run by (unfold conn_get; rewrite bind_gets; unfold of_option; by rewrite Hc).
  by rewrite !bool_decide_eq_false_2.
Qed.

(** The close callback a client sets from another thread. *)
Lemma setCloseCallback_refines l s c cn ch cb :
  settled l s c cn ch ->
  wp (conn_modify c (setConnCloseCallback (Some cb))) (fun _ => settles (set_closeCallback cb l) c) s.
Proof.
  intros Hs. assert (Hs' := Hs). destruct Hs' as (Hc & _ & _ & _ & ? & _ & Hw & _).
  apply (wp_conn_modify c _ cn); [done|]. exists (setConnCloseCallback (Some cb) cn), ch.
  apply (settled_store l _ _ _ cn); try done. cbn [watch set_closeCallback]. by rewrite Hw.
Qed.

(** ** Sending *)












(** ** Leaving the poller *)
Lemma none_mask ev : ev ∈ masks -> has ev 3 = false -> has ev 4 = false -> ev = 0.
Proof.
  unfold masks. rewrite !elem_of_cons, elem_of_nil. intros [->|[->|[->|[->|[]]]]]; by vm_compute.
Qed.

Lemma connectDestroyed_refines acts l s c cn ch :
  settled l s c cn ch -> state l = kDisconnected ->
  reading (watch l) = false -> writing (watch l) = false -> armed (watch l) = false ->
  exists l', Lifetime.connectDestroyed c acts l = Ok l' /\
    wp (TcpConnection.connectDestroyed c) (fun _ s' => reflects l' s' c) s.
Proof.
  intros (Hc & Hreg & HLT & Hev & Hst & Hcb & Hw & Hp) Hd Hr Hwr Ha.
  unfold Lifetime.connectDestroyed. rewrite Hd, bool_decide_eq_false_2 by done.
  rewrite assertion_ok by by rewrite Hr, Hwr. eexists. split; [done|]. rewrite Hw in Hr, Hwr, Ha |- *.
  cbn [reading writing armed Lifetime.reading_] in Hr, Hwr, Ha |- *.
  assert (Hnone : events_ ch = 0) by by apply none_mask.
  apply bool_decide_eq_false_1 in Ha. apply eq_None_not_Some in Ha.
  pose proof Hreg as (HI & Hin & Hch & Hl & Hfd & Ht & Hsz). rewrite Hst in Hd.
  unfold TcpConnection.connectDestroyed. wp_simp. apply wp_assertInLoopThread; [done|]. wp_simp.
  eapply wp_conn_get; [done|]. rewrite bool_decide_eq_false_2 by by rewrite Hd. wp_simp.
  eapply wp_conn_get; [done|]. unfold Channel.remove. wp_simp. apply wp_ch_get. exists ch.
  split; [done|]. wp_simp. apply wp_assert; [unfold isNoneEvent; by rewrite HLT, Hnone|]. wp_simp.
  apply wp_ch_modify. exists ch. split; [done|].
  destruct (memory_law (channel_ cn) ch (set_addedToLoop false ch) (poller_ s) HI Hch eq_refl eq_refl) as [HI1 Hw1].
  set (s1 := lset channels _ s).
  change (watched (poller_ s1) = watched (poller_ s)) in Hw1. rewrite <- Hw1 in Ha.
  assert (Hch1 : lget memory_lens s1 !! channel_ cn = Some (set_addedToLoop false ch)) by apply lookup_insert_eq.
  eapply (wp_removeChannel s1 (channel_ cn) (set_addedToLoop false ch)); [done | | exact Ha |].
  { unfold isNoneEvent. change (statics s1) with (statics s). cbn [events_ set_addedToLoop]. by rewrite HLT, Hnone. }
  intros p' _ (Hf & Hst' & _) _ Hw'. specialize (Hf (channel_ cn)).
  change (chans (poller_ s1)) with (lget memory_lens s1) in Hf. rewrite Hch1 in Hf.
  destruct (chans p' !! channel_ cn) as [ch'|] eqn:Hch'; [|done]. apply (inj Some) in Hf.
  apply (f_equal events_) in Hf as Hev'. apply (f_equal fd_) in Hf as Hfd'. cbn in Hev', Hfd'.
  exists cn. split; [done|]. split; [done|]. split; [done|]. split; [|done]. exists ch'. split; [exact Hch'|].
  change (statics (lset poller_lens p' s1)) with (sts p'). rewrite Hst'. change (sts (poller_ s1)) with (statics s).
  change (watched (poller_ (lset poller_lens p' s1))) with (watched p'). rewrite Hw', HLT.
  unfold isReading, isWriting in *. rewrite Hev', Hfd'. rewrite Ha. by split_and!.
Qed.

End LoopOwnership.

(** ** Witness: an open connection in the thread of its loop *)

#[local] Existing Instances debug_build world_heap world_callbacks.



