(* ===== verification/Loops.v ===== *)
(** * EventLoop.h: several loops in one process

    Each loop has a thread of its own.  A [Reactor] is the loop whose code runs;
    the other loops of the process are parked among its objects.  The objects,
    the kernel and the static members of [Channel] belong to the process, the
    rest to the loop.  [visit l] is a call on loop [l] from whatever thread
    runs; [switch l] lets the thread of [l] run instead. *)

From S2P Require Import Prelude Posix Callbacks Timer Channel LoopThread Poller Reactor.

Abbreviation Parked P K := (Reactor P K unit) (only parsing).

Class OtherLoops (P K X : Type) : Type := {
  others : lens X (gmap loop_id (Parked P K));
  others_laws :: LensLaws others;
}.

Section Loops.
Context {P K X : Type}.

Definition park (s : Reactor P K X) : Parked P K :=
  mkReactor (this_loop s) (looping_ s) (quit_ s) (callingPendingFunctors_ s) (pollReturnTime_ s)
    (poller_ s) (timerQueue_ s) (timers s) (wakeupFd_ s) (wakeupChannel_ s) (activeChannels_ s)
    (pendingFunctors_ s) tt.

(** Loop [p] in the process of [s], with [thread] running. *)
Definition unpark (p : Parked P K) (thread : Z) (s : Reactor P K X) : Reactor P K X :=
  mkReactor (this_loop p) (looping_ p) (quit_ p) (callingPendingFunctors_ p) (pollReturnTime_ p)
    (mkPollState (self (poller_ p)) (chans (poller_ p)) (sts (poller_ s)) (kern (poller_ s))
       (ownerThread (poller_ p)) thread)
    (timerQueue_ p) (timers p) (wakeupFd_ p) (wakeupChannel_ p) (activeChannels_ p)
    (pendingFunctors_ p) (objs s).

Context `{OtherLoops P K X}.

Definition parked (s : Reactor P K X) : gmap loop_id (Parked P K) := lget others (objs s).

Definition set_parked (h : gmap loop_id (Parked P K)) (s : Reactor P K X) : Reactor P K X :=
  lset (obj_lens others) h s.

(** [r] is loop [l] after the call; [s] goes on. *)
Definition leave (l : loop_id) (r s : Reactor P K X) : Reactor P K X :=
  let s' := lset objs_lens (objs r) (lset os_lens (lget os_lens r) s) in
  set_parked (<[l := park r]> (parked s')) s'.

Definition visit {A} (l : loop_id) (m : M (Reactor P K X) A) : M (Reactor P K X) A :=
  fun s =>
    if bool_decide (l = this_loop s) then m s else
    match parked s !! l with
    | None => Err UseAfterFree
    | Some p =>
        match m (unpark p (this_thread s) s) with
        | Ok (a, r) => Ok (a, leave l r s)
        | Err f => Err f
        end
    end.

(** The thread of [l] runs. *)
Definition switch (l : loop_id) : M (Reactor P K X) unit :=
  fun s =>
    if bool_decide (l = this_loop s)
    then Ok (tt, lset poller_lens (mkPollState (self (poller_ s)) (chans (poller_ s)) (sts (poller_ s))
           (kern (poller_ s)) (ownerThread (poller_ s)) (ownerThread (poller_ s))) s)
    else
    match parked s !! l with
    | None => Err UseAfterFree
    | Some p =>
        Ok (tt, set_parked (<[this_loop s := park s]> (delete l (parked s)))
                  (unpark p (ownerThread (poller_ p)) s))
    end.
End Loops.

(** ** Calls on another loop *)
Section Loops_lemmas.
Context {P K X : Type} `{OtherLoops P K X} `{!SysCalls K}.
Implicit Types s : Reactor P K X.
Implicit Types p : Parked P K.

(** Loop [p] when its own thread runs. *)
Definition at_home p s : Reactor P K X := unpark p (ownerThread (poller_ p)) s.

(** [p] after a task was queued from another thread. *)
Definition told (f : Functor) p s : Parked P K := park (queued f (unpark p (this_thread s) s)).

(** The process after [queueInLoop(f)] on loop [l]. *)
Definition posted (l : loop_id) (f : Functor) p s : Reactor P K X :=
  lset os_lens (sys_write (wakeupFd_ p) one_bytes (lget os_lens s)).2
    (set_parked (<[l := told f p s]> (parked s)) s).

Definition switched (l : loop_id) p s : Reactor P K X :=
  set_parked (<[this_loop s := park s]> (delete l (parked s))) (at_home p s).

Lemma parked_set h s : parked (set_parked h s) = h.
Proof. apply lget_lset. Qed.

Lemma wp_visit_here {A} l (m : M (Reactor P K X) A) (Q : A -> Reactor P K X -> Prop) s :
  l = this_loop s -> wp m Q s -> wp (visit l m) Q s.
Proof. intros -> HQ. unfold wp, visit. by rewrite bool_decide_eq_true_2. Qed.

Lemma wp_visit_other {A} l (m : M (Reactor P K X) A) (Q : A -> Reactor P K X -> Prop) s p :
  l <> this_loop s -> parked s !! l = Some p ->
  wp m (fun a r => Q a (leave l r s)) (unpark p (this_thread s) s) -> wp (visit l m) Q s.
Proof.
  intros Hl Hp HQ. unfold wp, visit in *. rewrite bool_decide_eq_false_2, Hp by done.
  by destruct (m _) as [[a r]|f].
Qed.

(** Another thread is not the thread of the loop. *)
Lemma queued_elsewhere l f p s :
  ownerThread (poller_ p) <> this_thread s ->
  leave l (queued f (unpark p (this_thread s) s)) s = posted l f p s.
Proof.
  intros Ht. unfold posted, told, queued.
  assert (isInLoopThread (unpark p (this_thread s) s) = false) as -> by by apply Z.eqb_neq.
  done.
Qed.

Lemma wp_post l f p (Q : unit -> Reactor P K X -> Prop) s :
  l <> this_loop s -> parked s !! l = Some p -> ownerThread (poller_ p) <> this_thread s ->
  Q tt (posted l f p s) -> wp (visit l (queueInLoop f)) Q s.
Proof.
  intros Hl Hp Ht HQ. eapply wp_visit_other; [done..|]. apply wp_queueInLoop.
  by rewrite queued_elsewhere.
Qed.

Lemma wp_post_run l m f p (Q : unit -> Reactor P K X -> Prop) s :
  l <> this_loop s -> parked s !! l = Some p -> ownerThread (poller_ p) <> this_thread s ->
  Q tt (posted l f p s) -> wp (visit l (runInLoop m f)) Q s.
Proof.
  intros Hl Hp Ht HQ. eapply wp_visit_other; [done..|]. unfold runInLoop. wp_simp.
  assert (isInLoopThread (unpark p (this_thread s) s) = false) as -> by by apply Z.eqb_neq.
  apply wp_queueInLoop. by rewrite queued_elsewhere.
Qed.

Lemma wp_switch l p (Q : unit -> Reactor P K X -> Prop) s :
  l <> this_loop s -> parked s !! l = Some p -> Q tt (switched l p s) -> wp (switch l) Q s.
Proof. intros Hl Hp HQ. unfold wp, switch. by rewrite bool_decide_eq_false_2, Hp. Qed.

(** The thread that runs goes on. *)
Lemma wp_switch_here l (Q : unit -> Reactor P K X -> Prop) s :
  l = this_loop s -> isInLoopThread s = true -> Q tt s -> wp (switch l) Q s.
Proof.
  intros -> Hin HQ. unfold wp, switch. rewrite bool_decide_eq_true_2 by done.
  apply Z.eqb_eq in Hin. cbn in Hin. destruct s as [? ? ? ? ? [] ? ? ? ? ? ? ?]. cbn in *. by subst.
Qed.

(** *** What the moves leave alone *)

Lemma posted_same l f p s :
  this_loop (posted l f p s) = this_loop s /\ pendingFunctors_ (posted l f p s) = pendingFunctors_ s /\
  parked (posted l f p s) = <[l := told f p s]> (parked s) /\
  statics (posted l f p s) = statics s /\ isInLoopThread (posted l f p s) = isInLoopThread s /\
  objs (posted l f p s) = lset others (<[l := told f p s]> (parked s)) (objs s).
Proof. split_and!; try done. apply lget_lset. Qed.

Lemma told_same f p s :
  ownerThread (poller_ p) <> this_thread s ->
  this_loop (told f p s) = this_loop p /\ pendingFunctors_ (told f p s) = pendingFunctors_ p ++ [f] /\
  ownerThread (poller_ (told f p s)) = ownerThread (poller_ p) /\
  forall s', at_home (told f p s) s' = lset pending_lens (pendingFunctors_ p ++ [f]) (at_home p s').
Proof.
  intros Ht. unfold told, queued.
  assert (isInLoopThread (unpark p (this_thread s) s) = false) as -> by by apply Z.eqb_neq.
  by split_and!.
Qed.

Lemma home_thread p s : isInLoopThread (at_home p s) = true.
Proof. apply Z.eqb_refl. Qed.
End Loops_lemmas.

(** ** Channels of a loop that is not running *)
Section Loops_channels.
Context {B : Build} {P K X : Type} `{PollerContract P K} `{!SysCalls K, !Quiet K, !QuietPoller P K}.
Implicit Types s : Reactor P K X.
Implicit Types p : Parked P K.

(** System calls that are quiet do not disturb it. *)
Lemma registered_home p s s' c ch :
  registered (at_home p s) c ch -> statics s' = statics s ->
  quiet (lget os_lens s) (lget os_lens s') ->
  registered (at_home p s') c ch /\
  watched (poller_ (at_home p s')) = watched (poller_ (at_home p s)).
Proof.
  intros Hr Hst Hq.
  destruct (registered_kernel (at_home p s) c ch (lget os_lens s') Hq Hr) as [Hr' Hw].
  assert (Hp : poller_ (at_home p s') = poller_ (lset os_lens (lget os_lens s') (at_home p s))).
  { unfold at_home, unpark. cbn in *. by rewrite Hst. }
  rewrite Hp. split; [|done]. by eapply registered_poller.
Qed.

(** A loop that stops running in its own thread. *)
Lemma registered_park s c ch :
  registered s c ch ->
  registered (at_home (park s) s) c ch /\
  watched (poller_ (at_home (park s) s)) = watched (poller_ s).
Proof.
  intros Hr. assert (Hp : poller_ (at_home (park s) s) = poller_ s).
  { destruct Hr as (_ & Hin & _). apply Z.eqb_eq in Hin. cbn in Hin.
    unfold at_home, unpark, park. cbn. destruct (poller_ s); cbn in *. by subst. }
  rewrite Hp. split; [|done]. by eapply registered_poller.
Qed.
End Loops_channels.
