(* ===== verification/TcpServer.v ===== *)
(** * TcpServer.h, TcpServer.cc: accepting connections and letting them go

    The server lives on one loop and deals its connections to the loops of a
    pool.  [World] is the process: the server (gone after its destructor), the
    acceptor and the pool it owns, the connections, and the loops that are not
    running.  Every function runs as the code does, on the loop whose thread
    runs; what it does to another loop goes through [visit]. *)

From stdpp Require Import sorting.
From S2P Require Import Prelude Posix Process LogStream SocketsOps Callbacks Buffer Channel LoopThread EventLoopThreadPool Poller EpollPoller Reactor Acceptor TcpConnection Loops.

Record TcpServer : Type := mkServer {
  loop_ : loop_id;
  ipPort_ : list byte;
  name_ : list byte;
  connectionCallback_ : option ConnectionCallback;
  messageCallback_ : option MessageCallback;
  writeCompleteCallback_ : option WriteCompleteCallback;
  threadInitCallback_ : option nat;
  started_ : bool;
  nextConnId_ : Z;
  connections_ : gmap (list byte) conn;
}.

Section fields.
Implicit Types sv : TcpServer.

Definition setThreadInitCallback (cb : option nat) sv : TcpServer :=
  mkServer (loop_ sv) (ipPort_ sv) (name_ sv) (connectionCallback_ sv) (messageCallback_ sv)
    (writeCompleteCallback_ sv) cb (started_ sv) (nextConnId_ sv) (connections_ sv).
Definition setConnectionCallback (cb : option ConnectionCallback) sv : TcpServer :=
  mkServer (loop_ sv) (ipPort_ sv) (name_ sv) cb (messageCallback_ sv)
    (writeCompleteCallback_ sv) (threadInitCallback_ sv) (started_ sv) (nextConnId_ sv)
    (connections_ sv).
Definition setMessageCallback (cb : option MessageCallback) sv : TcpServer :=
  mkServer (loop_ sv) (ipPort_ sv) (name_ sv) (connectionCallback_ sv) cb
    (writeCompleteCallback_ sv) (threadInitCallback_ sv) (started_ sv) (nextConnId_ sv)
    (connections_ sv).
Definition setWriteCompleteCallback (cb : option WriteCompleteCallback) sv : TcpServer :=
  mkServer (loop_ sv) (ipPort_ sv) (name_ sv) (connectionCallback_ sv) (messageCallback_ sv)
    cb (threadInitCallback_ sv) (started_ sv) (nextConnId_ sv) (connections_ sv).
Definition set_started sv : TcpServer :=
  mkServer (loop_ sv) (ipPort_ sv) (name_ sv) (connectionCallback_ sv) (messageCallback_ sv)
    (writeCompleteCallback_ sv) (threadInitCallback_ sv) true (nextConnId_ sv) (connections_ sv).
Definition set_nextConnId (n : Z) sv : TcpServer :=
  mkServer (loop_ sv) (ipPort_ sv) (name_ sv) (connectionCallback_ sv) (messageCallback_ sv)
    (writeCompleteCallback_ sv) (threadInitCallback_ sv) (started_ sv) n (connections_ sv).
Definition set_connections (m : gmap (list byte) conn) sv : TcpServer :=
  mkServer (loop_ sv) (ipPort_ sv) (name_ sv) (connectionCallback_ sv) (messageCallback_ sv)
    (writeCompleteCallback_ sv) (threadInitCallback_ sv) (started_ sv) (nextConnId_ sv) m.
End fields.

(** The order of [std::map<std::string, ...>]. *)
Fixpoint string_le (a b : list byte) : bool :=
  match a, b with
  | [], _ => true
  | _, [] => false
  | x :: a', y :: b' =>
      if (Byte.to_N x <? Byte.to_N y)%N then true
      else if (Byte.to_N y <? Byte.to_N x)%N then false else string_le a' b'
  end.

Definition item_le (p q : list byte * conn) : Prop := string_le p.1 q.1 = true.

#[export] Instance item_le_dec : RelDecision item_le.
Proof. intros p q. unfold item_le. apply _. Defined.

Definition items (m : gmap (list byte) conn) : list (list byte * conn) :=
  merge_sort item_le (map_to_list m).

(** The name of the connection number [id]: [buf] has 64 bytes. *)
Definition conn_name (sv : TcpServer) (id : Z) : list byte :=
  name_ sv ++ take 63 ("-"%byte :: ipPort_ sv ++ "#"%byte :: int_text id).

(** ** The process *)

Record World (P K U : Type) : Type := mkWorld {
  server : option TcpServer;
  acceptor_ : Acceptor;
  threadPool_ : EventLoopThreadPool;
  w_conns : gmap conn TcpConnection;
  w_memory : gmap positive (list byte);
  w_others : gmap loop_id (Parked P K);
  w_user : U;
}.
Arguments mkWorld {P K U}.
Arguments server {P K U}.
Arguments acceptor_ {P K U}.
Arguments threadPool_ {P K U}.
Arguments w_conns {P K U}.
Arguments w_memory {P K U}.
Arguments w_others {P K U}.
Arguments w_user {P K U}.

Section World.
Context {P K U : Type}.
Implicit Types w : World P K U.

Definition server_lens : lens (World P K U) (option TcpServer) :=
  Lens server (fun x w => mkWorld x (acceptor_ w) (threadPool_ w) (w_conns w) (w_memory w)
                            (w_others w) (w_user w)).
Definition acceptor_of : lens (World P K U) Acceptor :=
  Lens acceptor_ (fun x w => mkWorld (server w) x (threadPool_ w) (w_conns w) (w_memory w)
                               (w_others w) (w_user w)).
Definition pool_lens : lens (World P K U) EventLoopThreadPool :=
  Lens threadPool_ (fun x w => mkWorld (server w) (acceptor_ w) x (w_conns w) (w_memory w)
                                 (w_others w) (w_user w)).
Definition conns_lens : lens (World P K U) (gmap conn TcpConnection) :=
  Lens w_conns (fun x w => mkWorld (server w) (acceptor_ w) (threadPool_ w) x (w_memory w)
                             (w_others w) (w_user w)).
Definition user_lens : lens (World P K U) U :=
  Lens w_user (fun x w => mkWorld (server w) (acceptor_ w) (threadPool_ w) (w_conns w) (w_memory w)
                            (w_others w) x).
Definition others_lens : lens (World P K U) (gmap loop_id (Parked P K)) :=
  Lens w_others (fun x w => mkWorld (server w) (acceptor_ w) (threadPool_ w) (w_conns w)
                              (w_memory w) x (w_user w)).

#[export] Instance pool_laws : LensLaws pool_lens.
Proof. by split; intros; destruct_and?; try destruct s. Qed.

#[export] Instance World_loops : OtherLoops P K (World P K U).
Proof. refine {| others := others_lens |}. by split; intros; try destruct s. Defined.

#[export] Instance World_conns : ConnHeap (World P K U).
Proof.
  refine {| conns := conns_lens; memory := w_memory |}; [|done].
  by split; intros; try destruct s.
Defined.
End World.

(** The code of the user: callbacks, what the tasks of other components and of the
    user do, and the start of a thread of the pool. *)
Class UserCode (P K U : Type) : Type := {
  user_connection : nat -> conn -> M (Reactor P K (World P K U)) unit;
  user_message : nat -> conn -> Z -> M (Reactor P K (World P K U)) unit;
  other_close : CloseCallback -> conn -> M (Reactor P K (World P K U)) unit;
  user_init : nat -> loop_id -> M (Reactor P K (World P K U)) unit;
  other_task : Functor -> M (Reactor P K (World P K U)) unit;
  start_loop : Z -> M (Reactor P K (World P K U)) loop_id;
}.

Section TcpServer_ops.
Context {B : Build} {P K U : Type} `{PollerOps P K} `{SysCalls K, !NetSys K} {A : Allocator}.
Context `{!UserCode P K U}.
Local Abbreviation Loop := (Reactor P K (World P K U)) (only parsing).

(** The server a raw [this] points to. *)
Definition server_get : M Loop TcpServer :=
  let! w := gets objs in of_option UseAfterFree (server w).

Definition server_modify (f : TcpServer -> TcpServer) : M Loop unit :=
  zoom (obj_lens server_lens) (modify (fmap f)).

Definition pool_in_loop : lens Loop EventLoopThreadPool := obj_lens pool_lens.

(** ** Leaving *)
Definition removeConnectionInLoop (c : conn) : M Loop unit :=
  let! sv := server_get in
  visit (loop_ sv) assertInLoopThread ;;
  let! cn := conn_get c in
  server_modify (fun sv => set_connections (delete (name cn) (connections_ sv)) sv) ;;
  visit (getLoop cn) (queueInLoop (TcpConnection_connectDestroyed c)).

Definition removeConnection (c : conn) : M Loop unit :=
  let! sv := server_get in
  visit (loop_ sv) (runInLoop (removeConnectionInLoop c) (TcpServer_removeConnectionInLoop c)).

(** The callbacks of the user, and the one the server gives its connections. *)
#[export] Instance server_callbacks : Callbacks P K (World P K U) := {|
  on_connection := user_connection;
  on_message := user_message;
  on_close cb c := match cb with
                   | TcpServer_removeConnection => removeConnection c
                   | _ => other_close cb c
                   end;
|}.

(** ** Arriving *)

(** [new TcpConnection(...)], and the setters; the connection is in the heap of
    the process, its channel in that of its loop. *)
Definition make_connection (ioLoop : loop_id) (connName : list byte) (sockfd : Z)
    (localAddr peerAddr : sockaddr) : M Loop conn :=
  let! x := gets objs in
  let c := new_address (dom (w_conns x)) in
  visit ioLoop
    (let! h := gets (lget memory_lens) in
     TcpConnection_ctor c (new_address (dom h)) ioLoop connName sockfd localAddr peerAddr) ;;
  ret c.

Definition newConnection (sockfd : Z) (peerAddr : sockaddr) : M Loop unit :=
  let! sv := server_get in
  visit (loop_ sv) assertInLoopThread ;;
  let! ioLoop := getNextLoop pool_in_loop in
  let connName := conn_name sv (nextConnId_ sv) in
  let! id := lift (i32_checked (nextConnId_ sv + 1)) in
  server_modify (set_nextConnId id) ;;
  let! localAddr := zoom os_lens (getLocalAddr sockfd) in
  let! c := make_connection ioLoop connName sockfd localAddr peerAddr in
  server_modify (fun sv => set_connections (<[connName := c]> (connections_ sv)) sv) ;;
  let! sv := server_get in
  conn_modify c (TcpConnection.setConnectionCallback (connectionCallback_ sv)) ;;
  conn_modify c (TcpConnection.setMessageCallback (messageCallback_ sv)) ;;
  conn_modify c (TcpConnection.setWriteCompleteCallback (writeCompleteCallback_ sv)) ;;
  conn_modify c (setConnCloseCallback (Some TcpServer_removeConnection)) ;;
  visit ioLoop (runInLoop (connectEstablished c) (TcpConnection_connectEstablished c)).

(** ** The life of the server *)

(** [inet_ntop], for the name. *)
Variable inet_ntop4 : Z -> list byte.
Variable inet_ntop6 : list byte -> list byte.

(** [nameArg] names the threads of the pool; [ch] is the address of the channel
    of the acceptor. *)
Definition TcpServer_ctor (loop : loop_id) (ch : chan) (listenAddr : sockaddr) (reusePort : bool) :
    M Loop unit :=
  Acceptor_ctor acceptor_of ch listenAddr reusePort ;;
  zoom pool_in_loop (modify (fun _ => EventLoopThreadPool_ctor loop)) ;;
  zoom (obj_lens server_lens)
    (modify (fun _ => Some (mkServer loop [] (toIpPort inet_ntop4 inet_ntop6 listenAddr)
                              None None None None false 1 ∅))) ;;
  zoom (obj_lens acceptor_of) (modify (setNewConnectionCallback TcpServer_newConnection)).

Definition setThreadNum (numThreads : Z) : M Loop unit :=
  assert_ (0 <=? numThreads) ;;
  zoom pool_in_loop (modify (EventLoopThreadPool.setThreadNum numThreads)).

Definition start : M Loop unit :=
  let! sv := server_get in
  server_modify set_started ;;
  whenb (negb (started_ sv))
    (EventLoopThreadPool.start pool_in_loop start_loop (user_init <$> threadInitCallback_ sv) ;;
     assert_of (let! a := gets (lget (obj_lens acceptor_of)) in ret (negb (listenning_ a))) ;;
     Acceptor.listen acceptor_of).

(** The connections are told, in the order of the map, then the members are
    destroyed.  The threads of the pool are not: [threadPool()] shares it. *)
Definition TcpServer_dtor : M Loop unit :=
  let! sv := server_get in
  visit (loop_ sv) assertInLoopThread ;;
  for_each (items (connections_ sv)) (fun item =>
    let! cn := conn_get item.2 in
    visit (getLoop cn) (runInLoop (connectDestroyed item.2) (TcpConnection_connectDestroyed item.2))) ;;
  Acceptor_dtor acceptor_of ;;
  zoom (obj_lens server_lens) (modify (fun _ => None)).

(** ** Tasks and events *)

Definition run_task : Functor -> M Loop unit :=
  run_conn_task (fun f =>
    match f with
    | TcpServer_removeConnectionInLoop c => removeConnectionInLoop c
    | f => other_task f
    end).

(** The new connection callback of the acceptor. *)
Definition on_new_connection (other : NewConnectonCallback -> Z -> sockaddr -> M Loop unit)
    (cb : NewConnectonCallback) (connfd : Z) (peerAddr : sockaddr) : M Loop unit :=
  match cb with
  | TcpServer_newConnection => newConnection connfd peerAddr
  | cb => other cb connfd peerAddr
  end.

(** The thread of [l] runs the tasks of its loop. *)
Definition run_pending (l : loop_id) : M Loop unit :=
  switch l ;; doPendingFunctors run_task.
End TcpServer_ops.

(** ** Lemmas *)
Section TcpServer_lemmas.
Context {B : Build} {P K U : Type} `{PollerContract P K}.
Context `{!SysCalls K, !Quiet K, !QuietPoller P K, !NetSys K} {A : Allocator} `{!UserCode P K U}.
Local Abbreviation Loop := (Reactor P K (World P K U)) (only parsing).
Implicit Types s : Loop.

Lemma wp_server_get sv (Q : TcpServer -> Loop -> Prop) s :
  server (objs s) = Some sv -> Q sv s -> wp server_get Q s.
Proof. intros Hs HQ. unfold server_get. wp_simp. apply wp_of_option. by exists sv. Qed.

Definition with_server (sv : TcpServer) s : Loop :=
  lset objs_lens (lset server_lens (Some sv) (objs s)) s.

Lemma wp_server_modify f sv (Q : unit -> Loop -> Prop) s :
  server (objs s) = Some sv -> Q tt (with_server (f sv) s) -> wp (server_modify f) Q s.
Proof. intros Hs HQ. unfold server_modify. wp_simp. cbn. by rewrite Hs. Qed.

(** What the user's code does when it keeps to the data of the user. *)
Definition with_user (u : U) s : Loop := lset (obj_lens user_lens) u s.

(** The connection callback of [c], when the connection is [cn], may look at the whole
    process and changes only the data of the user. *)
Definition discreet (c : conn) (cn : TcpConnection) : Prop := forall s,
  conn_at s c cn ->
  exists u, call_connection c (TcpConnection.connectionCallback_ cn) s = Ok (tt, with_user u s).

(** The objects of the process, but for the other loops and the data of the user. *)
Definition objects s :=
  let w := objs s in (server w, acceptor_ w, threadPool_ w, w_conns w, w_memory w).

(** Loop [l] is another loop, with its own thread. *)
Definition elsewhere s (l : loop_id) (p : Parked P K) : Prop :=
  l <> this_loop s /\ parked s !! l = Some p /\ this_loop p = l /\
  ownerThread (poller_ p) <> this_thread s.

(** Connection [c] of the server is open on the loop that runs. *)
Definition served s (sv : TcpServer) (c : conn) (cn : TcpConnection) (ch : Channel) : Prop :=
  server (objs s) = Some sv /\ conn_at s c cn /\ registered s (channel_ cn) ch /\
  is_Some (watched (poller_ s) !! fd_ ch) /\
  (state_ cn = kConnected \/ state_ cn = kDisconnecting) /\
  closeCallback_ cn = Some TcpServer_removeConnection /\ getLoop cn = this_loop s.

(** The end of [handleClose]: the server is told. *)
Lemma removeConnection_posts s sv c p (Q : unit -> Loop -> Prop) :
  server (objs s) = Some sv -> elsewhere s (loop_ sv) p ->
  Q tt (posted (loop_ sv) (TcpServer_removeConnectionInLoop c) p s) -> wp (removeConnection c) Q s.
Proof.
  intros Hsv (Hl & Hp & _ & Ht) HQ. unfold removeConnection. apply wp_bind.
  eapply wp_server_get; [done|]. by apply (wp_post_run _ _ _ p).
Qed.

Lemma removeConnectionInLoop_posts s sv c cn p (Q : unit -> Loop -> Prop) :
  server (objs s) = Some sv -> loop_ sv = this_loop s -> isInLoopThread s = true ->
  conn_at s c cn -> elsewhere s (getLoop cn) p ->
  Q tt (posted (getLoop cn) (TcpConnection_connectDestroyed c) p
          (with_server (set_connections (delete (name cn) (connections_ sv)) sv) s)) ->
  wp (removeConnectionInLoop c) Q s.
Proof.
  intros Hsv Hl Hin Hc (Hne & Hp & _ & Ht) HQ. unfold removeConnectionInLoop. apply wp_bind.
  eapply wp_server_get; [done|]. apply wp_bind, wp_visit_here; [done|].
  apply wp_assertInLoopThread; [done|]. apply wp_bind. eapply wp_conn_get; [done|].
  apply wp_bind. eapply wp_server_modify; [done|]. by apply (wp_post _ _ p).
Qed.

(** A call on the thread of another loop, then its one task. *)
Lemma wp_run_pending l p f (Q : unit -> Loop -> Prop) s :
  l <> this_loop s -> parked s !! l = Some p -> pendingFunctors_ p = [f] ->
  wp (run_task f) (fun _ s' => Q tt (set_calling false s'))
     (lset pending_lens [] (set_calling true (switched l p s))) ->
  wp (run_pending l) Q s.
Proof.
  intros Hl Hp Hf HQ. unfold run_pending. apply wp_bind. eapply wp_switch; [done..|].
  by apply (wp_one_task _ f).
Qed.

(** The loop that runs takes its own turn. *)
Lemma wp_run_pending_here (Q : unit -> Loop -> Prop) s :
  isInLoopThread s = true ->
  wp (for_each (pendingFunctors_ s) run_task) (fun _ s' => Q tt (set_calling false s'))
     (lset pending_lens [] (set_calling true s)) ->
  wp (run_pending (this_loop s)) Q s.
Proof.
  intros Hin HQ. unfold run_pending. apply wp_bind, wp_switch_here; [done..|].
  by apply wp_doPendingFunctors.
Qed.

(** Loop [l] of the process, when its own thread runs. *)
Definition at_loop s (l : loop_id) (r : Loop) : Prop :=
  (l = this_loop s /\ r = s) \/ exists p, elsewhere s l p /\ r = at_home p s.

Lemma unwatched_park s cc fd t w :
  unwatched s cc fd t w -> unwatched (at_home (park s) s) cc fd t w.
Proof.
  intros (ch & Hr & Hev & Hfd & Ht & Hw). exists ch.
  destruct (registered_park s cc ch Hr) as [Hr' Hw']. rewrite Hw'. by split_and!.
Qed.

Lemma unwatched_home p s s' cc fd t w :
  statics s' = statics s -> quiet (lget os_lens s) (lget os_lens s') ->
  unwatched (at_home p s) cc fd t w -> unwatched (at_home p s') cc fd t w.
Proof.
  intros Hst Hq (ch & Hr & Hev & Hfd & Ht & Hw). exists ch.
  destruct (registered_home p s s' cc ch Hr Hst Hq) as [Hr' Hw']. rewrite Hw'. cbn in *.
  rewrite Hst. by split_and!.
Qed.

(** [handleClose] up to the close callback. *)
Lemma handleClose_discreet s sv c cn ch :
  served s sv c cn ch -> discreet c (setState kDisconnected cn) ->
  exists s2 ch2,
    TcpConnection.handleClose c s = removeConnection c s2 /\
    registered s2 (channel_ cn) ch2 /\ events_ ch2 = kNoneEvent (statics s) /\
    statics s2 = statics s /\ pendingFunctors_ s2 = pendingFunctors_ s /\
    watched (poller_ s2) = delete (fd_ ch) (watched (poller_ s)) /\
    objects s2 = objects (with_conn c (setState kDisconnected cn) s) /\ parked s2 = parked s /\
    this_loop s2 = this_loop s /\ fd_ ch2 = fd_ ch /\ this_thread s2 = this_thread s /\
    table (self (poller_ s2)) = table (self (poller_ s)).
Proof.
  intros (Hsv & Hc & Hreg & Hwat & Hst & Hcb & Hloop) Hcall.
  destruct (handleClose_spec c cn ch s Hc Hreg Hst Hwat)
    as (s1 & ch2 & Hrun & Hc2 & Hreg2 & Hev2 & Hst2 & Hp2 & Hw2 & Ho2 & Hl2 & Hfd2 & Hth2 & Ht2).
  destruct (Hcall s1 Hc2) as [u Hu]. cbn [TcpConnection.connectionCallback_ setState] in Hu.
  exists (with_user u s1), ch2. split_and!; try done.
  - rewrite Hrun. erewrite bind_run by exact Hu. set (s2 := with_user u s1).
    assert (Hc3 : conn_at s2 c (setState kDisconnected cn)) by exact Hc2.
    erewrite bind_run by (unfold conn_get; rewrite bind_gets; unfold of_option; by rewrite Hc3).
    cbn [closeCallback_ setState call_close]. by rewrite Hcb.
  - unfold objects. cbn. by rewrite Ho2.
  - unfold parked. cbn. by rewrite Ho2.
Qed.

(** The first turn: the loop of the connection closes it and tells the server. *)
Lemma close_first s sv c cn ch p :
  served s sv c cn ch -> elsewhere s (loop_ sv) p -> discreet c (setState kDisconnected cn) ->
  wp (TcpConnection.handleClose c)
     (fun _ s' => exists p',
        objects s' = objects (with_conn c (setState kDisconnected cn) s) /\
        this_loop s' = this_loop s /\ pendingFunctors_ s' = pendingFunctors_ s /\
        unwatched s' (channel_ cn) (fd_ ch) (table (self (poller_ s)))
          (delete (fd_ ch) (watched (poller_ s))) /\
        elsewhere s' (loop_ sv) p' /\
        pendingFunctors_ p' = pendingFunctors_ p ++ [TcpServer_removeConnectionInLoop c]) s.
Proof.
  intros Hs (Hne & Hp & Hlp & Hth) Hcall.
  destruct (handleClose_discreet s sv c cn ch Hs Hcall)
    as (s2 & ch2 & Hrun & Hreg2 & Hev2 & Hst2 & Hp2 & Hw2 & Ho2 & Hpar2 & Hl2 & Hfd2 & Hth2 & Ht2).
  unfold wp at 1. rewrite Hrun.
  assert (Hsv2 : server (objs s2) = Some sv) by (injection Ho2 as -> _; apply Hs).
  assert (He2 : elsewhere s2 (loop_ sv) p) by (split_and!; congruence).
  destruct (told_same (TcpServer_removeConnectionInLoop c) p s2) as (Hl & Hpend & Ho & _); [congruence|].
  apply (removeConnection_posts s2 sv c p); [done | exact He2|].
  exists (told (TcpServer_removeConnectionInLoop c) p s2). split_and!.
  - exact Ho2.
  - exact Hl2.
  - exact Hp2.
  - apply unwatched_kernel; [apply quiet_write|]. exists ch2.
    change (poller_ (set_parked ?h s2)) with (poller_ s2). rewrite Ht2, Hw2.
    split_and!; try done. change (events_ ch2 = kNoneEvent (statics s2)). by rewrite Hst2.
  - destruct (posted_same (loop_ sv) (TcpServer_removeConnectionInLoop c) p s2)
      as (Hpl & _ & Hpp & _). split_and!; [congruence | | congruence |].
    + rewrite Hpp. apply lookup_insert_eq.
    + rewrite Ho. cbn. cbn in Hth, Hth2. congruence.
  - exact Hpend.
Qed.

(** The second turn: the server forgets the connection and tells its loop. *)
Lemma close_second s sv c cn cc fd t w p :
  server (objs s) = Some sv -> conn_at s c cn -> getLoop cn = this_loop s ->
  unwatched s cc fd t w -> pendingFunctors_ s = [] ->
  elsewhere s (loop_ sv) p -> pendingFunctors_ p = [TcpServer_removeConnectionInLoop c] ->
  wp (run_pending (loop_ sv))
     (fun _ s' => exists p',
        objects s' = objects (with_server (set_connections (delete (name cn) (connections_ sv)) sv) s) /\
        this_loop s' = loop_ sv /\
        parked s' !! this_loop s = Some p' /\ this_loop p' = this_loop s /\
        pendingFunctors_ p' = [TcpConnection_connectDestroyed c] /\
        unwatched (at_home p' s') cc fd t w) s.
Proof.
  intros Hsv Hc Hloop Hun Hp0 (Hne & Hp & Hlp & Hth) Hpp.
  eapply wp_run_pending; [done..|]. cbn [run_task run_conn_task].
  set (s1 := lset pending_lens [] _).
  assert (Hthr : ownerThread (poller_ (park s)) <> this_thread s1).
  { destruct Hun as (ch & (_ & Hin & _) & _). apply Z.eqb_eq in Hin. cbn in *. congruence. }
  assert (He : elsewhere s1 (getLoop cn) (park s)).
  { rewrite Hloop. split_and!; try done; [cbn; congruence|]. unfold s1, parked. cbn.
    apply lookup_insert_eq. }
  eapply (removeConnectionInLoop_posts s1 sv c cn (park s)); [done | by cbn | apply Z.eqb_refl | done..|].
  set (s2 := with_server _ s1). rewrite Hloop in *.
  destruct (told_same (TcpConnection_connectDestroyed c) (park s) s2) as (Hl & Hpend & Ho & Hhome);
    [exact Hthr|].
  exists (told (TcpConnection_connectDestroyed c) (park s) s2). split_and!; try done.
  - unfold parked, posted. cbn. apply lookup_insert_eq.
  - rewrite Hpend. cbn. by rewrite Hp0.
  - rewrite Hhome. apply (unwatched_poller (at_home (park s)
      (set_calling false (posted (this_loop s) (TcpConnection_connectDestroyed c) (park s) s2))));
      [done..|].
    apply (unwatched_home (park s) s); [done | apply quiet_write | by apply unwatched_park].
Qed.

(** The third: the poller forgets the channel. *)
Lemma close_third s c cn l fd t w p :
  conn_at s c cn -> state_ cn = kDisconnected -> l <> this_loop s -> parked s !! l = Some p ->
  this_loop p = l -> pendingFunctors_ p = [TcpConnection_connectDestroyed c] ->
  unwatched (at_home p s) (channel_ cn) fd t w -> w !! fd = None ->
  wp (run_pending l)
     (fun _ s' => objects s' = objects s /\ this_loop s' = l /\
        table (self (poller_ s')) = delete fd t /\ watched (poller_ s') = w /\
        pendingFunctors_ s' = []) s.
Proof.
  intros Hc Hst Hne Hp Hlp Hpp Hun Hw. eapply wp_run_pending; [done..|]. cbn [run_task run_conn_task].
  set (s1 := lset pending_lens [] _).
  assert (Hun1 : unwatched s1 (channel_ cn) fd t w)
    by by apply (unwatched_poller (at_home p s)).
  destruct Hun1 as (ch & Hreg & Hev & <- & <- & <-).
  eapply (connectDestroyed_spec c cn ch s1); [done..|].
  intros p' _ Ht' Hw' _. by split_and!.
Qed.

(** The process when [c] has left server [sv]. *)
Definition left s sv c cn ch (s' : Loop) : Prop :=
  objects s' = objects (with_conn c (setState kDisconnected cn)
    (with_server (set_connections (delete (name cn) (connections_ sv)) sv) s)) /\
  this_loop s' = this_loop s /\
  table (self (poller_ s')) = delete (fd_ ch) (table (self (poller_ s))) /\
  watched (poller_ s') = delete (fd_ ch) (watched (poller_ s)) /\
  pendingFunctors_ s' = [].

(** On one loop the server is told by a call. *)
Lemma removeConnection_here s sv c cn :
  server (objs s) = Some sv -> loop_ sv = this_loop s -> isInLoopThread s = true ->
  conn_at s c cn -> getLoop cn = this_loop s ->
  removeConnection c s = Ok (tt, queued (TcpConnection_connectDestroyed c)
    (with_server (set_connections (delete (name cn) (connections_ sv)) sv) s)).
Proof.
  intros Hsv Hl Hin Hc Hloop.
  assert (Hwp : wp (removeConnection c) (fun _ s' => s' = queued (TcpConnection_connectDestroyed c)
    (with_server (set_connections (delete (name cn) (connections_ sv)) sv) s)) s).
  { unfold removeConnection. apply wp_bind. eapply wp_server_get; [done|].
    apply wp_visit_here; [congruence|]. apply wp_runInLoop_here; [done|].
    unfold removeConnectionInLoop. apply wp_bind. eapply wp_server_get; [done|].
    apply wp_bind, wp_visit_here; [congruence|]. apply wp_assertInLoopThread; [done|].
    apply wp_bind. eapply wp_conn_get; [exact Hc|]. apply wp_bind.
    eapply wp_server_modify; [done|]. apply wp_visit_here; [cbn; congruence|].
    by apply wp_queueInLoop. }
  apply wp_inv in Hwp as ([] & s' & Hr & ->). exact Hr.
Qed.

Lemma close_here s sv c cn ch :
  served s sv c cn ch -> loop_ sv = this_loop s -> discreet c (setState kDisconnected cn) ->
  pendingFunctors_ s = [] ->
  wp (TcpConnection.handleClose c ;; run_pending (loop_ sv) ;; run_pending (this_loop s))
     (fun _ => left s sv c cn ch) s.
Proof.
  intros Hs Hl Hcall Hp0. assert (Hloop : getLoop cn = this_loop s) by apply Hs.
  destruct (handleClose_discreet s sv c cn ch Hs Hcall)
    as (s2 & ch2 & Hrun & Hreg2 & Hev2 & Hst2 & Hp2 & Hw2 & Ho2 & _ & Hl2 & Hfd2 & Hth2 & Ht2).
  assert (Hsv2 : server (objs s2) = Some sv) by (injection Ho2 as -> _; apply Hs).
  assert (Hc2 : conn_at s2 c (setState kDisconnected cn)).
  { injection Ho2 as _ _ _ Hcs _. unfold conn_at. cbn. rewrite Hcs. apply lookup_insert_eq. }
  set (sv' := set_connections (delete (name cn) (connections_ sv)) sv).
  set (s3 := queued (TcpConnection_connectDestroyed c) (with_server sv' s2)).
  rewrite (removeConnection_here s2 sv c (setState kDisconnected cn)) in Hrun;
    [|done | congruence | apply Hreg2 | done | by rewrite Hl2].
  apply wp_bind. eapply wp_ok; [exact Hrun|]. cbn [name setState]. fold sv' s3.
  assert (Hreg3 : registered (with_server sv' s2) (channel_ cn) ch2) by by apply (registered_poller s2).
  destruct (registered_queued (TcpConnection_connectDestroyed c) _ _ _ Hreg3) as [Hreg4 Hw4].
  fold s3 in Hreg4, Hw4.
  destruct (queued_same (TcpConnection_connectDestroyed c) (with_server sv' s2))
    as (Ho3 & Hp3 & _ & Hst3 & Hin3 & Hl3). fold s3 in Ho3, Hp3, Hst3, Hin3, Hl3.
  assert (Hself : self (poller_ s3) = self (poller_ s2)) by (unfold s3, queued; by case_match).
  assert (Hp3' : pendingFunctors_ s3 = [TcpConnection_connectDestroyed c])
    by (rewrite Hp3; cbn; by rewrite Hp2, Hp0).
  replace (loop_ sv) with (this_loop s3) by (rewrite Hl3; cbn; congruence).
  replace (this_loop s) with (this_loop s3) by (rewrite Hl3; exact Hl2).
  apply wp_bind, wp_run_pending_here; [by apply Hreg4|]. rewrite Hp3'. cbn [for_each]. wp_simp.
  cbn [run_task run_conn_task]. set (s4 := lset pending_lens [] _).
  assert (Hc4 : conn_at s4 c (setState kDisconnected cn))
    by (unfold conn_at in *; cbn; rewrite Ho3; exact Hc2).
  eapply (connectDestroyed_spec c (setState kDisconnected cn) ch2 s4); try done.
  { change (events_ ch2 = kNoneEvent (statics s3)). rewrite Hst3. cbn in Hst2 |- *. by rewrite Hst2. }
  { change (watched (poller_ s4)) with (watched (poller_ s3)). rewrite Hw4, Hfd2.
    change (watched (poller_ (with_server sv' s2))) with (watched (poller_ s2)). rewrite Hw2. apply lookup_delete_eq. }
  intros p' HI' Ht' Hw' Hin5. set (s5 := set_calling false (lset poller_lens p' s4)).
  change (this_loop s3) with (this_loop s5).
  apply wp_run_pending_here; [exact Hin5|]. cbn [pendingFunctors_ s5 for_each]. wp_simp.
  split_and!.
  - unfold objects. cbn. rewrite Ho3. cbn. injection Ho2 as _ -> -> -> ->. done.
  - cbn. rewrite Hl3. exact Hl2.
  - cbn. rewrite Ht', Hfd2. change (self (poller_ s4)) with (self (poller_ s3)). by rewrite Hself, Ht2.
  - cbn. rewrite Hw'. change (watched (poller_ s4)) with (watched (poller_ s3)). rewrite Hw4. exact Hw2.
  - done.
Qed.

(** The three turns. *)
Lemma close_chain s sv c cn ch p :
  served s sv c cn ch -> elsewhere s (loop_ sv) p -> discreet c (setState kDisconnected cn) ->
  pendingFunctors_ s = [] -> pendingFunctors_ p = [] ->
  wp (TcpConnection.handleClose c ;; run_pending (loop_ sv) ;; run_pending (this_loop s))
     (fun _ => left s sv c cn ch) s.
Proof.
  intros Hs He Hcall Hp0 Hpp. assert (Hloop : getLoop cn = this_loop s) by apply Hs.
  apply wp_bind. eapply wp_mono; [by apply (close_first s sv c cn ch p)|].
  intros [] s1 (p1 & Ho1 & Hl1 & Hp1 & Hun1 & He1 & Hpp1).
  assert (Hsv1 : server (objs s1) = Some sv) by (injection Ho1 as -> _; apply Hs).
  assert (Hc1 : conn_at s1 c (setState kDisconnected cn)).
  { injection Ho1 as _ _ _ Hcs _. unfold conn_at. cbn. rewrite Hcs. apply lookup_insert_eq. }
  apply wp_bind. eapply wp_mono.
  { eapply (close_second s1 sv c _ (channel_ cn)); [done | exact Hc1 | | exact Hun1 | | exact He1 |].
    - cbn. congruence.
    - congruence.
    - by rewrite Hpp1, Hpp. }
  intros [] s2 (p2 & Ho2 & Hl2 & Hp2 & Hlp2 & Hpp2 & Hun2). rewrite Hl1 in *.
  assert (Hc2 : conn_at s2 c (setState kDisconnected cn)).
  { injection Ho2 as _ _ _ Hcs _. unfold conn_at in *. cbn in *. by rewrite Hcs. }
  eapply wp_mono.
  { eapply (close_third s2 c (setState kDisconnected cn) _ (fd_ ch)); try done.
    - destruct He as (Hne & _). congruence.
    - apply lookup_delete_eq. }
  intros [] s3 (Ho3 & Hl3 & Ht3 & Hw3 & Hp3). split_and!; try done. rewrite Ho3, Ho2.
  unfold objects. cbn. by injection Ho1 as _ -> -> -> ->.
Qed.

(** *** A new connection *)

(** The connection object once the server has set it up. *)
Definition accepted (sv : TcpServer) (ch : chan) (ioLoop : loop_id) (sockfd : Z)
    (localAddr peerAddr : sockaddr) : TcpConnection :=
  setConnCloseCallback (Some TcpServer_removeConnection)
    (TcpConnection.setWriteCompleteCallback (writeCompleteCallback_ sv)
      (TcpConnection.setMessageCallback (messageCallback_ sv)
        (TcpConnection.setConnectionCallback (connectionCallback_ sv)
          (new_conn ch ioLoop (conn_name sv (nextConnId_ sv)) sockfd localAddr peerAddr)))).

(** The server after it has taken connection [c]. *)
Definition with_new (c : conn) (sv : TcpServer) : TcpServer :=
  set_connections (<[conn_name sv (nextConnId_ sv) := c]> (connections_ sv))
    (set_nextConnId (nextConnId_ sv + 1) sv).

End TcpServer_lemmas.

Section newConnection_lemmas.
Context {B : Build} {P K U : Type} `{PollerContract P K}.
Context `{!SysCalls K, !Quiet K, !QuietPoller P K, !NetSys K, !QuietNet K}.
Context {A : Allocator} `{!UserCode P K U}.
Local Abbreviation Loop := (Reactor P K (World P K U)) (only parsing).
Implicit Types s : Loop.

(** The connection is built in the heap of the process, its channel in that of
    the other loop. *)
Lemma make_connection_elsewhere s l p connName sockfd localAddr peerAddr
    (Q : conn -> Loop -> Prop) :
  elsewhere s l p -> can_watch (at_home p s) sockfd ->
  (forall c ch p' k,
     w_conns (objs s) !! c = None -> quiet (lget os_lens s) k ->
     this_loop p' = l -> ownerThread (poller_ p') = ownerThread (poller_ p) ->
     pendingFunctors_ p' = pendingFunctors_ p ->
     (forall s', statics s' = statics s -> quiet k (lget os_lens s') ->
        can_watch (at_home p' s') sockfd /\
        lget memory_lens (at_home p' s') !! ch = Some (new_channel c l sockfd) /\
        watched (poller_ (at_home p' s')) = watched (poller_ (at_home p s))) ->
     Q c (with_conn c (new_conn ch l connName sockfd localAddr peerAddr)
            (lset os_lens k (set_parked (<[l := p']> (parked s)) s)))) ->
  wp (make_connection l connName sockfd localAddr peerAddr) Q s.
Proof.
  intros (Hne & Hp & Hlp & Hth) (HI & Hfd & Ht & Hsz) HQ. unfold make_connection. wp_simp.
  set (c := new_address (dom (w_conns (objs s)))).
  eapply wp_visit_other; [done..|]. wp_simp.
  set (r0 := unpark p (this_thread s) s).
  set (ch := new_address (dom (lget memory_lens r0))).
  assert (Hc : w_conns (objs s) !! c = None) by apply not_elem_of_dom, new_address_fresh.
  assert (Hch : lget memory_lens r0 !! ch = None) by apply not_elem_of_dom, new_address_fresh.
  eapply wp_ok; [apply TcpConnection_ctor_ok|]. wp_simp.
  set (r := constructed c ch l connName sockfd localAddr peerAddr r0).
  set (k := (sys_setsockopt sockfd SO_KEEPALIVE true (lget os_lens s)).2).
  replace (leave l r s) with (with_conn c (new_conn ch l connName sockfd localAddr peerAddr)
            (lset os_lens k (set_parked (<[l := park r]> (parked s)) s)))
    by (unfold r; by destruct s as [? ? ? ? ? [] ? ? ? ? ? ? []]).
  apply (HQ c ch (park r) k); try done.
  - apply quiet_setsockopt.
  - intros s' Hst Hq'.
    destruct (new_law ch (new_channel c l sockfd) (poller_ (at_home p s)) HI Hch) as [HI1 Hw1].
    set (p1 := lset chans_lens _ (poller_ (at_home p s))) in *.
    assert (Hq : quiet (kern p1) (lget os_lens s')).
    { eapply quiet_trans; [|exact Hq']. apply quiet_setsockopt. }
    destruct (quiet_law (lget os_lens s') p1 Hq HI1) as [HI2 Hw2].
    assert (Hpol : poller_ (at_home (park r) s') = lset kern_lens (lget os_lens s') p1).
    { unfold at_home, unpark, p1. cbn in Hst |- *. by rewrite Hst. }
    unfold can_watch. rewrite Hpol. split_and!; try done.
    + apply lookup_insert_eq.
    + rewrite Hw2. exact Hw1.
Qed.

Lemma pool_thread (q : EventLoopThreadPool) s :
  isInLoopThread (lset (pool_in_loop (P:=P) (K:=K) (U:=U)) q s) = isInLoopThread s.
Proof. done. Qed.

(** A connection on the loop that runs. *)
Lemma make_connection_here s connName sockfd localAddr peerAddr (Q : conn -> Loop -> Prop) :
  can_watch s sockfd ->
  (forall c ch k,
     let s' := with_conn c (new_conn ch (this_loop s) connName sockfd localAddr peerAddr)
       (lset os_lens k (lset memory_lens
          (<[ch := new_channel c (this_loop s) sockfd]> (lget memory_lens s)) s)) in
     w_conns (objs s) !! c = None -> can_watch s' sockfd ->
     watched (poller_ s') = watched (poller_ s) -> Q c s') ->
  wp (make_connection (this_loop s) connName sockfd localAddr peerAddr) Q s.
Proof.
  intros Hcan HQ. unfold make_connection. wp_simp.
  set (c := new_address (dom (w_conns (objs s)))).
  apply wp_visit_here; [done|]. wp_simp.
  eapply wp_ok; [apply TcpConnection_ctor_ok|]. wp_simp.
  destruct (constructed_watch c (new_address (dom (lget memory_lens s))) connName sockfd localAddr
    peerAddr s Hcan (not_elem_of_dom_1 _ _ (new_address_fresh _))) as [Hcan' Hw'].
  eapply HQ; [apply not_elem_of_dom, new_address_fresh | exact Hcan' | exact Hw'].
Qed.

(** The connection once its callbacks are set. *)
Definition with_callbacks (sv : TcpServer) (cn : TcpConnection) : TcpConnection :=
  setConnCloseCallback (Some TcpServer_removeConnection)
    (TcpConnection.setWriteCompleteCallback (writeCompleteCallback_ sv)
      (TcpConnection.setMessageCallback (messageCallback_ sv)
        (TcpConnection.setConnectionCallback (connectionCallback_ sv) cn))).

(** Up to the connection object, and from there to the call on its loop. *)
Lemma newConnection_run s sv sockfd peerAddr :
  let l := turn (threadPool_ (objs s)) 0 in
  server (objs s) = Some sv -> loop_ sv = this_loop s -> isInLoopThread s = true ->
  pool_wf (threadPool_ (objs s)) -> 1 <= nextConnId_ sv < 2 ^ 31 - 1 ->
  exists k localAddr,
    let s3 := lset os_lens k (with_server (set_nextConnId (nextConnId_ sv + 1) sv)
                (lset pool_in_loop (advance 1 (threadPool_ (objs s))) s)) in
    quiet (lget os_lens s) k /\
    forall c s4 cn,
      make_connection l (conn_name sv (nextConnId_ sv)) sockfd localAddr peerAddr s3 = Ok (c, s4) ->
      conn_at s4 c cn -> server (objs s4) = Some (set_nextConnId (nextConnId_ sv + 1) sv) ->
      newConnection sockfd peerAddr s =
        visit l (runInLoop (connectEstablished c) (TcpConnection_connectEstablished c))
          (with_conn c (with_callbacks sv cn) (with_server (with_new c sv) s4)).
Proof.
  intros l Hsv Hloop Hin Hwf Hid.
  set (s2 := with_server (set_nextConnId (nextConnId_ sv + 1) sv)
                (lset pool_in_loop (advance 1 (threadPool_ (objs s))) s)).
  exists (sys_getsockname sockfd (lget os_lens s2)).2,
    (match (sys_getsockname sockfd (lget os_lens s2)).1 with inl a => a | inr _ => zero_sockaddr end).
  intros s3. split; [apply quiet_getsockname|]. intros c s4 cn Hmake Hc Hsv4.
  assert (Hget : forall s0 sv0, server (objs s0) = Some sv0 -> server_get s0 = Ok (sv0, s0)).
  { intros s0 sv0 Hs0. unfold server_get. rewrite bind_gets. unfold of_option. by rewrite Hs0. }
  assert (Hmod : forall s0 sv0 f, server (objs s0) = Some sv0 ->
    server_modify f s0 = Ok (tt, with_server (f sv0) s0)).
  { intros s0 sv0 f Hs0. unfold server_modify, zoom, modify. cbn. by rewrite Hs0. }
  assert (Hset : forall s0 cn0 f, conn_at s0 c cn0 ->
    conn_modify c f s0 = Ok (tt, with_conn c (f cn0) s0)).
  { intros s0 cn0 f Hc0. unfold conn_modify.
    by erewrite bind_run by (unfold conn_get; rewrite bind_gets; unfold of_option; by rewrite Hc0). }
  assert (Hthr : visit (loop_ sv) assertInLoopThread s = Ok (tt, s)).
  { unfold visit. rewrite bool_decide_eq_true_2 by done. by apply assertInLoopThread_ok. }
  assert (Hid' : i32_checked (nextConnId_ sv + 1) = Ok (nextConnId_ sv + 1)).
  { apply i32_checked_ok. unfold in_i32. apply andb_true_intro.
    split; [apply Z.leb_le | apply Z.ltb_lt]; lia. }
  assert (Haddr : zoom os_lens (getLocalAddr sockfd) s2 =
    Ok (match (sys_getsockname sockfd (lget os_lens s2)).1 with
        | inl a => a | inr _ => zero_sockaddr end, s3)).
  { unfold s3, getLocalAddr, zoom, total, bind. by destruct (sys_getsockname _ _) as [[] ?]. }
  unfold newConnection. erewrite bind_run by by apply Hget. erewrite bind_run by exact Hthr.
  erewrite bind_run by apply (getNextLoop_ok pool_in_loop s Hin Hwf).
  change (turn (lget pool_in_loop s) 0) with l.
  erewrite bind_run by (unfold lift; by rewrite Hid').
  erewrite bind_run by by apply (Hmod _ sv). fold s2.
  erewrite bind_run by exact Haddr. erewrite bind_run by exact Hmake.
  erewrite bind_run by by apply Hmod. set (s5 := with_server _ s4).
  erewrite bind_run by by apply (Hget _ (with_new c sv)).
  erewrite bind_run by by apply (Hset _ cn).
  do 3 (erewrite bind_run by by apply Hset, conn_at_with).
  f_equal. unfold with_conn, s5, with_server. destruct s4 as [? ? ? ? ? ? ? ? ? ? ? ? []]. cbn.
  by rewrite !insert_insert_eq.
Qed.

Lemma newConnection_prefix s sv sockfd peerAddr (Q : unit -> Loop -> Prop) :
  let l := turn (threadPool_ (objs s)) 0 in
  server (objs s) = Some sv -> loop_ sv = this_loop s -> isInLoopThread s = true ->
  pool_wf (threadPool_ (objs s)) -> 1 <= nextConnId_ sv < 2 ^ 31 - 1 ->
  (forall k localAddr,
     let s3 := lset os_lens k (with_server (set_nextConnId (nextConnId_ sv + 1) sv)
                 (lset pool_in_loop (advance 1 (threadPool_ (objs s))) s)) in
     quiet (lget os_lens s) k ->
     wp (make_connection l (conn_name sv (nextConnId_ sv)) sockfd localAddr peerAddr)
        (fun c s4 => exists cn, conn_at s4 c cn /\
           server (objs s4) = Some (set_nextConnId (nextConnId_ sv + 1) sv) /\
           wp (visit l (runInLoop (connectEstablished c) (TcpConnection_connectEstablished c))) Q
              (with_conn c (with_callbacks sv cn) (with_server (with_new c sv) s4))) s3) ->
  wp (newConnection sockfd peerAddr) Q s.
Proof.
  intros l Hsv Hloop Hin Hwf Hid HQ.
  destruct (newConnection_run s sv sockfd peerAddr Hsv Hloop Hin Hwf Hid) as (k & addr & Hq & Hrun).
  destruct (wp_inv _ _ _ (HQ k addr Hq)) as (c & s4 & Hmake & cn & Hc & Hsv4 & Hw).
  unfold wp. rewrite (Hrun c s4 cn Hmake Hc Hsv4). exact Hw.
Qed.

(** The base loop's part: the connection is made and registered with the server,
    and its loop is asked to establish it. *)
Lemma newConnection_posts s sv p sockfd peerAddr :
  let l := turn (threadPool_ (objs s)) 0 in
  server (objs s) = Some sv -> loop_ sv = this_loop s -> isInLoopThread s = true ->
  pool_wf (threadPool_ (objs s)) -> 1 <= nextConnId_ sv < 2 ^ 31 - 1 ->
  elsewhere s l p -> can_watch (at_home p s) sockfd ->
  wp (newConnection sockfd peerAddr)
     (fun _ s' => exists c ch localAddr p',
        w_conns (objs s) !! c = None /\ server (objs s') = Some (with_new c sv) /\
        conn_at s' c (accepted sv ch l sockfd localAddr peerAddr) /\
        threadPool_ (objs s') = advance 1 (threadPool_ (objs s)) /\
        statics s' = statics s /\ elsewhere s' l p' /\
        pendingFunctors_ p' = pendingFunctors_ p ++ [TcpConnection_connectEstablished c] /\
        can_watch (at_home p' s') sockfd /\
        lget memory_lens (at_home p' s') !! ch = Some (new_channel c l sockfd) /\
        watched (poller_ (at_home p' s')) = watched (poller_ (at_home p s))) s.
Proof.
  intros l Hsv Hloop Hin Hwf Hid He Hcan. apply newConnection_prefix with (sv := sv); [done..|].
  intros k addr s3 Hq. fold l. destruct He as (Hne & Hp & Hlp & Hth).
  assert (Hcan3 : can_watch (at_home p s3) sockfd /\
                  watched (poller_ (at_home p s3)) = watched (poller_ (at_home p s)))
    by by apply (can_watch_kernel (at_home p s) (at_home p s3) k).
  destruct Hcan3 as [Hcan3 Hw3].
  apply (make_connection_elsewhere s3 l p); [by split_and! | done |].
  intros c ch p' k' Hc Hq' Hlp' Ho' Hpend' Hhome.
  set (s4 := with_conn c _ _).
  exists (new_conn ch l (conn_name sv (nextConnId_ sv)) sockfd addr peerAddr).
  split; [exact (lookup_insert_eq _ _ _)|]. split; [done|]. set (s6 := with_conn c _ _).
  assert (He6 : elsewhere s6 l p').
  { split_and!; [done | apply lookup_insert_eq | done | rewrite Ho'; exact Hth]. }
  pose proof He6 as (Hne6 & Hp6 & _ & Hth6).
  eapply wp_post_run; [done | exact Hp6 | done |].
  destruct (told_same (TcpConnection_connectEstablished c) p' s6 Hth6) as (Hl' & Hpe & Ho & Hh).
  set (s7 := posted _ _ _ _).
  destruct (Hhome s7) as (Hcan7 & Hm7 & Hw7); [done | apply quiet_write|].
  exists c, ch, addr, (told (TcpConnection_connectEstablished c) p' s6).
  rewrite Hh, Hpe, Hpend'. split_and!; try done.
  - exact (conn_at_with _ _ _).
  - split_and!; [done | apply lookup_insert_eq | by rewrite Hl' | rewrite Ho, Ho'; exact Hth].
  - etransitivity; [exact Hw7 | exact Hw3].
Qed.

(** A connection of server [sv], up to its first callback: it is in the map, connected
    and watched for reading on loop [l], which was in state [r]. *)
Definition established s sv l (r : Loop) sockfd peerAddr (c : conn) (s1 : Loop) : Prop :=
  exists ch chn localAddr,
    w_conns (objs s) !! c = None /\ server (objs s1) = Some (with_new c sv) /\
    conn_at s1 c (setState kConnected (accepted sv ch l sockfd localAddr peerAddr)) /\
    threadPool_ (objs s1) = advance 1 (threadPool_ (objs s)) /\
    this_loop s1 = l /\ registered s1 ch chn /\ fd_ chn = sockfd /\
    pendingFunctors_ s1 = pendingFunctors_ r /\
    watched (poller_ s1) =
      <[sockfd := (ch, encode (kReadEvent (statics s)))]> (watched (poller_ r)).

(** A turn of another loop that has one task. *)
Lemma run_pending_one l p f s :
  l <> this_loop s -> parked s !! l = Some p -> pendingFunctors_ p = [f] ->
  run_pending l s = (run_task f ;; modify (set_calling false))
    (lset pending_lens [] (set_calling true (switched l p s))).
Proof.
  intros Hl Hp Hf. unfold run_pending.
  assert (Hsw : switch l s = Ok (tt, switched l p s))
    by (unfold switch; by rewrite bool_decide_eq_false_2, Hp by done).
  erewrite bind_run by exact Hsw. set (s1 := switched l p s).
  change (pendingFunctors_ p) with (pendingFunctors_ (set_calling true s1)) in Hf.
  unfold doPendingFunctors. erewrite bind_run by reflexivity. rewrite bind_gets, Hf.
  erewrite bind_run by reflexivity. cbn [for_each]. rewrite bind_assoc. unfold bind.
  by destruct (run_task f _) as [[[] s']|].
Qed.

(** The other loop's part. *)
Lemma newConnection_chain s sv p sockfd peerAddr :
  let l := turn (threadPool_ (objs s)) 0 in
  server (objs s) = Some sv -> loop_ sv = this_loop s -> isInLoopThread s = true ->
  pool_wf (threadPool_ (objs s)) -> 1 <= nextConnId_ sv < 2 ^ 31 - 1 ->
  elsewhere s l p -> can_watch (at_home p s) sockfd -> pendingFunctors_ p = [] ->
  kReadEvent (statics s) <> kNoneEvent (statics s) ->
  exists c s1, established s sv l (at_home p s) sockfd peerAddr c s1 /\
    (newConnection sockfd peerAddr ;; run_pending l) s =
      (call_connection c (connectionCallback_ sv) ;; modify (set_calling false)) s1.
Proof.
  intros l Hsv Hloop Hin Hwf Hid He Hcan Hpp Hev.
  destruct (wp_inv _ _ _ (newConnection_posts s sv p sockfd peerAddr Hsv Hloop Hin Hwf Hid He Hcan))
    as ([] & s1 & Hnew & c & ch & localAddr & p1 & Hc & Hsv1 & Hc1 & Hpool1 & Hst1 & He1 & Hpe1 & Hcan1 & Hm1 & Hw1).
  fold l in Hc1, He1, Hm1. destruct He1 as (Hne & Hp1 & Hlp1 & Hth1).
  erewrite bind_run by exact Hnew.
  rewrite (run_pending_one l p1 (TcpConnection_connectEstablished c)) by (rewrite ?Hpe1, ?Hpp; done).
  cbn [run_task run_conn_task]. set (s2 := lset pending_lens [] _).
  set (cn := accepted sv ch l sockfd localAddr peerAddr) in *.
  destruct Hcan1 as (HI1 & Hfd & Ht1 & Hsz1).
  destruct (connectEstablished_spec c cn (new_channel c l sockfd) s2)
    as (s3 & chn & Hrun & Hc3 & Hreg3 & Hch3 & Hst3 & Hp3 & Hw3 & Ho3 & Hl3 & Hth3); try done.
  { split_and!; try done; [apply Z.eqb_refl | by left |].
    exact (Z.lt_trans _ _ _ (Z.lt_succ_diag_r _) Hsz1). }
  { cbn in Hst1 |- *. by rewrite Hst1. }
  exists c, s3. split; [|unfold bind; by rewrite Hrun].
  exists ch, chn, localAddr. split_and!; try done.
  - by rewrite Ho3.
  - by rewrite Ho3.
  - by rewrite Hl3.
  - by apply (f_equal fd_) in Hch3.
  - rewrite Hp3. change (pendingFunctors_ (at_home p s)) with (pendingFunctors_ p). by rewrite Hpp.
  - rewrite Hw3, <- Hw1. change (statics s2) with (statics s1). by rewrite Hst1.
Qed.

(** With no other loop the connection is established at once. *)
Lemma newConnection_here s sv sockfd peerAddr :
  turn (threadPool_ (objs s)) 0 = this_loop s ->
  server (objs s) = Some sv -> loop_ sv = this_loop s -> isInLoopThread s = true ->
  pool_wf (threadPool_ (objs s)) -> 1 <= nextConnId_ sv < 2 ^ 31 - 1 -> can_watch s sockfd ->
  kReadEvent (statics s) <> kNoneEvent (statics s) ->
  exists c s1, established s sv (this_loop s) s sockfd peerAddr c s1 /\
    newConnection sockfd peerAddr s = call_connection c (connectionCallback_ sv) s1.
Proof.
  intros Hl Hsv Hloop Hin Hwf Hid Hcan Hev.
  destruct (newConnection_run s sv sockfd peerAddr Hsv Hloop Hin Hwf Hid) as (k & addr & Hq & Hnew).
  rewrite Hl in Hnew. set (s3 := lset os_lens k _) in *.
  destruct (can_watch_kernel s s3 k sockfd) as [Hcan3 Hw3]; [done..|].
  assert (Hmake : wp (make_connection (this_loop s3) (conn_name sv (nextConnId_ sv)) sockfd addr peerAddr)
    (fun c s4 => exists ch k', s4 = with_conn c
         (new_conn ch (this_loop s) (conn_name sv (nextConnId_ sv)) sockfd addr peerAddr)
         (lset os_lens k' (lset memory_lens
            (<[ch := new_channel c (this_loop s) sockfd]> (lget memory_lens s3)) s3)) /\
       w_conns (objs s) !! c = None /\ can_watch s4 sockfd /\
       watched (poller_ s4) = watched (poller_ s)) s3).
  { apply make_connection_here; [done|]. intros c ch k' s4 Hc Hcan4 Hw4.
    exists ch, k'. split_and!; [done | exact Hc | apply Hcan4.. | by rewrite Hw4, Hw3]. }
  destruct (wp_inv _ _ _ Hmake) as (c & s4 & Hm & ch & k' & Hs4 & Hc & Hcan4 & Hw4).
  assert (Hc4 : conn_at s4 c (new_conn ch (this_loop s) (conn_name sv (nextConnId_ sv)) sockfd addr peerAddr))
    by (rewrite Hs4; apply conn_at_with).
  rewrite (Hnew c s4 _ Hm Hc4 ltac:(by rewrite Hs4)).
  change (with_callbacks sv _) with (accepted sv ch (this_loop s) sockfd addr peerAddr).
  set (cn := accepted _ _ _ _ _ _). set (s5 := with_conn c cn _).
  assert (Hl5 : this_loop s5 = this_loop s) by (unfold s5; by rewrite Hs4).
  assert (Hin5 : isInLoopThread s5 = true) by (unfold s5; rewrite Hs4; exact Hin).
  destruct Hcan4 as (HI & Hfd & Ht & Hsz).
  destruct (connectEstablished_spec c cn (new_channel c (this_loop s) sockfd) s5)
    as (s6 & chn & Hrun & Hc6 & Hreg6 & Hch6 & Hst6 & Hp6 & Hw6 & Ho6 & Hl6 & Hth6); try done.
  { apply conn_at_with. }
  { split_and!; try done; [| by left |].
    - change (lget memory_lens s5) with (lget memory_lens s4). rewrite Hs4. apply lookup_insert_eq.
    - exact (Z.lt_trans _ _ _ (Z.lt_succ_diag_r _) Hsz). }
  { unfold s5. by rewrite Hs4. }
  exists c, s6. split.
  - exists ch, chn, addr. split_and!; try done.
    + by rewrite Ho6.
    + rewrite Ho6. unfold s5. by rewrite Hs4.
    + by rewrite Hl6.
    + by apply (f_equal fd_) in Hch6.
    + rewrite Hp6. unfold s5. by rewrite Hs4.
    + rewrite Hw6. change (watched (poller_ s5)) with (watched (poller_ s4)). rewrite Hw4.
      unfold s5. by rewrite Hs4.
  - unfold visit. rewrite bool_decide_eq_true_2 by done. unfold runInLoop.
    erewrite bind_run by reflexivity. by rewrite Hin5, Hrun.
Qed.

End newConnection_lemmas.

(** ** The map of connections *)

Section conn_names.

Lemma dec_text_length n : (length (dec_text n) <= 20)%nat.
Proof.
  unfold dec_text. rewrite length_reverse, length_fmap. generalize 10 n. generalize 20%nat.
  induction n0 as [|k IH]; intros b m; cbn; [lia|]. case_match; cbn; [lia|].
  specialize (IH b (m / b)). lia.
Qed.

Lemma dec_text_inj a b : 0 <= a < 10 ^ 20 -> 0 <= b < 10 ^ 20 -> dec_text a = dec_text b -> a = b.
Proof.
  intros Ha Hb He. pose proof (dec_text_parse a Ha) as Hpa. rewrite He, dec_text_parse in Hpa by done.
  by injection Hpa.
Qed.

(** Different numbers make different names. *)
Lemma conn_name_inj sv a b :
  ipPort_ sv = [] -> 0 <= a < 2 ^ 31 -> 0 <= b < 2 ^ 31 -> conn_name sv a = conn_name sv b -> a = b.
Proof.
  intros Hip Ha Hb He. unfold conn_name in He. rewrite Hip in He. apply app_inv_head in He.
  assert (Hfits : forall n, 0 <= n < 2 ^ 31 ->
    take 63 ("-"%byte :: [] ++ "#"%byte :: int_text n) = "-"%byte :: "#"%byte :: dec_text n).
  { intros n Hn. unfold int_text. rewrite (proj2 (Z.ltb_ge n 0)) by lia. cbn [app].
    pose proof (dec_text_length n). apply take_ge. rewrite !length_cons. lia. }
  rewrite !Hfits in He by done. injection He as He. apply dec_text_inj; lia || done.
Qed.
End conn_names.

Section TcpServer_wf.
Context {P K U : Type}.
Implicit Types x : World P K U.

(** Every entry of the map is a connection under its own name, made from a number
    already used. *)
Definition conns_wf x : Prop :=
  match server x with
  | None => True
  | Some sv =>
      ipPort_ sv = [] /\ 1 <= nextConnId_ sv < 2 ^ 31 /\
      forall k c, connections_ sv !! k = Some c ->
        exists id cn, 1 <= id < nextConnId_ sv /\ k = conn_name sv id /\
          w_conns x !! c = Some cn /\ name cn = k
  end.

Definition wf_order x x' : Prop := conns_wf x -> conns_wf x'.

Lemma conns_wf_put x c cn cn' :
  w_conns x !! c = Some cn -> name cn' = name cn -> conns_wf x ->
  conns_wf (lset conns_lens (<[c := cn']> (w_conns x)) x).
Proof.
  intros Hc Hn. unfold conns_wf. cbn. destruct (server x) as [sv|]; [|done].
  intros (Hip & Hid & Hall). split_and!; [done|lia|lia|].
  intros k c' Hk. destruct (Hall k c' Hk) as (id & cn1 & ? & ? & Hc1 & Hn1).
  exists id. destruct (decide (c = c')) as [<-|Hne].
  - exists cn'. rewrite lookup_insert_eq. split_and!; try lia; try done. congruence.
  - exists cn1. by rewrite lookup_insert_ne.
Qed.

#[export] Instance wf_conn_order : ConnOrder wf_order.
Proof.
  split.
  - split; [intros x Hx; exact Hx | intros x y z Hxy Hyz Hx; by apply Hyz, Hxy].
  - intros x c cn cn' Hc (Hn & _) Hx. by eapply conns_wf_put.
Qed.

(** Only the server and the connections count. *)
Lemma conns_wf_same x x' :
  server x' = server x -> w_conns x' = w_conns x -> wf_order x x'.
Proof. unfold wf_order, conns_wf. by intros -> ->. Qed.

(** The name of the next connection is free. *)
Lemma next_name_free x sv :
  conns_wf x -> server x = Some sv -> connections_ sv !! conn_name sv (nextConnId_ sv) = None.
Proof.
  unfold conns_wf. intros Hwf Hsv. rewrite Hsv in Hwf. destruct Hwf as (Hip & Hid & Hall).
  destruct (connections_ sv !! _) as [c|] eqn:Hk; [|done].
  destruct (Hall _ _ Hk) as (id & _ & Hr & He & _). apply conn_name_inj in He; [lia | done | lia..].
Qed.
End TcpServer_wf.

Section TcpServer_along.
Context {B : Build} {P K U : Type} `{PollerOps P K} `{!SysCalls K, !NetSys K} {A : Allocator}.
Context `{!UserCode P K U}.
Local Abbreviation Loop := (Reactor P K (World P K U)) (only parsing).
Local Abbreviation steady := (along (P:=P) (K:=K) (wf_order (P:=P) (K:=K) (U:=U))) (only parsing).
Implicit Types s : Loop.

(** The code of the user does not reach into the server. *)
Hypothesis connection_steady : forall n c, steady (user_connection n c).
Hypothesis message_steady : forall n c t, steady (user_message n c t).
Hypothesis close_steady : forall cb c, steady (other_close cb c).
Hypothesis init_steady : forall n l, steady (user_init n l).
Hypothesis task_steady : forall f, steady (other_task f).
Hypothesis start_steady : forall i, steady (start_loop i).

Lemma steady_same {T} (m : M Loop T) :
  (forall s r s', m s = Ok (r, s') ->
     server (objs s') = server (objs s) /\ w_conns (objs s') = w_conns (objs s)) -> steady m.
Proof. intros Hm s r s' Hrun. destruct (Hm s r s' Hrun). by apply conns_wf_same. Qed.

Lemma steady_zoom_obj {V T} (l : lens (World P K U) V) (m : M V T) :
  (forall t x, server (lset l t x) = server x /\ w_conns (lset l t x) = w_conns x) ->
  steady (zoom (obj_lens l) m).
Proof.
  intros Hl. apply steady_same. intros s r s'. unfold zoom.
  destruct (m _) as [[r' t]|]; intros [= <- <-]. apply Hl.
Qed.

Lemma steady_visit {T} l (m : M Loop T) : steady m -> steady (visit l m).
Proof.
  intros Hm s r s'. unfold visit. case_bool_decide; [apply Hm|].
  destruct (parked s !! l) as [p|]; [|done].
  destruct (m (unpark p (this_thread s) s)) as [[r' s1]|] eqn:E; intros [= <- <-].
  apply Hm in E. etransitivity; [exact E|]. by apply conns_wf_same.
Qed.

Lemma steady_switch l : steady (switch l).
Proof.
  apply steady_same. intros s r s'. unfold switch. case_bool_decide; [by intros [= <- <-]|].
  destruct (parked s !! l); intros [= <- <-]. done.
Qed.

Lemma steady_for_each {T} (f : T -> M Loop unit) l :
  (forall x, steady (f x)) -> steady (for_each l f).
Proof.
  intros Hf. induction l as [|x l IH]; cbn [for_each]; [apply along_ret; exact _|].
  apply along_bind; [exact _ | apply Hf | done].
Qed.

Lemma steady_thread : steady assertInLoopThread.
Proof. apply along_thread; exact _. Qed.

Lemma steady_server_get : steady server_get.
Proof. unfold server_get. along_tac. Qed.

Lemma steady_server_modify f :
  (forall (x : World P K U) sv, server x = Some sv -> conns_wf x ->
     conns_wf (lset server_lens (Some (f sv)) x)) ->
  steady (server_modify f).
Proof.
  intros Hf s r s' [= <- <-] Hwf. cbn. destruct (server (objs s)) as [sv|] eqn:Hsv.
  - by apply (Hf (objs s) sv).
  - by unfold conns_wf.
Qed.

(** A setter of the server. *)
Lemma steady_setter f :
  (forall sv, ipPort_ (f sv) = ipPort_ sv /\ name_ (f sv) = name_ sv /\
     nextConnId_ (f sv) = nextConnId_ sv /\ connections_ (f sv) = connections_ sv) ->
  steady (server_modify f).
Proof.
  intros Hf. apply steady_server_modify. intros x sv Hsv. unfold conns_wf, conn_name.
  destruct (Hf sv) as (Hi & Hn & Hid & Hc). rewrite Hsv. cbn. by rewrite Hi, Hn, Hid, Hc.
Qed.

Lemma steady_start_flag : steady (server_modify set_started).
Proof. by apply steady_setter. Qed.

Lemma steady_delete k :
  steady (server_modify (fun sv => set_connections (delete k (connections_ sv)) sv)).
Proof.
  apply steady_server_modify. intros x sv Hsv. unfold conns_wf. rewrite Hsv.
  intros (Hip & Hid & Hall). cbn. split; [done|]. split; [lia|].
  intros k' c Hk. apply lookup_delete_Some in Hk as [_ Hk]. by apply Hall.
Qed.

Lemma steady_queueInLoop f : steady (queueInLoop f).
Proof. apply along_queueInLoop; exact _. Qed.

Lemma steady_runInLoop m f : steady m -> steady (runInLoop m f).
Proof. by apply along_runInLoop; exact _. Qed.

Lemma steady_conn_get c : steady (conn_get c).
Proof. apply along_conn_get; exact _. Qed.

Local Hint Resolve steady_visit steady_thread steady_server_get steady_delete steady_queueInLoop
  steady_conn_get steady_start_flag : along.

Lemma steady_removeConnectionInLoop c : steady (removeConnectionInLoop c).
Proof. unfold removeConnectionInLoop. along_tac. Qed.

Local Hint Resolve steady_removeConnectionInLoop steady_runInLoop : along.

Lemma steady_removeConnection c : steady (removeConnection c).
Proof. unfold removeConnection. along_tac. Qed.

(** What the connections do for their user. *)
Lemma steady_on_connection n c : steady (on_connection n c).
Proof. apply connection_steady. Qed.
Lemma steady_on_message n c t : steady (on_message n c t).
Proof. apply message_steady. Qed.
Lemma steady_on_close cb c : steady (on_close cb c).
Proof. destruct cb; [apply steady_removeConnection | apply close_steady..]. Qed.

Local Hint Resolve steady_on_connection steady_on_message steady_on_close : along.

Lemma steady_conn_modify c f : (forall cn, name (f cn) = name cn) -> steady (conn_modify c f).
Proof.
  intros Hf s [] s' Hrun Hwf. apply bind_ok in Hrun as (cn & s1 & Hg & Hp).
  apply conn_get_inv in Hg as [-> Hc]. injection Hp as <-. by eapply conns_wf_put.
Qed.

Lemma steady_connectEstablished c : steady (connectEstablished c).
Proof. apply along_connectEstablished; [exact _ | auto with along | by apply steady_conn_modify]. Qed.

Lemma steady_conn_call fuel c cl : steady (run_conn_call fuel c cl).
Proof. apply along_conn_call; [exact _ | auto with along..|]. intros _. apply steady_connectEstablished. Qed.

Lemma steady_connectDestroyed c : steady (connectDestroyed c).
Proof. apply (steady_conn_call 0 c CallDestroyed). Qed.

Local Hint Resolve steady_connectEstablished steady_connectDestroyed : along.

Lemma steady_run_task f : steady (run_task f).
Proof.
  destruct f; cbn [run_task run_conn_task]; auto with along.
  - apply along_sendInLoop; [exact _..|]. unfold read_memory. along_tac.
  - apply (steady_conn_call 0 c CallShutdownInLoop).
  - apply (steady_conn_call 0 c CallForceCloseInLoop).
  - apply (steady_conn_call 0 c (CallRead true)).
  - apply (steady_conn_call 0 c (CallRead false)).
  - by apply steady_conn_modify.
Qed.

Lemma steady_run_pending l : steady (run_pending l).
Proof.
  unfold run_pending, doPendingFunctors.
  apply along_bind; [exact _ | apply steady_switch | intros _].
  along_tac. apply steady_for_each, steady_run_task.
Qed.

(** Code that touches neither the server nor the connections. *)
Definition same (x x' : World P K U) : Prop := server x' = server x /\ w_conns x' = w_conns x.

#[local] Instance same_preorder : PreOrder same.
Proof. split; [by split | intros x y z [H1' H2] [H3 H4]; split; congruence]. Qed.

Lemma same_thread : along same (assertInLoopThread (S:=Loop)).
Proof. unfold assertInLoopThread, abortNotInLoopThread, LOG_FATAL. along_tac. Qed.

Lemma same_visit {T} l (m : M Loop T) : along same m -> along same (visit l m).
Proof.
  intros Hm s r s'. unfold visit. case_bool_decide; [apply Hm|].
  destruct (parked s !! l) as [p|]; [|done].
  destruct (m (unpark p (this_thread s) s)) as [[r' s1]|] eqn:E; intros [= <- <-].
  apply Hm in E. etransitivity; [exact E | by split].
Qed.

Lemma same_pool {T} (m : M EventLoopThreadPool T) : along same (zoom pool_in_loop m).
Proof. intros s r s'. unfold zoom. destruct (m _) as [[r' t]|]; intros [= <- <-]. by split. Qed.

Local Hint Resolve same_thread same_visit same_pool : along.

Lemma same_getNextLoop : along same (getNextLoop pool_in_loop).
Proof. unfold getNextLoop. along_tac. Qed.

Lemma server_get_inv s sv s' :
  server_get s = Ok (sv, s') -> s' = s /\ server (objs s) = Some sv.
Proof.
  unfold server_get, bind, gets, of_option.
  destruct (server (objs s)); intros [= <- <-]. done.
Qed.

Lemma make_connection_inv l connName sockfd localAddr peerAddr s c s' :
  make_connection l connName sockfd localAddr peerAddr s = Ok (c, s') ->
  server (objs s') = server (objs s) /\ w_conns (objs s) !! c = None /\
  exists cn, name cn = connName /\ w_conns (objs s') = <[c := cn]> (w_conns (objs s)).
Proof.
  unfold make_connection, bind, gets, visit, ret.
  set (c0 := new_address (dom (w_conns (objs s)))).
  assert (Hc : w_conns (objs s) !! c0 = None) by apply not_elem_of_dom, new_address_fresh.
  case_bool_decide.
  - rewrite TcpConnection_ctor_ok. intros [= <- <-]. split; [done|]. split; [done|].
    eexists. by split; [|reflexivity].
  - destruct (parked s !! l) as [p|]; [|done]. rewrite TcpConnection_ctor_ok. intros [= <- <-].
    split; [done|]. split; [done|]. eexists. by split; [|reflexivity].
Qed.

(** The callbacks of the server go to the connection, and its loop is told. *)
Lemma steady_setup l c :
  steady (let! sv := server_get in
    conn_modify c (TcpConnection.setConnectionCallback (connectionCallback_ sv)) ;;
    conn_modify c (TcpConnection.setMessageCallback (messageCallback_ sv)) ;;
    conn_modify c (TcpConnection.setWriteCompleteCallback (writeCompleteCallback_ sv)) ;;
    conn_modify c (setConnCloseCallback (Some TcpServer_removeConnection)) ;;
    visit l (runInLoop (connectEstablished c) (TcpConnection_connectEstablished c))).
Proof.
  along_tac; by apply steady_conn_modify.
Qed.

Lemma steady_newConnection sockfd peerAddr : steady (newConnection sockfd peerAddr).
Proof.
  intros s [] s' Hrun Hwf. unfold newConnection in Hrun.
  apply bind_ok in Hrun as (sv & s1 & Hg & Hrun). apply server_get_inv in Hg as [-> Hsv].
  apply bind_ok in Hrun as ([] & s2 & Hv & Hrun).
  assert (S2 : same (objs s) (objs s2)) by (eapply same_visit; [apply same_thread | exact Hv]).
  apply bind_ok in Hrun as (l & s3 & Hl & Hrun). apply same_getNextLoop in Hl.
  apply bind_ok in Hrun as (id & s4 & Hi & Hrun).
  assert (Hid : id = nextConnId_ sv + 1 /\ nextConnId_ sv + 1 < 2 ^ 31 /\ s4 = s3).
  { unfold lift, i32_checked, in_i32 in Hi. case_match eqn:E1; [|done]. case_match eqn:E2; [|done].
    apply andb_true_iff in E2 as [_ E2]. apply Z.ltb_lt in E2. by simplify_eq. }
  destruct Hid as (-> & Hid & ->).
  apply bind_ok in Hrun as ([] & s5 & Hm & Hrun). injection Hm as <-.
  apply bind_ok in Hrun as (la & s6 & Ha & Hrun).
  assert (S6 : same (objs (lset (obj_lens server_lens)
    (set_nextConnId (nextConnId_ sv + 1) <$> server (objs s3)) s3)) (objs s6)).
  { revert Ha. apply along_zoom; [exact _ | done]. }
  apply bind_ok in Hrun as (c & s7 & Hmk & Hrun).
  apply make_connection_inv in Hmk as (Hsv7 & Hc & cn & Hn & Hcs7).
  apply bind_ok in Hrun as ([] & s8 & Hm & Hrun). injection Hm as <-.
  match type of Hrun with ?m ?s0 = _ =>
    enough (Hwf8 : conns_wf (objs s0)) by (revert Hwf8; eapply (steady_setup l c); exact Hrun)
  end.
  destruct S2 as [S2 C2], Hl as [S3 C3], S6 as [S6 C6]. cbn in S6, C6 |- *.
  rewrite S3, S2, Hsv in S6. cbn in S6. rewrite Hsv7, S6. cbn.
  unfold conns_wf in Hwf. rewrite Hsv in Hwf. destruct Hwf as (Hip & Hrange & Hall).
  split; [done|]. split; [cbn; lia|]. cbn. intros k c' Hk. rewrite Hcs7.
  apply lookup_insert_Some in Hk as [[<- <-]|[Hne Hk]].
  - exists (nextConnId_ sv), cn. rewrite lookup_insert_eq. split_and!; try lia; done.
  - destruct (Hall k c' Hk) as (id & cn' & Hr & He & Hc' & Hn'). exists id, cn'.
    assert (c <> c') by (intros ->; congruence).
    rewrite lookup_insert_ne, C6, C3, C2 by done. split_and!; try lia; done.
Qed.

Lemma steady_setThreadNum n : steady (setThreadNum n).
Proof.
  unfold setThreadNum. along_tac. by apply steady_zoom_obj.
Qed.

Lemma steady_pool_start cb :
  (forall f l, cb = Some f -> steady (f l)) ->
  steady (EventLoopThreadPool.start pool_in_loop start_loop cb).
Proof.
  intros Hcb. unfold EventLoopThreadPool.start.
  along_tac; try by (apply steady_zoom_obj).
  apply steady_for_each. intros i. along_tac. by apply steady_zoom_obj.
Qed.

Lemma steady_listen : steady (Acceptor.listen acceptor_of).
Proof.
  unfold Acceptor.listen, enableReading. along_tac; try by apply steady_zoom_obj.
  apply along_set_interest; exact _.
Qed.

Lemma steady_start : steady start.
Proof.
  unfold start. along_tac; [|apply steady_listen].
  apply steady_pool_start. intros f l Hf. destruct (threadInitCallback_ r); [|done].
  injection Hf as <-. apply init_steady.
Qed.

Lemma steady_dtor : steady TcpServer_dtor.
Proof.
  unfold TcpServer_dtor, Acceptor_dtor, Channel_dtor, SocketsOps.close. along_tac.
  - apply steady_for_each. intros item. along_tac.
  - apply along_ch_get; exact _.
  - intros s r' s' [= <- <-] _. by unfold conns_wf.
Qed.

Lemma ctor_wf inet4 inet6 loop ch listenAddr reusePort s s' :
  TcpServer_ctor inet4 inet6 loop ch listenAddr reusePort s = Ok (tt, s') -> conns_wf (objs s').
Proof.
  unfold TcpServer_ctor. intros Hrun. apply bind_ok in Hrun as ([] & s1 & _ & Hrun).
  apply bind_ok in Hrun as ([] & s2 & _ & Hrun). apply bind_ok in Hrun as ([] & s3 & Hm & Hrun).
  injection Hm as <-. injection Hrun as <-. split; [done|]. split; [cbn; lia|].
  intros k c Hk. cbn in Hk. by rewrite lookup_empty in Hk.
Qed.

(** What can happen to a server and its connections: calls of the user, events of
    a connection, the turn of a thread. *)
Inductive server_call : Type :=
| SetConnectionCallback (cb : ConnectionCallback)
| SetMessageCallback (cb : MessageCallback)
| SetWriteCompleteCallback (cb : WriteCompleteCallback)
| SetThreadInitCallback (cb : nat)
| SetThreadNum (n : Z)
| Start
| NewConnection (sockfd : Z) (peerAddr : sockaddr)
| RemoveConnection (c : conn)
| ConnCall (fuel : nat) (c : conn) (cl : conn_call)
| Turn (l : loop_id)
| Destroy.

Definition run_server_call (cl : server_call) : M Loop unit :=
  match cl with
  | SetConnectionCallback cb => server_modify (setConnectionCallback (Some cb))
  | SetMessageCallback cb => server_modify (setMessageCallback (Some cb))
  | SetWriteCompleteCallback cb => server_modify (setWriteCompleteCallback (Some cb))
  | SetThreadInitCallback cb => server_modify (setThreadInitCallback (Some cb))
  | SetThreadNum n => setThreadNum n
  | Start => start
  | NewConnection sockfd peerAddr => newConnection sockfd peerAddr
  | RemoveConnection c => removeConnection c
  | ConnCall fuel c cl => run_conn_call fuel c cl
  | Turn l => run_pending l
  | Destroy => TcpServer_dtor
  end.

Lemma steady_server_call cl : steady (run_server_call cl).
Proof.
  destruct cl; cbn; [by apply steady_setter.. | apply steady_setThreadNum | apply steady_start | apply steady_newConnection
    | apply steady_removeConnection | apply steady_conn_call | apply steady_run_pending
    | apply steady_dtor].
Qed.

(** C12. From its construction on, whatever calls, events and turns of the threads
    follow, the map of the server is well formed: every entry is a connection
    under its own name, made from a number below [nextConnId_], and the name of
    the next connection is free, so no connection is ever replaced in the map. *)
Theorem connections_well_named inet4 inet6 loop ch listenAddr reusePort calls s s' :
  (TcpServer_ctor inet4 inet6 loop ch listenAddr reusePort ;; for_each calls run_server_call) s =
    Ok (tt, s') ->
  conns_wf (objs s') /\
  forall sv, server (objs s') = Some sv -> connections_ sv !! conn_name sv (nextConnId_ sv) = None.
Proof.
  intros Hrun. apply bind_ok in Hrun as ([] & s1 & Hctor & Hrun). apply ctor_wf in Hctor.
  assert (Hwf : conns_wf (objs s')).
  { revert Hctor. refine (steady_for_each run_server_call calls _ _ _ _ Hrun).
    apply steady_server_call. }
  split; [done|]. intros sv. by apply next_name_free.
Qed.
End TcpServer_along.

(** ** The composition of the server, the connections and the loops *)
Section TcpServer_properties.
Context {B : Build} {P K U : Type} `{PollerContract P K}.
Context `{!SysCalls K, !Quiet K, !QuietPoller P K, !NetSys K, !QuietNet K}.
Context {A : Allocator} `{!UserCode P K U}.
Implicit Types s : Reactor P K (World P K U).

(** C13. A connection arrives in a process whose event masks are set and whose server has
    not run out of numbers, and the loop chosen for it, the loop of the server itself or
    another one with no other task, takes its turn.  When the connection callback of the
    user starts, a new connection is in the map under the name of the next number, the
    pool has moved on, and on its own loop the connection is connected, its channel
    watched for reading, with the callbacks of the server; what happens then is that
    callback, whatever it does (none set: it throws), and the end of the turn. *)
Theorem newConnection_opens s sv r sockfd peerAddr :
  let l := turn (threadPool_ (objs s)) 0 in
  server (objs s) = Some sv -> loop_ sv = this_loop s -> isInLoopThread s = true ->
  pool_wf (threadPool_ (objs s)) -> 1 <= nextConnId_ sv < 2 ^ 31 - 1 ->
  at_loop s l r -> can_watch r sockfd -> l = this_loop s \/ pendingFunctors_ r = [] ->
  kReadEvent (statics s) <> kNoneEvent (statics s) ->
  exists c s1, established s sv l r sockfd peerAddr c s1 /\
    (newConnection sockfd peerAddr ;; run_pending l) s =
      (call_connection c (connectionCallback_ sv) ;;
       if decide (l = this_loop s) then run_pending l else modify (set_calling false)) s1.
Proof.
  intros l Hsv Hloop Hin Hwf Hid [[Hl ->]|(p & He & ->)] Hcan Hp Hev.
  - destruct (newConnection_here s sv sockfd peerAddr) as (c & s1 & Hest & Hrun); [done..|].
    rewrite <- Hl in Hest. exists c, s1. split; [exact Hest|]. rewrite decide_True by done.
    unfold bind. by rewrite Hrun.
  - rewrite decide_False by apply He. destruct Hp as [Hp|Hp]; [by destruct He|].
    by apply newConnection_chain.
Qed.

(** C14. A connection of the server closes, on the loop of the server or on another one,
    when neither loop has another task and the connection callback of the user keeps to
    the data of the user.  After its handler, a turn of the loop of the server and a
    turn of its own loop, and without a fault, it is disconnected, out of the map and
    unknown to its poller, and its loop has no task left; the other entries of the map,
    of the table and of the watched set, the other connections, the rest of the server,
    the acceptor, the pool and the memory are as they were. *)
Theorem handleClose_leaves s sv c cn ch r :
  served s sv c cn ch -> at_loop s (loop_ sv) r -> discreet c (setState kDisconnected cn) ->
  pendingFunctors_ s = [] -> pendingFunctors_ r = [] ->
  wp (TcpConnection.handleClose c ;; run_pending (loop_ sv) ;; run_pending (this_loop s))
     (fun _ => left s sv c cn ch) s.
Proof.
  intros Hs [[Hl ->]|(p & He & ->)] Hcall Hp0 Hp; [by apply close_here | by apply (close_chain s sv c cn ch p)].
Qed.

(** A server whose user set no connection callback: the first connection throws. *)
Lemma unset_callback_throws c cn ch s :
  conn_at s c cn -> state_ cn = kConnecting -> watchable s (channel_ cn) ch ->
  table (self (poller_ s)) !! fd_ ch = None ->
  Z.of_nat (size (table (self (poller_ s)))) + 1 < 2 ^ 31 - 1 ->
  ev_enableReading (statics s) (events_ ch) <> kNoneEvent (statics s) ->
  TcpConnection.connectionCallback_ cn = None ->
  connectEstablished c s = Err BadFunctionCall.
Proof.
  intros Hc Hst Hw Hn Hsz Hev Hcb.
  destruct (connectEstablished_spec c cn ch s Hc Hst Hw Hn Hsz Hev) as (s2 & ch2 & -> & _).
  by rewrite Hcb.
Qed.

(** After the destructor, what the connections still have of the server is a
    pointer to nothing: a close that is on its way, or comes later, uses it. *)
Lemma removal_after_dtor s s' c :
  TcpServer_dtor s = Ok (tt, s') ->
  run_task (TcpServer_removeConnectionInLoop c) s' = Err UseAfterFree /\
  removeConnection c s' = Err UseAfterFree.
Proof.
  unfold TcpServer_dtor. intros Hrun. apply bind_ok in Hrun as (sv & s1 & _ & Hrun).
  apply bind_ok in Hrun as ([] & s2 & _ & Hrun). apply bind_ok in Hrun as ([] & s3 & _ & Hrun).
  apply bind_ok in Hrun as ([] & s4 & _ & Hrun). injection Hrun as <-. by split.
Qed.
End TcpServer_properties.

(** ** Witnesses: a base loop and one thread over epoll *)

#[local] Existing Instances debug_build fresh_allocator.

Local Abbreviation process := (Reactor EpollPoller proc (World EpollPoller proc nat)) (only parsing).

(** What the loop 2 asks its poller, descriptor 13, for. *)
Definition sample_kernel (asked : gmap Z epoll_event) : proc :=
  Proc (Sim (Script [] [] ∅) (EpollScript {[13 := asked]} [] 100) [] [])
    {[3; 4; 5; 13; 14; 15; 20]} [] [] [].

(** A loop with its [epoll] and its channels; the timer and wake-up descriptors are
    the next two numbers. *)
Definition sample_loop {X} (l : loop_id) (epfd thread : Z) (tbl : gmap Z chan)
    (chs : gmap chan Channel) (asked : gmap Z epoll_event) (x : X) : Reactor EpollPoller proc X :=
  mkReactor l true false false 0
    (mkPollState (mkEpollPoller epfd (replicate 16 zero_event) tbl) chs (initDefaultEvent LT)
       (sample_kernel asked) thread thread)
    (mkTimerQueue (epfd + 1) 100%positive []) ∅ (epfd + 2) 101%positive [] [] x.

Definition idle (l : loop_id) (epfd thread : Z) : Parked EpollPoller proc :=
  sample_loop l epfd thread ∅ ∅ ∅ tt.

(** Starting the thread of loop 2. *)
Definition sample_start (i : Z) : M process loop_id :=
  modify (fun s => set_parked (<[2%positive := idle 2 13 2]> (parked s)) s) ;; ret 2%positive.

(** The user counts the calls of the connection callback. *)
#[local] Instance sample_user : UserCode EpollPoller proc nat := {|
  user_connection n c := zoom (obj_lens user_lens) (modify S);
  user_message n c t := ret tt;
  other_close cb c := ret tt;
  user_init n l := ret tt;
  other_task f := ret tt;
  start_loop := sample_start;
|}.

Definition sample_acceptor : Acceptor := mkAcceptor 0 1%positive None false 0.

Definition no_inet4 (z : Z) : list byte := [].
Definition no_inet6 (l : list byte) : list byte := [].

Definition sample_calls : list server_call :=
  [SetConnectionCallback (Callbacks.user_connection 0); SetThreadNum 1; Start; NewConnection 20 zero_sockaddr; Turn 2; Turn 1].

(** The process before the server is constructed. *)
Definition unborn : process :=
  sample_loop 1 3 1 ∅ ∅ ∅ (mkWorld None sample_acceptor (EventLoopThreadPool_ctor 1) ∅ ∅ ∅ 0%nat).

Lemma sample_start_steady i :
  along (P := EpollPoller) (K := proc) (wf_order (P := EpollPoller) (K := proc) (U := nat))
    (sample_start i).
Proof. intros s r s' Hrun Hwf. injection Hrun as _ <-. exact Hwf. Qed.

Lemma sample_user_steady (n : nat) (c : conn) :
  along (P := EpollPoller) (K := proc) (wf_order (P := EpollPoller) (K := proc) (U := nat))
    (TcpServer.user_connection n c).
Proof. intros s r s' Hrun Hwf. injection Hrun as _ <-. exact Hwf. Qed.

Local Abbreviation sample_life :=
  (bind (TcpServer_ctor no_inet4 no_inet6 1%positive 1%positive zero_sockaddr false)
     (fun _ => for_each sample_calls run_server_call)) (only parsing).

Lemma sample_life_runs : wp sample_life (fun _ s' => size (w_conns (objs s')) = 1%nat) unborn.
Proof. vm_compute. reflexivity. Qed.

Lemma connections_well_named_witness : exists s',
  sample_life unborn = Ok (tt, s') /\ conns_wf (objs s') /\ size (w_conns (objs s')) = 1%nat /\
  forall sv, server (objs s') = Some sv -> connections_ sv !! conn_name sv (nextConnId_ sv) = None.
Proof.
  destruct (wp_inv _ _ _ sample_life_runs) as ([] & s' & E & Hsize). exists s'. split; [exact E|].
  destruct (connections_well_named (SysCalls0 := proc_calls) (A := fresh_allocator)
    (UserCode0 := sample_user) sample_user_steady
    ltac:(intros; apply along_ret; exact _) ltac:(intros; apply along_ret; exact _)
    ltac:(intros; apply along_ret; exact _) ltac:(intros; apply along_ret; exact _)
    sample_start_steady
    no_inet4 no_inet6 1%positive 1%positive zero_sockaddr false sample_calls unborn s' E)
    as [Hwf Hfree].
  by split_and!.
Defined.

(** The server is on loop 1 and has the connections [cs]; loop 2 runs them. *)
Definition sample_server (cs : gmap (list byte) conn) : TcpServer :=
  mkServer 1%positive [] [x73] (Some (Callbacks.user_connection 0)) (Some (Callbacks.user_message 0))
    None None true (1 + Z.of_nat (size cs)) cs.

Definition sample_pool : EventLoopThreadPool := mkPool 1%positive true 1 0 [2%positive].

Definition listening : process :=
  sample_loop 1%positive 3 1 ∅ ∅ ∅
    (mkWorld (Some (sample_server ∅)) sample_acceptor sample_pool ∅ ∅
       {[2%positive := idle 2%positive 13 2]} 0%nat).

Lemma newConnection_opens_witness : exists c (s1 s2 : process),
  server (objs s1) = Some (with_new c (sample_server ∅)) /\ w_user (objs s1) = 0%nat /\
  (newConnection 20 zero_sockaddr ;; run_pending 2%positive) listening = Ok (tt, s2) /\
  (exists ch la w, watched (poller_ s1) = <[20 := (ch, 3)]> w /\
     conn_at s1 c (setState kConnected
       (accepted (sample_server ∅) ch 2%positive 20 la zero_sockaddr))) /\
  w_user (objs s2) = 1%nat.
Proof.
  assert (Hcan : can_watch (at_home (idle 2%positive 13 2) listening) 20).
  { split_and!; [|done|by vm_compute..]. split; [|split; [|by vm_compute]]; intros fd; cbn.
    - intros c Hc. by rewrite lookup_empty in Hc.
    - rewrite es_list_singleton, lookup_empty. by intros []. }
  destruct (newConnection_opens (SysCalls0 := proc_calls) (A := fresh_allocator)
    (UserCode0 := sample_user) listening (sample_server ∅)
    (at_home (idle 2%positive 13 2) listening) 20 zero_sockaddr
    eq_refl eq_refl eq_refl ltac:(by split_and!; [|by vm_compute|right]) ltac:(by vm_compute)
    ltac:(right; exists (idle 2%positive 13 2); by split_and!) Hcan (or_intror eq_refl)
    ltac:(by vm_compute)) as (c & s1 & (ch & chn & la & _ & Hsv & Hc & _ & _ & _ & _ & _ & Hw) & Hrun).
  assert (Hu : w_user (objs s1) = 0%nat).
  { assert (Hwp : wp (newConnection 20 zero_sockaddr ;; run_pending 2%positive)
      (fun _ s' => w_user (objs s') = 1%nat) listening) by (vm_compute; reflexivity).
    unfold wp in Hwp. change (turn (threadPool_ (objs listening)) 0) with 2%positive in Hrun.
    rewrite Hrun in Hwp. cbn in Hwp. by injection Hwp. }
  exists c, s1. eexists. split; [exact Hsv|]. split; [exact Hu|]. split; [exact Hrun|]. split.
  - exists ch, la. eexists. split; [exact Hw | exact Hc].
  - cbn. by rewrite Hu.
Defined.

(** Loop 2 runs; its connection 1 is [x73; x2d], on descriptor 20 with channel 7. *)
Definition sample_channel : Channel :=
  set_index kAdded (set_events 3 (Channel_ctor 2%positive 20)).

Definition sample_conn : TcpConnection :=
  setState kConnected (accepted (sample_server ∅) 7%positive 2%positive 20 zero_sockaddr zero_sockaddr).

Definition serving : process :=
  sample_loop 2%positive 13 2 {[20 := 7%positive]} {[7%positive := sample_channel]}
    {[20 := mkEpollEvent 3 (Some 7%positive)]}
    (mkWorld (Some (sample_server {[name sample_conn := 1%positive]})) sample_acceptor sample_pool
       {[1%positive := sample_conn]} ∅ {[1%positive := idle 1%positive 3 1]} 0%nat).

Lemma serving_registered : registered serving 7%positive sample_channel.
Proof.
  split_and!; try done. split; [|split; [|by vm_compute]]; intros fd.
  - intros c Hc. cbn in Hc. apply lookup_singleton_Some in Hc as [<- <-].
    exists sample_channel. split_and!; try done. left. split; [done|]. exists 3.
    apply lookup_singleton_eq.
  - cbn. intros [e He]. rewrite es_list_singleton in He.
    apply lookup_singleton_Some in He as [<- _]. exists 7%positive. apply lookup_singleton_eq.
Qed.

Lemma sample_discreet c cn :
  TcpConnection.connectionCallback_ cn = Some (Callbacks.user_connection 0) -> discreet c cn.
Proof. intros Hcb s _. exists (S (w_user (objs s))). by rewrite Hcb. Qed.

Lemma handleClose_leaves_witness :
  wp (TcpConnection.handleClose 1%positive ;; run_pending 1%positive ;; run_pending 2%positive)
     (fun _ s' => connections_ <$> server (objs s') = Some ∅ /\
        conn_at s' 1%positive (setState kDisconnected sample_conn) /\
        table (self (poller_ s')) = ∅ /\ pendingFunctors_ s' = []) serving.
Proof.
  assert (Hs : served serving (sample_server {[name sample_conn := 1%positive]}) 1%positive
                 sample_conn sample_channel).
  { split_and!; try done; [apply serving_registered | by left]. }
  refine (wp_mono _ _ _ _ (handleClose_leaves (SysCalls0 := proc_calls) (UserCode0 := sample_user)
    serving _ 1%positive sample_conn sample_channel (at_home (idle 1%positive 3 1) serving) Hs
    ltac:(right; exists (idle 1%positive 3 1); by split_and!)
    ltac:(by apply sample_discreet) eq_refl eq_refl) _).
  intros [] s' (Ho & _ & Ht & _ & Hp). injection Ho as Hsv _ _ Hcs _. rewrite Hsv, Ht. split_and!.
  - vm_compute. reflexivity.
  - unfold conn_at. cbn. rewrite Hcs. apply lookup_insert_eq.
  - vm_compute. reflexivity.
  - exact Hp.
Defined.
