(* ===== verification/ServerLife.v ===== *)
(** * Lifetime.v against TcpServer.v

    What a server does with a connection that closes is what the steps of
    [Lifetime.v] say, on one loop and on two.  [served_by] relates the server, its
    map and the tasks of its loop to the owner of [Lifetime.v], as [reflects] of
    [Ownership.v] relates the connection. *)

From S2P Require Import Prelude Posix Process SocketsOps Callbacks Timer Buffer Channel LoopThread Poller EpollPoller Reactor EventLoop EventLoopThreadPool TcpConnection Lifetime Ownership Loops TcpServer.

Section ServerLife.
Context {B : Build} {A : Allocator} {P K U : Type} `{PollerContract P K}.
Context `{!SysCalls K, !Quiet K, !QuietPoller P K, !SocketIOLaws K, !NetSys K, !UserCode P K U}.
Local Abbreviation Loop := (Reactor P K (World P K U)) (only parsing).
Implicit Types s : Loop.
Implicit Types l : Life.

(** The tasks of connection [c] that wait on the loop of the server, another one. *)
Definition base_pending (sv : TcpServer) (c : conn) s : list Functor :=
  if bool_decide (loop_ sv = this_loop s) then []
  else match parked s !! loop_ sv with
       | Some p => tasks_of c (pendingFunctors_ p)
       | None => []
       end.

(** The server of [s] is the owner of [l], seen from the loop of the connection. *)
Definition served_by l s (c : conn) : Prop :=
  match server (objs s) with
  | Some sv =>
      owner l = true /\ one_loop l = bool_decide (loop_ sv = this_loop s) /\
      (exists cn, conn_at s c cn /\ in_map l = bool_decide (connections_ sv !! name cn = Some c)) /\
      pending (base l) = base_pending sv c s
  | None => owner l = false /\ in_map l = false
  end.

(** The loop of the server, if it is another one, has its own thread. *)
Definition base_apart s : Prop :=
  forall sv, server (objs s) = Some sv -> loop_ sv = this_loop s \/ exists p, elsewhere s (loop_ sv) p.

Lemma reflects_server l s c sv : reflects l s c -> reflects l (with_server sv s) c.
Proof. intros Hr. by apply (reflects_moved l s). Qed.

(** ** On one loop *)
Lemma removal_here c l s sv cn :
  server (objs s) = Some sv -> loop_ sv = this_loop s -> isInLoopThread s = true ->
  poller_inv (poller_ s) -> conn_at s c cn -> getLoop cn = this_loop s ->
  reflects l s c -> served_by l s c ->
  wp (TcpServer.removeConnection c)
     (fun _ s' => reflects (Lifetime.removeConnectionInLoop c l) s' c /\
                  served_by (Lifetime.removeConnectionInLoop c l) s' c) s.
Proof.
  intros Hsv Hl Hin HI Hc Hlc Hr Ho. set (sv' := set_connections (delete (name cn) (connections_ sv)) sv).
  unfold TcpServer.removeConnection. apply wp_bind. eapply wp_server_get; [done|].
  apply wp_visit_here; [done|]. unfold runInLoop. wp_simp. rewrite Hin.
  unfold TcpServer.removeConnectionInLoop. apply wp_bind. eapply wp_server_get; [done|].
  apply wp_bind, wp_visit_here; [done|]. apply wp_assertInLoopThread; [done|].
  apply wp_bind. eapply wp_conn_get; [done|]. apply wp_bind. eapply wp_server_modify; [done|].
  apply wp_visit_here; [by rewrite Hlc|]. apply wp_queueInLoop. fold sv'.
  split; [apply reflects_queue; [apply about_destroyed | done | done | by apply reflects_server]|].
  destruct (queued_same (TcpConnection_connectDestroyed c) (with_server sv' s))
    as (Hobj & _ & _ & _ & _ & Hloop).
  unfold served_by in *. rewrite Hobj. change (server (objs (with_server sv' s))) with (Some sv').
  rewrite Hsv in Ho. destruct Ho as (Ho & Hone & _ & Hb). split; [exact Ho|].
  rewrite Hloop. split; [exact Hone|]. split.
  - exists cn. split; [unfold conn_at in *; by rewrite Hobj|].
    symmetry. apply bool_decide_eq_false_2. unfold sv'. cbn [connections_ set_connections].
    by rewrite lookup_delete_eq.
  - unfold base_pending in *. rewrite Hloop. rewrite bool_decide_eq_true_2 in Hb |- * by done. exact Hb.
Qed.

(** ** On two *)
Lemma posted_watched (to : loop_id) f p s :
  poller_inv (poller_ s) -> watched (poller_ (posted to f p s)) = watched (poller_ s).
Proof.
  intros HI. by destruct (quiet_law (sys_write (wakeupFd_ p) one_bytes (lget os_lens s)).2 (poller_ s)
    (quiet_write _ _ _) HI) as [_ Hw].
Qed.

Lemma removal_posts c l s sv cn p :
  server (objs s) = Some sv -> elsewhere s (loop_ sv) p -> poller_inv (poller_ s) -> conn_at s c cn ->
  reflects l s c -> served_by l s c ->
  wp (TcpServer.removeConnection c)
     (fun _ s' => reflects (queue_base (TcpServer_removeConnectionInLoop c) l) s' c /\
                  served_by (queue_base (TcpServer_removeConnectionInLoop c) l) s' c) s.
Proof.
  intros Hsv He HI Hc Hr Ho. eapply removeConnection_posts; [done..|].
  set (f := TcpServer_removeConnectionInLoop c). set (s' := posted (loop_ sv) f p s).
  destruct (posted_same (loop_ sv) f p s) as (Hl & Hp & Hpk & Hst & _ & Hobj). fold s' in Hl, Hp, Hpk, Hst, Hobj.
  split.
  - apply (reflects_moved _ s); [done | by rewrite Hobj | done | done | by apply posted_watched | done].
  - unfold served_by in *. rewrite Hobj. change (server (lset others _ (objs s))) with (server (objs s)).
    rewrite Hsv in Ho |- *. destruct Ho as (Ho & Hone & Hmap & Hb). rewrite Hl.
    split; [done|]. split; [done|]. split.
    + destruct Hmap as (cn' & Hc' & Hm). exists cn'. split; [unfold conn_at in *; by rewrite Hobj | done].
    + destruct He as (Hne & Hpark & _ & Hth). unfold base_pending in *. rewrite Hl, Hpk.
      rewrite bool_decide_eq_false_2 in Hb |- * by done. rewrite lookup_insert_eq. rewrite Hpark in Hb.
      destruct (told_same f p s Hth) as (_ & -> & _). rewrite tasks_of_snoc by apply about_removal.
      cbn. by rewrite Hb.
Qed.

(** ** The close callback *)
Lemma server_close_refines c l s cn :
  isInLoopThread s = true -> poller_inv (poller_ s) -> conn_at s c cn -> getLoop cn = this_loop s ->
  base_apart s -> reflects l s c -> served_by l s c ->
  match server_removeConnection c l with
  | Ok l' => wp (TcpServer.removeConnection c) (fun _ s' => reflects l' s' c /\ served_by l' s' c) s
  | Err f => TcpServer.removeConnection c s = Err f
  end.
Proof.
  intros Hin HI Hc Hl Hap Hr Ho. assert (Ho' := Ho). unfold served_by in Ho'. unfold server_removeConnection.
  destruct (server (objs s)) as [sv|] eqn:Hsv.
  2:{ destruct Ho' as [-> _]. unfold TcpServer.removeConnection, server_get, bind, gets, of_option. by rewrite Hsv. }
  destruct Ho' as (-> & Hone & _). cbn [negb]. rewrite Hone.
  destruct (Hap sv Hsv) as [Hhere|[p He]].
  - rewrite bool_decide_eq_true_2 by done. by apply (removal_here c l s sv cn).
  - rewrite bool_decide_eq_false_2 by apply He. by apply (removal_posts c l s sv cn p).
Qed.

(** The task of the loop of the server, in its thread; the loop of the connection
    is [p]. *)
Lemma server_erase_refines c l s sv cn p :
  isInLoopThread s = true -> server (objs s) = Some sv -> loop_ sv = this_loop s ->
  conn_at s c cn -> elsewhere s (getLoop cn) p -> poller_inv (poller_ (at_home p s)) ->
  reflects l (at_home p s) c -> owner l = true -> alive l = true ->
  exists l', run_base c (TcpServer_removeConnectionInLoop c) l = Ok l' /\
    wp (TcpServer.removeConnectionInLoop c)
       (fun _ s' => exists p', parked s' !! getLoop cn = Some p' /\ reflects l' (at_home p' s') c /\
          in_map l' = false /\
          server (objs s') = Some (set_connections (delete (name cn) (connections_ sv)) sv)) s.
Proof.
  intros Hin Hsv Hl Hc He HI Hr Ho Hal. unfold run_base. rewrite Ho, Hal. cbn [negb orb].
  eexists. split; [done|]. eapply removeConnectionInLoop_posts; [done..|].
  set (sv' := set_connections _ sv). set (f := TcpConnection_connectDestroyed c).
  set (s1 := with_server sv' s). set (s' := posted (getLoop cn) f p s1).
  destruct He as (Hne & Hp & Hlp & Hth).
  destruct (posted_same (getLoop cn) f p s1) as (_ & _ & Hpk & _ & _ & Hobj). fold s' in Hpk, Hobj.
  destruct (told_same f p s1 Hth) as (_ & _ & _ & Hhome).
  exists (told f p s1). split; [rewrite Hpk; apply lookup_insert_eq|]. split; [|by split; [|rewrite Hobj]].
  rewrite Hhome. destruct Hr as (cn' & Hc' & Hst & Hcb & (ch & Hch & Hw) & Hpend).
  exists cn'. split; [exact Hc'|]. split; [exact Hst|]. split; [exact Hcb|]. split.
  - exists ch. split; [exact Hch|].
    destruct (quiet_law (sys_write (wakeupFd_ p) one_bytes (lget os_lens s1)).2 (poller_ (at_home p s))
      (quiet_write _ _ _) HI) as [_ Hwt].
    change (watched (poller_ (lset pending_lens ?x (at_home p s')))) with
      (watched (lset kern_lens (sys_write (wakeupFd_ p) one_bytes (lget os_lens s1)).2 (poller_ (at_home p s)))).
    rewrite Hwt. exact Hw.
  - cbn [Lifetime.removeConnectionInLoop queue_io io set_io set_in_map push pending].
    change (pendingFunctors_ (lset pending_lens ?x ?y)) with x.
    rewrite tasks_of_snoc by apply about_destroyed. by rewrite Hpend.
Qed.
End ServerLife.

(** ** A new connection *)
Section arrival.
Context {B : Build} {A : Allocator} {P K U : Type} `{PollerContract P K}.
Context `{!SysCalls K, !Quiet K, !QuietPoller P K, !SocketIOLaws K, !NetSys K, !QuietNet K, !UserCode P K U}.
Implicit Types s : Reactor P K (World P K U).

(** [newConnection] on another loop leads to [init]: the connection is in the map,
    and its loop has the task that establishes it. *)
Lemma newConnection_starts s sv p sockfd peerAddr :
  let l := turn (threadPool_ (objs s)) 0 in
  server (objs s) = Some sv -> loop_ sv = this_loop s -> isInLoopThread s = true ->
  pool_wf (threadPool_ (objs s)) -> 1 <= nextConnId_ sv < 2 ^ 31 - 1 ->
  elsewhere s l p -> can_watch (at_home p s) sockfd -> watched (poller_ (at_home p s)) !! sockfd = None ->
  (forall c, w_conns (objs s) !! c = None -> tasks_of c (pendingFunctors_ p) = []) ->
  wp (newConnection sockfd peerAddr)
     (fun _ s' => exists c p', parked s' !! l = Some p' /\ reflects (init c) (at_home p' s') c /\
        server (objs s') = Some (with_new c sv)) s.
Proof.
  intros l Hsv Hl Hin Hwf Hid He Hcan Hw Hfresh.
  eapply wp_mono; [by apply (newConnection_posts s sv p)|].
  intros [] s' (c & ch & la & p' & Hc & Hsv' & Hcn & _ & _ & He' & Hp' & _ & Hm & Hw').
  exists c, p'. split; [apply He'|]. split; [|done].
  eapply reflects_new; [exact Hcn | done | done | exact Hm | done | by rewrite Hw' | done..|].
  change (pendingFunctors_ (at_home p' s')) with (pendingFunctors_ p').
  rewrite Hp', tasks_of_snoc by by apply bool_decide_eq_true_2. by rewrite Hfresh.
Qed.

(** On the loop of the server it leads to [init_here]. *)
Lemma newConnection_starts_here s sv sockfd peerAddr (Q : unit -> Reactor P K (World P K U) -> Prop) :
  turn (threadPool_ (objs s)) 0 = this_loop s ->
  server (objs s) = Some sv -> loop_ sv = this_loop s -> isInLoopThread s = true ->
  pool_wf (threadPool_ (objs s)) -> 1 <= nextConnId_ sv < 2 ^ 31 - 1 ->
  can_watch s sockfd -> watched (poller_ s) !! sockfd = None ->
  (forall c, w_conns (objs s) !! c = None -> tasks_of c (pendingFunctors_ s) = []) ->
  (forall c s', reflects (init_here TcpServer_removeConnection) s' c ->
     server (objs s') = Some (with_new c sv) -> wp (TcpConnection.connectEstablished c) Q s') ->
  wp (newConnection sockfd peerAddr) Q s.
Proof.
  intros Hturn Hsv Hl Hin Hwf Hid Hcan Hw Hfresh HQ. apply newConnection_prefix with (sv := sv); [done..|].
  rewrite Hturn. intros k addr s3 Hq.
  destruct (can_watch_kernel s s3 k sockfd) as [Hcan3 Hw3]; [done..|].
  apply (make_connection_here s3); [exact Hcan3|]. intros c ch k' s4 Hc Hcan4 Hw4. subst s4.
  set (s4 := with_conn c _ _) in *. eexists. split; [exact (conn_at_with _ _ _)|]. split; [done|].
  apply wp_visit_here; [done|]. set (s5 := with_conn c _ _). unfold runInLoop. wp_simp.
  change (isInLoopThread s5) with (isInLoopThread s). rewrite Hin. apply HQ; [|done].
  eapply reflects_new; [exact (conn_at_with _ _ _) | done | done | | | | done..|].
  - exact (lookup_insert_eq _ _ _).
  - done.
  - change (watched (poller_ s5)) with (watched (poller_ s4)). rewrite Hw4, Hw3. exact Hw.
  - symmetry. by apply Hfresh.
Qed.
End arrival.

(** ** Properties *)
Section properties.
Context {B : Build} {A : Allocator} {P K U : Type} `{PollerContract P K}.
Context `{!SysCalls K, !Quiet K, !QuietPoller P K, !SocketIOLaws K, !NetSys K, !QuietNet K, !UserCode P K U}.
Implicit Types s : Reactor P K (World P K U).

(** C6. A server is the owner [Lifetime] says, with or without threads.  In a state
    that agrees with it on the connection, the server and the tasks of both loops:
    the close callback of the connection, in the thread of its loop, does what
    [server_removeConnection] does, faults included; and [removeConnectionInLoop],
    in the thread of the loop of the server, erases the connection and leaves its
    loop with the task [run_base] says. *)
Theorem server_owner_refines c l s cn :
  isInLoopThread s = true -> conn_at s c cn ->
  (poller_inv (poller_ s) -> getLoop cn = this_loop s -> base_apart s ->
   reflects l s c -> served_by l s c ->
   match server_removeConnection c l with
   | Ok l' => wp (TcpServer.removeConnection c) (fun _ s' => reflects l' s' c /\ served_by l' s' c) s
   | Err f => TcpServer.removeConnection c s = Err f
   end) /\
  (forall sv p, server (objs s) = Some sv -> loop_ sv = this_loop s -> elsewhere s (getLoop cn) p ->
   poller_inv (poller_ (at_home p s)) -> reflects l (at_home p s) c ->
   owner l = true -> alive l = true ->
   exists l', run_base c (TcpServer_removeConnectionInLoop c) l = Ok l' /\
     wp (TcpServer.removeConnectionInLoop c)
        (fun _ s' => exists p', parked s' !! getLoop cn = Some p' /\ reflects l' (at_home p' s') c /\
           in_map l' = false /\
           server (objs s') = Some (set_connections (delete (name cn) (connections_ sv)) sv)) s).
Proof.
  intros Hin Hc. split.
  - intros. by apply (server_close_refines c l s cn).
  - intros sv p. intros. by apply (server_erase_refines c l s sv cn p).
Qed.
End properties.

(** ** Witness: the connection of [TcpServer.serving] closes *)

#[local] Existing Instances debug_build fresh_allocator sample_user.

Definition serving_life : Life :=
  mkLife kConnected true true true TcpServer_removeConnection false (mkWatch true false true true)
    (mkQueue [] [] []) (mkQueue [] [] []) 0 [].

Definition told_life : Life := queue_base (TcpServer_removeConnectionInLoop 1) serving_life.

Lemma serving_reflects : reflects serving_life serving 1%positive.
Proof.
  exists sample_conn. split; [apply lookup_singleton_eq|]. split; [done|]. split; [done|]. split; [|done].
  exists sample_channel. by split_and!.
Qed.

Lemma server_owner_refines_witness :
  wp (TcpServer.removeConnection 1%positive)
    (fun _ s' => reflects told_life s' 1%positive /\ served_by told_life s' 1%positive) serving.
Proof.
  destruct (server_owner_refines (SysCalls0:=proc_calls) 1%positive
    serving_life serving sample_conn) as (Hclose & _); [reflexivity | apply lookup_singleton_eq|].
  refine (Hclose _ eq_refl _ serving_reflects _).
  - apply serving_registered.
  - intros sv [= <-]. right. exists (idle 1%positive 3 1). split_and!; by vm_compute.
  - split_and!; [reflexivity | reflexivity | | reflexivity].
    exists sample_conn. split; [apply lookup_singleton_eq | by vm_compute].
Defined.
