(* ===== verification/TcpClient.v ===== *)
(** * TcpClient.h, TcpClient.cc: one connection, opened by a connector

    The client, its connector and its connection live on one loop, the loop of
    the [Reactor]; the thread that runs may be another one.  [ClientWorld] is what
    the process has besides: the client is gone after its destructor, and the
    connector with it. *)

From S2P Require Import Prelude Posix Process LogStream SocketsOps Callbacks Timer Buffer Channel LoopThread Poller EpollPoller Reactor TimerQueue EventLoop Connector TcpConnection.

Record TcpClient : Type := mkClient {
  connectionCallback_ : option ConnectionCallback;
  messageCallback_ : option MessageCallback;
  writeCompleteCallback_ : option WriteCompleteCallback;
  retry_ : bool;
  connect_ : bool;
  nextConnId_ : Z;
  connection_ : option conn;
}.

Section fields.
Implicit Types cl : TcpClient.

Definition setConnectionCallback (cb : option ConnectionCallback) cl : TcpClient :=
  mkClient cb (messageCallback_ cl) (writeCompleteCallback_ cl) (retry_ cl) (connect_ cl)
    (nextConnId_ cl) (connection_ cl).
Definition setMessageCallback (cb : option MessageCallback) cl : TcpClient :=
  mkClient (connectionCallback_ cl) cb (writeCompleteCallback_ cl) (retry_ cl) (connect_ cl)
    (nextConnId_ cl) (connection_ cl).
Definition setWriteCompleteCallback (cb : option WriteCompleteCallback) cl : TcpClient :=
  mkClient (connectionCallback_ cl) (messageCallback_ cl) cb (retry_ cl) (connect_ cl)
    (nextConnId_ cl) (connection_ cl).
Definition enableRetry cl : TcpClient :=
  mkClient (connectionCallback_ cl) (messageCallback_ cl) (writeCompleteCallback_ cl) true
    (connect_ cl) (nextConnId_ cl) (connection_ cl).
Definition set_connect (b : bool) cl : TcpClient :=
  mkClient (connectionCallback_ cl) (messageCallback_ cl) (writeCompleteCallback_ cl) (retry_ cl) b
    (nextConnId_ cl) (connection_ cl).
Definition set_nextConnId (n : Z) cl : TcpClient :=
  mkClient (connectionCallback_ cl) (messageCallback_ cl) (writeCompleteCallback_ cl) (retry_ cl)
    (connect_ cl) n (connection_ cl).
Definition set_connection (c : option conn) cl : TcpClient :=
  mkClient (connectionCallback_ cl) (messageCallback_ cl) (writeCompleteCallback_ cl) (retry_ cl)
    (connect_ cl) (nextConnId_ cl) c.
End fields.

Record ClientWorld (U : Type) : Type := mkClientWorld {
  client : option TcpClient;
  connector_ : Connector;
  cw_conns : gmap conn TcpConnection;
  cw_memory : gmap positive (list byte);
  cw_user : U;
}.
Arguments mkClientWorld {U}.
Arguments client {U}.
Arguments connector_ {U}.
Arguments cw_conns {U}.
Arguments cw_memory {U}.
Arguments cw_user {U}.

Section ClientWorld.
Context {U : Type}.

Definition client_lens : lens (ClientWorld U) (option TcpClient) :=
  Lens client (fun x w => mkClientWorld x (connector_ w) (cw_conns w) (cw_memory w) (cw_user w)).
Definition connector_of_client : lens (ClientWorld U) Connector :=
  Lens connector_ (fun x w => mkClientWorld (client w) x (cw_conns w) (cw_memory w) (cw_user w)).
Definition client_conns : lens (ClientWorld U) (gmap conn TcpConnection) :=
  Lens cw_conns (fun x w => mkClientWorld (client w) (connector_ w) x (cw_memory w) (cw_user w)).

#[export] Instance connector_of_client_laws : LensLaws connector_of_client.
Proof. by split; intros; destruct_and?; try destruct s. Qed.

#[export] Instance ClientWorld_conns : ConnHeap (ClientWorld U).
Proof.
  refine {| conns := client_conns; memory := cw_memory |}; [|done].
  by split; intros; try destruct s.
Defined.
End ClientWorld.

(** The code of the user, and what other components do. *)
Class ClientCode (P K U : Type) : Type := {
  user_connection : nat -> conn -> M (Reactor P K (ClientWorld U)) unit;
  user_message : nat -> conn -> Z -> M (Reactor P K (ClientWorld U)) unit;
  other_close : CloseCallback -> conn -> M (Reactor P K (ClientWorld U)) unit;
  other_task : Functor -> M (Reactor P K (ClientWorld U)) unit;
  other_handler : Handler -> M (Reactor P K (ClientWorld U)) unit;
  other_new_connection : NewConnectionCallback -> Z -> M (Reactor P K (ClientWorld U)) unit;
}.

Section TcpClient_ops.
Context {B : Build} {P K U : Type} `{PollerOps P K} `{SysCalls K, !NetSys K} {A : Allocator}.
Context `{!ClientCode P K U}.
Local Abbreviation Loop := (Reactor P K (ClientWorld U)) (only parsing).
Local Abbreviation con := (connector_of_client (U := U)) (only parsing).

(** The client a raw [this] points to. *)
Definition client_get : M Loop TcpClient :=
  let! w := gets objs in of_option UseAfterFree (client w).

Definition client_modify (f : TcpClient -> TcpClient) : M Loop unit :=
  zoom (obj_lens client_lens) (modify (fmap f)).

(** [inet_ntop], for the names. *)
Variable inet_ntop4 : Z -> list byte.
Variable inet_ntop6 : list byte -> list byte.

(** The free function [removeConnection]. *)
Definition free_removeConnection (c : conn) : M Loop unit :=
  queueInLoop (TcpConnection_connectDestroyed c).

Definition removeConnection (c : conn) : M Loop unit :=
  let! cl := client_get in
  assertInLoopThread ;;
  let! s := get in
  assert_of (let! cn := conn_get c in ret (bool_decide (getLoop cn = this_loop s))) ;;
  assert_ (bool_decide (connection_ cl = Some c)) ;;
  client_modify (set_connection None) ;;
  queueInLoop (TcpConnection_connectDestroyed c) ;;
  whenb (retry_ cl && connect_ cl) (Connector.restart con).

#[export] Instance client_callbacks : Callbacks P K (ClientWorld U) := {|
  on_connection := user_connection;
  on_message := user_message;
  on_close cb c := match cb with
                   | TcpClient_removeConnection => removeConnection c
                   | queue_connectDestroyed => free_removeConnection c
                   | _ => other_close cb c
                   end;
|}.

(** [snprintf] into 32 bytes. *)
Definition client_conn_name (peerAddr : sockaddr) (id : Z) : list byte :=
  take 31 (":"%byte :: toIpPort inet_ntop4 inet_ntop6 peerAddr ++ "#"%byte :: int_text id).

(** [new TcpConnection(loop_, ...)], at fresh addresses. *)
Definition new_connection (connName : list byte) (sockfd : Z) (localAddr peerAddr : sockaddr) :
    M Loop conn :=
  let! s := get in
  let c := new_address (dom (cw_conns (objs s))) in
  TcpConnection_ctor c (new_address (dom (lget memory_lens s))) (this_loop s) connName sockfd
    localAddr peerAddr ;;
  ret c.

Definition newConnection (sockfd : Z) : M Loop unit :=
  let! cl := client_get in
  assertInLoopThread ;;
  let! peerAddr := zoom os_lens (getPeerAddr sockfd) in
  let connName := client_conn_name peerAddr (nextConnId_ cl) in
  let! id := lift (i32_checked (nextConnId_ cl + 1)) in
  client_modify (set_nextConnId id) ;;
  let! localAddr := zoom os_lens (getLocalAddr sockfd) in
  let! c := new_connection connName sockfd localAddr peerAddr in
  let! cl := client_get in
  conn_modify c (TcpConnection.setConnectionCallback (connectionCallback_ cl)) ;;
  conn_modify c (TcpConnection.setMessageCallback (messageCallback_ cl)) ;;
  conn_modify c (TcpConnection.setWriteCompleteCallback (writeCompleteCallback_ cl)) ;;
  conn_modify c (setConnCloseCallback (Some TcpClient_removeConnection)) ;;
  client_modify (set_connection (Some c)) ;;
  connectEstablished c.

Definition TcpClient_ctor (serverAddr : sockaddr) : M Loop unit :=
  zoom (obj_lens con) (modify (fun _ => Connector_ctor serverAddr)) ;;
  zoom (obj_lens client_lens)
    (modify (fun _ => Some (mkClient (Some defaultConnectionCallback) (Some defaultMessageCallback) None
                              false true 1 None))) ;;
  zoom (obj_lens con) (modify (Connector.setNewConnectionCallback TcpClient_newConnection)).

(** The body of the destructor. *)
Definition TcpClient_dtor_body : M Loop unit :=
  let! cl := client_get in
  match connection_ cl with
  | Some c =>
      runInLoop (conn_modify c (setConnCloseCallback (Some queue_connectDestroyed)))
        (TcpConnection_setCloseCallback c queue_connectDestroyed)
  | None => Connector.stop con
  end.

(** Then the connector goes, which nobody else holds. *)
Definition TcpClient_dtor : M Loop unit :=
  TcpClient_dtor_body ;;
  Connector_dtor con ;;
  zoom (obj_lens client_lens) (modify (fun _ => None)).

Definition connect : M Loop unit :=
  client_modify (set_connect true) ;; Connector.start con.

Definition disconnect : M Loop unit :=
  client_modify (set_connect false) ;;
  let! cl := client_get in
  match connection_ cl with Some c => shutdown c | None => ret tt end.

Definition stop : M Loop unit :=
  client_modify (set_connect false) ;; Connector.stop con.

(** ** Tasks and events *)

(** What the connector does with a connected socket. *)
Definition on_new_connection (cb : NewConnectionCallback) (sockfd : Z) : M Loop unit :=
  match cb with
  | TcpClient_newConnection => newConnection sockfd
  | cb => other_new_connection cb sockfd
  end.

(** The connector dies with the client. *)
Definition client_task : Functor -> M Loop unit :=
  run_conn_task (fun f =>
    match f with
    | Connector_startInLoop => let! _ := client_get in startInLoop con
    | Connector_resetChannel => let! _ := client_get in resetChannel con
    | TimerQueue_addTimerInLoop t when_at => addTimerInLoop t when_at
    | TimerQueue_cancelTimerInLoop t => cancelTimerInLoop t
    | f => other_task f
    end).

Definition client_handler (fuel : nat) : Handler -> M Loop unit :=
  run_conn_handler fuel (fun h =>
    match h with
    | Connector_handleWrite => let! _ := client_get in Connector.handleWrite con on_new_connection
    | Connector_handleError => let! _ := client_get in Connector.handleError con
    | EventLoop_handleRead => Reactor.handleRead
    | TimerQueue_handleRead => TimerQueue.handleRead client_task
    | h => other_handler h
    end).
End TcpClient_ops.

(** ** Lemmas *)
Section TcpClient_lemmas.
Context {B : Build} {P K U : Type} `{PollerContract P K}.
Context `{!SysCalls K, !Quiet K, !QuietPoller P K, !NetSys K, !QuietNet K}.
Context {A : Allocator} `{!ClientCode P K U}.
Local Abbreviation Loop := (Reactor P K (ClientWorld U)) (only parsing).
Implicit Types s : Loop.
Variable inet_ntop4 : Z -> list byte.
Variable inet_ntop6 : list byte -> list byte.

Lemma wp_client_get cl (Q : TcpClient -> Loop -> Prop) s :
  client (objs s) = Some cl -> Q cl s -> wp client_get Q s.
Proof. intros Hs HQ. unfold client_get. wp_simp. apply wp_of_option. by exists cl. Qed.

Definition with_client (cl : TcpClient) s : Loop :=
  lset objs_lens (lset client_lens (Some cl) (objs s)) s.

Lemma wp_client_modify f cl (Q : unit -> Loop -> Prop) s :
  client (objs s) = Some cl -> Q tt (with_client (f cl) s) -> wp (client_modify f) Q s.
Proof. intros Hs HQ. unfold client_modify. wp_simp. cbn. by rewrite Hs. Qed.

(** The connection object once the client has set it up. *)
Definition opened (cl : TcpClient) (ch : chan) (l : loop_id) (connName : list byte) (sockfd : Z)
    (localAddr peerAddr : sockaddr) : TcpConnection :=
  setConnCloseCallback (Some TcpClient_removeConnection)
    (TcpConnection.setWriteCompleteCallback (writeCompleteCallback_ cl)
      (TcpConnection.setMessageCallback (messageCallback_ cl)
        (TcpConnection.setConnectionCallback (connectionCallback_ cl)
          (new_conn ch l connName sockfd localAddr peerAddr)))).

Lemma new_connection_ok connName sockfd localAddr peerAddr s :
  can_watch s sockfd ->
  exists c ch k,
    let s' := with_conn c (new_conn ch (this_loop s) connName sockfd localAddr peerAddr)
      (lset os_lens k (lset memory_lens
         (<[ch := new_channel c (this_loop s) sockfd]> (lget memory_lens s)) s)) in
    cw_conns (objs s) !! c = None /\ can_watch s' sockfd /\
    watched (poller_ s') = watched (poller_ s) /\
    new_connection connName sockfd localAddr peerAddr s = Ok (c, s').
Proof.
  intros Hcan. set (c := new_address (dom (cw_conns (objs s)))).
  set (ch := new_address (dom (lget memory_lens s))).
  assert (Hc : cw_conns (objs s) !! c = None) by apply not_elem_of_dom, new_address_fresh.
  destruct (constructed_watch c ch connName sockfd localAddr peerAddr s Hcan
    (not_elem_of_dom_1 _ _ (new_address_fresh _))) as [Hcan' Hw'].
  eexists c, ch, _. split_and!; [exact Hc | exact Hcan' | exact Hw' |].
  unfold new_connection. erewrite bind_run by reflexivity. fold c ch.
  by erewrite bind_run by apply TcpConnection_ctor_ok.
Qed.

(** Up to the first call of the new connection, which is built by then. *)
Lemma client_newConnection_run s cl sockfd :
  client (objs s) = Some cl -> isInLoopThread s = true -> 1 <= nextConnId_ cl < 2 ^ 31 - 1 ->
  can_watch s sockfd ->
  exists c ch localAddr peerAddr s',
    let cn := opened cl ch (this_loop s) (client_conn_name inet_ntop4 inet_ntop6 peerAddr (nextConnId_ cl))
                sockfd localAddr peerAddr in
    cw_conns (objs s) !! c = None /\ conn_at s' c cn /\
    client (objs s') = Some (set_connection (Some c) (set_nextConnId (nextConnId_ cl + 1) cl)) /\
    connector_ (objs s') = connector_ (objs s) /\ can_watch s' sockfd /\
    lget memory_lens s' !! ch = Some (new_channel c (this_loop s) sockfd) /\
    watched (poller_ s') = watched (poller_ s) /\ statics s' = statics s /\
    isInLoopThread s' = true /\ this_loop s' = this_loop s /\
    pendingFunctors_ s' = pendingFunctors_ s /\
    newConnection inet_ntop4 inet_ntop6 sockfd s = connectEstablished c s'.
Proof.
  intros Hcl Hin Hid Hcan. set (cl1 := set_nextConnId (nextConnId_ cl + 1) cl).
  assert (Hget : forall s0 cl0, client (objs s0) = Some cl0 -> client_get s0 = Ok (cl0, s0)).
  { intros s0 cl0 Hs0. unfold client_get. rewrite bind_gets. unfold of_option. by rewrite Hs0. }
  assert (Hmod : forall s0 cl0 f, client (objs s0) = Some cl0 ->
    client_modify f s0 = Ok (tt, with_client (f cl0) s0)).
  { intros s0 cl0 f Hs0. unfold client_modify, zoom, modify. cbn. by rewrite Hs0. }
  assert (Hset : forall c s0 cn0 f, conn_at s0 c cn0 ->
    conn_modify c f s0 = Ok (tt, with_conn c (f cn0) s0)).
  { intros c s0 cn0 f Hc0. unfold conn_modify.
    by erewrite bind_run by (unfold conn_get; rewrite bind_gets; unfold of_option; by rewrite Hc0). }
  assert (Hid' : i32_checked (nextConnId_ cl + 1) = Ok (nextConnId_ cl + 1)).
  { apply i32_checked_ok. unfold in_i32. apply andb_true_intro.
    split; [apply Z.leb_le | apply Z.ltb_lt]; lia. }
  set (peer := match (sys_getpeername sockfd (lget os_lens s)).1 with
               | inl a => a | inr _ => zero_sockaddr end).
  set (k1 := (sys_getpeername sockfd (lget os_lens s)).2).
  set (s0 := with_client cl1 (lset os_lens k1 s)).
  set (addr := match (sys_getsockname sockfd k1).1 with inl a => a | inr _ => zero_sockaddr end).
  set (k2 := (sys_getsockname sockfd k1).2).
  destruct (can_watch_kernel s (lset os_lens k2 s0) k2 sockfd) as [Hcan1 Hw1];
    [done | eapply quiet_trans; [apply quiet_getpeername | apply quiet_getsockname] | done |].
  set (s1 := lset os_lens k2 s0) in *.
  destruct (new_connection_ok (client_conn_name inet_ntop4 inet_ntop6 peer (nextConnId_ cl)) sockfd addr
    peer s1 Hcan1) as (c & ch & k & Hc & Hcan2 & Hw2 & Hnew).
  set (s2 := with_conn c _ _) in *.
  set (cn := opened cl ch (this_loop s)
               (client_conn_name inet_ntop4 inet_ntop6 peer (nextConnId_ cl)) sockfd addr peer).
  set (s3 := with_client (set_connection (Some c) cl1) (with_conn c cn s2)).
  exists c, ch, addr, peer, s3. split_and!; try done.
  - exact (conn_at_with _ _ _).
  - apply lookup_insert_eq.
  - etransitivity; [exact Hw2 | exact Hw1].
  - unfold newConnection. erewrite bind_run by by apply Hget.
    erewrite bind_run by by apply assertInLoopThread_ok.
    erewrite (bind_run _ _ s peer (lset os_lens k1 s)).
    2: { unfold peer, k1, getPeerAddr, zoom, total, bind. by destruct (sys_getpeername _ _) as [[] ?]. }
    erewrite bind_run by (unfold lift; by rewrite Hid').
    erewrite bind_run by by apply (Hmod _ cl). fold cl1 s0.
    erewrite (bind_run _ _ s0 addr s1).
    2: { unfold addr, s1, k2, getLocalAddr, zoom, total, bind. by destruct (sys_getsockname _ _) as [[] ?]. }
    erewrite bind_run by exact Hnew. erewrite bind_run by by apply (Hget _ cl1).
    erewrite bind_run by by apply Hset, conn_at_with.
    do 3 (erewrite bind_run by by apply Hset, conn_at_with).
    erewrite bind_run by by apply (Hmod _ cl1).
    f_equal. unfold s3, with_conn, with_client. destruct s2 as [? ? ? ? ? ? ? ? ? ? ? ? []]. cbn.
    by rewrite !insert_insert_eq.
Qed.

(** A new connection, before it is established. *)
Lemma newConnection_builds s cl sockfd (Q : unit -> Loop -> Prop) :
  client (objs s) = Some cl -> isInLoopThread s = true -> 1 <= nextConnId_ cl < 2 ^ 31 - 1 ->
  can_watch s sockfd ->
  (forall c ch localAddr peerAddr s',
     let cn := opened cl ch (this_loop s) (client_conn_name inet_ntop4 inet_ntop6 peerAddr (nextConnId_ cl))
                 sockfd localAddr peerAddr in
     cw_conns (objs s) !! c = None -> conn_at s' c cn ->
     client (objs s') = Some (set_connection (Some c) (set_nextConnId (nextConnId_ cl + 1) cl)) ->
     connector_ (objs s') = connector_ (objs s) -> can_watch s' sockfd ->
     lget memory_lens s' !! ch = Some (new_channel c (this_loop s) sockfd) ->
     watched (poller_ s') = watched (poller_ s) -> statics s' = statics s ->
     isInLoopThread s' = true -> this_loop s' = this_loop s ->
     pendingFunctors_ s' = pendingFunctors_ s ->
     wp (connectEstablished c) Q s') ->
  wp (newConnection inet_ntop4 inet_ntop6 sockfd) Q s.
Proof.
  intros Hcl Hin Hid Hcan HQ.
  destruct (client_newConnection_run s cl sockfd Hcl Hin Hid Hcan) as
    (c & ch & la & pa & s' & Hc & Hc' & Hcl' & Hcon & Hcan' & Hm & Hw & Hst & Hin' & Hl & Hp & Hrun).
  unfold wp. rewrite Hrun. by apply (HQ c ch la pa s').
Qed.

(** The client has connection [c], just connected, on descriptor [sockfd]: its first
    callback is next. *)
Definition has_connection (cl : TcpClient) (sockfd : Z) s (c : conn) s' : Prop :=
  exists ch chn localAddr peerAddr,
    let cn := opened cl ch (this_loop s) (client_conn_name inet_ntop4 inet_ntop6 peerAddr (nextConnId_ cl))
                sockfd localAddr peerAddr in
    cw_conns (objs s) !! c = None /\ conn_at s' c (setState kConnected cn) /\
    client (objs s') = Some (set_connection (Some c) (set_nextConnId (nextConnId_ cl + 1) cl)) /\
    connector_ (objs s') = connector_ (objs s) /\ this_loop s' = this_loop s /\
    registered s' ch chn /\ fd_ chn = sockfd /\ pendingFunctors_ s' = pendingFunctors_ s /\
    watched (poller_ s') = <[sockfd := (ch, encode (kReadEvent (statics s)))]> (watched (poller_ s)).

Lemma newConnection_connects s cl sockfd :
  client (objs s) = Some cl -> isInLoopThread s = true -> 1 <= nextConnId_ cl < 2 ^ 31 - 1 ->
  can_watch s sockfd -> kReadEvent (statics s) <> kNoneEvent (statics s) ->
  exists c s', has_connection cl sockfd s c s' /\
    newConnection inet_ntop4 inet_ntop6 sockfd s = call_connection c (connectionCallback_ cl) s'.
Proof.
  intros Hcl Hin Hid Hcan Hev.
  destruct (client_newConnection_run s cl sockfd Hcl Hin Hid Hcan) as
    (c & ch & la & pa & s1 & Hc & Hc1 & Hcl1 & Hcon1 & (HI & Hfd & Ht & Hsz) & Hm & Hw1 & Hst1 & Hin1 & Hl1 & Hp1 & Hrun1).
  set (cn := opened _ _ _ _ _ _ _) in *.
  destruct (connectEstablished_spec c cn (new_channel c (this_loop s) sockfd) s1)
    as (s2 & chn & Hrun & Hc2 & Hreg2 & Hch2 & Hst2 & Hp2 & Hw2 & Ho2 & Hl2 & Hth2); try done.
  { split_and!; try done; [by left |]. lia. }
  { change (kReadEvent (statics s1) <> kNoneEvent (statics s1)). by rewrite Hst1. }
  exists c, s2. split; [|by rewrite Hrun1, Hrun]. exists ch, chn, la, pa. split_and!; try done.
  - by rewrite Ho2.
  - by rewrite Ho2.
  - by rewrite Hl2.
  - by apply (f_equal fd_) in Hch2.
  - congruence.
  - rewrite Hw2, Hw1, Hst1. done.
Qed.

(** The descriptor of a connector whose channel has just left the poller. *)
Lemma detached_can_watch s c ch s0 k :
  registered s c ch -> detached s c (fd_ ch) s0 -> quiet (lget os_lens s0) k ->
  can_watch (lset os_lens k s0) (fd_ ch) /\
  watched (poller_ (lset os_lens k s0)) = delete (fd_ ch) (watched (poller_ s)).
Proof.
  intros (_ & Hin & _ & _ & Hfd & Ht & Hsz) Hdet Hq.
  destruct (detached_facts _ _ _ _ Hdet Hin) as (_ & _ & _ & _ & _ & _ & HI & Htab & Hw).
  destruct (poller_kernel s0 k Hq HI) as (HI1 & Hw1 & Htab1). split; [|congruence].
  unfold can_watch. rewrite Htab1, Htab. split_and!; try done; [apply lookup_delete_eq|].
  rewrite map_size_delete, Ht. cbn.
  assert (size (table (self (poller_ s))) <> 0%nat); [|lia].
  intros Hz%map_size_empty_inv. rewrite Hz in Ht. by rewrite lookup_empty in Ht.
Qed.
End TcpClient_lemmas.

(** ** Properties *)
Section TcpClient_properties.
Context {B : Build} {A : Allocator} {P K U : Type} `{PollerContract P K}.
Context `{!SysCalls K, !Quiet K, !QuietPoller P K, !TimerLaws K, !NetSys K, !QuietClose P K, !QuietNet K}.
Context `{!ClientCode P K U}.
Local Abbreviation con := (connector_of_client (U := U)) (only parsing).
Implicit Types s : Reactor P K (ClientWorld U).
Variable inet_ntop4 : Z -> list byte.
Variable inet_ntop6 : list byte -> list byte.

(** C15. The socket of an attempt becomes writable, in a process that has its event
    masks; the connector is [kConnecting], may connect and has a channel the poller
    watches ([attempting]), and the counter of names is in range.  Once the channel is
    off the poller, [SO_ERROR] and the two addresses decide: either the attempt fails
    and another is a timer away, or the client has a new connection on the same
    descriptor: connected, under the next name, with the callbacks of the client, on a
    channel of its own that is watched for reading where the channel of the connector
    was watched for writing; the connector is [kConnected] and the only task left is
    the destruction of its channel.  What remains of the event is the call of the
    connection callback, whatever it does. *)
Theorem handleWrite_establishes s c ch cl :
  attempting con s c ch -> client (objs s) = Some cl ->
  newConnectionCallback_ (connector_ (objs s)) = Some TcpClient_newConnection ->
  1 <= nextConnId_ cl < 2 ^ 31 - 1 -> kReadEvent (statics s) <> kNoneEvent (statics s) ->
  let dialed := Connector.handleWrite con (on_new_connection inet_ntop4 inet_ntop6) in
  exists s0, detached s c (fd_ ch) s0 /\
    let r := sys_getSocketError (fd_ ch) (lget os_lens s0) in
    if negb (r.1 =? 0) || (self_connect (fd_ ch) r.2).1
    then wp dialed (fun _ => attempt_failed con s (fd_ ch)) s
    else exists c' ch' chn localAddr peerAddr s1,
      let cn := opened cl ch' (this_loop s)
        (client_conn_name inet_ntop4 inet_ntop6 peerAddr (nextConnId_ cl))
        (fd_ ch) localAddr peerAddr in
      conn_at s1 c' (setState kConnected cn) /\
      client (objs s1) = Some (set_connection (Some c') (set_nextConnId (nextConnId_ cl + 1) cl)) /\
      Connector.state_ (connector_ (objs s1)) = Connector.kConnected /\
      registered s1 ch' chn /\ fd_ chn = fd_ ch /\
      pendingFunctors_ s1 = pendingFunctors_ s ++ [Connector_resetChannel] /\
      watched (poller_ s1) =
        <[fd_ ch := (ch', encode (kReadEvent (statics s)))]> (watched (poller_ s)) /\
      dialed s = call_connection c' (connectionCallback_ cl) s1.
Proof.
  intros Hatt Hcl Hcb Hid Hev dialed. assert (Hin : isInLoopThread s = true) by by eapply attempting_thread.
  destruct (handleWrite_decides con (on_new_connection inet_ntop4 inet_ntop6) s c ch _ Hatt Hcb)
    as (s0 & Hdet & Hrun).
  exists s0. split; [done|]. cbv zeta in Hrun |- *. set (r := sys_getSocketError _ _) in *.
  destruct (negb (r.1 =? 0) || (self_connect (fd_ ch) r.2).1); [exact Hrun|].
  destruct Hrun as (Hc1 & Hrun).
  destruct (detached_facts _ _ _ _ Hdet Hin) as (Ho & _ & _ & Hin0 & Hp & _).
  destruct (detached_same _ _ _ _ Hdet) as (Hst & Hl).
  set (k := (self_connect (fd_ ch) r.2).2) in *.
  assert (Hq : quiet (lget os_lens s0) k).
  { eapply quiet_trans; [apply quiet_sockerr | apply self_connect_ok]. }
  destruct (detached_can_watch s c ch s0 k (proj1 Hatt) Hdet Hq) as (Hcan & Hw).
  set (s1 := lset (connector_lens con) _ _) in *.
  destruct (newConnection_connects inet_ntop4 inet_ntop6 s1 cl (fd_ ch))
    as (c' & s2 & (ch' & chn & la & pa & _ & Hc' & Hcl' & Hcon & _ & Hreg & Hfd & Hp' & Hw') & Hnew);
    try done.
  { cbn. by rewrite Ho. }
  { change (statics s1) with (statics s0). by rewrite Hst. }
  exists c', ch', chn, la, pa, s2. split_and!; try done.
  - rewrite <- Hl. exact Hc'.
  - rewrite Hcon. done.
  - rewrite Hp'. exact Hp.
  - rewrite Hw'. change (watched (poller_ s1)) with (watched (poller_ (lset os_lens k s0))).
    rewrite Hw, insert_delete_eq. change (statics s1) with (statics s0). by rewrite Hst.
  - unfold dialed. rewrite Hrun. exact Hnew.
Qed.
(** Connection [c] of the client is open on the loop that runs. *)
Definition client_serves s (cl : TcpClient) (c : conn) (cn : TcpConnection) (ch : Channel) : Prop :=
  client (objs s) = Some cl /\ connection_ cl = Some c /\ conn_at s c cn /\
  registered s (channel_ cn) ch /\ is_Some (watched (poller_ s) !! fd_ ch) /\
  (state_ cn = kConnected \/ state_ cn = kDisconnecting) /\
  closeCallback_ cn = Some TcpClient_removeConnection /\ getLoop cn = this_loop s.

(** The client lets go of its connection, and may start again. *)
Lemma removeConnection_spec s cl c cn :
  client (objs s) = Some cl -> connection_ cl = Some c -> conn_at s c cn ->
  isInLoopThread s = true -> getLoop cn = this_loop s ->
  removeConnection c s = (whenb (retry_ cl && connect_ cl) (Connector.restart con))
    (queued (TcpConnection_connectDestroyed c) (with_client (set_connection None cl) s)).
Proof.
  intros Hcl Hconn Hc Hin Hl. unfold removeConnection.
  erewrite bind_run by (unfold client_get; rewrite bind_gets; unfold of_option; by rewrite Hcl).
  erewrite bind_run by by apply assertInLoopThread_ok.
  erewrite bind_run by reflexivity. erewrite bind_run; [|apply assert_of_ok].
  2: { erewrite bind_run by (unfold conn_get; rewrite bind_gets; unfold of_option; by rewrite Hc).
       unfold ret. by rewrite bool_decide_eq_true_2. }
  erewrite bind_run by by apply assert_ok, bool_decide_eq_true_2.
  erewrite bind_run by (unfold client_modify, zoom, modify; cbn; by rewrite Hcl).
  by erewrite bind_run by apply queueInLoop_ok.
Qed.
(** The process when [handleClose] calls the connection callback: the connection is
    disconnected and unwatched, the client still has it. *)
Definition closing s cl c cn ch (s1 : Reactor P K (ClientWorld U)) : Prop :=
  objs s1 = objs (with_conn c (setState kDisconnected cn) s) /\
  client (objs s1) = Some cl /\ conn_at s1 c (setState kDisconnected cn) /\
  this_loop s1 = this_loop s /\ isInLoopThread s1 = true /\
  unwatched s1 (channel_ cn) (fd_ ch) (table (self (poller_ s)))
    (delete (fd_ ch) (watched (poller_ s))) /\
  pendingFunctors_ s1 = pendingFunctors_ s.

(** What the connection callback leaves standing, whatever else it does: the client,
    with [cl2] in it now, still has the connection, which has kept its loop and its
    close callback. *)
Definition still_held (c : conn) (cl2 : TcpClient) (cn2 : TcpConnection)
    (s2 : Reactor P K (ClientWorld U)) : Prop :=
  client (objs s2) = Some cl2 /\ connection_ cl2 = Some c /\ conn_at s2 c cn2 /\
  closeCallback_ cn2 = Some TcpClient_removeConnection /\ getLoop cn2 = this_loop s2 /\
  isInLoopThread s2 = true.

(** The client has let go: only the task holds the connection. *)
Definition let_go (c : conn) cl2 (s2 : Reactor P K (ClientWorld U)) : Reactor P K (ClientWorld U) :=
  queued (TcpConnection_connectDestroyed c) (with_client (set_connection None cl2) s2).

Lemma handleClose_calls s cl c cn ch :
  client_serves s cl c cn ch ->
  exists s1, closing s cl c cn ch s1 /\
    TcpConnection.handleClose c s =
      (call_connection c (TcpConnection.connectionCallback_ cn) ;;
       let! cn := conn_get c in call_close c (closeCallback_ cn)) s1.
Proof.
  intros (Hcl & Hconn & Hc & Hreg & Hwat & Hst & Hcb & Hloop).
  destruct (handleClose_spec c cn ch s Hc Hreg Hst Hwat)
    as (s2 & ch2 & Hrun & Hc2 & Hreg2 & Hev2 & Hst2 & Hp2 & Hw2 & Ho2 & Hl2 & Hfd2 & Hth2 & Ht2).
  exists s2. split; [|exact Hrun]. split_and!; try done.
  - by rewrite Ho2.
  - apply Hreg2.
  - exists ch2. split_and!; try done. by rewrite Hst2.
Qed.

(** The task that the client leaves behind. *)
Lemma let_go_task s2 c cl2 cn2 fd t w :
  conn_at s2 c cn2 -> state_ cn2 = kDisconnected -> unwatched s2 (channel_ cn2) fd t w ->
  w !! fd = None -> pendingFunctors_ s2 = [] ->
  wp (doPendingFunctors client_task)
     (fun _ s' => client (objs s') = Some (set_connection None cl2) /\ conn_at s' c cn2 /\
        table (self (poller_ s')) = delete fd t /\ watched (poller_ s') = w /\
        pendingFunctors_ s' = []) (let_go c cl2 s2).
Proof.
  intros Hc Hst Hun Hw Hp. unfold let_go. set (s3 := with_client _ s2).
  destruct Hun as (ch2 & Hreg & Hev & Hfd & Ht & Hwat).
  assert (Hreg3 : registered s3 (channel_ cn2) ch2) by by apply (registered_poller s2).
  destruct (registered_queued (TcpConnection_connectDestroyed c) _ _ _ Hreg3) as [Hreg4 Hw4].
  destruct (queued_same (TcpConnection_connectDestroyed c) s3)
    as (Ho3 & Hp3 & _ & Hst3 & _ & Hl3).
  assert (Hself : self (poller_ (queued (TcpConnection_connectDestroyed c) s3)) = self (poller_ s2))
    by (unfold queued; by case_match).
  set (s4 := queued _ s3) in *.
  eapply (wp_one_task _ (TcpConnection_connectDestroyed c)).
  { rewrite Hp3. change (pendingFunctors_ s3) with (pendingFunctors_ s2). by rewrite Hp. }
  cbn [client_task run_conn_task]. set (s5 := lset pending_lens [] _).
  assert (Hc5 : conn_at s5 c cn2).
  { unfold conn_at. change (objs s5) with (objs s4). rewrite Ho3. exact Hc. }
  assert (Hwat5 : watched (poller_ s5) = w).
  { change (watched (poller_ s5)) with (watched (poller_ s4)). rewrite Hw4. exact Hwat. }
  eapply (connectDestroyed_spec c cn2 ch2 s5); try done.
  - change (events_ ch2 = kNoneEvent (statics s4)). rewrite Hst3. exact Hev.
  - by rewrite Hwat5, Hfd.
  - intros p' _ Ht' Hw' _. change (self (poller_ s5)) with (self (poller_ s4)) in Ht'.
    rewrite Hself, Ht, Hfd in Ht'. rewrite Hwat5 in Hw'. split_and!; try done.
    change (client (objs s4) = Some (set_connection None cl2)). by rewrite Ho3.
Qed.

(** C16. The connection of a client closes.  It is disconnected and unwatched when the
    connection callback runs, and the client still has it.  The callback may do what it
    likes, call [disconnect] or [enableRetry] included, as long as it returns and leaves
    the connection with the client.  Then the client lets go of it before anything else,
    so that it has no connection while the next one is under way; when [retry_] and
    [connect_] are set after the callback the connector starts again at once, and
    otherwise nothing else happens until the queued task runs.  When the callback left
    the connection disconnected and unwatched and no task waited, that task leaves a
    poller that does not know the descriptor, and no task. *)
Theorem handleClose_reconnects s cl c cn ch :
  client_serves s cl c cn ch ->
  exists s1, closing s cl c cn ch s1 /\
    forall s2 cl2 cn2,
      call_connection c (TcpConnection.connectionCallback_ cn) s1 = Ok (tt, s2) ->
      still_held c cl2 cn2 s2 ->
      TcpConnection.handleClose c s =
        (if retry_ cl2 && connect_ cl2 then Connector.restart con (let_go c cl2 s2)
         else Ok (tt, let_go c cl2 s2)) /\
      client (objs (let_go c cl2 s2)) = Some (set_connection None cl2) /\
      pendingFunctors_ (let_go c cl2 s2) = pendingFunctors_ s2 ++ [TcpConnection_connectDestroyed c] /\
      (state_ cn2 = kDisconnected ->
       unwatched s2 (channel_ cn2) (fd_ ch) (table (self (poller_ s)))
         (delete (fd_ ch) (watched (poller_ s))) ->
       pendingFunctors_ s2 = [] ->
       wp (doPendingFunctors client_task)
          (fun _ s' => client (objs s') = Some (set_connection None cl2) /\ conn_at s' c cn2 /\
             table (self (poller_ s')) = delete (fd_ ch) (table (self (poller_ s))) /\
             watched (poller_ s') = delete (fd_ ch) (watched (poller_ s)) /\
             pendingFunctors_ s' = []) (let_go c cl2 s2)).
Proof.
  intros Hs. destruct (handleClose_calls s cl c cn ch Hs) as (s1 & Hclosing & Hrun).
  exists s1. split; [done|]. intros s2 cl2 cn2 Hcall (Hcl & Hconn & Hc & Hcb & Hloop & Hin).
  destruct (queued_same (TcpConnection_connectDestroyed c) (with_client (set_connection None cl2) s2))
    as (Ho3 & Hp3 & _). split_and!.
  - rewrite Hrun. erewrite bind_run by exact Hcall.
    erewrite bind_run by (unfold conn_get; rewrite bind_gets; unfold of_option; by rewrite Hc).
    rewrite Hcb. cbn [call_close]. transitivity (removeConnection c s2); [done|].
    rewrite (removeConnection_spec s2 cl2 c cn2) by done. by destruct (retry_ cl2 && connect_ cl2).
  - unfold let_go. by rewrite Ho3.
  - exact Hp3.
  - intros Hst Hun Hp. apply let_go_task; try done. apply lookup_delete_eq.
Qed.
(** With a long address the number is cut off: all connections to it have one name. *)
Lemma client_name_truncated peerAddr a b :
  (30 <= length (toIpPort inet_ntop4 inet_ntop6 peerAddr))%nat ->
  client_conn_name inet_ntop4 inet_ntop6 peerAddr a = client_conn_name inet_ntop4 inet_ntop6 peerAddr b.
Proof.
  intros Hl. unfold client_conn_name. cbn [take firstn]. f_equal.
  by rewrite !take_app_le by done.
Qed.

(** Destroying a client that never had to retry reads the wild timer of its
    connector, connected or not. *)
Lemma dtor_without_retry s cl :
  client (objs s) = Some cl -> isInLoopThread s = true ->
  (forall c, connection_ cl = Some c -> exists cn, conn_at s c cn) ->
  timer_ (connector_ (objs s)) = None -> TcpClient_dtor s = Err Uninitialised.
Proof.
  intros Hcl Hin Hc Ht. unfold TcpClient_dtor.
  assert (Hbody : TcpClient_dtor_body s = match connection_ cl with
    | Some c => runInLoop (conn_modify c (setConnCloseCallback (Some queue_connectDestroyed)))
                  (TcpConnection_setCloseCallback c queue_connectDestroyed) s
    | None => Connector.stop con s end).
  { unfold TcpClient_dtor_body.
    erewrite bind_run by (unfold client_get; rewrite bind_gets; unfold of_option; by rewrite Hcl).
    by destruct (connection_ cl). }
  destruct (connection_ cl) as [c|].
  - destruct (Hc c eq_refl) as [cn Hcn]. unfold conn_at in Hcn. erewrite bind_run.
    2: { rewrite Hbody. unfold runInLoop. erewrite bind_run by reflexivity. rewrite Hin. unfold conn_modify.
         erewrite bind_run by (unfold conn_get; rewrite bind_gets; unfold of_option; by rewrite Hcn).
         reflexivity. }
    unfold Connector_dtor, bind, gets, of_option. cbn. by rewrite Ht.
  - pose proof (stop_faults con s Hin) as Hs. unfold connector_of in Hs.
    change (lget con (objs s)) with (connector_ (objs s)) in Hs. rewrite Ht in Hs.
    unfold bind. by rewrite Hbody, Hs.
Qed.
End TcpClient_properties.

(** ** Witnesses: a client over epoll *)

#[local] Existing Instances debug_build fresh_allocator.

Local Abbreviation process := (Reactor EpollPoller proc (ClientWorld unit)) (only parsing).

(** The second connection callback gives up for good. *)
#[local] Instance sample_client_code : ClientCode EpollPoller proc unit := {|
  user_connection n c := match n with O => ret tt | S _ => disconnect end;
  user_message n c t := ret tt;
  other_close cb c := ret tt;
  other_task f := ret tt;
  other_handler h := ret tt;
  other_new_connection cb fd := ret tt;
|}.

Definition no_inet4 (z : Z) : list byte := [].
Definition no_inet6 (l : list byte) : list byte := [].

(** The loop watches descriptor 6 through channel 1. *)
Definition sample_loop (ch : Channel) (w : ClientWorld unit) : process :=
  mkReactor 1%positive true false false 0
    (mkPollState (mkEpollPoller 3 (replicate 16 zero_event) {[6 := 1%positive]})
       {[1%positive := ch]} (initDefaultEvent LT)
       (Proc (Sim (Script [] [] ∅)
                (EpollScript {[3 := {[6 := mkEpollEvent (events_ ch) (Some 1%positive)]}]} [] 100) [] [])
          {[3; 4; 5; 6]} [] [] []) 1 1)
    (mkTimerQueue 4 100%positive []) ∅ 5 101%positive [] [] w.

Lemma client_registered ch w :
  loop_ ch = 1%positive -> fd_ ch = 6 -> index_ ch = kAdded ->
  registered (sample_loop ch w) 1%positive ch.
Proof.
  intros Hl Hf Hi. split_and!; try done; rewrite ?Hf; try done.
  split; [|split; [|by vm_compute]]; intros fd.
  - intros c Hc. cbn in Hc. apply lookup_singleton_Some in Hc as [<- <-]. exists ch.
    split_and!; [apply lookup_singleton_eq | done |]. left. split; [done|]. exists (events_ ch).
    apply lookup_singleton_eq.
  - cbn. intros [e He]. rewrite es_list_singleton in He.
    apply lookup_singleton_Some in He as [<- _]. exists 1%positive. apply lookup_singleton_eq.
Qed.

Definition connecting_channel : Channel :=
  set_index kAdded (set_addedToLoop true (set_events EPOLLOUT
    (setErrorCallback Connector_handleError (setWriteCallback Connector_handleWrite
      (Channel_ctor 1%positive 6))))).

Definition idle_client (c : option conn) (id : Z) : TcpClient :=
  mkClient (Some (Callbacks.user_connection 0)) (Some (Callbacks.user_message 0)) None false true id c.

Definition dialing : process :=
  sample_loop connecting_channel
    (mkClientWorld (Some (idle_client None 1))
       (mkConnector zero_sockaddr true Connector.kConnecting (Some 1%positive)
          (Some TcpClient_newConnection) 400 None) ∅ ∅ tt).

Lemma handleWrite_establishes_witness : exists s0, detached dialing 1%positive 6 s0 /\
  let r := sys_getSocketError 6 (lget os_lens s0) in
  let dialed := Connector.handleWrite connector_of_client (on_new_connection no_inet4 no_inet6) in
  if negb (r.1 =? 0) || (self_connect 6 r.2).1
  then wp dialed (fun _ => attempt_failed connector_of_client dialing 6) dialing
  else exists c' ch' s1,
    client (objs s1) = Some (idle_client (Some c') 2) /\
    Connector.state_ (connector_ (objs s1)) = Connector.kConnected /\
    pendingFunctors_ s1 = [Connector_resetChannel] /\
    watched (poller_ s1) = <[6 := (ch', 3)]> (watched (poller_ dialing)) /\
    dialed dialing = Ok (tt, s1).
Proof.
  assert (Hatt : attempting connector_of_client dialing 1%positive connecting_channel).
  { split_and!; try done; [by apply client_registered | split_and!; try done; constructor]. }
  destruct (handleWrite_establishes (SysCalls0 := proc_calls) (ClientCode0 := sample_client_code)
    no_inet4 no_inet6 dialing 1%positive connecting_channel (idle_client None 1) Hatt eq_refl eq_refl
    ltac:(by vm_compute) ltac:(by vm_compute)) as (s0 & Hdet & Hwp).
  exists s0. split; [exact Hdet|]. cbv zeta in Hwp |- *. change (fd_ connecting_channel) with 6 in Hwp.
  destruct (_ || _); [exact Hwp|].
  destruct Hwp as (c' & ch' & chn & la & pa & s1 & _ & Hcl & Hst & _ & _ & Hp & Hw & Hrun).
  exists c', ch', s1. by split_and!.
Defined.

(** The client is connected, through channel 1. *)
Definition open_channel : Channel :=
  set_index kAdded (set_addedToLoop true (set_events 3 (Channel_ctor 1%positive 6))).

Definition open_conn : TcpConnection :=
  setState kConnected (opened (idle_client None 1) 1%positive 1%positive [] 6 zero_sockaddr zero_sockaddr).

Definition talking : process :=
  sample_loop open_channel
    (mkClientWorld (Some (idle_client (Some 9%positive) 2))
       (mkConnector zero_sockaddr true Connector.kConnected None (Some TcpClient_newConnection) 50 None)
       {[9%positive := open_conn]} ∅ tt).

(** The same client with [enableRetry], and the callback that gives up. *)
Definition stubborn : TcpClient := enableRetry (idle_client (Some 9%positive) 2).

Definition parting_conn : TcpConnection :=
  TcpConnection.setConnectionCallback (Some (Callbacks.user_connection 1)) open_conn.

Definition parting : process :=
  sample_loop open_channel
    (mkClientWorld (Some stubborn)
       (mkConnector zero_sockaddr true Connector.kConnected None (Some TcpClient_newConnection) 50 None)
       {[9%positive := parting_conn]} ∅ tt).

(** It had asked for retries, and does not start again. *)
Lemma handleClose_reconnects_witness : exists s2,
  let s3 := let_go 9%positive (set_connect false stubborn) s2 in
  TcpConnection.handleClose 9%positive parting = Ok (tt, s3) /\
  pendingFunctors_ s3 = [TcpConnection_connectDestroyed 9%positive] /\
  wp (doPendingFunctors client_task)
     (fun _ s' => client (objs s') = Some (set_connection None (set_connect false stubborn)) /\
        conn_at s' 9%positive (setState kDisconnected parting_conn) /\
        table (self (poller_ s')) = ∅ /\ pendingFunctors_ s' = []) s3.
Proof.
  assert (Hs : client_serves parting stubborn 9%positive parting_conn open_channel).
  { split_and!; try done; [by apply client_registered | by left]. }
  destruct (handleClose_reconnects (SysCalls0 := proc_calls) (ClientCode0 := sample_client_code)
    parting stubborn 9%positive parting_conn open_channel Hs) as (s1 & Hclosing & Hend).
  destruct Hclosing as (Ho & Hcl & Hc & Hl & Hin & Hun & Hp).
  set (s2 := with_client (set_connect false stubborn) s1).
  assert (Hrun : call_connection 9%positive (TcpConnection.connectionCallback_ parting_conn) s1 = Ok (tt, s2)).
  { transitivity (disconnect s1); [done|]. unfold disconnect.
    erewrite bind_run by (unfold client_modify, zoom, modify; cbn; rewrite Hcl; reflexivity).
    erewrite bind_run by (unfold client_get; rewrite bind_gets; unfold of_option; reflexivity).
    change (shutdown 9%positive s2 = Ok (tt, s2)). unfold shutdown.
    assert (Hc2 : conn_at s2 9%positive (setState kDisconnected parting_conn)) by exact Hc.
    erewrite bind_run by (unfold conn_get; rewrite bind_gets; unfold of_option; by rewrite Hc2).
    reflexivity. }
  destruct (Hend s2 (set_connect false stubborn) (setState kDisconnected parting_conn) Hrun)
    as (Hclose & _ & Hpend & Htask); [by split_and!|].
  exists s2. cbv zeta. split; [exact Hclose|]. split; [rewrite Hpend; change (pendingFunctors_ s2) with (pendingFunctors_ s1); by rewrite Hp|].
  refine (wp_mono _ _ _ _ (Htask eq_refl (unwatched_poller s1 s2 _ _ _ _ eq_refl eq_refl Hun) Hp) _).
  intros [] s' (Hcl' & Hc' & Ht & _ & Hp'). rewrite Ht.
  split_and!; [exact Hcl' | exact Hc' | vm_compute; reflexivity | exact Hp'].
Defined.
