(* ===== verification/ClientLife.v ===== *)
(** * Lifetime.v against TcpClient.v

    What a client does with its connection is what the steps of [Lifetime.v] say:
    the close callback in each of its forms, [disconnect] and the destructor, in
    the thread of the loop and in another one.  [owned_by] relates the client and
    its [connection_] to the owner of [Lifetime.v], as [reflects] of [Ownership.v]
    relates the connection. *)

From S2P Require Import Prelude Posix Process SocketsOps Callbacks Timer Buffer Channel LoopThread Poller EpollPoller TimerQueue Reactor EventLoop Connector TcpConnection Lifetime Ownership TcpClient.

Section ClientLife.
Context {B : Build} {A : Allocator} {P K U : Type} `{PollerContract P K}.
Context `{!SysCalls K, !Quiet K, !QuietPoller P K, !SocketIOLaws K, !TimerLaws K, !NetSys K, !QuietNet K}.
Context `{!ClientCode P K U}.
Local Abbreviation Loop := (Reactor P K (ClientWorld U)) (only parsing).
Local Abbreviation con := (connector_of_client (U := U)) (only parsing).
Implicit Types s : Loop.
Implicit Types l : Life.

(** The client of [s] is the owner of [l], and its pointer is the one in the map. *)
Definition owned_by l s (c : conn) : Prop :=
  match client (objs s) with
  | Some cl => owner l = true /\ in_map l = bool_decide (connection_ cl = Some c)
  | None => owner l = false /\ in_map l = false
  end.

(** What a client does once it has let its connection go. *)
Definition restart_client s : M Loop unit :=
  match client (objs s) with
  | Some cl => whenb (retry_ cl && connect_ cl) (Connector.restart con)
  | None => ret tt
  end.

Lemma reflects_client l s c cl : reflects l s c -> reflects l (with_client cl s) c.
Proof. intros (cn & Hc & Hst & Hcb & (ch & Hch & Hw) & Hp). exists cn. split_and!; try done. by exists ch. Qed.

Lemma reflects_callback l s c cn cb :
  conn_at s c cn -> reflects l s c ->
  reflects (set_closeCallback cb l) (with_conn c (setConnCloseCallback (Some cb) cn) s) c.
Proof.
  intros Hc (cn' & Hc' & Hst & _ & Hw & Hp). rewrite (conn_fun s c cn cn') in Hst, Hw by done.
  exists (setConnCloseCallback (Some cb) cn). split; [apply conn_at_with|]. by split_and!.
Qed.

Lemma client_get_ok s cl : client (objs s) = Some cl -> client_get s = Ok (cl, s).
Proof. intros Hcl. unfold client_get. rewrite bind_gets. unfold of_option. by rewrite Hcl. Qed.

Lemma conn_get_ok s c cn : conn_at s c cn -> conn_get c s = Ok (cn, s).
Proof. intros Hc. unfold conn_get. rewrite bind_gets. unfold of_option. by rewrite Hc. Qed.

(** ** A new connection *)

(** [newConnection] establishes what [init_here] is. *)
Lemma client_newConnection_starts inet_ntop4 inet_ntop6 s cl sockfd (Q : unit -> Loop -> Prop) :
  client (objs s) = Some cl -> isInLoopThread s = true -> 1 <= nextConnId_ cl < 2 ^ 31 - 1 ->
  can_watch s sockfd -> watched (poller_ s) !! sockfd = None ->
  (forall c, cw_conns (objs s) !! c = None -> tasks_of c (pendingFunctors_ s) = []) ->
  (forall c s', reflects (init_here TcpClient_removeConnection) s' c ->
     owned_by (init_here TcpClient_removeConnection) s' c -> wp (TcpConnection.connectEstablished c) Q s') ->
  wp (newConnection inet_ntop4 inet_ntop6 sockfd) Q s.
Proof.
  intros Hcl Hin Hid Hcan Hw Hfresh HQ. apply (newConnection_builds _ _ s cl sockfd); [done..|].
  intros c ch la pa s' cn Hc Hcn Hcl' _ _ Hm Hw' _ _ _ Hp'. apply HQ.
  - eapply reflects_new; [exact Hcn | done | done | exact Hm | done | by rewrite Hw' | done..|].
    by rewrite Hp', Hfresh.
  - unfold owned_by. rewrite Hcl'. split; [done|]. by rewrite bool_decide_eq_true_2.
Qed.

(** ** The close callback *)

(** Up to the assertion. *)
Lemma removeConnection_asserts c cl s cn :
  client (objs s) = Some cl -> isInLoopThread s = true -> conn_at s c cn -> getLoop cn = this_loop s ->
  removeConnection c s =
    (assert_ (bool_decide (connection_ cl = Some c)) ;;
     client_modify (set_connection None) ;; queueInLoop (TcpConnection_connectDestroyed c) ;;
     whenb (retry_ cl && connect_ cl) (Connector.restart con)) s.
Proof.
  intros Hcl Hin Hc Hl. unfold removeConnection.
  erewrite (bind_run client_get) by by apply client_get_ok.
  erewrite (bind_run assertInLoopThread) by by apply assertInLoopThread_ok.
  erewrite (bind_run get) by reflexivity. erewrite (bind_run (assert_of _)); [done|].
  apply assert_of_ok. erewrite bind_run by by apply conn_get_ok.
  unfold ret. by rewrite bool_decide_eq_true_2.
Qed.

(** And after it. *)
Lemma client_lets_go c cl l s :
  client (objs s) = Some cl -> poller_inv (poller_ s) -> reflects l s c -> owner l = true ->
  exists s',
    (client_modify (set_connection None) ;; queueInLoop (TcpConnection_connectDestroyed c) ;;
     whenb (retry_ cl && connect_ cl) (Connector.restart con)) s = restart_client s s' /\
    reflects (queue_io (TcpConnection_connectDestroyed c) (set_in_map false l)) s' c /\
    owned_by (queue_io (TcpConnection_connectDestroyed c) (set_in_map false l)) s' c.
Proof.
  intros Hcl HI Hr Ho.
  exists (queued (TcpConnection_connectDestroyed c) (with_client (set_connection None cl) s)). split.
  - erewrite bind_run by (unfold client_modify, zoom, modify; cbn; by rewrite Hcl).
    erewrite bind_run by apply queueInLoop_ok. unfold restart_client. by rewrite Hcl.
  - split; [apply reflects_queue; [done | done | done | by apply reflects_client]|].
    unfold owned_by.
    destruct (queued_same (TcpConnection_connectDestroyed c) (with_client (set_connection None cl) s))
      as (-> & _). by split.
Qed.

(** Through the [this] of the client. *)
Lemma client_removeConnection_refines c l s cn :
  isInLoopThread s = true -> poller_inv (poller_ s) -> conn_at s c cn -> getLoop cn = this_loop s ->
  reflects l s c -> owned_by l s c ->
  match client_removeConnection c l with
  | Ok l' => exists s', removeConnection c s = restart_client s s' /\ reflects l' s' c /\ owned_by l' s' c
  | Err f => removeConnection c s = Err f
  end.
Proof.
  intros Hin HI Hc Hl Hr Ho. unfold owned_by in Ho. unfold client_removeConnection.
  destruct (client (objs s)) as [cl|] eqn:Hcl.
  2:{ destruct Ho as [-> _]. unfold removeConnection, client_get, bind, gets, of_option. by rewrite Hcl. }
  destruct Ho as [Ho Hm]. rewrite Ho. cbn [negb].
  rewrite (removeConnection_asserts c cl s cn Hcl Hin Hc Hl). unfold assertion. rewrite Hm.
  destruct (client_lets_go c cl l s Hcl HI Hr Ho) as (s' & Hrun & Hr' & Ho').
  unfold assert_. destruct NDEBUG; cbn [negb andb]; [by exists s'|].
  destruct (bool_decide (connection_ cl = Some c)); cbn [negb andb]; [by exists s' | done].
Qed.

(** Whatever the callback is, of those a client sets. *)
Lemma close_callback_refines c l s cn :
  isInLoopThread s = true -> poller_inv (poller_ s) -> conn_at s c cn -> getLoop cn = this_loop s ->
  reflects l s c -> owned_by l s c ->
  of_client l = true \/ closeCallback l = queue_connectDestroyed ->
  match Lifetime.call_close c l with
  | Ok l' => exists s', TcpConnection.call_close c (closeCallback_ cn) s =
               (if of_client l then restart_client s else ret tt) s' /\
               reflects l' s' c /\ owned_by l' s' c
  | Err f => TcpConnection.call_close c (closeCallback_ cn) s = Err f
  end.
Proof.
  intros Hin HI Hc Hl Hr Ho Hcb. assert (Hcn := Hr). destruct Hcn as (cn' & Hc' & _ & Hcb' & _).
  rewrite (conn_fun s c cn cn' Hc Hc') in Hcb'. unfold Lifetime.call_close, of_client in *. rewrite Hcb'.
  destruct Hcb as [Hcb%bool_decide_eq_true_1|Hcb]; rewrite Hcb; cbn [TcpConnection.call_close].
  - rewrite bool_decide_eq_true_2 by done. by apply (client_removeConnection_refines c l s cn).
  - rewrite bool_decide_eq_false_2 by done. exists (queued (TcpConnection_connectDestroyed c) s).
    split; [apply queueInLoop_ok|]. split; [by apply reflects_queue|]. unfold owned_by.
    by destruct (queued_same (TcpConnection_connectDestroyed c) s) as (-> & _).
Qed.

(** ** [disconnect] of another thread *)
Lemma disconnect_refines c l s cl cn :
  isInLoopThread s = false -> poller_inv (poller_ s) -> conn_at s c cn ->
  client (objs s) = Some cl -> connection_ cl = None \/ connection_ cl = Some c ->
  reflects l s c -> owned_by l s c ->
  wp disconnect (fun _ s' => reflects (Lifetime.TcpClient_disconnect c l) s' c) s.
Proof.
  intros Hin HI Hc Hcl Hconn Hr Ho. unfold owned_by in Ho. rewrite Hcl in Ho. destruct Ho as [_ Hm].
  set (s1 := with_client (set_connect false cl) s).
  assert (Hr1 : reflects l s1 c) by by apply reflects_client.
  unfold disconnect. apply wp_bind, (wp_client_modify _ cl); [done|]. fold s1.
  apply wp_bind, (wp_client_get (set_connect false cl)); [done|]. unfold Lifetime.TcpClient_disconnect.
  rewrite Hm. cbn [connection_ set_connect]. destruct Hconn as [Hconn|Hconn]; rewrite Hconn.
  - rewrite bool_decide_eq_false_2 by done. exact Hr1.
  - rewrite bool_decide_eq_true_2 by done. cbn [andb].
    destruct (admitted KShutdown l) eqn:Had.
    + by apply (call_admitted c KShutdown l s1 cn).
    + eapply wp_mono; [by apply (call_refused c KShutdown l s1 cn)|]. by intros [] s' ->.
Qed.

(** ** The destructor *)
Lemma release_reflects l s c : reflects l s c -> reflects (release l) s c.
Proof. unfold release. by case_bool_decide. Qed.

Lemma dtor_body_refines c l s cl cn :
  poller_inv (poller_ s) -> conn_at s c cn -> client (objs s) = Some cl -> connection_ cl = Some c ->
  reflects l s c -> owned_by l s c ->
  wp TcpClient_dtor_body (fun _ s' => reflects (Lifetime.TcpClient_dtor c (isInLoopThread s) l) s' c) s.
Proof.
  intros HI Hc Hcl Hconn Hr Ho. unfold owned_by in Ho. rewrite Hcl in Ho. destruct Ho as [_ Hm].
  rewrite Hconn, bool_decide_eq_true_2 in Hm by done.
  unfold TcpClient_dtor_body, Lifetime.TcpClient_dtor. cbn [in_map set_owner]. rewrite Hm.
  apply wp_bind, (wp_client_get cl); [done|]. rewrite Hconn.
  destruct (isInLoopThread s) eqn:Hin.
  - unfold runInLoop. wp_simp. rewrite Hin. apply (wp_conn_modify c _ cn); [done|].
    apply release_reflects. by apply (reflects_callback l s).
  - apply wp_runInLoop_elsewhere; [done|]. apply release_reflects.
    apply (reflects_queue l s c); [by apply bool_decide_eq_true_2 | done | done | done].
Qed.

(** C7. A client is the owner [Lifetime] says.  In a state that agrees with it on
    the connection and the client: the close callback of the connection, whichever
    of the two the client has set, does in the thread of the loop what [call_close]
    does, faults included, and then starts the connector over if the client
    retries; [disconnect] of another thread and the body of the destructor, in
    either thread, end without a fault in a state that agrees again. *)
Theorem client_owner_refines c l s cn :
  poller_inv (poller_ s) -> conn_at s c cn -> reflects l s c -> owned_by l s c ->
  (isInLoopThread s = true -> getLoop cn = this_loop s ->
   of_client l = true \/ closeCallback l = queue_connectDestroyed ->
   match Lifetime.call_close c l with
   | Ok l' => exists s', TcpConnection.call_close c (closeCallback_ cn) s =
                (if of_client l then restart_client s else ret tt) s' /\
                reflects l' s' c /\ owned_by l' s' c
   | Err f => TcpConnection.call_close c (closeCallback_ cn) s = Err f
   end) /\
  (forall cl, isInLoopThread s = false -> client (objs s) = Some cl ->
   connection_ cl = None \/ connection_ cl = Some c ->
   wp disconnect (fun _ s' => reflects (Lifetime.TcpClient_disconnect c l) s' c) s) /\
  (forall cl, client (objs s) = Some cl -> connection_ cl = Some c ->
   wp TcpClient_dtor_body
     (fun _ s' => reflects (Lifetime.TcpClient_dtor c (isInLoopThread s) l) s' c) s).
Proof.
  intros HI Hc Hr Ho. split_and!.
  - intros. by apply close_callback_refines.
  - intros. by eapply disconnect_refines.
  - intros. by eapply dtor_body_refines.
Qed.
End ClientLife.

(** ** Witness: the client of [TcpClient.talking] *)

#[local] Existing Instances debug_build fresh_allocator sample_client_code.

Definition talking_life : Life :=
  mkLife kConnected true true true TcpClient_removeConnection true (mkWatch true false true true)
    (mkQueue [] [] []) (mkQueue [] [] []) 0 [].

Definition let_go_life : Life :=
  queue_io (TcpConnection_connectDestroyed 9) (set_in_map false talking_life).

Lemma talking_reflects : reflects talking_life talking 9%positive.
Proof.
  exists open_conn. split; [apply lookup_singleton_eq|]. split; [done|]. split; [done|]. split; [|done].
  exists open_channel. by split_and!.
Qed.

Lemma client_owner_refines_witness :
  (exists s', TcpConnection.call_close 9%positive (Some TcpClient_removeConnection) talking = Ok (tt, s') /\
     reflects let_go_life s' 9%positive /\ owned_by let_go_life s' 9%positive) /\
  wp TcpClient_dtor_body
    (fun _ s' => reflects (Lifetime.TcpClient_dtor 9%positive true talking_life) s' 9%positive) talking.
Proof.
  destruct (client_owner_refines (SysCalls0:=proc_calls) (ClientCode0:=sample_client_code) 9%positive
    talking_life talking open_conn) as (Hclose & _ & Hdtor).
  - apply (client_registered open_channel); reflexivity.
  - apply lookup_singleton_eq.
  - exact talking_reflects.
  - by split.
  - split; [exact (Hclose eq_refl eq_refl (or_introl eq_refl))|].
    exact (Hdtor _ eq_refl eq_refl).
Defined.
