(* ===== verification/Dispatch.v ===== *)
(** * EventLoop.cc with Channel.cc and TcpConnection.cc: one turn of the loop

    What the components do together when a poll reports a channel: the poller
    marks it, the loop lets it handle its event, the channel calls its
    connection, and the tasks run. *)

From S2P Require Import Prelude Posix Callbacks Timer Buffer Channel LoopThread Poller EpollPoller Reactor TimerQueue EventLoop TcpConnection.

Section Dispatch.
Context {B : Build} {P K X : Type} `{PollerContract P K} `{!PollReports P K}.
Context `{!SysCalls K, !Quiet K, !QuietPoller P K}.
Context `{!SocketIOLaws K} `{ConnHeap X} `{!Callbacks P K X}.
Implicit Types s : Reactor P K X.

(** The poll that begins the turn reports one channel. *)
Lemma poll_one s t c ch p :
  registered s c ch -> ready_to_poll (poller_ s) ->
  Poller_poll kPollTimeMs [] (poller_ s) = Ok ((t, [c]), p) ->
  exists rev, registered (lset poller_lens p s) c (set_revents rev ch) /\
    watched p = watched (poller_ s) /\ table (self p) = table (self (poller_ s)) /\
    sts p = sts (poller_ s) /\ exists fd m, watched (poller_ s) !! fd = Some (c, m).
Proof.
  intros (HI & Hin & Hm & Hl & Hfd & Ht & Hsz) Hready Hrun.
  pose proof (reports_law kPollTimeMs [] (poller_ s) HI Hin Hready) as Hlaw.
  unfold wp in Hlaw. rewrite Hrun in Hlaw.
  destruct Hlaw as (hits & Hr & Hc & HI' & Hw & (Htab & Hst & Ho & Hrt) & Hall).
  destruct hits as [|[c' rev] [|? ?]]; try done. cbn in Hr. injection Hr as <-.
  apply Forall_cons in Hall as [(fd & m & Hfm) _]. exists rev.
  split; [|split_and!; try done; by exists fd, m].
  cbn in Hc. split_and!; cbn; try done.
  - unfold isInLoopThread in *. cbn in *. congruence.
  - rewrite Hc, lookup_alter_eq. cbn in Hm. by rewrite Hm.
  - by rewrite Htab.
  - by rewrite Htab.
Qed.

(** A channel that handles an event is still registered. *)
Lemma registered_handling s c ch b :
  registered s c ch ->
  registered (lset memory_lens (<[c := set_eventHanding b ch]> (lget memory_lens s)) s) c
    (set_eventHanding b ch) /\
  watched (poller_ (lset memory_lens (<[c := set_eventHanding b ch]> (lget memory_lens s)) s)) =
    watched (poller_ s).
Proof.
  intros (HI & Hin & Hm & Hrest).
  destruct (memory_law c ch (set_eventHanding b ch) (poller_ s) HI Hm eq_refl eq_refl) as [HI' Hw].
  split; [|exact Hw]. split_and!; try done; try apply Hrest. apply lookup_insert_eq.
Qed.

(** Something to read, and nothing that comes first. *)
Definition only_readable (rev : Z) : bool :=
  has rev (Z.lor (Z.lor EPOLLIN EPOLLPRI) EPOLLRDHUP) && negb (has rev EPOLLERR) &&
  negb (has rev EPOLLHUP && negb (has rev EPOLLIN)).

(** The rest of [handleEvent] after the read callback. *)
Definition event_rest (run : Handler -> M (Reactor P K X) unit) (c : chan) : M (Reactor P K X) unit :=
  let! ch := ch_get c in
  whenb (has (revents_ ch) EPOLLOUT) (call_if run (writeCallback_ ch)) ;;
  ch_modify c (set_eventHanding false).

Lemma handleEvent_reads run runRead c ch h t s :
  lget memory_lens s !! c = Some ch -> only_readable (revents_ ch) = true ->
  readCallBack_ ch = Some h ->
  handleEvent run runRead c t s = (runRead t h ;; event_rest run c)
    (lset memory_lens (<[c := set_eventHanding true ch]> (lget memory_lens s)) s).
Proof.
  intros Hm Hr Hh. unfold only_readable in Hr.
  apply andb_true_iff in Hr as [Hr Hhup]. apply andb_true_iff in Hr as [Hr Herr].
  apply negb_true_iff in Herr, Hhup. unfold handleEvent.
  erewrite bind_run by by apply ch_modify_ok. set (s1 := lset channels _ s).
  assert (Hg : ch_get c s1 = Ok (set_eventHanding true ch, s1))
    by (apply ch_get_ok; exact (lookup_insert_eq _ _ _)).
  erewrite bind_run by exact Hg. cbn [revents_ set_eventHanding]. rewrite Hhup.
  erewrite bind_run by reflexivity. erewrite bind_run by exact Hg.
  cbn [revents_ set_eventHanding]. rewrite Herr.
  erewrite bind_run by reflexivity. erewrite bind_run by exact Hg.
  cbn [revents_ set_eventHanding readCallBack_]. rewrite Hr, Hh. reflexivity.
Qed.

(** The rest of an event that is not about writing. *)
Lemma event_rest_quiet run cc ch s :
  lget memory_lens s !! cc = Some ch -> has (revents_ ch) EPOLLOUT = false ->
  event_rest run cc s = ch_modify cc (set_eventHanding false) s.
Proof.
  intros Hm Hout. unfold event_rest. erewrite bind_run by by apply ch_get_ok. by rewrite Hout.
Qed.

Lemma iteration_one oh or_ ot s t c p m s1 :
  Poller_poll kPollTimeMs [] (poller_ s) = Ok ((t, [c]), p) ->
  handleEvent oh or_ c t (set_returned t [c] (lset poller_lens p s)) = m s1 ->
  iteration oh or_ ot s = (m ;; doPendingFunctors ot) s1.
Proof.
  intros Hp He. unfold iteration. erewrite bind_run by (unfold zoom; cbn [lget poller_lens]; by rewrite Hp).
  cbn beta iota. rewrite (bind_run (modify _) _ _ tt (set_returned t [c] (lset poller_lens p s)))
    by reflexivity.
  cbn [for_each].
  set (s0 := set_returned t [c] (lset poller_lens p s)) in *.
  unfold bind. cbn [gets pollReturnTime_]. change (pollReturnTime_ s0) with t. rewrite He.
  by destruct (m s1) as [[[] s2]|].
Qed.

(** A turn in which one connection is readable. *)
Lemma iteration_reads oh or_ ot fuel s c cn ch t p r k1 :
  conn_at s c cn -> registered s (channel_ cn) ch -> ready_to_poll (poller_ s) ->
  readCallBack_ ch = Some (TcpConnection_handleRead c) -> isET (statics s) = false ->
  Poller_poll kPollTimeMs [] (poller_ s) = Ok ((t, [channel_ cn]), p) ->
  (forall ch', chans p !! channel_ cn = Some ch' -> only_readable (revents_ ch') = true) ->
  Inv (inputBuffer_ cn) -> zlen (buffer_ (inputBuffer_ cn)) + extrabuf_size <= vector_max ->
  sys_readv (fd_ ch) (writableBytes (inputBuffer_ cn) + extrabuf_size) (kern p) = (r, k1) ->
  match grow (match r with inl d => zlen d | inr _ => 0 end) (shape (inputBuffer_ cn)) with
  | Some _ => exists b' rev s1, let ch' := set_eventHanding true (set_revents rev ch) in
      chans p !! channel_ cn = Some (set_revents rev ch) /\ Inv b' /\
      content b' = content (inputBuffer_ cn) ++ match r with inl d => d | inr _ => [] end /\
      conn_at s1 c (set_input b' cn) /\ registered s1 (channel_ cn) ch' /\
      kern (poller_ s1) = k1 /\ statics s1 = statics s /\ objs s1 = objs (with_conn c (set_input b' cn) s) /\
      watched (poller_ s1) = watched (poller_ s) /\ pendingFunctors_ s1 = pendingFunctors_ s /\
      iteration (run_conn_handler fuel oh) (run_conn_read fuel or_) (run_conn_task ot) s =
        ((match r with
          | inl [] => TcpConnection.handleClose c
          | inl _ => call_message c t (messageCallback_ cn)
          | inr _ => TcpConnection.handleError c
          end ;; event_rest (run_conn_handler fuel oh) (channel_ cn)) ;;
         doPendingFunctors (run_conn_task ot)) s1
  | None => iteration (run_conn_handler fuel oh) (run_conn_read fuel or_) (run_conn_task ot) s =
              Err no_room
  end.
Proof.
  intros Hc Hreg Hready Hcb HET Hp Hrev HI Hmax Hsys.
  destruct (poll_one s t _ ch p Hreg Hready Hp) as (rev & Hreg1 & Hw1 & _ & Hst1 & _).
  set (s1 := set_returned t [channel_ cn] (lset poller_lens p s)).
  assert (Hreg1' : registered s1 (channel_ cn) (set_revents rev ch))
    by by apply (registered_poller (lset poller_lens p s)).
  destruct (registered_handling s1 _ _ true Hreg1') as [Hreg2 Hw2].
  set (s2 := lset memory_lens _ s1) in *.
  assert (Hm1 : lget memory_lens s1 !! channel_ cn = Some (set_revents rev ch)) by apply Hreg1'.
  assert (HET2 : isET (statics s2) = false).
  { change (statics s2) with (sts p). rewrite Hst1. exact HET. }
  assert (Hit : iteration (run_conn_handler fuel oh) (run_conn_read fuel or_) (run_conn_task ot) s =
      ((TcpConnection.handleRead fuel c t ;; event_rest (run_conn_handler fuel oh) (channel_ cn)) ;;
       doPendingFunctors (run_conn_task ot)) s2).
  { eapply iteration_one; [exact Hp|]. fold s1.
    by rewrite (handleEvent_reads _ _ _ (set_revents rev ch) (TcpConnection_handleRead c));
      [|done | apply Hrev | done]. }
  pose proof (reading_spec fuel c cn (set_eventHanding true (set_revents rev ch)) t r k1 s2 Hc
    (proj1 (proj2 (proj2 Hreg2))) HET2 HI Hmax Hsys) as Hread.
  destruct (grow _ _) as [sh|]; [|rewrite Hit; unfold bind; by rewrite Hread].
  destruct Hread as (b' & HI' & Hcont & Hread).
  assert (Hq : quiet (kern p) k1).
  { pose proof (quiet_readv (fd_ ch) (writableBytes (inputBuffer_ cn) + extrabuf_size) (kern p)) as Hq.
    by rewrite Hsys in Hq. }
  destruct (registered_kernel s2 _ _ k1 Hq Hreg2) as [Hreg3 Hw3].
  exists b', rev, (with_conn c (set_input b' cn) (lset os_lens k1 s2)). split_and!; try done.
  - apply conn_at_with.
  - change (watched (poller_ (with_conn c (set_input b' cn) (lset os_lens k1 s2))))
      with (watched (poller_ (lset os_lens k1 s2))). rewrite Hw3, Hw2. exact Hw1.
  - rewrite Hit. unfold bind. by rewrite Hread.
Qed.

(** Room to write, and nothing that comes first. *)
Definition only_writable (rev : Z) : bool :=
  has rev EPOLLOUT && negb (has rev (Z.lor (Z.lor EPOLLIN EPOLLPRI) EPOLLRDHUP)) &&
  negb (has rev EPOLLERR) && negb (has rev EPOLLHUP).

Lemma handleEvent_writes run runRead c ch h t s :
  lget memory_lens s !! c = Some ch -> only_writable (revents_ ch) = true ->
  writeCallback_ ch = Some h ->
  handleEvent run runRead c t s = (run h ;; ch_modify c (set_eventHanding false))
    (lset memory_lens (<[c := set_eventHanding true ch]> (lget memory_lens s)) s).
Proof.
  intros Hm Hr Hh. unfold only_writable in Hr.
  apply andb_true_iff in Hr as [Hr Hhup]. apply andb_true_iff in Hr as [Hr Herr].
  apply andb_true_iff in Hr as [Hout Hr]. apply negb_true_iff in Hr, Herr, Hhup. unfold handleEvent.
  erewrite bind_run by by apply ch_modify_ok. set (s1 := lset channels _ s).
  assert (Hg : ch_get c s1 = Ok (set_eventHanding true ch, s1))
    by (apply ch_get_ok; exact (lookup_insert_eq _ _ _)).
  erewrite bind_run by exact Hg. cbn [revents_ set_eventHanding]. rewrite Hhup.
  erewrite bind_run by reflexivity. erewrite bind_run by exact Hg.
  cbn [revents_ set_eventHanding]. rewrite Herr.
  erewrite bind_run by reflexivity. erewrite bind_run by exact Hg.
  cbn [revents_ set_eventHanding]. rewrite Hr.
  erewrite bind_run by reflexivity. erewrite bind_run by exact Hg.
  cbn [revents_ set_eventHanding writeCallback_]. rewrite Hout, Hh. reflexivity.
Qed.

(** A turn in which one connection is writable. *)
Lemma iteration_writes oh or_ ot fuel s c cn ch t p r k1 :
  conn_at s c cn -> registered s (channel_ cn) ch -> ready_to_poll (poller_ s) ->
  writeCallback_ ch = Some (TcpConnection_handleWrite c) -> statics s = initDefaultEvent LT ->
  isWriting (statics s) ch = true -> is_Some (watched (poller_ s) !! fd_ ch) ->
  Poller_poll kPollTimeMs [] (poller_ s) = Ok ((t, [channel_ cn]), p) ->
  (forall ch', chans p !! channel_ cn = Some ch' -> only_writable (revents_ ch') = true) ->
  Inv (outputBuffer_ cn) ->
  sys_write (fd_ ch) (content (outputBuffer_ cn)) (kern p) = (r, k1) ->
  exists b' rev s1 s2, let ch' := set_eventHanding true (set_revents rev ch) in
    Inv b' /\
    content b' = match r with
                 | inl n => drop (Z.to_nat n) (content (outputBuffer_ cn))
                 | inr _ => content (outputBuffer_ cn)
                 end /\
    conn_at s1 c (set_output b' cn) /\ registered s1 (channel_ cn) ch' /\
    kern (poller_ s1) = k1 /\
    watched (poller_ s1) = watched (poller_ s) /\ pendingFunctors_ s1 = pendingFunctors_ s /\
    match r with
    | inl n => if (0 <? n) && bool_decide (content b' = [])
               then flushed c (set_output b' cn) ch' s1 s2 else s2 = s1
    | inr _ => s2 = s1
    end /\
    iteration (run_conn_handler fuel oh) (run_conn_read fuel or_) (run_conn_task ot) s =
      (ch_modify (channel_ cn) (set_eventHanding false) ;; doPendingFunctors (run_conn_task ot)) s2.
Proof.
  intros Hc Hreg Hready Hcb Hst Hwr Hwat Hp Hrev HI Hsys.
  destruct (poll_one s t _ ch p Hreg Hready Hp) as (rev & Hreg1 & Hw1 & _ & Hst1 & _).
  set (s1 := set_returned t [channel_ cn] (lset poller_lens p s)).
  assert (Hreg1' : registered s1 (channel_ cn) (set_revents rev ch))
    by by apply (registered_poller (lset poller_lens p s)).
  destruct (registered_handling s1 _ _ true Hreg1') as [Hreg2 Hw2].
  set (s2 := lset memory_lens _ s1) in *.
  assert (Hm1 : lget memory_lens s1 !! channel_ cn = Some (set_revents rev ch)) by apply Hreg1'.
  assert (Hs2 : statics s2 = statics s) by exact Hst1.
  assert (Hww : watched (poller_ s2) = watched (poller_ s)) by (rewrite Hw2; exact Hw1).
  pose proof (handleWrite_spec fuel c cn (set_eventHanding true (set_revents rev ch)) r k1 s2) as Hspec.
  rewrite Hs2, Hww in Hspec. specialize (Hspec Hc Hreg2 Hst Hwr HI Hwat Hsys).
  unfold wp in Hspec. destruct (handleWrite fuel c s2) as [[[] s3]|] eqn:Hrun; [|done].
  assert (Hq : quiet (kern p) k1).
  { pose proof (quiet_write (fd_ ch) (content (outputBuffer_ cn)) (kern p)) as Hq.
    by rewrite Hsys in Hq. }
  destruct (registered_kernel s2 _ _ k1 Hq Hreg2) as [Hreg3 Hw3].
  assert (Hiter : iteration (run_conn_handler fuel oh) (run_conn_read fuel or_) (run_conn_task ot) s =
      (ch_modify (channel_ cn) (set_eventHanding false) ;; doPendingFunctors (run_conn_task ot)) s3).
  { erewrite iteration_one; [|exact Hp|].
    2: { fold s1. rewrite (handleEvent_writes _ _ _ (set_revents rev ch) (TcpConnection_handleWrite c));
           [fold s2; reflexivity | done | by apply Hrev | done]. }
    rewrite bind_assoc. cbn [run_conn_handler]. by erewrite bind_run by exact Hrun. }
  assert (Hfin : forall b', Inv b' ->
      let s' := with_conn c (set_output b' cn) (lset os_lens k1 s2) in
      conn_at s' c (set_output b' cn) /\
      registered s' (channel_ cn) (set_eventHanding true (set_revents rev ch)) /\
      kern (poller_ s') = k1 /\
      watched (poller_ s') = watched (poller_ s) /\ pendingFunctors_ s' = pendingFunctors_ s).
  { intros b' _. split_and!; [apply conn_at_with | exact Hreg3 | done | | done].
    change (watched (poller_ (lset os_lens k1 s2)) = watched (poller_ s)). by rewrite Hw3. }
  destruct r as [n|e].
  - destruct Hspec as (b' & HI' & Hcont & Hend). destruct (Hfin b' HI') as (? & ? & ? & ? & ?).
    by exists b', rev, (with_conn c (set_output b' cn) (lset os_lens k1 s2)), s3.
  - destruct (Hfin _ HI) as (? & ? & ? & ? & ?). subst s3.
    by exists (outputBuffer_ cn), rev, (with_conn c (set_output (outputBuffer_ cn) cn) (lset os_lens k1 s2)),
      (with_conn c (set_output (outputBuffer_ cn) cn) (lset os_lens k1 s2)).
Qed.

(** C10. In level-triggered mode a poll reports one connection, which has something to
    read and nothing worse.  Whatever the read then gives, one turn of the loop, over
    either poller, is this: the bytes that arrived, when they have room ([Buffer.grow]),
    are appended to the input buffer; the message callback of the user runs with the
    time of the poll, or the connection closes at the end of the stream, or looks at its
    error; then the rest of the event and the tasks.  When the callback starts, the
    channel is registered as before and marked as handling its event.  Bytes that have
    no room make the turn fault. *)
Theorem iteration_delivers oh or_ ot fuel s c cn ch t p r k1 :
  conn_at s c cn -> registered s (channel_ cn) ch -> ready_to_poll (poller_ s) ->
  readCallBack_ ch = Some (TcpConnection_handleRead c) -> isET (statics s) = false ->
  Poller_poll kPollTimeMs [] (poller_ s) = Ok ((t, [channel_ cn]), p) ->
  (forall ch', chans p !! channel_ cn = Some ch' -> only_readable (revents_ ch') = true) ->
  Inv (inputBuffer_ cn) -> zlen (buffer_ (inputBuffer_ cn)) + extrabuf_size <= vector_max ->
  sys_readv (fd_ ch) (writableBytes (inputBuffer_ cn) + extrabuf_size) (kern p) = (r, k1) ->
  match grow (match r with inl d => zlen d | inr _ => 0 end) (shape (inputBuffer_ cn)) with
  | Some _ => exists b' rev s1, let ch' := set_eventHanding true (set_revents rev ch) in
      chans p !! channel_ cn = Some (set_revents rev ch) /\ Inv b' /\
      content b' = content (inputBuffer_ cn) ++ match r with inl d => d | inr _ => [] end /\
      conn_at s1 c (set_input b' cn) /\ registered s1 (channel_ cn) ch' /\
      kern (poller_ s1) = k1 /\ statics s1 = statics s /\ objs s1 = objs (with_conn c (set_input b' cn) s) /\
      watched (poller_ s1) = watched (poller_ s) /\ pendingFunctors_ s1 = pendingFunctors_ s /\
      iteration (run_conn_handler fuel oh) (run_conn_read fuel or_) (run_conn_task ot) s =
        ((match r with
          | inl [] => TcpConnection.handleClose c
          | inl _ => call_message c t (messageCallback_ cn)
          | inr _ => TcpConnection.handleError c
          end ;; event_rest (run_conn_handler fuel oh) (channel_ cn)) ;;
         doPendingFunctors (run_conn_task ot)) s1
  | None => iteration (run_conn_handler fuel oh) (run_conn_read fuel or_) (run_conn_task ot) s =
              Err no_room
  end.
Proof. apply iteration_reads. Qed.

(** C11. In level-triggered mode a poll reports one connection, which waits to send and
    has room to write and nothing worse.  One turn of the loop, over either poller, is
    this: the connection hands the kernel its output buffer once and keeps exactly the
    bytes that were not taken, or all of them after an error; when the write took
    something and nothing is left the channel stops asking for room, the callback for a
    completed write is queued, and a connection that was told to shut down shuts its
    sending side; then the tasks run. *)
Theorem iteration_flushes oh or_ ot fuel s c cn ch t p r k1 :
  conn_at s c cn -> registered s (channel_ cn) ch -> ready_to_poll (poller_ s) ->
  writeCallback_ ch = Some (TcpConnection_handleWrite c) -> statics s = initDefaultEvent LT ->
  isWriting (statics s) ch = true -> is_Some (watched (poller_ s) !! fd_ ch) ->
  Poller_poll kPollTimeMs [] (poller_ s) = Ok ((t, [channel_ cn]), p) ->
  (forall ch', chans p !! channel_ cn = Some ch' -> only_writable (revents_ ch') = true) ->
  Inv (outputBuffer_ cn) ->
  sys_write (fd_ ch) (content (outputBuffer_ cn)) (kern p) = (r, k1) ->
  exists b' rev s1 s2, let ch' := set_eventHanding true (set_revents rev ch) in
    Inv b' /\
    content b' = match r with
                 | inl n => drop (Z.to_nat n) (content (outputBuffer_ cn))
                 | inr _ => content (outputBuffer_ cn)
                 end /\
    conn_at s1 c (set_output b' cn) /\ registered s1 (channel_ cn) ch' /\
    kern (poller_ s1) = k1 /\
    watched (poller_ s1) = watched (poller_ s) /\ pendingFunctors_ s1 = pendingFunctors_ s /\
    match r with
    | inl n => if (0 <? n) && bool_decide (content b' = [])
               then flushed c (set_output b' cn) ch' s1 s2 else s2 = s1
    | inr _ => s2 = s1
    end /\
    iteration (run_conn_handler fuel oh) (run_conn_read fuel or_) (run_conn_task ot) s =
      (ch_modify (channel_ cn) (set_eventHanding false) ;; doPendingFunctors (run_conn_task ot)) s2.
Proof. apply iteration_writes. Qed.
End Dispatch.

(** ** Witness: two bytes arrive at a connection over epoll *)

#[local] Existing Instances debug_build world_heap world_callbacks.

(** Connection 1 on channel 7, descriptor 9; the kernel reports it readable. *)
Definition ready_channel : Channel :=
  set_index EpollPoller.kAdded (set_events 3
    (setReadCallback (TcpConnection_handleRead 1%positive) (Channel_ctor 1%positive 9))).

Definition ready_conn : TcpConnection := sample_conn kConnected [].

Definition ready_loop : Reactor EpollPoller sim world :=
  mkReactor 1%positive true false false 0
    (mkPollState (mkEpollPoller 3 (replicate 16 zero_event) {[9 := 7%positive]})
       {[7%positive := ready_channel]} (initDefaultEvent LT)
       (Sim (Script [inl [x62; x63]] [] ∅)
          (EpollScript {[3 := {[9 := mkEpollEvent 3 (Some 7%positive)]}]} [[(9, EPOLLIN)]] 100) [] []) 1 1)
    (mkTimerQueue 4 3%positive []) ∅ 5 2%positive [] [] ({[1%positive := ready_conn]}, ∅).

Lemma ready_registered : registered ready_loop 7%positive ready_channel.
Proof.
  split_and!; try done. split; [|split; [|by vm_compute]]; intros fd.
  - intros c Hc. cbn in Hc. apply lookup_singleton_Some in Hc as [<- <-].
    exists ready_channel. split_and!; try done. left. split; [done|]. exists 3.
    apply lookup_singleton_eq.
  - cbn. intros [e He]. rewrite es_list_singleton in He.
    apply lookup_singleton_Some in He as [<- _]. exists 7%positive. apply lookup_singleton_eq.
Qed.

Definition nothing_else {T} (x : T) : M (Reactor EpollPoller sim world) unit := ret tt.

Lemma iteration_delivers_witness : exists b' rev s1,
  content b' = [x62; x63] /\ conn_at s1 1%positive (set_input b' ready_conn) /\
  registered s1 7%positive (set_eventHanding true (set_revents rev ready_channel)) /\
  iteration (run_conn_handler 0 nothing_else) (run_conn_read 0 (fun _ => nothing_else))
      (run_conn_task nothing_else) ready_loop =
    ((call_message 1%positive 100 (Some (user_message 1)) ;;
      event_rest (run_conn_handler 0 nothing_else) 7%positive) ;;
     doPendingFunctors (run_conn_task nothing_else)) s1.
Proof.
  set (polled := Poller_poll kPollTimeMs [] (poller_ ready_loop)).
  set (p := match polled with Ok (_, p) => p | Err _ => poller_ ready_loop end).
  assert (Hpoll : polled = Ok ((100, [channel_ ready_conn]), p)) by (vm_compute; reflexivity).
  assert (Hrev : forall ch', chans p !! channel_ ready_conn = Some ch' ->
    only_readable (revents_ ch') = true) by (vm_compute; by intros ch' [= <-]).
  assert (Hready : ready_to_poll (poller_ ready_loop)) by (cbn; unfold zlen; cbn; lia).
  destruct (sample_buffer_ok [] eq_refl) as [HI Hcont].
  destruct (iteration_delivers (B:=debug_build) (SysCalls0:=sim_calls) nothing_else
    (fun _ => nothing_else) nothing_else 0 ready_loop 1%positive ready_conn ready_channel 100 p
    (inl [x62; x63]) (sys_readv 9 (64 + extrabuf_size) (kern p)).2
    (lookup_singleton_eq _ _) ready_registered Hready eq_refl eq_refl Hpoll Hrev HI
    ltac:(by vm_compute) ltac:(vm_compute; reflexivity))
    as (b' & rev & s1 & _ & _ & Hc & Hconn & Hreg & _ & _ & _ & _ & _ & Hrun).
  change (inputBuffer_ ready_conn) with (sample_buffer []) in Hc. rewrite Hcont in Hc.
  exists b', rev, s1. by split_and!.
Defined.

(** ** Witness: the last of the output goes out over epoll

    Connection 1 was told to shut down with ten bytes still to send; its channel
    waits to write, and the kernel takes all ten. *)
Definition waiting_channel : Channel :=
  set_events 7 (setWriteCallback (TcpConnection_handleWrite 1%positive) ready_channel).

Definition waiting_conn : TcpConnection := sample_conn kDisconnecting ten.

Definition waiting_loop : Reactor EpollPoller sim world :=
  mkReactor 1%positive true false false 0
    (mkPollState (mkEpollPoller 3 (replicate 16 zero_event) {[9 := 7%positive]})
       {[7%positive := waiting_channel]} (initDefaultEvent LT)
       (Sim (Script [] [inl 10] ∅)
          (EpollScript {[3 := {[9 := mkEpollEvent 7 (Some 7%positive)]}]} [[(9, EPOLLOUT)]] 100) [] []) 1 1)
    (mkTimerQueue 4 3%positive []) ∅ 5 2%positive [] [] ({[1%positive := waiting_conn]}, ∅).

Lemma waiting_registered : registered waiting_loop 7%positive waiting_channel.
Proof.
  split_and!; try done. split; [|split; [|by vm_compute]]; intros fd.
  - intros c Hc. cbn in Hc. apply lookup_singleton_Some in Hc as [<- <-].
    exists waiting_channel. split_and!; try done. left. split; [done|]. exists 7.
    apply lookup_singleton_eq.
  - cbn. intros [e He]. rewrite es_list_singleton in He.
    apply lookup_singleton_Some in He as [<- _]. exists 7%positive. apply lookup_singleton_eq.
Qed.

Lemma iteration_flushes_witness : exists b' rev s1 s2,
  content b' = [] /\ conn_at s1 1%positive (set_output b' waiting_conn) /\
  flushed 1%positive (set_output b' waiting_conn)
    (set_eventHanding true (set_revents rev waiting_channel)) s1 s2 /\
  iteration (run_conn_handler 0 nothing_else) (run_conn_read 0 (fun _ => nothing_else))
      (run_conn_task nothing_else) waiting_loop =
    (ch_modify 7%positive (set_eventHanding false) ;;
     doPendingFunctors (run_conn_task nothing_else)) s2.
Proof.
  set (polled := Poller_poll kPollTimeMs [] (poller_ waiting_loop)).
  set (p := match polled with Ok (_, p) => p | Err _ => poller_ waiting_loop end).
  assert (Hpoll : polled = Ok ((100, [channel_ waiting_conn]), p)) by (vm_compute; reflexivity).
  assert (Hrev : forall ch', chans p !! channel_ waiting_conn = Some ch' ->
    only_writable (revents_ ch') = true) by (vm_compute; by intros ch' [= <-]).
  assert (Hready : ready_to_poll (poller_ waiting_loop)) by (cbn; unfold zlen; cbn; lia).
  destruct (sample_buffer_ok ten eq_refl) as [HI Hcont].
  destruct (iteration_flushes (B:=debug_build) (SysCalls0:=sim_calls) nothing_else
    (fun _ => nothing_else) nothing_else 0 waiting_loop 1%positive waiting_conn waiting_channel 100 p
    (inl 10) (sys_write 9 ten (kern p)).2
    (lookup_singleton_eq _ _) waiting_registered Hready eq_refl eq_refl eq_refl
    ltac:(by eexists) Hpoll Hrev HI ltac:(vm_compute; reflexivity))
    as (b' & rev & s1 & s2 & _ & Hc & Hconn & _ & _ & _ & _ & Hend & Hrun).
  change (outputBuffer_ waiting_conn) with (sample_buffer ten) in Hc. rewrite Hcont in Hc.
  rewrite Hc in Hend. exists b', rev, s1, s2. split_and!; [exact Hc | exact Hconn | exact Hend | exact Hrun].
Defined.
