(* ===== verification/TaskQueue.v ===== *)
(** * Wakeup.v against Reactor.v and EventLoop.v

    The step function of [Wakeup.v] is what the code of the loop does to its task
    queue: [queueInLoop] in the thread of the loop and in another one,
    [handleRead], and a whole turn of [loop()], are runs of it.  [mirrors w s] says
    that the abstract queue [w] has the tasks, the flag and the wake-up descriptor
    of the reactor [s]. *)

From S2P Require Import Prelude Posix Callbacks Wakeup Timer Channel LoopThread Poller EpollPoller Reactor EventLoop TcpConnection Dispatch.

(** eventfd(2): [readable k fd] is [None] when [fd] is no such descriptor. *)
Class Eventfds (K : Type) `{SysCalls K} : Type := {
  readable : K -> Z -> option bool;
  readable_write fd b k :
    readable k fd = Some b -> readable (sys_write fd one_bytes k).2 fd = Some true;
  readable_read fd b k : readable k fd = Some b -> readable (sys_readv fd 8 k).2 fd = Some false;
}.

Section TaskQueue.
Context {B : Build} {P K X : Type} `{PollerOps P K} `{SysCalls K, !Eventfds K}.
Implicit Types s : Reactor P K X.
Implicit Types w : Wakeup.Shared (task := Functor).

Definition mirrors w s : Prop :=
  Wakeup.pendingFunctors_ w = pendingFunctors_ s /\
  Wakeup.callingPendingFunctors_ w = callingPendingFunctors_ s /\
  0 <= eventfd w /\ readable (lget os_lens s) (wakeupFd_ s) = Some (0 <? eventfd w).

Lemma mirrors_woken w s :
  mirrors w s ->
  mirrors (Wakeup.wakeup w) (lset os_lens (sys_write (wakeupFd_ s) one_bytes (lget os_lens s)).2 s).
Proof.
  intros (Hp & Hc & He & Hr). split_and!; try done; [cbn; lia|].
  cbn [eventfd Wakeup.wakeup set_eventfd]. rewrite (proj2 (Z.ltb_lt 0 (eventfd w + 1))) by lia.
  exact (readable_write _ _ _ Hr).
Qed.

Lemma mirrors_push w s f :
  mirrors w s -> mirrors (Wakeup.push f w) (lset pending_lens (pendingFunctors_ s ++ [f]) s).
Proof. intros (Hp & Hc & He & Hr). split_and!; try done. cbn. by rewrite Hp. Qed.

Lemma queueInLoop_here w s f :
  mirrors w s -> isInLoopThread s = true -> mirrors (Wakeup.queueInLoop w f) (queued f s).
Proof.
  intros Hm Hin. unfold queued, Wakeup.queueInLoop, must_wake. rewrite Hin. cbn [negb orb].
  apply (mirrors_push w s f) in Hm as Hm1. pose proof Hm as (_ & Hc & _).
  change (Wakeup.callingPendingFunctors_ (Wakeup.push f w)) with (Wakeup.callingPendingFunctors_ w).
  rewrite Hc. destruct (callingPendingFunctors_ s); [|done]. exact (mirrors_woken _ _ Hm1).
Qed.

Lemma queueInLoop_elsewhere w s f :
  mirrors w s -> isInLoopThread s = false -> 0 <= waking w ->
  exists w', Wakeup.run [Other_push f; Other_wakeup] w = Some w' /\ mirrors w' (queued f s) /\
    pc w' = pc w /\ waking w' = waking w.
Proof.
  intros Hm Hin Hw. unfold queued. rewrite Hin. cbn [negb orb].
  apply (mirrors_push w s f), mirrors_woken in Hm. cbn [Wakeup.run Wakeup.step].
  unfold must_wake. cbn [negb orb]. cbn. rewrite (proj2 (Z.ltb_lt 0 (waking w + 1))) by lia.
  eexists. split; [reflexivity|]. split_and!; [exact Hm | done | cbn; lia].
Qed.

Lemma handleRead_mirrors w s :
  mirrors w s ->
  wp Reactor.handleRead (fun _ s' => mirrors (Wakeup.handleRead w) s' /\
    isInLoopThread s' = isInLoopThread s) s.
Proof.
  intros (Hp & Hc & He & Hr). unfold Reactor.handleRead. wp_simp.
  split; [|done]. split_and!; try done. exact (readable_read _ _ _ Hr).
Qed.

(** *** A turn of the loop

    [good] is what handlers and tasks need of the rest of the state, and keep; [known]
    are the tasks that may be in the queue.  What a handler or a task queues may depend
    on the state, and is only asked to go through [queueInLoop]. *)
Section turn.
Context (run_handler : Handler -> M (Reactor P K X) unit).
Context (run_read : Z -> Handler -> M (Reactor P K X) unit).
Context (run_task : Functor -> M (Reactor P K X) unit).
Context (good : Reactor P K X -> Prop) (known : Functor -> Prop).

Definition in_step w s : Prop := mirrors w s /\ isInLoopThread s = true /\ good s.

(** The handler of channel [c] reads the wake-up descriptor ([None]) or queues tasks. *)
Definition handled (h : option (list Functor)) w : Wakeup.Shared :=
  match h with None => Wakeup.handleRead w | Some l => foldl Wakeup.queueInLoop w l end.

Definition handler_mirrors (c : chan) : Prop := forall w s t, in_step w s ->
  wp (handleEvent run_handler run_read c t)
     (fun _ s' => exists h, Forall known (default [] h) /\ in_step (handled h w) s') s.

Definition task_mirrors (f : Functor) : Prop := forall w s, in_step w s ->
  wp (run_task f)
     (fun _ s' => exists l, Forall known l /\ in_step (foldl Wakeup.queueInLoop w l) s') s.

Lemma in_step_pc p w s : in_step w s -> in_step (set_pc p w) s.
Proof. done. Qed.

Lemma run_app es1 es2 w w1 :
  Wakeup.run es1 w = Some w1 -> Wakeup.run (es1 ++ es2) w = Wakeup.run es2 w1.
Proof.
  revert w. induction es1 as [|e es1 IH]; intros w; cbn; [by intros [= ->]|].
  destruct (Wakeup.step e w); cbn; [apply IH | done].
Qed.

Lemma known_queued l w s s' :
  mirrors w s -> Forall known (pendingFunctors_ s) -> Forall known l ->
  mirrors (foldl Wakeup.queueInLoop w l) s' -> Forall known (pendingFunctors_ s').
Proof.
  intros (Hp & _) Hk Hl (Hp' & _). rewrite <- Hp', Wakeup.queueInLoop_all. cbn.
  rewrite Hp. by apply Forall_app.
Qed.

Lemma known_handled h w s s' :
  mirrors w s -> Forall known (pendingFunctors_ s) -> Forall known (default [] h) ->
  mirrors (handled h w) s' -> Forall known (pendingFunctors_ s').
Proof.
  destruct h as [l|]; cbn [handled default]; [apply known_queued|].
  intros (Hp & _) Hk _ (Hp' & _). cbn in Hp'. by rewrite <- Hp', Hp.
Qed.

Lemma handlers_mirror active : forall w s,
  Forall handler_mirrors active -> in_step w s -> Forall known (pendingFunctors_ s) ->
  wp (for_each active (fun c => let! now := gets pollReturnTime_ in handleEvent run_handler run_read c now))
     (fun _ s' => exists hs w', length hs = length active /\
        Wakeup.run ((fun _ => Handle) <$> active) (set_pc (Handling hs) w) = Some w' /\
        in_step w' s' /\ pc w' = Handling [] /\ Forall known (pendingFunctors_ s')) s.
Proof.
  induction active as [|c active IH]; intros w s Hh Hs Hk; cbn [for_each].
  { apply wp_ret. by exists [], (set_pc (Handling []) w). }
  apply Forall_cons in Hh as [Hc Hh]. apply wp_bind, wp_bind. apply wp_gets.
  eapply wp_mono; [by apply Hc|]. intros [] s1 (h & Hkh & Hs1).
  assert (Hk1 : Forall known (pendingFunctors_ s1))
    by (eapply known_handled; [apply Hs | done | exact Hkh | apply Hs1]).
  eapply wp_mono; [apply (IH (handled h w) s1 Hh Hs1 Hk1)|].
  intros [] s2 (hs & w' & Hlen & Hr & Hs2 & Hpc' & Hk2). exists (h :: hs), w'.
  split_and!; [cbn; by rewrite Hlen | | done..].
  rewrite fmap_cons. cbn [Wakeup.run Wakeup.step set_pc pc mbind option_bind].
  destruct h as [l|]; [|exact Hr]. cbn [handled] in Hr. rewrite Wakeup.queueInLoop_all in Hr |- *. exact Hr.
Qed.

Lemma tasks_mirror fs : forall w s,
  Forall task_mirrors fs -> in_step w s -> Forall known (pendingFunctors_ s) ->
  wp (for_each fs run_task)
     (fun _ s' => exists ls w', length ls = length fs /\
        Wakeup.run (Run <$> ls) (set_pc (Running fs) w) = Some w' /\
        in_step w' s' /\ pc w' = Running [] /\ Forall known (pendingFunctors_ s')) s.
Proof.
  induction fs as [|f fs IH]; intros w s Hh Hs Hk; cbn [for_each].
  { apply wp_ret. by exists [], (set_pc (Running []) w). }
  apply Forall_cons in Hh as [Hf Hh]. apply wp_bind.
  eapply wp_mono; [by apply (Hf (record_executed f w))|]. intros [] s1 (l & Hkl & Hs1).
  assert (Hk1 : Forall known (pendingFunctors_ s1))
    by (eapply (known_queued l (record_executed f w)); [apply Hs | done | exact Hkl | apply Hs1]).
  eapply wp_mono; [apply (IH _ s1 Hh Hs1 Hk1)|].
  intros [] s2 (ls & w' & Hlen & Hr & Hs2 & Hpc' & Hk2). exists (l :: ls), w'.
  split_and!; [cbn; by rewrite Hlen | | done..].
  rewrite fmap_cons. cbn [Wakeup.run Wakeup.step set_pc pc mbind option_bind].
  rewrite Wakeup.queueInLoop_all in Hr |- *. exact Hr.
Qed.

Context (good_calling : forall b s, good s -> good (set_calling b s)).
Context (good_taken : forall s, good s -> good (lset pending_lens [] s)).
Context (known_mirrors : forall f, known f -> task_mirrors f).

Lemma pending_mirror w s :
  in_step w s -> pc w = Handling [] -> Forall known (pendingFunctors_ s) ->
  wp (doPendingFunctors run_task)
     (fun _ s' => exists ls w', length ls = length (pendingFunctors_ s) /\
        Wakeup.run ([Begin_pending; Swap] ++ (Run <$> ls) ++ [End_pending]) w = Some w' /\
        in_step w' s' /\ pc w' = Polling /\ Forall known (pendingFunctors_ s')) s.
Proof.
  intros ((Hp & Hc & He & Hr) & Hin & Hg) Hpc Hk. apply wp_doPendingFunctors.
  set (w1 := set_pending [] (Wakeup.set_calling true w)).
  set (w2 := set_pc (Running (pendingFunctors_ s)) w1).
  assert (H1 : in_step w1 (lset pending_lens [] (set_calling true s))) by (split_and!; auto; done).
  assert (Hk' : Forall task_mirrors (pendingFunctors_ s)) by (eapply Forall_impl; [exact Hk | done]).
  eapply wp_mono; [by apply (tasks_mirror _ w1 _ Hk' H1)|].
  intros [] s' (ls & w' & Hlen & Hrun & ((Hp' & Hc' & He' & Hr') & Hin' & Hg') & Hpc' & Hk1).
  exists ls, (set_pc Polling (Wakeup.set_calling false w')).
  split_and!; [done | | split_and!; try done; by apply good_calling | done | done].
  rewrite (run_app [Begin_pending; Swap] _ w w2) by (cbn; rewrite Hpc; cbn; by rewrite Hp).
  rewrite (run_app _ _ _ w'); [|exact Hrun]. cbn. by rewrite Hpc'.
Qed.

(** The wake-up channel: the counter is read, and nothing else. *)
Lemma wakeup_channel_mirrors c :
  (forall t s, run_read t EventLoop_handleRead s = Reactor.handleRead s) ->
  (forall s, good s -> exists ch, lget memory_lens s !! c = Some ch /\
     only_readable (revents_ ch) = true /\ has (revents_ ch) EPOLLOUT = false /\
     readCallBack_ ch = Some EventLoop_handleRead) ->
  (forall s ch b, good s -> lget memory_lens s !! c = Some ch ->
     good (lset memory_lens (<[c := set_eventHanding b ch]> (lget memory_lens s)) s)) ->
  (forall s k, good s -> good (lset os_lens k s)) -> handler_mirrors c.
Proof.
  intros Hread Hch Hmem Hos w s t (Hm & Hin & Hg).
  destruct (Hch s Hg) as (ch & Hl & Hr & Ho & Hcb). unfold wp.
  rewrite (handleEvent_reads _ _ c ch EventLoop_handleRead t s Hl Hr Hcb). set (s1 := lset memory_lens _ s).
  assert (Hg1 : good s1) by by apply Hmem.
  assert (Hm1 : mirrors w s1) by exact Hm. pose proof Hm1 as (Hp1 & Hc1 & He1 & Hr1).
  unfold bind at 1. rewrite Hread.
  set (k2 := (sys_readv (wakeupFd_ s1) 8 (lget os_lens s1)).2).
  assert (Hrd : Reactor.handleRead s1 = Ok (tt, lset os_lens k2 s1)).
  { unfold Reactor.handleRead, bind at 1, get. by rewrite bind_zoom_total. }
  rewrite Hrd. set (s2 := lset os_lens k2 s1).
  assert (Hl2 : lget memory_lens s2 !! c = Some (set_eventHanding true ch))
    by exact (lookup_insert_eq _ _ _).
  assert (Hg2 : good s2) by by apply Hos.
  rewrite (event_rest_quiet _ c (set_eventHanding true ch) s2 Hl2 Ho).
  assert (Hmod : ch_modify c (set_eventHanding false) s2 = Ok (tt, lset memory_lens
    (<[c := set_eventHanding false (set_eventHanding true ch)]> (lget memory_lens s2)) s2))
    by exact (ch_modify_ok (S := Reactor P K X) c (set_eventHanding false) s2 (set_eventHanding true ch) Hl2).
  rewrite Hmod. exists None. split; [done|].
  split_and!; [split_and!; try done; exact (readable_read _ _ _ Hr1) | done | by apply (Hmem s2)].
Qed.

(** A task that only queues others. *)
Lemma queueing_task_mirrors f l :
  (forall s, run_task f s = for_each l queueInLoop s) -> Forall known l ->
  (forall s g, good s -> good (queued g s)) -> task_mirrors f.
Proof.
  intros Hrun Hk Hq. unfold task_mirrors, wp. intros w s Hs. rewrite Hrun.
  enough (match for_each l queueInLoop s with
          | Ok (_, s') => in_step (foldl Wakeup.queueInLoop w l) s' | Err _ => False end)
    by (destruct (for_each l queueInLoop s) as [[[] s']|]; [by exists l | done]).
  clear Hrun Hk. revert w s Hs.
  induction l as [|g l IH]; intros w s Hs; [exact Hs|].
  cbn [for_each foldl]. unfold bind. rewrite queueInLoop_ok. apply IH.
  destruct Hs as (Hm & Hin & Hg). split; [by apply queueInLoop_here|].
  split; [by rewrite (proj1 (proj2 (proj2 (proj2 (proj2 (queued_same g s))))))|by apply Hq].
Qed.

(** A task that only changes the objects of the process. *)
Lemma object_task_mirrors f (g : X -> X) :
  (forall s, good s -> run_task f s = Ok (tt, lset objs_lens (g (objs s)) s)) ->
  (forall s, good s -> good (lset objs_lens (g (objs s)) s)) -> task_mirrors f.
Proof.
  intros Hrun Hkeep w s (Hm & Hin & Hg). unfold wp. rewrite Hrun by done.
  exists []. split; [done|]. split_and!; [exact Hm | exact Hin | by apply Hkeep].
Qed.

(** C18. What the code of the loop does to its tasks is what [Wakeup.v] says.  Of
    the handlers of the active channels and of every task that may be in the queue
    ([known]) it is asked that they return, that what they need ([good]) holds again
    afterwards, and that they touch the queue, its flag and the wake-up descriptor only
    through [queueInLoop], with known tasks, in the thread of the loop, or by
    [EventLoop::handleRead].  From a reactor that mirrors an abstract queue, a turn of
    [loop()] (a poll that does not disturb the wake-up descriptor, the handlers of the
    active channels, then [doPendingFunctors]) is a run of the steps [Poll_other],
    [Handle] for every active channel, [Begin_pending], [Swap], [Run] for every task
    taken and [End_pending], whose last state the reactor mirrors again, with known
    tasks only; so the order, the wake-ups and the progress shown there hold of the
    code, turn after turn. *)
Theorem loop_turn_refines w s t active p :
  mirrors w s -> isInLoopThread s = true -> pc w = Polling ->
  Forall known (pendingFunctors_ s) ->
  Poller_poll kPollTimeMs [] (poller_ s) = Ok ((t, active), p) ->
  readable (kern p) (wakeupFd_ s) = readable (kern (poller_ s)) (wakeupFd_ s) ->
  ownerThread p = runningThread p ->
  good (set_returned t active (lset poller_lens p s)) ->
  Forall handler_mirrors active ->
  wp (iteration run_handler run_read run_task)
     (fun _ s' => exists hs ls w', length hs = length active /\
        Wakeup.run (Poll_other hs :: ((fun _ => Handle) <$> active) ++ [Begin_pending; Swap] ++
          (Run <$> ls) ++ [End_pending]) w = Some w' /\
        in_step w' s' /\ pc w' = Polling /\ Forall known (pendingFunctors_ s')) s.
Proof.
  intros (Hp & Hc & He & Hr) Hin Hpc Hk Hpoll Hrd Hth Hg Hh. unfold iteration.
  apply wp_bind. eapply wp_ok; [unfold zoom; cbn [lget poller_lens]; by rewrite Hpoll|].
  apply wp_bind, wp_modify, wp_bind. set (s1 := set_returned _ _ _) in *.
  assert (H1 : in_step w s1).
  { split; [split_and!; try done; exact (eq_trans Hrd Hr) | split; [by apply Z.eqb_eq | done]]. }
  eapply wp_mono; [by apply (handlers_mirror active w s1 Hh H1)|].
  intros [] s2 (hs & w2 & Hlen & Hrun2 & H2 & Hpc2 & Hk2).
  eapply wp_mono; [by apply (pending_mirror w2 s2 H2)|].
  intros [] s3 (ls & w3 & _ & Hrun3 & H3 & Hpc3 & Hk3). exists hs, ls, w3.
  split_and!; try done. cbn [Wakeup.run Wakeup.step]. rewrite Hpc. cbn [mbind option_bind].
  by rewrite (run_app _ _ _ w2).
Qed.
End turn.
End TaskQueue.

(** ** Witness: a turn with a task that queues others and one on a connection

    Descriptor 5 is the eventfd of the loop; the rest of the kernel is [sim]. *)
#[local] Existing Instance debug_build.

Record event_kernel : Type := EventKernel { ek_sim : sim; ek_ready : bool }.

Definition on_rest {A} (f : sim -> A * sim) (k : event_kernel) : A * event_kernel :=
  let r := f (ek_sim k) in (r.1, EventKernel r.2 (ek_ready k)).

#[local] Instance event_io : SocketIO event_kernel := {|
  sys_readv fd cap k :=
    if fd =? 5 then (if ek_ready k then inl (replicate 8 x00) else inr EAGAIN, EventKernel (ek_sim k) false)
    else on_rest (sys_readv fd cap) k;
  sys_write fd d k :=
    if fd =? 5 then (inl 8, EventKernel (ek_sim k) true) else on_rest (sys_write fd d) k;
|}.
#[local] Instance event_sock : SockSys event_kernel := {|
  sys_shutdown_write fd := on_rest (sys_shutdown_write fd);
  sys_getSocketError fd := on_rest (sys_getSocketError fd);
  sys_setsockopt fd o b := on_rest (sys_setsockopt fd o b);
  sys_close fd := on_rest (sys_close fd);
|}.
#[local] Instance event_timerfd : TimerfdSys event_kernel := {|
  sys_timerfd_settime fd v := on_rest (sys_timerfd_settime fd v);
|}.
#[local] Instance event_clock : ClockSys event_kernel := {| sys_now := on_rest sys_now |}.
#[local] Instance event_calls : SysCalls event_kernel := {| sc_io := _ |}.
#[local] Instance event_epoll : EpollSys event_kernel := {|
  sys_epoll_ctl e op fd ev := on_rest (sys_epoll_ctl e op fd ev);
  sys_epoll_wait e m t := on_rest (sys_epoll_wait e m t);
|}.

#[local] Instance event_fds : Eventfds event_kernel.
Proof.
  refine {| readable k fd := if fd =? 5 then Some (ek_ready k) else None |};
    intros fd b k Hb; cbn; by destruct (fd =? 5).
Defined.

Definition wake_channel (b : bool) : Channel :=
  set_eventHanding b (set_revents EPOLLIN (set_index EpollPoller.kAdded (set_events 3
    (setReadCallback EventLoop_handleRead (Channel_ctor 1%positive 5))))).

(** The objects of the process: its connections. *)
Definition heap : Type := gmap conn TcpConnection.

#[local] Instance heap_conns : ConnHeap heap.
Proof. by refine {| conns := id_lens; memory h := ∅ |}. Defined.

#[local] Instance heap_callbacks : Callbacks EpollPoller event_kernel heap := {|
  on_connection n c := ret tt;
  on_message n c t := ret tt;
  on_close cb c := ret tt;
|}.

Local Abbreviation waked := (Reactor EpollPoller event_kernel heap) (only parsing).

Definition queued_conn : TcpConnection := new_conn 7%positive 1%positive [] 9 zero_sockaddr zero_sockaddr.

(** What the destructor of a client asks of a loop. *)
Definition orphan : Functor := TcpConnection_setCloseCallback 9%positive queue_connectDestroyed.

(** Woken by another thread that queued task 7, which queues tasks 8 and 9. *)
Definition woken_loop : waked :=
  mkReactor 1%positive true false false 0
    (mkPollState (mkEpollPoller 3 (replicate 16 zero_event) {[5 := 2%positive]})
       {[2%positive := wake_channel false]} (initDefaultEvent LT)
       (EventKernel (Sim (Script [] [] ∅)
          (EpollScript {[3 := {[5 := mkEpollEvent 3 (Some 2%positive)]}]} [[(5, EPOLLIN)]] 100) [] [])
          true) 1 1)
    (mkTimerQueue 4 3%positive []) ∅ 5 2%positive [] [user_task 7; orphan]
    {[9%positive := queued_conn]}.

Definition woken_queue : Wakeup.Shared (task := Functor) :=
  mkShared Polling [user_task 7; orphan] false 1 0 [user_task 7; orphan] [].

Definition follow_ups (f : Functor) : list Functor :=
  match f with user_task 7 => [user_task 8; user_task 9] | _ => [] end.

Definition wake_read (t : Z) (h : Handler) : M waked unit :=
  match h with EventLoop_handleRead => Reactor.handleRead | _ => ret tt end.

Definition wake_task : Functor -> M waked unit :=
  run_conn_task (fun f => for_each (follow_ups f) queueInLoop).

(** The wake-up channel and the connection are there. *)
Definition wake_there (s : waked) : Prop :=
  (exists b, lget memory_lens s !! 2%positive = Some (wake_channel b)) /\
  is_Some (objs s !! 9%positive).

Definition wake_known (f : Functor) : Prop :=
  match f with
  | user_task _ => True
  | TcpConnection_setCloseCallback c _ => c = 9%positive
  | _ => False
  end.

Lemma wake_there_handler :
  handler_mirrors (fun _ => ret tt) wake_read wake_there wake_known 2%positive.
Proof.
  apply wakeup_channel_mirrors; try done.
  - intros s [[b Hb] _]. exists (wake_channel b). by split_and!.
  - intros s ch b [[b0 Hb] Ho] Hl. split; [|exact Ho]. exists b. rewrite Hb in Hl.
    injection Hl as <-. apply lookup_insert_eq.
Qed.

Lemma wake_there_tasks f : wake_known f -> task_mirrors wake_task wake_there wake_known f.
Proof.
  intros Hk. destruct f as [| | | | | | |c cb| | | | | | | |n]; try done; [cbn in Hk; subst c|].
  - apply (object_task_mirrors _ _ _ _ (fun h => match h !! 9%positive with
      | Some cn => <[9%positive := setConnCloseCallback (Some cb) cn]> h | None => h end)).
    + intros s [_ [cn Hc]]. unfold wake_task. cbn [run_conn_task]. unfold conn_modify. rewrite Hc.
      assert (Hc' : conn_at s 9%positive cn) by exact Hc.
      by erewrite bind_run by (unfold conn_get; rewrite bind_gets; unfold of_option; by rewrite Hc').
    + intros s [Hb [cn Hc]]. split; [exact Hb|]. rewrite Hc. eexists. apply lookup_insert_eq.
  - apply (queueing_task_mirrors _ _ _ _ (follow_ups (user_task n))); [done | |].
    + cbn. repeat (case_match; [by repeat constructor|]). by repeat constructor.
    + intros s g [[b Hb] Ho]. destruct (queued_same g s) as (Hobj & _ & Hmem & _).
      split; [exists b; by rewrite Hmem | by rewrite Hobj].
Qed.

Lemma loop_turn_refines_witness : exists hs ls w' s',
  iteration (fun _ => ret tt) wake_read wake_task woken_loop = Ok (tt, s') /\ length hs = 1%nat /\
  Wakeup.run (Poll_other hs :: [Handle] ++ [Begin_pending; Swap] ++
    (Run <$> ls) ++ [End_pending]) woken_queue = Some w' /\
  mirrors w' s' /\ pendingFunctors_ s' = [user_task 8; user_task 9] /\
  closeCallback_ <$> objs s' !! 9%positive = Some (Some queue_connectDestroyed).
Proof.
  set (polled := Poller_poll kPollTimeMs [] (poller_ woken_loop)).
  set (p := match polled with Ok (_, p) => p | Err _ => poller_ woken_loop end).
  assert (Hpoll : polled = Ok ((100, [2%positive]), p)) by (vm_compute; reflexivity).
  assert (Hm : mirrors woken_queue woken_loop) by by split_and!.
  assert (Hg : wake_there (set_returned 100 [2%positive] (lset poller_lens p woken_loop)))
    by (split; [exists false; by vm_compute | by eexists]).
  assert (Hk : Forall wake_known (pendingFunctors_ woken_loop)) by by repeat constructor.
  pose proof (loop_turn_refines (fun _ => ret tt) wake_read wake_task wake_there wake_known
    ltac:(by intros b s Hs) ltac:(by intros s Hs) wake_there_tasks woken_queue woken_loop 100 [2%positive] p
    Hm eq_refl eq_refl Hk Hpoll ltac:(by vm_compute) ltac:(by vm_compute) Hg
    (proj2 (Forall_singleton _ _) wake_there_handler)) as Hturn.
  unfold wp in Hturn.
  destruct (iteration _ _ _ woken_loop) as [[[] s']|f] eqn:E; [|done].
  destruct Hturn as (hs & ls & w' & Hlen & Hrun & (Hm' & _) & _). exists hs, ls, w', s'. split_and!; try done;
    vm_compute in E; by injection E as <-.
Defined.
