(* ===== verification/Echo.v ===== *)
(** * example/echo.cc: the echo server

    The program of the repository: a [TcpServer] whose message callback sends back
    what it read.  The user state of the process is what the example has written on
    [stdout]; the lines the library logs by itself are not modelled.  The string a
    callback builds is a block of the user's memory. *)

From S2P Require Import Prelude Posix Process LogStream Timestamp Logging SocketsOps Callbacks Timer Buffer Channel LoopThread Poller EpollPoller PollPoller Pollers Reactor Acceptor TimerQueue EventLoop TcpConnection EventLoopThreadPool Loops TcpServer Dispatch.

Section World_user.
Context {P K U : Type}.

(** The blocks of memory that hold strings. *)
Definition strings_lens : lens (World P K U) (gmap positive (list byte)) :=
  Lens w_memory (fun x w => mkWorld (server w) (acceptor_ w) (threadPool_ w) (w_conns w) x
                              (w_others w) (w_user w)).
End World_user.

(** What the example does not say: the texts of addresses, local time, what the
    array of a [LogStream] held, [__FILE__], the tasks and callbacks it never
    makes, and how a thread of the pool starts. *)
Class Surroundings (P K : Type) : Type := {
  inet_ntop4 : Z -> list byte;
  inet_ntop6 : list byte -> list byte;
  localtime : Z -> tm;
  stream_memory : list byte;
  file_name : list byte;
  never_close : CloseCallback -> conn -> M (Reactor P K (World P K Output)) unit;
  never_init : nat -> loop_id -> M (Reactor P K (World P K Output)) unit;
  never_accept : NewConnectonCallback -> Z -> sockaddr -> M (Reactor P K (World P K Output)) unit;
  never_handle : Handler -> M (Reactor P K (World P K Output)) unit;
  library_task : Functor -> M (Reactor P K (World P K Output)) unit;
  start_thread : Z -> M (Reactor P K (World P K Output)) loop_id;
}.

Section Echo.
Context {B : Build} {P K : Type} `{PollerOps P K} `{SysCalls K, !NetSys K} {A : Allocator}.
Context {L : LogSystem} {Sk : Sinks} `{!Surroundings P K}.
Local Abbreviation Loop := (Reactor P K (World P K Output)) (only parsing).

(** [LOG_INFO << items] on line [line]. *)
Definition say (line : Z) (items : list item) : M Loop unit :=
  zoom (obj_lens user_lens) (log_INFO stream_memory file_name line items).

(** The storage of a local [std::string], and its end. *)
Definition new_string (str : list byte) : M Loop positive :=
  let! w := gets objs in
  let data := new_address (dom (w_memory w)) in
  zoom (obj_lens strings_lens) (modify (<[data := str]>)) ;;
  ret data.

Definition delete_string (data : positive) : M Loop unit :=
  zoom (obj_lens strings_lens) (modify (delete data)).

Definition address_item (a : sockaddr) : item := IString (toIpPort inet_ntop4 inet_ntop6 a).

Definition updown_items (cn : TcpConnection) : list item :=
  [ICStr (Some (bytes "EchoServer - ")); address_item (peerAddress cn);
   ICStr (Some (bytes " -> ")); address_item (localAddress cn); ICStr (Some (bytes " is "));
   ICStr (Some (if connected cn then bytes "UP" else bytes "DOWN"))].

Definition onConnection (c : conn) : M Loop unit :=
  let! cn := conn_get c in say 32 (updown_items cn).

Definition received_items (cn : TcpConnection) (size time : Z) : list item :=
  [IString (name cn); ICStr (Some (bytes " echo ")); IInt size; ICStr (Some (bytes " bytes, "));
   ICStr (Some (bytes "data received at ")); IString (clock_toString localtime time)].

(** [buf] is the input buffer of the connection. *)
Definition onMessage (c : conn) (time : Z) : M Loop unit :=
  let! str := on_input c (zoom buf retrieveAllAsString) in
  let! msg := new_string str in
  let! cn := conn_get c in
  say 40 (received_items cn (zlen str) time) ;;
  send c msg (zlen str) ;;
  delete_string msg.

(** The callbacks the constructor binds. *)
Definition bound_onConnection : nat := 0.
Definition bound_onMessage : nat := 0.

#[export] Instance echo_code : UserCode P K Output := {|
  user_connection n c := onConnection c;
  user_message n c t := onMessage c t;
  other_close := never_close;
  user_init := never_init;
  other_task := library_task;
  start_loop := start_thread;
|}.

(** [EchoServer::EchoServer]; [ch] is the address of the channel of the acceptor. *)
Definition EchoServer_ctor (loop : loop_id) (ch : chan) (listenAddr : sockaddr) (numThread : Z) :
    M Loop unit :=
  TcpServer_ctor inet_ntop4 inet_ntop6 loop ch listenAddr false ;;
  server_modify (setConnectionCallback (Some (Callbacks.user_connection bound_onConnection))) ;;
  server_modify (setMessageCallback (Some (Callbacks.user_message bound_onMessage))) ;;
  setThreadNum numThread.

Definition start : M Loop unit := TcpServer.start.

(** ** What the channels of the program run *)
Definition run_handler (fuel : nat) : Handler -> M Loop unit := run_conn_handler fuel never_handle.

Definition library_read (t : Z) (h : Handler) : M Loop unit :=
  match h with
  | EventLoop_handleRead => Reactor.handleRead
  | TimerQueue_handleRead => TimerQueue.handleRead run_task
  | Acceptor_handleRead => Acceptor.handleRead acceptor_of (on_new_connection never_accept)
  | h => never_handle h
  end.

Definition run_read (fuel : nat) : Z -> Handler -> M Loop unit := run_conn_read fuel library_read.
End Echo.

(** ** The program *)
Section main.
Context {B : Build} {K : Type} `{EpollSys K} `{PollSys K} `{SysCalls K, !NetSys K} {A : Allocator}.
Context {L : LogSystem} {Sk : Sinks} `{!Surroundings AnyPoller K}.
Local Abbreviation Loop := (Reactor AnyPoller K (World AnyPoller K Output)) (only parsing).

(** [TcpServer::kNoReusePort], which [main] passes for [numThread]. *)
Definition kNoReusePort : Z := 0.

(** The start of [main], with the descriptors its loop gets and the addresses of its
    channels; [raw] is the memory of the address. *)
Definition boot (epollfd timerfd evtfd : Z) (tc wc ac : chan) (raw : sockaddr) :
    M Loop unit :=
  EventLoop_ctor EPOLL LT epollfd timerfd evtfd tc wc None ;;
  let! s := get in
  let listenAddr := InetAddress_ctor raw 12345 false false in
  EchoServer_ctor (this_loop s) ac listenAddr kNoReusePort ;;
  start.

(** [main] with [fuel] turns of the loop; the objects are destroyed when it
    returns. *)
Definition main (epollfd timerfd evtfd : Z) (tc wc ac : chan) (raw : sockaddr) (fuel : nat) :
    M Loop unit :=
  boot epollfd timerfd evtfd tc wc ac raw ;;
  loop (run_handler fuel) (run_read fuel) run_task fuel ;;
  TcpServer_dtor ;;
  let! t_loopInThisThread := EventLoop_dtor in
  ret tt.
End main.

(** ** What a message does *)
Section Echo_spec.
Context {B : Build} {P K : Type} `{PollerContract P K} `{!PollReports P K}.
Context `{!SysCalls K, !Quiet K, !QuietPoller P K, !SocketIOLaws K, !NetSys K} {A : Allocator}.
Context {L : LogSystem} {HL : LogSystemLaws L} `{!Surroundings P K}.
Local Abbreviation Loop := (Reactor P K (World P K Output)) (only parsing).
Implicit Types s : Loop.
#[local] Existing Instance default_sinks.

(** The line of [onMessage], and [stdout] after a line. *)
Definition echo_line (cn : TcpConnection) (size t : Z) : list byte :=
  line_text (line_items INFO file_name 40 [] (received_items cn size t)).

Definition logged (line : list byte) (out : Output) : Output :=
  if enabled INFO then out ++ [Fwrite line] else out.

#[local] Opaque line_text line_items.

(** Connection [c] has been told of [msg]: the input buffer is empty, [rest] has joined
    what waits in the output buffer, the line is logged, and nothing else among the
    objects changed; the channel asks for room, when it did not, exactly when there is
    a rest. *)
Definition echoed s (c : conn) (cn : TcpConnection) (ch : Channel) (msg rest : list byte) (t : Z)
    (k2 : K) (s' : Loop) : Prop :=
  exists input output ch',
    Inv input /\ Buffer.content input = [] /\ Inv output /\
    Buffer.content output = Buffer.content (outputBuffer_ cn) ++ rest /\
    objs s' = lset user_lens (logged (echo_line cn (zlen msg) t) (w_user (objs s)))
                (objs (with_conn c (set_output output (set_input input cn)) s)) /\
    registered s' (channel_ cn) ch' /\
    set_index 0 ch' = set_index 0 (match rest with
                                   | [] => ch
                                   | _ => interested (Z.lor (events_ ch) EPOLLOUT) ch
                                   end) /\
    pendingFunctors_ s' = pendingFunctors_ s /\ statics s' = statics s /\
    (rest = [] -> kern (poller_ s') = k2).

Lemma say_ok line items s :
  zlen stream_memory = kSmallBuffer -> zlen file_name < 2 ^ 31 -> - 2 ^ 31 <= line < 2 ^ 31 ->
  Forall valid items ->
  say line items s =
  Ok (tt, lset (obj_lens user_lens)
            (logged (line_text (line_items INFO file_name line [] items)) (w_user (objs s))) s).
Proof.
  intros Hmem Hfile Hline Hv. unfold say, zoom. cbn [lget obj_lens user_lens].
  pose proof (log_macro_run stream_memory file_name line [] INFO items (w_user (objs s)) ltac:(done) Hmem
    ltac:(done) Hfile Hline Hv) as Hlog. cbn [log threshold] in Hlog. rewrite Hlog.
  unfold logged. by destruct (enabled INFO).
Qed.

Lemma wp_say line items (Q : unit -> Loop -> Prop) s :
  zlen stream_memory = kSmallBuffer -> zlen file_name < 2 ^ 31 -> - 2 ^ 31 <= line < 2 ^ 31 ->
  Forall valid items ->
  Q tt (lset (obj_lens user_lens)
          (logged (line_text (line_items INFO file_name line [] items)) (w_user (objs s))) s) ->
  wp (say line items) Q s.
Proof. intros. eapply wp_ok; [by apply say_ok | done]. Qed.

Lemma wp_new_string str (Q : positive -> Loop -> Prop) s :
  (forall p, w_memory (objs s) !! p = None ->
     Q p (lset (obj_lens strings_lens) (<[p := str]> (w_memory (objs s))) s)) ->
  wp (new_string str) Q s.
Proof.
  intros HQ. unfold new_string. wp_simp. apply HQ. apply not_elem_of_dom, new_address_fresh.
Qed.

Lemma received_items_valid cn size t :
  zlen (name cn) < 2 ^ 64 -> 0 <= size < 2 ^ 63 -> Forall valid (received_items cn size t).
Proof.
  intros Hn Hs. pose proof (clock_toString_short localtime t). unfold received_items.
  repeat (apply Forall_cons; split); try apply Forall_nil; cbn [valid]; try done; lia.
Qed.

Lemma read_memory_ok p str s :
  w_memory (objs s) !! p = Some str -> read_memory p (zlen str) s = Ok (str, s).
Proof.
  intros Hp. unfold read_memory, bind, gets. cbn [memory World_conns]. rewrite Hp. cbn [of_option].
  unfold lift. rewrite vec_read_ok by (pose proof (zlen_nonneg str); lia).
  unfold slice. rewrite drop_0, take_ge; [done|]. unfold zlen. lia.
Qed.

(** The process when [onMessage] has read [msg], stored it at [p] and logged. *)
Definition hearing s (c : conn) (cn1 : TcpConnection) (p : positive) (msg line : list byte) : Loop :=
  let w := objs s in
  lset objs_lens (mkWorld (server w) (acceptor_ w) (threadPool_ w) (<[c := cn1]> (w_conns w))
    (<[p := msg]> (w_memory w)) (w_others w) (logged line (w_user w))) s.

(** From then on [onMessage] sends and frees the string. *)
Lemma wp_onMessage c cn msg t (Q : unit -> Loop -> Prop) s :
  zlen stream_memory = kSmallBuffer -> zlen file_name < 2 ^ 31 -> conn_at s c cn ->
  zlen (name cn) < 2 ^ 64 -> Inv (inputBuffer_ cn) -> Buffer.content (inputBuffer_ cn) = msg ->
  (forall input p, Inv input -> Buffer.content input = [] -> w_memory (objs s) !! p = None ->
     wp (send c p (zlen msg) ;; delete_string p) Q
        (hearing s c (set_input input cn) p msg (echo_line cn (zlen msg) t))) ->
  wp (onMessage c t) Q s.
Proof.
  intros Hmem Hfile Hc Hname HIi Hmsg HQ.
  destruct (wp_inv _ _ _ (retrieveAllAsString_spec _ HIi)) as (str & input & Hret & HIi' & -> & Hci' & _).
  assert (Hsize : 0 <= zlen msg < 2 ^ 63).
  { rewrite <- Hmsg, zlen_content by done. destruct HIi as [? ?]. unfold vector_max in *. lia. }
  rewrite Hmsg in Hret. unfold onMessage. apply wp_bind.
  eapply (wp_on_input c cn _ msg input (lget os_lens s)); [done | unfold zoom; cbn [lget buf fst_lens fst]; by rewrite Hret|].
  replace (lset os_lens (lget os_lens s) s) with s by (by destruct s as [? ? ? ? ? [] ? ? ? ? ? ? ?]).
  set (cn1 := set_input input cn). set (s1 := with_conn _ _ _).
  apply wp_bind, wp_new_string. intros p Hp. set (s2 := lset _ _ s1).
  assert (Hc2 : conn_at s2 c cn1) by exact (conn_at_with c cn1 s).
  apply wp_bind. eapply wp_conn_get; [exact Hc2|].
  apply wp_bind, wp_say; [done | done | lia | by apply received_items_valid |].
  assert (Hline : received_items cn1 (zlen msg) t = received_items cn (zlen msg) t) by reflexivity.
  rewrite Hline. fold (echo_line cn (zlen msg) t). exact (HQ input p HIi' Hci' Hp).
Qed.

Lemma conn_at_hearing s c cn1 p msg line : conn_at (hearing s c cn1 p msg line) c cn1.
Proof. unfold conn_at. apply lookup_insert_eq. Qed.

(** The objects when the string is gone. *)
Lemma string_gone s c cn1 p msg line :
  w_memory (objs s) !! p = None ->
  let w := objs (hearing s c cn1 p msg line) in
  lset strings_lens (delete p (w_memory w)) w =
  lset user_lens (logged line (w_user (objs s))) (objs (with_conn c cn1 s)).
Proof. intros Hp. cbn. by rewrite (delete_insert_id _ _ _ Hp). Qed.

Lemma string_gone_with s c cn1 cn2 p msg line :
  w_memory (objs s) !! p = None ->
  let w := objs (with_conn c cn2 (hearing s c cn1 p msg line)) in
  lset strings_lens (delete p (w_memory w)) w =
  lset user_lens (logged line (w_user (objs s))) (objs (with_conn c cn2 s)).
Proof. intros Hp. cbn. by rewrite (delete_insert_id _ _ _ Hp), insert_insert_eq. Qed.

(** [send] in the thread of the loop, then the end of the string. *)
Lemma wp_send_string c cn p (msg : list byte) (Q : unit -> Loop -> Prop) s :
  conn_at s c cn -> state_ cn = kConnected -> isInLoopThread s = true ->
  wp (sendInLoop c (read_memory p (zlen msg)) (zlen msg))
     (fun _ s' => Q tt (lset (obj_lens strings_lens) (delete p (w_memory (objs s'))) s')) s ->
  wp (send c p (zlen msg) ;; delete_string p) Q s.
Proof.
  intros Hc Hst Hin Hw. apply wp_bind. unfold send. apply wp_bind. eapply wp_conn_get; [exact Hc|].
  rewrite bool_decide_eq_true_2 by done. apply wp_runInLoop_here; [done|].
  eapply wp_mono; [exact Hw|]. intros [] s' HQ. unfold delete_string. by apply wp_zoom, wp_modify.
Qed.

(** The connection's data as a callback finds it. *)
Definition echoing s (c : conn) (cn : TcpConnection) (ch : Channel) : Prop :=
  conn_at s c cn /\ registered s (channel_ cn) ch /\ statics s = initDefaultEvent LT /\
  state_ cn = kConnected /\
  TcpConnection.writeCompleteCallback_ cn = None /\ highWaterMarkCallback_ cn = None /\
  Inv (outputBuffer_ cn) /\ zlen (name cn) < 2 ^ 64.

(** What joins the output, and the kernel after the write, which happens only when
    nothing waits. *)
Definition echo_rest s (cn : TcpConnection) (ch : Channel) (msg : list byte) (r : sysres Z) (k2 : K) :
    list byte * K :=
  if can_send s cn ch then (unsent r msg, k2) else ([], kern (poller_ s)).

Lemma onMessage_spec c cn ch msg r t k2 s :
  zlen stream_memory = kSmallBuffer -> zlen file_name < 2 ^ 31 -> echoing s c cn ch ->
  Inv (inputBuffer_ cn) -> Buffer.content (inputBuffer_ cn) = msg ->
  sys_write (fd_ ch) msg (kern (poller_ s)) = (r, k2) ->
  writerIndex_ (outputBuffer_ cn) + zlen msg <= vector_max ->
  let out := echo_rest s cn ch msg r k2 in
  wp (onMessage c t) (fun _ => echoed s c cn ch msg out.1 t out.2) s.
Proof.
  intros Hmem Hfile (Hc & Hreg & Hst & Hstate & Hwc & Hhw & HIo & Hname) HIi Hmsg Hw Hroom out.
  eapply wp_onMessage; [done..|]. intros input p HIi' Hci' Hp. set (cn1 := set_input input cn).
  set (s3 := hearing _ _ _ _ _ _).
  assert (Hreg3 : registered s3 (channel_ cn1) ch) by exact Hreg.
  eapply wp_send_string; [apply conn_at_hearing | done | apply Hreg3|].
  pose proof (sendInLoop_outcome c cn1 ch (read_memory p (zlen msg)) msg r k2 s3
    (conn_at_hearing _ _ _ _ _ _) Hreg3 Hst HIo Hroom
    (read_memory_ok p msg s3 (lookup_insert_eq _ _ _)) Hw) as Hsend.
  unfold out, echo_rest. change (can_send s3 cn1 ch) with (can_send s cn ch) in Hsend.
  destruct (can_send s cn ch) eqn:Hidle; cbn [fst snd].
  2: { eapply wp_ok; [exact Hsend|]. exists input, (outputBuffer_ cn), ch.
    split_and!; [exact HIi' | exact Hci' | exact HIo | by rewrite app_nil_r | | exact Hreg3 | | | |];
      try reflexivity. exact (string_gone s c cn1 p msg _ Hp). }
  assert (Hco : Buffer.content (outputBuffer_ cn) = []).
  { unfold can_send in Hidle. apply andb_true_iff in Hidle as [_ Hidle]. by apply bool_decide_eq_true in Hidle. }
  eapply wp_mono; [exact Hsend|]. cbv beta. intros [] s4 Hs4. set (s5 := lset _ _ s4).
  assert (Ho5 : objs s5 = lset strings_lens (delete p (w_memory (objs s4))) (objs s4)) by reflexivity.
  assert (Hcn : complete_notice c cn1 r msg = []).
  { unfold complete_notice. cbn [TcpConnection.writeCompleteCallback_ cn1 set_input]. rewrite Hwc. by destruct r. }
  assert (Hmn : mark_notice c cn1 (unsent r msg) = []).
  { unfold mark_notice. cbn [highWaterMarkCallback_ cn1 set_input]. by rewrite Hhw. }
  rewrite Hcn in Hs4. cbn [queued_all foldl] in Hs4.
  destruct (unsent r msg) as [|x rest] eqn:Hu.
  - subst s4. assert (Hq : quiet (kern (poller_ s3)) k2).
    { pose proof (quiet_write (fd_ ch) msg (kern (poller_ s3))) as Hq.
      change (kern (poller_ s3)) with (kern (poller_ s)) in *. by rewrite Hw in Hq. }
    destruct (registered_kernel s3 _ ch k2 Hq Hreg3) as [Hreg4 _].
    exists input, (outputBuffer_ cn), ch.
    split_and!; [exact HIi' | exact Hci' | exact HIo | by rewrite app_nil_r | | exact Hreg4 | | | |];
      try reflexivity.
    rewrite Ho5. exact (string_gone s c cn1 p msg _ Hp).
  - rewrite Hmn in Hs4. cbn [queued_all foldl] in Hs4.
    destruct Hs4 as (output & ch4 & Hc4 & HIo4 & Hco4 & Hreg4 & Hch4 & Hp4 & Hst4 & Ho4 & _).
    exists input, output, ch4.
    split_and!; [exact HIi' | exact Hci' | exact HIo4 | by rewrite Hco | | exact Hreg4 | exact Hch4
      | exact Hp4 | exact Hst4 | discriminate].
    rewrite Ho5, Ho4. exact (string_gone_with s c cn1 _ p msg _ Hp).
Qed.

Lemma with_conn_again c cn1 cn2 s s1 :
  objs s1 = objs (with_conn c cn1 s) ->
  objs (with_conn c cn2 s1) = objs (with_conn c cn2 s) /\ w_user (objs s1) = w_user (objs s).
Proof.
  intros Ho. split; [|by rewrite Ho].
  change (objs (with_conn c cn2 s1)) with (lset conns (<[c := cn2]> (lget conns (objs s1))) (objs s1)).
  rewrite Ho. cbn. by rewrite insert_insert_eq.
Qed.

Lemma echo_turn_spec fuel s c cn ch t p x d k1 r k2 :
  zlen stream_memory = kSmallBuffer -> zlen file_name < 2 ^ 31 -> echoing s c cn ch ->
  ready_to_poll (poller_ s) -> readCallBack_ ch = Some (TcpConnection_handleRead c) ->
  TcpConnection.messageCallback_ cn = Some (Callbacks.user_message bound_onMessage) ->
  Poller_poll kPollTimeMs [] (poller_ s) = Ok ((t, [channel_ cn]), p) ->
  (forall ch', chans p !! channel_ cn = Some ch' ->
     only_readable (revents_ ch') = true /\ has (revents_ ch') EPOLLOUT = false) ->
  Inv (inputBuffer_ cn) -> zlen (buffer_ (inputBuffer_ cn)) + extrabuf_size <= vector_max ->
  sys_readv (fd_ ch) (writableBytes (inputBuffer_ cn) + extrabuf_size) (kern p) = (inl (x :: d), k1) ->
  let msg := Buffer.content (inputBuffer_ cn) ++ x :: d in
  sys_write (fd_ ch) msg k1 = (r, k2) -> writerIndex_ (outputBuffer_ cn) + zlen msg <= vector_max ->
  let rest := if can_send s cn ch then unsent r msg else [] in
  let k := if can_send s cn ch then k2 else k1 in
  match grow (zlen (x :: d)) (shape (inputBuffer_ cn)) with
  | Some _ => exists rev s2,
      echoed s c cn (set_eventHanding true (set_revents rev ch)) msg rest t k s2 /\
      iteration (run_handler fuel) (run_read fuel) run_task s =
        (ch_modify (channel_ cn) (set_eventHanding false) ;; doPendingFunctors run_task) s2
  | None => iteration (run_handler fuel) (run_read fuel) run_task s = Err no_room
  end.
Proof.
  intros Hmem Hfile He Hready Hcb Hmcb Hp Hrev HI Hmax Hread msg Hw Hroom rest k.
  pose proof He as (Hc & Hreg & Hst & Hstate & Hwc & Hhw & HIo & Hname).
  assert (HET : isET (statics s) = false) by by rewrite Hst.
  pose proof (iteration_reads never_handle library_read
    (fun f => match f with TcpServer_removeConnectionInLoop c => removeConnectionInLoop c
              | f => other_task f end) fuel s c cn ch t p (inl (x :: d)) k1 Hc Hreg Hready Hcb HET Hp
    (fun ch' H' => proj1 (Hrev ch' H')) HI Hmax Hread) as Hit. cbv beta iota in Hit.
  destruct (grow _ _) as [sh|]; [|exact Hit].
  destruct Hit as (b' & rev & s1 & Hrev1 & HI' & Hcont & Hc1 & Hreg1 & Hk1 & Hst1 & Ho1 & Hw1 & Hp1 & Hrun).
  set (ch1 := set_eventHanding true (set_revents rev ch)) in *.
  set (cn1 := set_input b' cn) in *.
  assert (He1 : echoing s1 c cn1 ch1) by (split_and!; try done; by rewrite Hst1).
  rewrite <- Hk1 in Hw.
  destruct (wp_inv _ _ _ (onMessage_spec c cn1 ch1 msg r t k2 s1 Hmem Hfile He1 HI' Hcont Hw Hroom))
    as ([] & s2 & Hon & He2).
  assert (Hsend : echo_rest s1 cn1 ch1 msg r k2 = (rest, k)).
  { unfold echo_rest, can_send, rest, k, can_send. rewrite Hst1, Hk1.
    change (isWriting (statics s) ch1) with (isWriting (statics s) ch).
    cbn [state_ outputBuffer_ cn1 set_input]. by case_match. }
  rewrite Hsend in He2. cbn [fst snd] in He2.
  exists rev, s2. destruct He2 as (input & output & ch2 & Hi & Hci & Ho & Hco2 & Hobj & Hreg2 & Hch2 & Hp2 & Hst2 & Hk2).
  assert (Hrv : revents_ ch2 = rev).
  { apply (f_equal revents_) in Hch2. cbn in Hch2. rewrite Hch2. by destruct rest. }
  split.
  - exists input, output, ch2. split_and!; try assumption; try congruence.
    destruct (with_conn_again c cn1 (set_output output (set_input input cn1)) s s1 Ho1) as [Ha Hu].
    rewrite Hobj, Ha, Hu. reflexivity.
  - unfold run_handler, run_read, run_task in *. rewrite Hrun, Hmcb. cbn [call_message].
    rewrite !bind_assoc. erewrite bind_run by exact Hon. unfold bind at 1.
    rewrite (event_rest_quiet _ _ ch2); [done | apply Hreg2 |].
    rewrite Hrv. by apply (Hrev (set_revents rev ch)).
Qed.

(** [onConnection] logs a line, and no more: the connection callback of the example
    changes only the data of the user.  [inet_ntop] writes at most 46 bytes. *)
Lemma updown_items_valid cn :
  (forall z, zlen (inet_ntop4 z) <= 46) -> (forall l, zlen (inet_ntop6 l) <= 46) ->
  Forall valid (updown_items cn).
Proof.
  intros H4 H6.
  assert (Hip : forall a, zlen (toIpPort inet_ntop4 inet_ntop6 a) < 2 ^ 64).
  { intros a. unfold toIpPort. set (ip := toIp _ _ a). rewrite zlen_app.
    assert (zlen ip <= 46) by (unfold ip, toIp; destruct (_ =? _); [apply H6 | apply H4]).
    set (text := take _ _). assert (zlen text <= 64); [|lia].
    unfold text, zlen. rewrite length_take. lia. }
  unfold updown_items. repeat (apply Forall_cons; split); try apply Forall_nil; cbn [valid]; try done;
    try apply Hip. by destruct (connected cn).
Qed.

Lemma onConnection_discreet c cn :
  (forall z, zlen (inet_ntop4 z) <= 46) -> (forall l, zlen (inet_ntop6 l) <= 46) ->
  zlen stream_memory = kSmallBuffer -> zlen file_name < 2 ^ 31 ->
  TcpConnection.connectionCallback_ cn = Some (Callbacks.user_connection bound_onConnection) ->
  discreet c cn.
Proof.
  intros H4 H6 Hmem Hfile Hcb s Hc. rewrite Hcb. cbn [call_connection].
  eexists. change (on_connection bound_onConnection c) with (onConnection c). unfold onConnection.
  erewrite bind_run by (unfold conn_get; rewrite bind_gets; unfold of_option; by rewrite Hc).
  rewrite say_ok; [|done | done | lia | by apply updown_items_valid]. reflexivity.
Qed.

(** C9. The echo server, in level-triggered mode.  A poll of either poller reports one
    connection, which is connected, has something to read and nothing worse, and bytes
    arrive.  When they have no room in the input buffer ([Buffer.grow]) the turn
    faults.  Otherwise the input buffer is emptied, [onMessage] has logged its line, the
    storage of its string is freed and no other object of the process has changed.
    When nothing was waiting to be sent, the bytes read, after any read before, are
    given to the kernel in one write: after a write that takes some, exactly the others
    wait in the output buffer, so that what was sent and what waits is what was
    received; after an error that leaves the connection open all of them wait; after
    [EPIPE] or [ECONNRESET] none; the channel asks for room exactly when something
    waits.  When something was waiting, or the channel waits for room, the message is
    lost: nothing is written and the output buffer stays.  Then the tasks run. *)
Theorem echo_turn fuel s c cn ch t p x d k1 r k2 :
  zlen stream_memory = kSmallBuffer -> zlen file_name < 2 ^ 31 -> echoing s c cn ch ->
  ready_to_poll (poller_ s) -> readCallBack_ ch = Some (TcpConnection_handleRead c) ->
  TcpConnection.messageCallback_ cn = Some (Callbacks.user_message bound_onMessage) ->
  Poller_poll kPollTimeMs [] (poller_ s) = Ok ((t, [channel_ cn]), p) ->
  (forall ch', chans p !! channel_ cn = Some ch' ->
     only_readable (revents_ ch') = true /\ has (revents_ ch') EPOLLOUT = false) ->
  Inv (inputBuffer_ cn) -> zlen (buffer_ (inputBuffer_ cn)) + extrabuf_size <= vector_max ->
  sys_readv (fd_ ch) (writableBytes (inputBuffer_ cn) + extrabuf_size) (kern p) = (inl (x :: d), k1) ->
  let msg := Buffer.content (inputBuffer_ cn) ++ x :: d in
  sys_write (fd_ ch) msg k1 = (r, k2) -> writerIndex_ (outputBuffer_ cn) + zlen msg <= vector_max ->
  let rest := if can_send s cn ch then unsent r msg else [] in
  let k := if can_send s cn ch then k2 else k1 in
  match r with inl _ => sent k2 (fd_ ch) ++ unsent r msg = sent k1 (fd_ ch) ++ msg | inr _ => True end /\
  match grow (zlen (x :: d)) (shape (inputBuffer_ cn)) with
  | Some _ => exists rev s2,
      echoed s c cn (set_eventHanding true (set_revents rev ch)) msg rest t k s2 /\
      iteration (run_handler fuel) (run_read fuel) run_task s =
        (ch_modify (channel_ cn) (set_eventHanding false) ;; doPendingFunctors run_task) s2
  | None => iteration (run_handler fuel) (run_read fuel) run_task s = Err no_room
  end.
Proof.
  intros. split; [|by eapply echo_turn_spec].
  destruct r as [n|e]; [|done]. cbn [unsent].
  match goal with Hw : sys_write _ _ _ = _ |- _ => rewrite (write_sent _ _ _ _ _ Hw) end.
  by rewrite <- app_assoc, take_drop.
Qed.
End Echo_spec.

(** ** Witness: two bytes come, the kernel takes one *)

#[local] Existing Instances debug_build fresh_allocator default_sinks sample_log.

#[local] Instance surroundings {P} : Surroundings P proc := {|
  inet_ntop4 z := bytes "127.0.0.1";
  inet_ntop6 l := bytes "::1";
  localtime := utc;
  stream_memory := replicate 4000 x41;
  file_name := bytes "echo.cc";
  never_close cb c := ret tt;
  never_init n l := ret tt;
  never_accept cb fd a := ret tt;
  never_handle h := ret tt;
  library_task f := ret tt;
  start_thread i := ret 1%positive;
|}.

(** Connection 1 of the echo server is on channel 7, descriptor 9. *)
Definition echo_conn : TcpConnection :=
  mkConn 1%positive (bytes "-x#1") zero_sockaddr zero_sockaddr kConnected true 9 7%positive
    (Some (Callbacks.user_connection bound_onConnection))
    (Some (Callbacks.user_message bound_onMessage)) None None (Some TcpServer_removeConnection)
    (64 * 1024 * 1024) (sample_buffer []) (sample_buffer []).

Definition echo_loop : Reactor EpollPoller proc (World EpollPoller proc Output) :=
  mkReactor 1%positive true false false 0
    (mkPollState (mkEpollPoller 3 (replicate 16 zero_event) {[9 := 7%positive]})
       {[7%positive := ready_channel]} (initDefaultEvent LT)
       (Proc (Sim (Script [inl [x62; x63]] [inl 1] ∅)
          (EpollScript {[3 := {[9 := mkEpollEvent 3 (Some 7%positive)]}]} [[(9, EPOLLIN)]] 100) [] [])
          {[3; 4; 5; 9]} [] [] []) 1 1)
    (mkTimerQueue 4 3%positive []) ∅ 5 2%positive [] []
    (mkWorld None sample_acceptor (EventLoopThreadPool_ctor 1) {[1%positive := echo_conn]} ∅ ∅ []).

Lemma echo_registered : registered echo_loop 7%positive ready_channel.
Proof.
  split_and!; try done. split; [|split; [|by vm_compute]]; intros fd.
  - intros c Hc. cbn in Hc. apply lookup_singleton_Some in Hc as [<- <-].
    exists ready_channel. split_and!; try done. left. split; [done|]. exists 3.
    apply lookup_singleton_eq.
  - cbn. intros [e He]. rewrite es_list_singleton in He.
    apply lookup_singleton_Some in He as [<- _]. exists 7%positive. apply lookup_singleton_eq.
Qed.

Lemma echo_turn_witness : exists rev k2 s2,
  echoed echo_loop 1%positive echo_conn (set_eventHanding true (set_revents rev ready_channel))
    [x62; x63] [x63] 100 k2 s2 /\
  sent k2 9 = [x62] /\
  iteration (run_handler 0) (run_read 0) run_task echo_loop =
    (ch_modify 7%positive (set_eventHanding false) ;; doPendingFunctors run_task) s2.
Proof.
  set (polled := Poller_poll kPollTimeMs [] (poller_ echo_loop)).
  set (p := match polled with Ok (_, p) => p | Err _ => poller_ echo_loop end).
  assert (Hpoll : polled = Ok ((100, [channel_ echo_conn]), p)) by (vm_compute; reflexivity).
  assert (Hrev : forall ch', chans p !! channel_ echo_conn = Some ch' ->
    only_readable (revents_ ch') = true /\ has (revents_ ch') EPOLLOUT = false)
    by (vm_compute; by intros ch' [= <-]).
  assert (Hready : ready_to_poll (poller_ echo_loop)) by by vm_compute.
  destruct (sample_buffer_ok [] eq_refl) as [HI Hcont].
  assert (Hechoing : echoing echo_loop 1%positive echo_conn ready_channel)
    by (split_and!; [apply lookup_singleton_eq | exact echo_registered | reflexivity.. | apply HI | by vm_compute]).
  assert (Hmsg : Buffer.content (inputBuffer_ echo_conn) ++ [x62; x63] = [x62; x63]) by (change (inputBuffer_ echo_conn) with (sample_buffer []); by rewrite Hcont).
  set (k1 := (sys_readv 9 (64 + extrabuf_size) (kern p)).2).
  set (k2 := (sys_write 9 [x62; x63] k1).2).
  pose proof (echo_turn (B:=debug_build) (SysCalls0:=proc_calls) (HL:=sample_log_laws) 0 echo_loop 1%positive
    echo_conn ready_channel 100 p x62 [x63] k1 (inl 1) k2 eq_refl ltac:(by vm_compute) Hechoing Hready
    eq_refl eq_refl Hpoll Hrev HI ltac:(by vm_compute) ltac:(vm_compute; reflexivity)) as Ht.
  cbv zeta in Ht. rewrite Hmsg in Ht.
  assert (Hidle : can_send echo_loop echo_conn ready_channel = true).
  { unfold can_send. change (outputBuffer_ echo_conn) with (sample_buffer []). by rewrite Hcont. }
  rewrite Hidle in Ht.
  destruct (Ht ltac:(vm_compute; reflexivity) ltac:(by vm_compute))
    as (Hsent & rev & s2 & He & Hrun).
  exists rev, k2, s2. split_and!; [exact He | by vm_compute | exact Hrun].
Defined.

(** ** A session of the program

    A client connects, sends two bytes and leaves.  The loop makes three turns. *)
Definition machine : proc :=
  Proc (Sim (Script [inl (bytes "hi"); inl []] [inl 2] ∅)
          (EpollScript {[3 := ∅]} [[(6, EPOLLIN)]; [(8, EPOLLIN)]; [(8, EPOLLIN)]] (1627898400 * 10 ^ 9))
          [] [])
    {[3; 4; 5]} [inl (mkSockaddr AF_INET 4242 1 (replicate 16 x00) 0)] [] [].

(** The memory of the process before [main]. *)
Definition raw_loop : Reactor AnyPoller proc (World AnyPoller proc Output) :=
  mkReactor 1%positive false false false 0
    (mkPollState (APoll (mkPollPoller [] ∅)) ∅ (initDefaultEvent LT) machine 1 1)
    (mkTimerQueue 0 1%positive []) ∅ 0 1%positive [] []
    (mkWorld None sample_acceptor (EventLoopThreadPool_ctor 1) ∅ ∅ ∅ []).

Definition session : M (Reactor AnyPoller proc (World AnyPoller proc Output)) unit :=
  boot 3 4 5 2%positive 3%positive 4%positive zero_sockaddr ;;
  for_each (seq 0 3) (fun _ => iteration (run_handler 0) (run_read 0) run_task).

Definition line_of (text : string) : stdio :=
  Fwrite (bytes "20210802 10:00:00 140 INFO  " ++ bytes text ++ [x0a]).

(** What the session leaves: the three lines of the example, the bytes the client
    got back, the server without connections, and the timer, the wake-up and the
    listening descriptor still watched. *)
Lemma echo_session :
  match session raw_loop with
  | Ok (_, s) =>
      w_user (objs s) =
        [line_of "EchoServer - 127.0.0.1:37392 -> 127.0.0.1:256 is UP - echo.cc:32";
         line_of "127.0.0.1:12345-#1 echo 2 bytes, data received at 20210802 10:00:00 - echo.cc:40";
         line_of "EchoServer - 127.0.0.1:37392 -> 127.0.0.1:256 is DOWN - echo.cc:32"] /\
      sent (kern (poller_ s)) 8 = bytes "hi" /\
      (fun sv => map_to_list (connections_ sv)) <$> server (objs s) = Some [] /\
      dom (interest (kern (poller_ s)) 3) = {[4; 5; 6]}
  | Err _ => False
  end.
Proof. vm_compute. by split_and!. Qed.
